(* ===== verification/_CoqProject ===== *)
-Q . S2P
Prelude.v
Bytes.v
Errors.v
Http.v
Internal.v
Config.v
Fixtures.v
Client.v
Stream.v
Machine.v
Tests.v
Isolation.v
Demand.v
Completion.v
Models.v
Image.v
Json.v
Codec.v
Floats.v
Wire.v
Lenient.v
Protocol.v
Examples.v
