(* ===== verification/Prelude.v ===== *)
(** * go-giteeai: a verification development

  The program is a Go client library for an OpenAI-compatible REST API
  (package [giteeai]).  A [Client] holds a configuration (token, base URL,
  HTTP transport, limit of empty stream messages), a request builder and a
  form builder.  Every endpoint function builds an [http.Request] with
  [newRequest] and hands it to one of three senders: [sendRequest] decodes
  the JSON body into a target and closes the body; [sendRequestRaw] returns
  the body to the caller; [sendRequestStream] returns a stream session over
  the body, from which the caller receives server-sent events one by one
  ([Recv]) until the end of the stream, and which the caller closes.  A
  response with a failure status becomes an error through
  [handleErrorResp].  The stream session is the core of the specification
  (spec.md, sections 3 to 8); its file is not among the sources.  Requests
  and responses are Go structures whose json tags say how encoding/json
  writes and reads them.  Five example programs (src/examples) call the
  client from a [main] and print what it returns.

  ** Files, and the code each models

  - [Prelude] (this file): byte strings, the state monad [ST] of effectful
    code, the cut of a list at a delimiter ([cut], [pieces]), the lemmas on
    lists the components share, the tactics and the hint database of the
    development.
  - [Bytes]: the functions of packages bytes and strconv that the code
    calls ([TrimSpace], [HasPrefix], [TrimPrefix], [Itoa]).
  - [Errors]: the dynamic values [any]; the error values ([APIError],
    [RequestError], the sentinel errors) as the inductive type [error]; the
    interface to encoding/json as the classes [Zero], [Marshal],
    [Unmarshal] and [Decode].
  - [Http]: net/http as the client sees it.  Headers are maps under
    canonical keys.  The [World] is the state outside the program: the
    bodies of the responses received, each a list of chunks still to be
    read (data, or the fault that ends the reads) with a closed flag, and
    the log of the requests sent.  [open_bodies] is the set of bodies that
    still hold a connection.
  - [Internal]: the interfaces of package internal as records of
    operations ([RequestBuilder], [FormBuilder], [ErrorAccumulator]) with
    their default instances.
  - [Config]: config.go.  [HTTPDoer] is a record with the operation [Do];
    the class [DoerOK] states what the client relies on (a call logs its
    request; a failure opens no body; a success opens exactly the body of
    its response); [serve] is the transport given by a function from
    requests to replies, and satisfies it.
  - [Fixtures]: the servers, bodies and codecs of the witnesses.
  - [Client]: client.go, one definition per type and function, with the
    names of the source.  A pointer argument that the callee writes
    through ([v] of [sendRequest]) is passed and returned by value, by its
    dynamic type ([target]).
  - [Stream]: the stream session of the specification: line reader, event
    decoder, state machine, [Recv] and [StreamClose], on the session
    record [streamReader.t] that [sendRequestStream] fills.
  - [Machine]: the state machine of section 4.4 of the specification as a
    labelled transition system, written from the specification: the step
    relation [mstep] on a configuration (count of empty reads, released
    flag, terminal condition, accumulated bytes; the lines the transport
    still has), whose labels are what the caller sees (the result of a
    [Recv], the return of a [Close]).  [abs] and [view] map a session of
    [Stream] and the world to a configuration; [run_calls] runs a program
    of a caller, a list of calls of [Recv] and [Close] in any order.
  - [Tests]: [TestCompletionStream] of api_integration_test.go, the one
    consumer of a session among the sources: the loop over [Recv]
    ([receive_all]), the check of the counter, the deferred [Close].
  - [Isolation]: the operations of a session are [local] to the body of
    its response: they read and write that body only, and their result
    depends on nothing else of the world.  [interleave] runs the calls of
    two sessions in the order of a schedule.
  - [Demand]: the reads of a call.  [taken_by] is what the line reader
    takes from the body in one call, [on_demand] says of the chunks of a
    call of [Recv] that each was needed, [held] what the reader may keep.
  - [Completion], [Models], [Image]: completion.go, models.go, image.go.
    Each endpoint function is written out with its guards and early
    returns; [*_unfold] lemmas relate it to [Client.sendInto], the common
    end of all of them.
  - [Json]: JSON text as encoding/json reads and writes it.  The values
    [json]; the printer [print] of the compact form; the decoder
    [parse_value] with its three outcomes [Got], [Short] (the input ends
    inside a value: io.ErrUnexpectedEOF) and [Bad] (a syntax error); the
    numbers by the state machine of Go's scanner ([nstep]); strings with
    their escapes and surrogate pairs.
  - [Codec]: encoding/json on Go types.  The class [JSON] of a type's
    encoder and decoder, with instances for strings, booleans, integers at
    64 bits, floats (through the parameter [FloatCodec]), slices, pointers,
    maps and [interface{}]; a structure is a list of [field]s (key,
    omitempty, codec, getter, setter) read from its tags, which
    [encode_struct] and [decode_struct] interpret as Marshal and Unmarshal
    do: fields in the order of declaration, empty omitempty fields left
    out, keys matched exactly and then without case, unknown keys skipped,
    the first type error kept while decoding goes on.  The classes [JSONOK]
    and [StructOK] are the laws (getter and setter of a field form a lens,
    keys are distinct) under which a structure round-trips.  The instances
    of [Marshal], [Unmarshal] and [Decode] that the client uses come from
    here.
  - [Floats]: the numbers of type [float32] and [float64] as Go writes and
    reads them: [go_parse_float] ([strconv.ParseFloat] on the literals of
    JSON, rounding to the nearest float of the width) and
    [go_format_float] (the float encoder of encoding/json: the shortest
    decimal that reads back, in the formats %f and %e), the instance
    [go_floats] of [Codec.FloatCodec].
  - [Wire]: the json tags of the structures of completion.go, models.go and
    image.go as field lists ([CompletionRequest_fields], ...), the proof
    that each list is lawful, and the calls of the endpoints on an answer
    of the transport ([answers]).
  - [Lenient]: what the decoder tolerates in an answer, by a relation on
    JSON values that follows the Go type that is decoded: [struct_ext] for
    a structure (members in any order, keys in any case, members without
    a field), [list_ext] for a slice, [pointer_ext] for a pointer; the
    class [Tolerant] of the codecs that read the same value from related
    values, with the instances of the structures of [Wire].
  - [Protocol]: the client over that codec.  [outcome] is what a call
    returns as a function of the reply of the transport (status, bytes of
    the body, error of the connection); the error envelope is a lawful
    structure; the encoding of a structure is a payload of a stream
    frame.
  - [Examples]: the programs of src/examples, each [main] a function from
    the state of the process ([Proc.t]: environment, arguments, files,
    standard input and output, the world of bodies) to how it ends
    ([Returned] or [Panicked]) and the state it leaves.

  ** Conventions

  - a Go [string] is a [string]; a Go [[]byte] is [bytes], a list of
    [ascii]; the conversions [string(b)] and [[]byte(s)] are
    [string_of_bytes] and [bs];
  - a Go [int] is a [Z], a [uint] an [N]; the only arithmetic of the
    program is the count of empty reads of a session, which
    [Stream.stream_invariant] bounds by the limit plus one, so it does not
    wrap for a limit below the largest [uint] ([Config.config_wf] and
    [Config.DefaultConfig_wf] for the default 300);
  - a Go function with side effects is a function into [ST W A]: it takes
    the world and returns its result with the new world; a returned
    [error] is a value ([option error], [None] for [nil]), never an
    exception, because that is how the source handles it;
  - an interface of the program is a record of operations or a class, and
    the theorems about its clients assume the laws of a class ([DoerOK],
    [BuilderOK]) that the default instances are proved to satisfy.

  ** What the theorems show

  - Release of connections: [Client.sendRequest_closes_body] and the
    theorems [*_effects] and [*_release] of the endpoints (no call that
    goes through [sendRequest] leaves a body open);
    [Stream.stream_close_releases] (closing a session releases its body,
    twice is harmless); and the two theorems
    [*_failure_leaves_body_open], which prove that [sendRequestStream] and
    [sendRequestRaw] leak the body of a response with a failure status.
  - Requests: [Client.newRequest_fields], [newRequest_Authorization],
    [sendRequestStream_sent], [Image.formRequest_content_type],
    [Models.model_calls_url]: method, URL, headers and body of what
    reaches the transport.  [Wire.CompletionRequest_written] says which
    keys the body of a completion request has (a zero value under
    omitempty is never sent), [Wire.checkPromptType_encodable] that the
    guard of the prompt lets through only what the encoder accepts,
    [Wire.CompletionRequest_round_trip] and
    [Protocol.CreateCompletion_sends] that the body which reaches the
    transport decodes, by the tags of the structure, to the request of the
    caller.
  - JSON.  [Json.parse_print] and [Json.parse_value_print]: a printed value
    is parsed back, also when more input follows it; [Json.parse_value_fuel]
    and [Json.parse_value_length]: the decoder consumes input and needs no
    more fuel than the length of the input; [Json.parse_value_wf]: what it
    returns is well formed.  [Codec.struct_round_trip] and
    [Codec.marshal_unmarshal]: a lawful structure is decoded back from its
    encoding; [Codec.decode_struct_invariant]: a property of the fields
    that every decoder keeps is kept by the decoding of any input.  On
    them rest [Wire.CompletionResponse_round_trip],
    [Wire.decoded_Created_in_range] (a number beyond 64 bits is an error,
    never a wrapped value), [Wire.decoded_Group_shape] and
    [Wire.decodeResponse_fuel].
  - Numbers.  [Floats.go_float_round_trip]: every finite float of 32 or
    64 bits is printed as a number of JSON that is read back as the same
    float.  The proof does not assume that rounding is correct: it shows
    that the rounding of the standard library returns a float when it is
    given the value of the float ([Floats.binary_round_aux_exact],
    [round_decimal_exact]), so the search for the shortest decimal ends at
    the latest with all the digits of the value, and every decimal it
    returns has passed the test of reading back.  [Floats.fmt_f_literal],
    [fmt_e_literal], [read_decimal_literal] and [number_lit_literal]
    relate the two formats to the grammar of JSON and to the reader.
    [Wire.CompletionRequest_floats] is the round trip of a request with
    any finite sampling options.  [Floats.go_parse_float_valid] is the
    converse: the number that the decoder reads from a literal is a float
    of the width ([Floats.binary_round_aux_valid], by the number of bits
    that a shift leaves), so it can be written again
    ([Floats.go_parse_format]), and the log probabilities of a decoded
    response are numbers of 32 bits whatever the body holds
    ([Wire.decoded_logprobs_float32]).
  - Calls from request to result: [Wire.ListModels_decodes],
    [Wire.CreateCompletion_answered], [Wire.CreateImage_answered]: when the
    transport answers the request of the call with the encoding of a
    response, the call returns that response under the header of the
    answer.  [Protocol.CreateCompletion_outcome] and its like for the other
    calls: whatever the transport replies, the call returns the [outcome]
    of the reply, and [Protocol.outcome_answered], [outcome_reordered],
    [outcome_refused], [outcome_truncated] compute it.
    [Protocol.CreateCompletion_lenient]: the members of the objects of a
    response may come in any order, at any depth, among members the
    structure has no field for.  It rests on [Codec.decode_struct_members]
    (the equivalence [Codec.same_outcome] of results, over the generic
    [fold_left_perm] of this file) and on the class [Codec.Unordered] of
    the codecs that read a value from any reordering [Codec.json_perm] of
    its encoding, of which every response structure is an instance
    ([Wire.CompletionResponse_unordered] and its like);
    [Protocol.ListModels_lenient] and [CreateImage_lenient] are the same
    for the list of models and for the images.
    [Protocol.CreateCompletion_tolerant]: the answer may differ from the
    encoding in every object, at any depth, by the order of the members,
    by the case of the keys and by members without a field.  It rests on
    [Lenient.struct_tolerant], [list_tolerant] and [pointer_tolerant]
    (the decoders of [Codec] respect the relations of [Lenient]), by
    which the relation of a response is composed from those of its parts
    ([Lenient.CompletionResponse_ext]); [Lenient.struct_ext_arrange] is
    the criterion that decides the relation on two given values.
    [Protocol.ListModels_tolerant] and [CreateImage_tolerant] are the
    same for the other calls.
  - Errors of the API: [Protocol.handleErrorResp_envelope] and
    [handleErrorResp_not_json], the two cases of a server-reported error
    in section 7 of the specification, with the decoder of the envelope.
  - Streams of structures: [Protocol.stream_of_events], on
    [Protocol.event_decodes]: the frames that carry the encodings of
    events deliver these events; [Protocol.stream_of_answers], on
    [Protocol.event_tolerated]: so do frames that carry the events as a
    server may write them (any order, any case, more members).
  - The example programs: what they print on an answer and that they panic
    on an answer without choices ([Examples.completion_main_answered],
    [images_main_answered]); that the completion example leaves no body
    open; the guards of the voice example; the second request of the tool
    example; that the loop of the chatbot consumes its input and returns
    ([chat_loop_returns], [chat_loop_fuel]).
  - Responses and errors: [Client.sendRequest_success],
    [sendRequest_failure_status], [sendRequest_transport_error],
    [handleErrorResp_structured], [handleErrorResp_fallback],
    [handleErrorResp_read_error], and the guards of
    [Completion.CreateCompletion].
  - The stream session.  [Stream.Recv_n_refines] is the refinement: on a
    session with a reader, any number of calls of [Recv] return what the
    abstract session [recv_abstract_n] returns on the list of the lines of
    the input, whatever the chunks are.  On it rest
    [stream_delivers_events] (the events of a well-formed stream, in
    order, keep-alives invisible, then the end of the stream for ever),
    [stream_stalls] (the stall error after one blank line more than the
    limit), [stream_abrupt_end] (end without sentinel; transport errors
    verbatim), [stream_decode_error] (a frame that does not decode seals
    the session with the error of the decoder),
    [stream_error_body_dropped], [stream_chunking]
    (independence of the chunking), [stream_invariant] (count bound, one
    result per call, nothing after the first error but that error).
  - The session as a transition system.  By induction on the rules of
    [Machine.mstep]: the count stays within its bound
    ([Machine.mstep_wf]), a sealed session stays sealed and gives its
    error and nothing else ([runs_sealed_events]), a release is for good
    ([runs_released]), the steps inside a call are determined
    ([mstep_det], [receives_det]) and every call returns after at most as
    many silent steps as there are lines ahead ([receives_total],
    [silent_steps_bound]).  The code refines the machine: every
    transition of [handleLine] and [handleEnd] is a rule
    ([handleLine_mstep], [handleEnd_mstep]), every [Recv] and [Close] a
    call of the machine ([Recv_simulates], [StreamClose_simulates]), and
    so is every program of calls ([Machine.stream_machine]), from which
    [Machine.stream_calls_safe] reads the invariants of the code off the
    machine.  The rule of [Close] leaves open how many of the lines ahead
    remain: the code delivers what its reader had buffered
    ([release_keeps_the_buffer], [release_loses_the_rest]).
  - Sessions do not interfere.  Every operation of a session is local to
    its body ([Isolation.Recv_local], [StreamClose_local],
    [run_calls_local]); a call through [sendRequest] leaves every body
    but its own as it was ([sendRequest_preserving]).  So two sessions
    read in any interleaving return what each returns alone
    ([Isolation.streams_independent]), and a call of the client between
    the calls of a session does not change what it delivers
    ([Isolation.stream_undisturbed]): the exclusive ownership of section 5
    of the specification.
  - Reading on demand (section 5 of the specification: a pull iteration
    without read-ahead).  The line reader takes a chunk only when it has
    no complete line and keeps the rest of the last chunk
    ([Demand.next_line_taken], [next_line_held]); a call of [Recv] takes
    a chunk only when the lines it has received gave the caller nothing
    ([Demand.Recv_on_demand]), and none when its result is in the buffer
    ([Recv_buffered]); [Demand.stream_on_demand] states it for the
    sessions of streaming calls.
  - The consumer of the sources.  [Tests.TestCompletionStream_passes]: on
    a well-formed stream the test returns, reports nothing and releases
    the body; [Tests.TestCompletionStream_hangs]: its loop leaves at the
    end of the stream only, so on a stream that ends with another error
    it never returns and never closes.
  - Forms: [Image.editForm_default], [variForm_default],
    [WrapReader_part], [CreateEditImage_form_error],
    [CreateEditImage_ignores_model].

  Every theorem with hypotheses has a witness ([*_witness]) that applies it
  to a concrete server and request and is checked by evaluation.

  ** Fuel

  The loop of [Recv] ([Stream.processLines]) takes one line per turn.  Its
  fuel is one more than the number of bytes in the buffer and in the
  chunks of the body that can still be read; a line has at least one byte
  (its delimiter), so the loop returns before the fuel is exhausted
  ([Stream.processLines_refines]), and [None] is returned only by a session
  without a reader or a decoder (the zero session).  The abstract session
  is structurally recursive on the list of lines.

  The JSON decoder ([Json.parse_value]) recurses on the nesting of the
  value.  Every level consumes at least one byte, so one more than the
  length of the input is enough fuel: [Json.parse_front] uses it,
  [Json.parse_value_fuel] proves that any larger fuel gives the same
  result, and [Wire.decodeResponse_fuel] carries this to the decoding of
  a response body.  [Short] is the outcome of an input that ends too
  early, never of a lack of fuel.

  The digits of a number ([Floats.digits_of]) are taken one per turn, by a
  division by ten; the fuel is the number of bits of the number, which is
  enough ([Floats.digits_of_dval]: the digits denote the number).  The
  search for the shortest decimal of a float ([Floats.shortest_from])
  recurses on the number of digits it leaves out, and ends with all the
  digits of the value, which read back as the float
  ([Floats.reads_exact]).

  The loop of the chatbot ([Examples.chat_loop]) runs once per line of the
  standard input, which is a finite list in [Proc.t]; its fuel is the
  number of lines ([Examples.chat_loop_fuel]).

  The loop of the test ([Tests.receive_all]) calls [Recv] once per turn.
  On a well-formed stream of [n] events it returns at call [n + 1], so any
  fuel above [n] gives the result ([Tests.TestCompletionStream_passes]);
  on a session sealed with an error that is not the end of the stream no
  fuel does ([Tests.TestCompletionStream_hangs] holds for every fuel),
  which is how the model says that the loop of the source does not
  terminate.  The machine has no fuel: [Machine.receives] is a relation,
  and [Machine.receives_total] proves that it has a result.

  ** Scope of the JSON theorems

  - text is UTF-8: the encoder and the decoder replace every byte that
    begins no well-formed sequence by U+FFFD, as Go does
    ([Json.string_round_trip]: a string is read back as [Json.coerce]
    makes it), so the round trips are stated for values whose strings are
    well-formed UTF-8 ([Json.plain]), and [Wire.prompt_ill_formed] shows a
    prompt that reaches the server changed;
  - integers are within 64 bits ([Codec.in_int64]); floating-point numbers
    are printed and parsed through the class [Codec.FloatCodec]; the
    round trips assume of it that it reads back what it prints on the
    numbers of a scope ([Codec.FloatCodecOK]), which the codec of Go does
    on every finite number of the width ([Floats.go_floats_ok]); the
    older witnesses use the codec of the zeros ([Wire.zero_floats]), those
    of [Wire.CompletionRequest_floats] the codec of Go; a prompt of the
    round trip is of the dynamic types a decoder makes (a [[]string] is
    read back as a [[]interface{}]);
  - [Wire.answers] describes an answer by the canonical encoding of the
    response.  [Protocol.outcome] covers every body; the order of the
    members, the case of the keys and the members without a field are
    covered at every depth ([Protocol.outcome_tolerant]), for objects
    whose members with a field have keys that differ beyond the case of
    their letters (a key given twice is decoded twice by Go and by the
    model, and is outside the theorems); a value of the interface type is
    in the scope when it holds no object, since the model keeps the
    members of a [map[string]interface{}] in the order of the input;
  - the decoder of a slice makes new elements, as Go does for a target
    that is nil: the client decodes into the zero value of a response; a
    target that already holds elements, which Go decodes into, is outside
    the model;
  - the errors of the decoder name the kind and the Go type, not the path
    of the field or the offset.

  ** Not modelled

  - the tests of api_integration_test.go but [TestCompletionStream]: they
    call endpoints whose code is not among the sources and assert on the
    answers of the production API; of [TestCompletionStream] the call
    that opens the stream ([CreateCompletionStream], not among the
    sources) is replaced by the session of [sendRequestStream]; the cases
    of the other tests are examples of [Client] and [Wire];
  - the files of the repository that are not among the sources: the calls
    of chat completions and audio (parameters of [Examples]; their
    structures are declared there as far as the examples use them),
    embeddings, files, engines, the [Error] methods and the decoding of
    [APIError] that accepts a message given as a list;
  - the algorithm by which strconv finds the shortest decimal of a float
    ([Floats.shortest] is its specification as a search) and the layout
    of multipart boundaries (package mime/multipart picks a random
    boundary; the model fixes one);
  - concurrency inside a call: a session is driven by one caller, as the
    specification requires, and the calls of two sessions interleave at
    the granularity of a call ([Isolation.interleave]), not inside one; a
    cancelled context is a read of the body that fails.

  ** Plan

  Next: that the rounding of [Floats.round_decimal] is the nearest float
  of the real number that the literal denotes (the development proves
  what the round trips need: its exact case and the format of its
  result); a call of [Close] that arrives inside a call of [Recv] (the
  machine of [Machine] has the step, the code of the session is not
  among the sources and the specification leaves the case to the
  caller).  The [Error] methods of the error types are
  described neither by the sources nor by the specification, and stay
  out. *)

From Stdlib Require Import ZArith NArith Ascii String List Lia.
From stdpp Require Import base tactics option list.

Declare Scope go_scope.
Delimit Scope go_scope with go.

(** ** Byte strings *)

Definition bytes : Type := list ascii.

Definition bs (s : string) : bytes := list_ascii_of_string s.
Definition string_of_bytes (b : bytes) : string := string_of_list_ascii b.

Notation "b{ s }" := (bs s) (at level 0, s at level 0, format "b{ s }") : go_scope.

(** ** The state monad of effectful code *)

Definition ST (W A : Type) : Type := W → A * W.

#[global] Instance ST_ret {W} : MRet (ST W) := λ A a w, (a, w).
#[global] Instance ST_bind {W} : MBind (ST W) :=
λ A B f m w, let '(a, w') := m w in f a w'.
#[global] Instance ST_fmap {W} : FMap (ST W) :=
λ A B f m w, let '(a, w') := m w in (f a, w').

Definition get {W} : ST W W := λ w, (w, w).
Definition gets {W A} (f : W → A) : ST W A := λ w, (f w, w).
Definition put {W} (w : W) : ST W unit := λ _, (tt, w).
Definition modify {W} (f : W → W) : ST W unit := λ w, (tt, f w).

(** ** The cut of a list at the first occurrence of a delimiter

  [cut d l] is [Some (x, y)] when [l = x ++ y], [x] ends with the first
  [d] of [l]; it is [None] when [d] does not occur in [l]. *)

Section Cut.
Context {A : Type} `{EqDecision A}.
Implicit Types (d : A) (l x y : list A).

Fixpoint cut d l : option (list A * list A) :=
  match l with
  | [] => None
  | a :: l' =>
      if decide (a = d) then Some ([a], l')
      else '(x, y) ← cut d l'; Some (a :: x, y)
  end.

(** The pieces of [l]: its segments up to and including each [d], in order,
    and what follows the last [d]. *)
Fixpoint pieces d l : list (list A) * list A :=
  match l with
  | [] => ([], [])
  | a :: l' =>
      let '(ps, r) := pieces d l' in
      if decide (a = d) then ([a] :: ps, r)
      else match ps with
           | [] => ([], a :: r)
           | p :: ps' => ((a :: p) :: ps', r)
           end
  end.
End Cut.

(** ** Tactics *)

(** Inversion that cleans up after itself. *)
Ltac invert H := inversion H; subst; clear H.

(** Unfold the monad operations in the goal and the hypotheses. *)
Ltac st_unfold :=
unfold mbind, ST_bind, mret, ST_ret, fmap, ST_fmap, get, gets, put, modify in *.

(** Case analysis on every [match] and [decide] of the goal. *)
Ltac case_go :=
repeat first
  [ progress simplify_eq/=
  | case_decide
  | case_match ].

(** ** The hint database of the development *)

Create HintDb go discriminated.
Create Rewrite HintDb go.

(** ** Lemmas *)

Section STLemmas.
Context {W A B : Type}.
Implicit Types (w : W) (m : ST W A).

Lemma ST_bind_run (f : A → ST W B) m w :
  (m ≫= f) w = f (m w).1 (m w).2.
Proof. st_unfold. by destruct (m w). Qed.

Lemma ST_ret_run (a : A) w : mret (M := ST W) a w = (a, w).
Proof. done. Qed.

Lemma ST_fmap_run (f : A → B) m w : (f <$> m) w = (f (m w).1, (m w).2).
Proof. st_unfold. by destruct (m w). Qed.
End STLemmas.

Section CutLemmas.
Context {A : Type} `{EqDecision A}.
Implicit Types (d : A) (l x y : list A).

Lemma cut_Some d l x y : cut d l = Some (x, y) → l = x ++ y.
Proof.
  revert x y. induction l as [|a l IH]; intros x y; simpl; [done|].
  case_decide; [by intros [= <- <-]|].
  destruct (cut d l) as [[x' y']|]; simpl; [|done].
  intros [= <- <-]. by rewrite (IH x' y').
Qed.

Lemma cut_None d l : cut d l = None ↔ d ∉ l.
Proof.
  induction l as [|a l IH]; simpl.
  - split; [intros _; apply not_elem_of_nil|done].
  - case_decide as Hd; subst.
    + split; [done|]. intros []. apply elem_of_cons. by left.
    + rewrite not_elem_of_cons, <- IH.
      destruct (cut d l) as [[x y]|]; simpl; intuition congruence.
Qed.

(** The first piece ends with the delimiter and has it nowhere else. *)
Lemma cut_last d l x y :
  cut d l = Some (x, y) → ∃ x', x = x' ++ [d] ∧ d ∉ x'.
Proof.
  revert x y. induction l as [|a l IH]; intros x y; simpl; [done|].
  case_decide; subst.
  - intros [= <- <-]. exists []. split; [done|apply not_elem_of_nil].
  - destruct (cut d l) as [[x' y']|] eqn:E; simpl; [|done].
    intros [= <- <-]. destruct (IH _ _ eq_refl) as (x'' & -> & ?).
    exists (a :: x''). split; [done|]. rewrite not_elem_of_cons. naive_solver.
Qed.

(** A segment with no delimiter in front of a list delays the cut. *)
Lemma cut_app_notin d x l :
  d ∉ x → cut d (x ++ l) = (λ p, (x ++ p.1, p.2)) <$> cut d l.
Proof.
  induction x as [|a x IH]; simpl; intros Hx.
  - by destruct (cut d l) as [[??]|].
  - apply not_elem_of_cons in Hx as [? ?]. case_decide; [done|].
    rewrite IH by done. by destruct (cut d l) as [[??]|].
Qed.

Lemma cut_app_Some d l l' x y :
  cut d l = Some (x, y) → cut d (l ++ l') = Some (x, y ++ l').
Proof.
  revert x y. induction l as [|a l IH]; intros x y; simpl; [done|].
  case_decide; [by intros [= <- <-]|].
  destruct (cut d l) as [[x' y']|]; simpl; [|done].
  intros [= <- <-]. by rewrite (IH x' y').
Qed.

Lemma cut_app_None d l l' :
  cut d l = None →
  cut d (l ++ l') = (λ p, (l ++ p.1, p.2)) <$> cut d l'.
Proof. intros ?%cut_None. by apply cut_app_notin. Qed.

(** A piece is not empty, so a cut makes the list shorter. *)
Lemma cut_length d l x y : cut d l = Some (x, y) → length y < length l.
Proof.
  intros H. destruct (cut_last _ _ _ _ H) as (x' & -> & _).
  apply cut_Some in H as ->. rewrite !length_app. simpl. lia.
Qed.

(** The cut of a piece followed by anything is that piece. *)
Lemma cut_piece d x l : d ∉ x → cut d ((x ++ [d]) ++ l) = Some (x ++ [d], l).
Proof.
  intros Hx. rewrite <- app_assoc, cut_app_notin by done. simpl.
  by rewrite decide_True.
Qed.

(** The pieces of a list are its first cut and the pieces of the rest. *)
Lemma pieces_cut_Some d l x y :
  cut d l = Some (x, y) → pieces d l = (x :: (pieces d y).1, (pieces d y).2).
Proof.
  revert x y. induction l as [|a l IH]; intros x y; simpl; [done|].
  case_decide.
  - intros [= <- <-]. by destruct (pieces d l).
  - destruct (cut d l) as [[x' y']|]; simpl; [|done]. intros [= <- <-].
    rewrite (IH x' y' eq_refl). by destruct (pieces d y').
Qed.

Lemma pieces_cut_None d l : cut d l = None → pieces d l = ([], l).
Proof.
  induction l as [|a l IH]; simpl; [done|]. case_decide; [done|].
  destruct (cut d l) as [[x' y']|]; simpl; [done|]. intros _. by rewrite IH.
Qed.

(** The pieces of a list are the first pieces of any list that it starts. *)
Lemma pieces_app_prefix d l l' : (pieces d l).1 `prefix_of` (pieces d (l ++ l')).1.
Proof.
  induction l as [l IH] using (induction_ltof1 _ length). unfold ltof in IH.
  destruct (cut d l) as [[x y]|] eqn:E.
  - rewrite (pieces_cut_Some _ _ _ _ E), (pieces_cut_Some _ _ _ _ (cut_app_Some _ _ l' _ _ E)).
    cbn [fst]. apply prefix_cons, IH. by eapply cut_length.
  - rewrite (pieces_cut_None _ _ E). apply prefix_nil.
Qed.

(** The pieces and the rest make up the list. *)
Lemma pieces_concat d l : concat (pieces d l).1 ++ (pieces d l).2 = l.
Proof.
  induction l as [|a l IH]; simpl; [done|].
  destruct (pieces d l) as [ps r]. simpl in IH. case_decide; simpl.
  - by rewrite IH.
  - destruct ps as [|p ps]; simpl in *; by rewrite IH.
Qed.

(** A piece in front of a list is the first of its pieces. *)
Lemma pieces_piece d x l :
  d ∉ x → pieces d ((x ++ [d]) ++ l) = ((x ++ [d]) :: (pieces d l).1, (pieces d l).2).
Proof. intros Hx. by apply pieces_cut_Some, cut_piece. Qed.

(** The pieces of a concatenation of pieces are these pieces, then those of
    what follows. *)
Lemma pieces_concat_pieces d (ps : list (list A)) l :
  Forall (λ p, ∃ x, p = x ++ [d] ∧ d ∉ x) ps →
  pieces d (concat ps ++ l) = (ps ++ (pieces d l).1, (pieces d l).2).
Proof.
  induction 1 as [|p ps (x & -> & Hx) _ IH]; simpl.
  - by destruct (pieces d l).
  - rewrite <- (app_assoc (x ++ [d])), pieces_piece by done. by rewrite IH.
Qed.

(** What follows the last delimiter has no piece. *)
Lemma pieces_notin d l : d ∉ l → pieces d l = ([], l).
Proof. intros. by apply pieces_cut_None, cut_None. Qed.
End CutLemmas.

Section ListLemmas.
Context {A : Type}.

Lemma list_sum_length (f : A → nat) l : (∀ x, 0 < f x) → length l ≤ list_sum (map f l).
Proof. intros Hf. induction l as [|x l IH]; simpl; [done|]. specialize (Hf x). lia. Qed.

Lemma list_sum_le (f g : A → nat) l :
  Forall (λ x, f x ≤ g x) l → list_sum (map f l) ≤ list_sum (map g l).
Proof. induction 1; simpl; lia. Qed.

(** A property that holds of the elements that pass a test holds of all the
    elements of a list that passes it. *)
Lemma Forall_forallb_impl (p : A → bool) (P : A → Prop) l :
  Forall (λ x, p x = true → P x) l → forallb p l = true → Forall P l.
Proof. induction 1; simpl; [done|]. intros [??]%andb_prop. constructor; auto. Qed.
Lemma filter_all (P : A → Prop) `{!∀ x, Decision (P x)} l : Forall P l → filter P l = l.
Proof.
  induction 1 as [|x l Hx _ IH]; [done|]. by rewrite filter_cons_True, IH.
Qed.

Lemma NoDup_fmap_filter {B} (f : A → B) (P : A → Prop) `{!∀ x, Decision (P x)} l :
  NoDup (f <$> l) → NoDup (f <$> filter P l).
Proof.
  induction l as [|x l IH]; [done|]. rewrite fmap_cons, NoDup_cons. intros [Hx Hl].
  rewrite filter_cons. case_decide; [|auto]. rewrite fmap_cons, NoDup_cons. split; [|auto].
  intros (y & E & Hy%list_elem_of_filter)%list_elem_of_fmap. apply Hx.
  rewrite E. apply list_elem_of_fmap_2. tauto.
Qed.
End ListLemmas.

(** A left fold whose steps commute, up to an equivalence of the
    accumulators, on elements with different keys, gives equivalent results
    on the permutations of a list with distinct keys. *)
Section FoldPerm.
Context {A B K : Type} (R : relation B) `{!Equivalence R} (f : B → A → B) (k : A → K).
Context `{!Proper (R ==> eq ==> R) f}.
Hypothesis swap : ∀ b x y, k x ≠ k y → R (f (f b x) y) (f (f b y) x).

Lemma fold_left_proper l : Proper (R ==> R) (fold_left f l).
Proof.
  induction l as [|x l IH]; intros b b' Hb; [done|]. cbn [fold_left]. apply IH. by rewrite Hb.
Qed.

Lemma fold_left_perm l l' b :
  l ≡ₚ l' → NoDup (k <$> l) → R (fold_left f l b) (fold_left f l' b).
Proof.
  intros Hp. revert b. induction Hp as [|x l l' Hp IH|x y l|l l' l'' Hp IH Hp' IH'];
    intros b Hnd.
  - reflexivity.
  - cbn [fold_left]. apply IH. by apply NoDup_cons in Hnd as [_ ?].
  - cbn [fold_left]. apply fold_left_proper, swap.
    rewrite !fmap_cons in Hnd. apply NoDup_cons in Hnd as [Hnotin _].
    intros E. apply Hnotin. rewrite E. by left.
  - etrans; [by apply IH|]. apply IH'. by rewrite <- Hp.
Qed.

(** Two lists with the same keys in the same order. *)
Lemma Forall2_same_keys {C} (P : A → A → Prop) (g : A → C) l l' :
  Forall2 (λ x y, g x = g y ∧ P x y) l l' → g <$> l = g <$> l'.
Proof. induction 1 as [|???? [? _]]; [done|]. rewrite !fmap_cons. congruence. Qed.
End FoldPerm.

#[export] Hint Rewrite @ST_bind_run @ST_ret_run @ST_fmap_run : go.
