(* ===== verification/Bytes.v ===== *)
(** * Bytes: the functions of Go's [bytes], [strings] and [strconv] packages
    that the client calls

    [TrimSpace], [HasPrefix] and [TrimPrefix] on byte strings, [Itoa] on
    integers, with the lemmas the components share.  These are models of
    library code the sources only call: they are executable, and their
    lemmas are what the components rely on. *)

From Stdlib Require Import ZArith Ascii String List Lia.
From Stdlib Require DecimalString DecimalZ DecimalPos.
From stdpp Require Import base tactics option list strings.
From S2P Require Import Prelude.

#[local] Open Scope go_scope.

(** ** Definitions *)

(** The line delimiter of the wire format. *)
Definition NL : ascii := "010"%char.

(** ASCII white space, as [unicode.IsSpace] sees it below 128. *)
Definition is_space (a : ascii) : bool := Ascii.is_space a.

Fixpoint TrimLeft (b : bytes) : bytes :=
  match b with
  | a :: b' => if is_space a then TrimLeft b' else b
  | [] => []
  end.

Definition TrimRight (b : bytes) : bytes := rev (TrimLeft (rev b)).

(** [bytes.TrimSpace]. *)
Definition TrimSpace (b : bytes) : bytes := TrimRight (TrimLeft b).

(** [bytes.HasPrefix(s, prefix)]. *)
Definition HasPrefix (s p : bytes) : bool := bool_decide (p `prefix_of` s).

(** [bytes.TrimPrefix(s, prefix)]. *)
Definition TrimPrefix (s p : bytes) : bytes :=
  if HasPrefix s p then drop (length p) s else s.

(** A byte string of white space only. *)
Definition blank (b : bytes) : bool := forallb is_space b.

(** [strconv.Itoa]: decimal, a minus sign for negative numbers. *)
Definition Itoa (z : Z) : string :=
  DecimalString.NilZero.string_of_int (Z.to_int z).

(** [strconv.Atoi] on what [Itoa] prints. *)
Definition Atoi (s : string) : option Z :=
  Z.of_int <$> DecimalString.NilZero.int_of_string s.

(** ** Lemmas *)

Section BytesLemmas.
Implicit Types (a : ascii) (b s p r : bytes).

Lemma bs_string_of_bytes b : bs (string_of_bytes b) = b.
Proof. apply list_ascii_of_string_of_list_ascii. Qed.

Lemma string_of_bytes_bs (s : string) : string_of_bytes (bs s) = s.
Proof. apply string_of_list_ascii_of_string. Qed.

Lemma HasPrefix_true s p : HasPrefix s p = true ↔ ∃ r, s = p ++ r.
Proof. unfold HasPrefix. by rewrite bool_decide_eq_true. Qed.

Lemma HasPrefix_app p r : HasPrefix (p ++ r) p = true.
Proof. apply HasPrefix_true. by exists r. Qed.

Lemma TrimPrefix_app p r : TrimPrefix (p ++ r) p = r.
Proof. unfold TrimPrefix. by rewrite HasPrefix_app, drop_app_length. Qed.

Lemma TrimPrefix_id s p : HasPrefix s p = false → TrimPrefix s p = s.
Proof. unfold TrimPrefix. by intros ->. Qed.

Lemma TrimPrefix_spec s p :
  HasPrefix s p = true → s = p ++ TrimPrefix s p.
Proof. intros [r ->]%HasPrefix_true. by rewrite TrimPrefix_app. Qed.

Lemma TrimLeft_blank b : blank b = true → TrimLeft b = [].
Proof.
  induction b as [|a b IH]; simpl; [done|].
  intros [-> ?]%andb_true_iff. auto.
Qed.

Lemma TrimLeft_nil_blank b : TrimLeft b = [] → blank b = true.
Proof.
  induction b as [|a b IH]; simpl; [done|].
  destruct (is_space a); simpl; [auto|done].
Qed.

Lemma TrimLeft_app_blank b r : blank b = true → TrimLeft (b ++ r) = TrimLeft r.
Proof.
  induction b as [|a b IH]; simpl; [done|].
  intros [-> ?]%andb_true_iff. auto.
Qed.

Lemma TrimLeft_idemp b : TrimLeft (TrimLeft b) = TrimLeft b.
Proof.
  induction b as [|a b IH]; simpl; [done|].
  destruct (is_space a) eqn:E; simpl; [done|by rewrite E].
Qed.

(** What is left of a line that is not all white space starts with a byte
    that is not white space. *)
Lemma TrimLeft_cons b a r : TrimLeft b = a :: r → is_space a = false.
Proof.
  induction b as [|a' b IH]; simpl; [done|].
  destruct (is_space a') eqn:E; [done|]. by intros [= <- <-].
Qed.

Lemma TrimLeft_keep a b : is_space a = false → TrimLeft (a :: b) = a :: b.
Proof. simpl. by intros ->. Qed.

Lemma blank_app b r : blank (b ++ r) = blank b && blank r.
Proof. apply forallb_app. Qed.

Lemma blank_rev b : blank (rev b) = blank b.
Proof.
  induction b as [|a b IH]; simpl; [done|].
  rewrite blank_app, IH. simpl. by rewrite andb_true_r, andb_comm.
Qed.

Lemma TrimRight_app_blank b r : blank r = true → TrimRight (b ++ r) = TrimRight b.
Proof.
  intros Hr. unfold TrimRight. rewrite rev_app_distr.
  by rewrite TrimLeft_app_blank by (by rewrite blank_rev).
Qed.

Lemma TrimRight_snoc_keep b a :
  is_space a = false → TrimRight (b ++ [a]) = b ++ [a].
Proof.
  intros Ha. unfold TrimRight. rewrite rev_app_distr. simpl.
  rewrite Ha. simpl. by rewrite rev_involutive.
Qed.

Lemma TrimRight_blank b : blank b = true → TrimRight b = [].
Proof.
  intros Hb. unfold TrimRight. by rewrite TrimLeft_blank by (by rewrite blank_rev).
Qed.

Lemma TrimSpace_blank b : blank b = true → TrimSpace b = [].
Proof. intros Hb. unfold TrimSpace. by rewrite TrimLeft_blank. Qed.

Lemma TrimSpace_nil_blank b : TrimSpace b = [] → blank b = true.
Proof.
  unfold TrimSpace, TrimRight. intros H.
  apply (f_equal (@rev _)) in H. rewrite rev_involutive in H. simpl in H.
  apply TrimLeft_nil_blank in H. rewrite blank_rev in H.
  destruct (TrimLeft b) as [|a r] eqn:E; [by apply TrimLeft_nil_blank|].
  apply TrimLeft_cons in E. simpl in H. by rewrite E in H.
Qed.

(** White space around a byte string is invisible to [TrimSpace]. *)
Lemma TrimSpace_pad l b r :
  blank l = true → blank r = true → TrimSpace (l ++ b ++ r) = TrimSpace b.
Proof.
  intros Hl Hr. unfold TrimSpace. rewrite TrimLeft_app_blank by done.
  destruct (TrimLeft b) as [|a b'] eqn:E.
  - apply TrimLeft_nil_blank in E. rewrite TrimLeft_blank, TrimRight_blank; try done.
    by rewrite blank_app, E, Hr.
  - assert (TrimLeft (b ++ r) = (a :: b') ++ r) as ->; [|by apply TrimRight_app_blank].
    clear Hl. revert E. induction b as [|a0 b IH]; simpl; [done|].
    destruct (is_space a0); [done|]. by intros [= <- <-].
Qed.

(** A byte string with no white space at either end is its own trim. *)
Lemma TrimSpace_id a b z :
  is_space a = false → is_space z = false →
  TrimSpace (a :: b ++ [z]) = a :: b ++ [z].
Proof.
  intros Ha Hz. unfold TrimSpace. rewrite TrimLeft_keep by done.
  by apply (TrimRight_snoc_keep (a :: b)).
Qed.

Lemma TrimSpace_single a : is_space a = false → TrimSpace [a] = [a].
Proof. intros Ha. unfold TrimSpace, TrimRight. simpl. by rewrite Ha; simpl; rewrite Ha. Qed.
End BytesLemmas.

(** ** [Itoa] *)

Lemma to_int_nonnil z :
  Z.to_int z ≠ Decimal.Pos Decimal.Nil ∧ Z.to_int z ≠ Decimal.Neg Decimal.Nil.
Proof.
  destruct z as [|p|p]; simpl; split; try done; intros [= H];
    by apply DecimalPos.Unsigned.to_uint_nonnil in H.
Qed.

(** What [Itoa] prints, [Atoi] reads back. *)
Lemma Itoa_Atoi z : Atoi (Itoa z) = Some z.
Proof.
  unfold Atoi, Itoa. destruct (to_int_nonnil z).
  rewrite DecimalString.NilZero.isi by done. simpl. by rewrite DecimalZ.of_to.
Qed.

Lemma Itoa_inj z1 z2 : Itoa z1 = Itoa z2 → z1 = z2.
Proof. intros H. apply (f_equal Atoi) in H. rewrite !Itoa_Atoi in H. congruence. Qed.

#[export] Hint Rewrite TrimPrefix_app HasPrefix_app bs_string_of_bytes
  string_of_bytes_bs : go.
#[export] Hint Resolve TrimSpace_blank TrimLeft_blank : go.
