(* ===== verification/Errors.v ===== *)
(** * Errors: dynamic values, the error values of the client and the JSON
    codec interface

    - [any]: a Go value of interface type [any], by its dynamic type, as far
      as the client inspects it (the prompt of a completion request, the code
      of an API error);
    - [error]: the Go [error] values that the client creates, wraps or
      passes on, with the structured errors [APIError] and [RequestError]
      and the envelope [ErrorResponse] of an error body;
    - [Zero] and [Unmarshal]: a type's zero value and its JSON decoder, the
      interface through which the client calls [encoding/json]. *)

From Stdlib Require Import ZArith Ascii String List.
From stdpp Require Import base tactics option list strings.
From S2P Require Import Prelude Bytes.

Set Warnings "-register-all".

(** ** Dynamic values *)

Inductive any : Type :=
| AnyNil                                   (* the nil interface *)
| AnyBool (b : bool)
| AnyInt (z : Z)
| AnyNumber (lit : string)                 (* a float64, by its literal *)
| AnyString (s : string)
| AnyStrings (l : list string)             (* []string *)
| AnySlice (l : list any)                  (* []any *)
| AnyMap (m : list (string * any))         (* map[string]any *)
| AnyOther (type_name : string).           (* a value of any other type *)

(** ** Structured errors *)

(** The error object of an error body; the HTTP status is filled in by the
    client after decoding. *)
Module APIError.
Record t : Type := mk {
  Code : any;
  Message : string;
  Type_ : string;
  HTTPStatus : string;
  HTTPStatusCode : Z;
}.

Definition set_status (status : string) (code : Z) (e : t) : t :=
  {| Code := Code e; Message := Message e; Type_ := Type_ e;
     HTTPStatus := status; HTTPStatusCode := code |}.
End APIError.

(** The envelope of an error body: [{"error": {...}}]. [None] is the nil
    pointer. *)
Module ErrorResponse.
Record t : Type := mk { Error : option APIError.t }.
End ErrorResponse.

(** Go [error] values. [RequestError] is the client's generic error for a
    response that carries no structured error: it keeps the status, the
    cause and the raw body. *)
Inductive error : Type :=
| EOF                                      (* io.EOF *)
| ErrExternal (msg : string)               (* an error of the transport, of a
                                              reader, of the context or of the
                                              JSON codec, passed on verbatim *)
| ErrAPI (e : APIError.t)
| ErrRequest (e : RequestError)
| ErrWrap (msg : string) (cause : error)   (* fmt.Errorf(msg + ": %w", cause) *)
| ErrTooManyEmptyStreamMessages
| ErrCompletionUnsupportedModel
| ErrCompletionStreamNotSupported
| ErrCompletionRequestPromptTypeNotSupported
with RequestError : Type :=
| mkRequestError (HTTPStatus : string) (HTTPStatusCode : Z)
    (Err : option error) (Body : bytes).

Module RequestErr.
Definition HTTPStatus (e : RequestError) : string :=
  match e with mkRequestError s _ _ _ => s end.
Definition HTTPStatusCode (e : RequestError) : Z :=
  match e with mkRequestError _ c _ _ => c end.
Definition Err (e : RequestError) : option error :=
  match e with mkRequestError _ _ x _ => x end.
Definition Body (e : RequestError) : bytes :=
  match e with mkRequestError _ _ _ b => b end.
Definition set_Err (x : option error) (e : RequestError) : RequestError :=
  match e with mkRequestError s c _ b => mkRequestError s c x b end.
End RequestErr.

(** The result of a Go function that returns [(T, error)] and whose value is
    unused when the error is not nil. *)
Inductive res (A : Type) : Type :=
| Ok (a : A)
| Fail (e : error).
Arguments Ok {A} a.
Arguments Fail {A} e.

(** The HTTP status an error carries, when it carries one. *)
Definition status_code_of (e : error) : option Z :=
  match e with
  | ErrAPI a => Some (APIError.HTTPStatusCode a)
  | ErrRequest r => Some (RequestErr.HTTPStatusCode r)
  | _ => None
  end.

(** [errors.Is(e, io.EOF)], through the wrappers the client creates. *)
Fixpoint is_EOF (e : error) : bool :=
  match e with
  | EOF => true
  | ErrWrap _ c => is_EOF c
  | _ => false
  end.

(** ** Zero values and the JSON codec *)

(** The zero value of a Go type. *)
Class Zero (T : Type) : Type := zero : T.
#[global] Hint Mode Zero ! : typeclass_instances.

(** [json.Unmarshal(data, &v)]: the decoder may have written into [v] when it
    returns an error, so it returns the target with the error. *)
Class Unmarshal (T : Type) : Type := unmarshal : bytes → T → T * option error.
#[global] Hint Mode Unmarshal ! : typeclass_instances.

(** [json.NewDecoder(r).Decode(&v)] on a reader that delivers [data] and then
    ends, with [io.EOF] ([None]) or with an error: the decoder reads as far
    as it needs, so whether it meets the end is its own business. *)
Class Decode (T : Type) : Type :=
  decode : bytes → option error → T → T * option error.
#[global] Hint Mode Decode ! : typeclass_instances.

(** [json.Marshal(v)]: the encoding, or the error of a value that has
    none. *)
Class Marshal (T : Type) : Type := marshal : T → res bytes.
#[global] Hint Mode Marshal ! : typeclass_instances.

#[global] Instance string_zero : Zero string := EmptyString.
#[global] Instance Z_zero : Zero Z := 0%Z.
#[global] Instance bool_zero : Zero bool := false.
#[global] Instance any_zero : Zero any := AnyNil.
#[global] Instance list_zero {A} : Zero (list A) := [].
#[global] Instance option_zero {A} : Zero (option A) := None.
#[global] Instance APIError_zero : Zero APIError.t :=
  APIError.mk zero zero zero zero zero.
#[global] Instance ErrorResponse_zero : Zero ErrorResponse.t :=
  ErrorResponse.mk None.

(** ** Lemmas *)

Lemma set_status_code s c e :
  APIError.HTTPStatusCode (APIError.set_status s c e) = c.
Proof. done. Qed.

Lemma set_status_keeps s c e :
  APIError.Message (APIError.set_status s c e) = APIError.Message e ∧
  APIError.Code (APIError.set_status s c e) = APIError.Code e ∧
  APIError.Type_ (APIError.set_status s c e) = APIError.Type_ e.
Proof. done. Qed.

Lemma is_EOF_wrap msg e : is_EOF (ErrWrap msg e) = is_EOF e.
Proof. done. Qed.
