(* ===== verification/Http.v ===== *)
(** * Http: the part of Go's [net/http] that the client uses

    - [Header]: a map from canonical header keys to value lists, with
      [Header_Set] and [Header_Get] and the canonical form of a key
      ([textproto.CanonicalMIMEHeaderKey]);
    - [Request.t], [Response.t]: the fields of [http.Request] and
      [http.Response] that the client reads or writes;
    - [World]: the response bodies that exist, each a readable stream with a
      closed flag, and the log of the requests handed to the transport.  A
      response holds the handle of its body, so that reading and closing a
      body is visible in the world the client's functions return;
    - [Close], [ReadChunk], [ReadAll]: the operations on a body.

    These model library code: they are not mapped to lines of the
    repository, and the components state what they rely on as lemmas of this
    file. *)

From Stdlib Require Import ZArith NArith Ascii String List.
From stdpp Require Import base tactics option list gmap strings.
From S2P Require Import Prelude Bytes Errors.

Set Warnings "-clear-no-such-hyp".

(** ** Header keys *)

Definition code (c : ascii) : N := N_of_ascii c.

Definition is_lower (c : ascii) : bool := (97 <=? code c)%N && (code c <=? 122)%N.
Definition is_upper (c : ascii) : bool := (65 <=? code c)%N && (code c <=? 90)%N.
Definition is_digit (c : ascii) : bool := (48 <=? code c)%N && (code c <=? 57)%N.

Definition to_upper (c : ascii) : ascii :=
  if is_lower c then ascii_of_N (code c - 32) else c.
Definition to_lower (c : ascii) : ascii :=
  if is_upper c then ascii_of_N (code c + 32) else c.

(** The bytes of an HTTP token: letters, digits and
    [! # $ % & ' * + - . ^ _ ` | ~]. *)
Definition validHeaderFieldByte (c : ascii) : bool :=
  is_lower c || is_upper c || is_digit c ||
  bool_decide (code c ∈ [33; 35; 36; 37; 38; 39; 42; 43; 45; 46; 94; 95; 96; 124; 126]%N).

Definition is_dash (c : ascii) : bool := (code c =? 45)%N.

Fixpoint canon (upper : bool) (s : string) : string :=
  match s with
  | EmptyString => EmptyString
  | String c s' =>
      let c' := if upper then to_upper c else to_lower c in
      String c' (canon (is_dash c') s')
  end.

(** A key made of token bytes gets an upper-case letter first and after
    every dash and lower-case letters elsewhere; any other key is left as it
    is. *)
Definition CanonicalMIMEHeaderKey (s : string) : string :=
  if forallb validHeaderFieldByte (list_ascii_of_string s) then canon true s else s.

(** ** Headers *)

Abbreviation Header := (gmap string (list string)).

Definition Header_Set (k v : string) (h : Header) : Header :=
  <[CanonicalMIMEHeaderKey k := [v]]> h.

Definition Header_Get (k : string) (h : Header) : string :=
  match h !! CanonicalMIMEHeaderKey k with
  | Some (v :: _) => v
  | _ => EmptyString
  end.

(** ** Requests *)

(** A [context.Context], by its identity. *)
Inductive context : Type :=
| Background
| Derived (id : nat).

(** The body argument of a request: nil, an [io.Reader] with its content, or
    a value with the result of marshalling it to JSON. *)
Inductive reqBody : Type :=
| BodyNil
| BodyReader (content : bytes)
| BodyValue (encoding : res bytes).

Module Request.
Record t : Type := mk {
  Ctx : context;
  Method : string;
  URL : string;
  Header : gmap string (list string);
  Body : option bytes;
}.

Definition set_Header (h : gmap string (list string)) (r : t) : t :=
  {| Ctx := Ctx r; Method := Method r; URL := URL r; Header := h; Body := Body r |}.

(** [req.Header.Set(k, v)]. *)
Definition SetHeader (k v : string) (r : t) : t :=
  set_Header (Header_Set k v (Header r)) r.
End Request.

(** ** Responses and their bodies *)

Inductive chunk : Type :=
| Data (b : bytes)       (* what one read of the connection delivers *)
| Fault (e : error).     (* the read fails with [e] *)

Module Body.
Record t : Type := mk { pending : list chunk; closed : bool }.

Definition close (b : t) : t := {| pending := pending b; closed := true |}.
Definition set_pending (cs : list chunk) (b : t) : t :=
  {| pending := cs; closed := closed b |}.
End Body.

Module Response.
Record t : Type := mk {
  Status : string;
  StatusCode : Z;
  Header : gmap string (list string);
  Body : nat;                              (* the handle of the body *)
}.
End Response.

(** A [bufio.Reader] over a body: the handle of the body and the bytes read
    from it that no caller has taken yet. *)
Module Bufio.
Record t : Type := mk { src : nat; buf : bytes }.
Definition NewReader (h : nat) : t := {| src := h; buf := [] |}.
Definition set_buf (b : bytes) (r : t) : t := {| src := src r; buf := b |}.
End Bufio.

Definition StatusOK : Z := 200.
Definition StatusBadRequest : Z := 400.

(** ** The world *)

Record World : Type := mkWorld {
  bodies : gmap nat Body.t;
  sent : list Request.t;
}.

Definition set_bodies (f : gmap nat Body.t → gmap nat Body.t) (w : World) : World :=
  {| bodies := f (bodies w); sent := sent w |}.

Definition log_request (r : Request.t) (w : World) : World :=
  {| bodies := bodies w; sent := sent w ++ [r] |}.

Definition empty_world : World := {| bodies := ∅; sent := [] |}.

(** The bodies that are open: each holds a connection until it is closed. *)
Definition open_bodies (w : World) : gset nat :=
  dom (filter (λ kv, Body.closed kv.2 = false) (bodies w)).

(** The error of a read on a closed body. *)
Definition ErrBodyReadAfterClose : error :=
  ErrExternal "http: read on closed response body".

(** [body.Close()]: idempotent, and it never fails here. *)
Definition Close (h : nat) : ST World (option error) :=
  _ ← modify (set_bodies (alter Body.close h)); mret None.

(** Everything up to the end of the stream or to the first fault. *)
Fixpoint read_all (cs : list chunk) : bytes * option error * list chunk :=
  match cs with
  | [] => ([], None, [])
  | Data b :: cs' => let '(d, e, r) := read_all cs' in (b ++ d, e, r)
  | Fault e :: _ => ([], Some e, cs)
  end.

(** [io.ReadAll(body)]. *)
Definition ReadAll (h : nat) : ST World (bytes * option error) := λ w,
  match bodies w !! h with
  | Some b =>
      if Body.closed b then (([], Some ErrBodyReadAfterClose), w)
      else
        let '(d, e, r) := read_all (Body.pending b) in
        ((d, e), set_bodies <[h := Body.set_pending r b]> w)
  | None => (([], Some ErrBodyReadAfterClose), w)
  end.

(** One read of the body: the next chunk, [io.EOF] at the end. *)
Definition ReadChunk (h : nat) : ST World (res bytes) := λ w,
  match bodies w !! h with
  | Some b =>
      if Body.closed b then (Fail ErrBodyReadAfterClose, w)
      else
        match Body.pending b with
        | [] => (Fail EOF, w)
        | Data d :: cs => (Ok d, set_bodies <[h := Body.set_pending cs b]> w)
        | Fault e :: _ => (Fail e, w)
        end
  | None => (Fail ErrBodyReadAfterClose, w)
  end.

(** The content of a stream of chunks, faults apart. *)
Fixpoint content (cs : list chunk) : bytes :=
  match cs with
  | [] => []
  | Data b :: cs' => b ++ content cs'
  | Fault _ :: _ => []
  end.

(** The fault that ends a stream of chunks, if one does. *)
Fixpoint fault (cs : list chunk) : option error :=
  match cs with
  | [] => None
  | Data _ :: cs' => fault cs'
  | Fault e :: _ => Some e
  end.

(** Two streams of chunks deliver the same bytes and end the same way. *)
Definition same_stream (cs1 cs2 : list chunk) : Prop :=
  content cs1 = content cs2 ∧ fault cs1 = fault cs2.

(** A computation that opens no body, closes none and sends nothing. *)
Definition quiet {A} (m : ST World A) : Prop :=
  ∀ w, open_bodies (m w).2 = open_bodies w ∧ sent (m w).2 = sent w.

(** ** Lemmas: header keys *)

Lemma to_upper_idemp c : to_upper (to_upper c) = to_upper c.
Proof. by destruct c as [[] [] [] [] [] [] [] []]. Qed.

Lemma to_lower_idemp c : to_lower (to_lower c) = to_lower c.
Proof. by destruct c as [[] [] [] [] [] [] [] []]. Qed.

Lemma is_dash_to_upper c : is_dash (to_upper c) = is_dash c.
Proof. by destruct c as [[] [] [] [] [] [] [] []]. Qed.

Lemma is_dash_to_lower c : is_dash (to_lower c) = is_dash c.
Proof. by destruct c as [[] [] [] [] [] [] [] []]. Qed.

Lemma valid_to_upper c : validHeaderFieldByte (to_upper c) = validHeaderFieldByte c.
Proof. by destruct c as [[] [] [] [] [] [] [] []]. Qed.

Lemma valid_to_lower c : validHeaderFieldByte (to_lower c) = validHeaderFieldByte c.
Proof. by destruct c as [[] [] [] [] [] [] [] []]. Qed.

Lemma canon_idemp u s : canon u (canon u s) = canon u s.
Proof.
  revert u. induction s as [|c s IH]; intros u; simpl; [done|].
  destruct u; rewrite ?to_upper_idemp, ?to_lower_idemp; by rewrite IH.
Qed.

Lemma canon_valid u s :
  forallb validHeaderFieldByte (list_ascii_of_string (canon u s)) =
  forallb validHeaderFieldByte (list_ascii_of_string s).
Proof.
  revert u. induction s as [|c s IH]; intros u; simpl; [done|].
  rewrite IH. by destruct u; rewrite ?valid_to_upper, ?valid_to_lower.
Qed.

(** The canonical form of a key is canonical. *)
Lemma CanonicalMIMEHeaderKey_idemp k :
  CanonicalMIMEHeaderKey (CanonicalMIMEHeaderKey k) = CanonicalMIMEHeaderKey k.
Proof.
  unfold CanonicalMIMEHeaderKey.
  destruct (forallb _ (list_ascii_of_string k)) eqn:E; [|by rewrite E].
  by rewrite canon_valid, E, canon_idemp.
Qed.

(** ** Lemmas: headers *)

Section HeaderLemmas.
Implicit Types (h : Header) (k v : string).

Lemma Header_Get_Set k k' v h :
  CanonicalMIMEHeaderKey k' = CanonicalMIMEHeaderKey k →
  Header_Get k' (Header_Set k v h) = v.
Proof.
  intros Hk. unfold Header_Get, Header_Set. by rewrite Hk, lookup_insert_eq.
Qed.

Lemma Header_Get_Set_eq k v h : Header_Get k (Header_Set k v h) = v.
Proof. by apply Header_Get_Set. Qed.

Lemma Header_Get_Set_ne k k' v h :
  CanonicalMIMEHeaderKey k' ≠ CanonicalMIMEHeaderKey k →
  Header_Get k' (Header_Set k v h) = Header_Get k' h.
Proof.
  intros Hk. unfold Header_Get, Header_Set. by rewrite lookup_insert_ne.
Qed.

Lemma Header_Get_empty k : Header_Get k ∅ = EmptyString.
Proof. unfold Header_Get. by rewrite lookup_empty. Qed.

(** The last [Set] of a key wins. *)
Lemma Header_Set_Set k k' v v' h :
  CanonicalMIMEHeaderKey k' = CanonicalMIMEHeaderKey k →
  Header_Set k' v' (Header_Set k v h) = Header_Set k' v' h.
Proof. intros Hk. unfold Header_Set. by rewrite Hk, insert_insert_eq. Qed.

(** [Set]s of different keys commute. *)
Lemma Header_Set_comm k k' v v' h :
  CanonicalMIMEHeaderKey k' ≠ CanonicalMIMEHeaderKey k →
  Header_Set k' v' (Header_Set k v h) = Header_Set k v (Header_Set k' v' h).
Proof. intros Hk. unfold Header_Set. by rewrite insert_insert_ne. Qed.
End HeaderLemmas.

(** ** Lemmas: bodies *)

Section BodyLemmas.
Implicit Types (w : World) (h : nat) (cs : list chunk).

Lemma read_all_content cs : (read_all cs).1.1 = content cs.
Proof.
  induction cs as [|[b|e] cs IH]; simpl; [done| |done].
  destruct (read_all cs) as [[d e'] r]. simpl in *. by rewrite IH.
Qed.

Lemma read_all_fault cs : (read_all cs).1.2 = fault cs.
Proof.
  induction cs as [|[b|e] cs IH]; simpl; [done| |done].
  by destruct (read_all cs) as [[d e'] r].
Qed.

(** After [ReadAll] nothing is left to read but the fault that stopped it. *)
Lemma read_all_rest cs : content (read_all cs).2 = [] ∧ fault (read_all cs).2 = fault cs.
Proof.
  induction cs as [|[b|e] cs IH]; simpl; [done| |done].
  by destruct (read_all cs) as [[d e'] r].
Qed.

Lemma Close_closed h w b :
  bodies w !! h = Some b →
  bodies (Close h w).2 !! h = Some (Body.close b).
Proof. intros Hb. simpl. by rewrite lookup_alter_eq, Hb. Qed.

Lemma Close_other h h' w : h ≠ h' → bodies (Close h w).2 !! h' = bodies w !! h'.
Proof. intros Hne. simpl. by rewrite lookup_alter_ne. Qed.

Lemma Close_sent h w : sent (Close h w).2 = sent w.
Proof. done. Qed.

Lemma Close_idemp h w : (Close h (Close h w).2).2 = (Close h w).2.
Proof.
  destruct w as [bs st]. unfold Close, set_bodies. st_unfold. simpl. f_equal.
  apply map_eq. intros i. destruct (decide (h = i)) as [->|Hne].
  - rewrite !lookup_alter_eq. by destruct (bs !! i).
  - by rewrite !lookup_alter_ne.
Qed.

Lemma elem_of_open_bodies h w :
  h ∈ open_bodies w ↔ ∃ b, bodies w !! h = Some b ∧ Body.closed b = false.
Proof.
  unfold open_bodies. rewrite elem_of_dom. unfold is_Some.
  setoid_rewrite map_lookup_filter_Some. naive_solver.
Qed.

(** Closing a body removes it from the open bodies, and only it. *)
Lemma open_bodies_Close h w : open_bodies (Close h w).2 = open_bodies w ∖ {[h]}.
Proof.
  apply set_eq. intros i. rewrite elem_of_difference, !elem_of_open_bodies.
  rewrite not_elem_of_singleton. simpl.
  destruct (decide (h = i)) as [->|Hne].
  - rewrite lookup_alter_eq. destruct (bodies w !! i); simpl; naive_solver.
  - rewrite lookup_alter_ne by done. naive_solver.
Qed.

(** Reading does not open or close a body. *)
Lemma open_bodies_ReadAll h w : open_bodies (ReadAll h w).2 = open_bodies w.
Proof.
  unfold ReadAll. destruct (bodies w !! h) as [b|] eqn:Hb; [|done].
  destruct (Body.closed b) eqn:Hc; [done|].
  destruct (read_all (Body.pending b)) as [[d e] r]. simpl.
  apply set_eq. intros i. rewrite !elem_of_open_bodies. simpl.
  destruct (decide (h = i)) as [->|Hne].
  - rewrite lookup_insert_eq, Hb. split; intros (b' & [= <-] & ?); eauto.
  - by rewrite lookup_insert_ne.
Qed.

Lemma ReadAll_sent h w : sent (ReadAll h w).2 = sent w.
Proof.
  unfold ReadAll. destruct (bodies w !! h) as [b|]; [|done].
  destruct (Body.closed b); [done|]. by destruct (read_all (Body.pending b)) as [[d e] r].
Qed.

Lemma ReadAll_other h h' w : h ≠ h' → bodies (ReadAll h w).2 !! h' = bodies w !! h'.
Proof.
  intros Hne. unfold ReadAll. destruct (bodies w !! h) as [b|]; [|done].
  destruct (Body.closed b); [done|]. destruct (read_all (Body.pending b)) as [[d e] r].
  simpl. by rewrite lookup_insert_ne.
Qed.

(** What [ReadAll] returns of an open body. *)
Lemma ReadAll_open h w b :
  bodies w !! h = Some b → Body.closed b = false →
  (ReadAll h w).1 = (content (Body.pending b), fault (Body.pending b)).
Proof.
  intros Hb Hc. unfold ReadAll. rewrite Hb, Hc.
  rewrite <- read_all_content, <- read_all_fault.
  by destruct (read_all (Body.pending b)) as [[d e] r].
Qed.
End BodyLemmas.

(** ** Lemmas: quiet computations *)

Section Quiet.
Context {A B : Type}.

Lemma quiet_ret (a : A) : quiet (mret a).
Proof. by intros w. Qed.

Lemma quiet_bind (m : ST World A) (f : A → ST World B) :
  quiet m → (∀ a, quiet (f a)) → quiet (m ≫= f).
Proof.
  intros Hm Hf w. rewrite ST_bind_run.
  destruct (Hf (m w).1 (m w).2) as [-> ->]. apply Hm.
Qed.

Lemma quiet_ReadAll h : quiet (ReadAll h).
Proof. intros w. by rewrite open_bodies_ReadAll, ReadAll_sent. Qed.
End Quiet.

(** ** Streams of chunks that deliver the same bytes *)

#[global] Instance same_stream_equiv : Equivalence same_stream.
Proof.
  split.
  - by split.
  - intros x y [H1 H2]. split; by symmetry.
  - intros x y z [H1 H2] [H3 H4]. split; congruence.
Qed.

#[global] Instance content_proper : Proper (same_stream ==> eq) content.
Proof. by intros ?? [? ?]. Qed.

#[global] Instance fault_proper : Proper (same_stream ==> eq) fault.
Proof. by intros ?? [? ?]. Qed.

(** [ReadAll] sees the bytes and the fault of a stream, not its chunks. *)
Lemma read_all_same cs1 cs2 :
  same_stream cs1 cs2 → (read_all cs1).1 = (read_all cs2).1.
Proof.
  intros [Hc Hf]. apply injective_projections.
  - by rewrite !read_all_content.
  - by rewrite !read_all_fault.
Qed.

Lemma same_stream_split b1 b2 cs :
  same_stream (Data (b1 ++ b2) :: cs) (Data b1 :: Data b2 :: cs).
Proof. split; simpl; [by rewrite app_assoc|done]. Qed.

Lemma same_stream_empty cs : same_stream (Data [] :: cs) cs.
Proof. by split. Qed.

#[export] Hint Rewrite Header_Get_Set_eq Header_Get_empty open_bodies_Close
  open_bodies_ReadAll ReadAll_sent Close_sent : go.
#[export] Hint Resolve CanonicalMIMEHeaderKey_idemp quiet_ret quiet_ReadAll : go.
