(* ===== verification/Internal.v ===== *)
(** * Internal: the interfaces of package [internal] that the client holds

    The sources of package [internal] are not part of the modelled files;
    the client only calls them through interfaces.  Each interface is a
    record of operations, with the instance the client installs by default
    written from the behaviour the specification and the call sites give it:

    - [RequestBuilder]: [Build] makes the [http.Request] of a call;
    - [FormBuilder]: the multipart form writer of the file upload calls, as
      operations on the form built so far;
    - [ErrorAccumulator]: the byte buffer in which a stream session collects
      a body that is not an event stream. *)

From Stdlib Require Import ZArith Ascii String List.
From stdpp Require Import base tactics option list gmap strings.
From S2P Require Import Prelude Bytes Errors Http.

(** ** The request builder *)

Record RequestBuilder : Type := {
  Build : context → string → string → reqBody → Header → res Request.t;
}.

(** What the client relies on: a request that was built has the method, the
    URL and the header it was asked for. *)
Class BuilderOK (b : RequestBuilder) : Prop := {
  Build_fields ctx method url body header req :
    Build b ctx method url body header = Ok req →
    Request.Ctx req = ctx ∧ Request.Method req = method ∧
    Request.URL req = url ∧ Request.Header req = header;
}.

(** The default builder: the body of a value is its JSON encoding, and a
    value that cannot be encoded fails the build. *)
Definition NewRequestBuilder : RequestBuilder := {|
  Build ctx method url body header :=
    match body with
    | BodyNil => Ok (Request.mk ctx method url header None)
    | BodyReader content => Ok (Request.mk ctx method url header (Some content))
    | BodyValue (Ok encoded) => Ok (Request.mk ctx method url header (Some encoded))
    | BodyValue (Fail e) => Fail e
    end
|}.

(** ** The form builder *)

(** A part of a multipart form. *)
Inductive part : Type :=
| FilePart (fieldname filename contentType : string) (content : bytes)
| FieldPart (fieldname value : string).

(** A form under construction: its parts in the order written, and whether
    it was closed. *)
Module Form.
Record t : Type := mk { parts : list part; closed : bool }.
Definition empty : t := {| parts := []; closed := false |}.
End Form.

(** An [io.Reader] handed to the form builder: its content and, when its
    dynamic type has the methods [Name] and [ContentType], what they
    return. *)
Module Reader.
Record t : Type := mk {
  content : bytes;
  name : option string;
  contentType : option string;
}.
End Reader.

(** The form builder that [createFormBuilder(body)] returns writes into
    [body]; [FormBytes] is what [body] holds.  The reader of a file may be
    the nil interface. *)
Record FormBuilder : Type := {
  CreateFormFileReader : string → option Reader.t → string → Form.t → Form.t * option error;
  WriteField : string → string → Form.t → Form.t * option error;
  FormClose : Form.t → Form.t * option error;
  FormDataContentType : Form.t → string;
  FormBytes : Form.t → bytes;
}.

Definition add_part (p : part) (f : Form.t) : Form.t :=
  {| Form.parts := Form.parts f ++ [p]; Form.closed := Form.closed f |}.

(** The boundary of the default builder, and the encoding of a form: each
    part after a boundary line, with its disposition, and the closing
    boundary once the form is closed. *)
Definition boundary : string := "giteeai-form-boundary".

Definition CRLF : string := String "013" (String "010" EmptyString).

Definition quoted (s : string) : string :=
  (String "034" s ++ String "034" EmptyString)%string.

Definition render_part (p : part) : bytes :=
  match p with
  | FilePart fieldname filename contentType content =>
      bs ("--" ++ boundary ++ CRLF ++ "Content-Disposition: form-data; name=" ++
          quoted fieldname ++ "; filename=" ++ quoted filename ++ CRLF ++
          (if decide (contentType = EmptyString) then EmptyString
           else "Content-Type: " ++ contentType ++ CRLF) ++ CRLF)%string
      ++ content ++ bs CRLF
  | FieldPart fieldname value =>
      bs ("--" ++ boundary ++ CRLF ++ "Content-Disposition: form-data; name=" ++
          quoted fieldname ++ CRLF ++ CRLF ++ value ++ CRLF)%string
  end.

Definition render (f : Form.t) : bytes :=
  concat (render_part <$> Form.parts f) ++
  (if Form.closed f then bs ("--" ++ boundary ++ "--" ++ CRLF)%string else []).

(** The default form builder: every write appends its part, and closing
    marks the form closed.  A file part takes the name of its reader when
    no file name is given, and the content type of its reader when it has
    one.  A nil reader cannot be read: the call fails (the Go code would
    stop with a run-time panic). *)
Definition NewFormBuilder : FormBuilder := {|
  CreateFormFileReader fieldname r filename f :=
    match r with
    | None => (f, Some (ErrExternal "invalid memory address or nil pointer dereference"))
    | Some r =>
        let filename := if decide (filename = EmptyString)
                        then default EmptyString (Reader.name r) else filename in
        let contentType := default EmptyString (Reader.contentType r) in
        (add_part (FilePart fieldname filename contentType (Reader.content r)) f, None)
    end;
  WriteField fieldname value f := (add_part (FieldPart fieldname value) f, None);
  FormClose f := ({| Form.parts := Form.parts f; Form.closed := true |}, None);
  FormDataContentType f := ("multipart/form-data; boundary=" ++ boundary)%string;
  FormBytes := render;
|}.

(** ** The error accumulator *)

Module ErrorAccumulator.
Record t : Type := mk { buffer : bytes }.

(** [NewErrorAccumulator()]. *)
Definition new : t := {| buffer := [] |}.

(** [write(p)]: append to the buffer. *)
Definition Write (p : bytes) (a : t) : t := {| buffer := buffer a ++ p |}.

(** [Bytes()]: what was written, in order. *)
Definition Bytes (a : t) : bytes := buffer a.
End ErrorAccumulator.

(** ** Lemmas *)

#[global] Instance NewRequestBuilder_ok : BuilderOK NewRequestBuilder.
Proof.
  split. intros ctx method url body header req. simpl.
  destruct body as [| |[enc|e]]; intros [= <-]; done.
Qed.

Lemma Write_Bytes p a :
  ErrorAccumulator.Bytes (ErrorAccumulator.Write p a) = ErrorAccumulator.Bytes a ++ p.
Proof. done. Qed.

(** Writing a list of lines accumulates their concatenation. *)
Lemma Write_fold (ls : list bytes) a :
  ErrorAccumulator.Bytes (fold_left (λ a p, ErrorAccumulator.Write p a) ls a) =
  ErrorAccumulator.Bytes a ++ concat ls.
Proof.
  revert a. induction ls as [|l ls IH]; intros a; simpl.
  - by rewrite app_nil_r.
  - rewrite IH. simpl. by rewrite <- app_assoc.
Qed.
