(* ===== verification/Config.v ===== *)
(** * Config: the client configuration (src/config.go)

    [ClientConfig.t] with [DefaultConfig] and [ClientConfig_String], the
    constants of the file, and the interface [HTTPDoer] through which the
    client reaches the network.

    [HTTPDoer] is an interface of the source: any value with a method [Do].
    [DoerOK] states what the client relies on: a call is logged, an error
    leaves no body behind, and a response comes with a body that is new and
    open.  [serve] is the doer of a server given as a function from requests
    to replies; it satisfies [DoerOK], and the witnesses of the development
    run against it. *)

From Stdlib Require Import ZArith NArith Ascii String List.
From stdpp Require Import base tactics option list gmap strings.
From S2P Require Import Prelude Bytes Errors Http.

Set Warnings "-clear-no-such-hyp".

(** ** Constants *)

Definition giteeaiAPIURLv1 : string := "https://ai.gitee.com/v1".
Definition defaultEmptyMessagesLimit : N := 300.
Definition defaultAssistantVersion : string := "v2".

(** The largest [uint]. *)
Definition max_uint : N := 2 ^ 64 - 1.

(** ** The transport *)

Record HTTPDoer : Type := {
  Do : Request.t → ST World (res Response.t);
}.

Class DoerOK (d : HTTPDoer) : Prop := {
  Do_sent req w : sent (Do d req w).2 = sent w ++ [req];
  Do_fail req w e :
    (Do d req w).1 = Fail e → bodies (Do d req w).2 = bodies w;
  Do_ok req w resp :
    (Do d req w).1 = Ok resp →
    bodies w !! Response.Body resp = None ∧
    ∃ b, Body.closed b = false ∧
         bodies (Do d req w).2 = <[Response.Body resp := b]> (bodies w);
}.

(** What a server answers to a request: an error of the transport, or a
    status, a header and the chunks in which the body arrives. *)
Module Reply.
Record t : Type := mk {
  Status : string;
  StatusCode : Z;
  Header : gmap string (list string);
  Chunks : list chunk;
}.
End Reply.

Definition serve (server : Request.t → res Reply.t) : HTTPDoer := {|
  Do req := λ w,
    let w1 := log_request req w in
    match server req with
    | Fail e => (Fail e, w1)
    | Ok r =>
        let h := fresh (dom (bodies w)) in
        (Ok (Response.mk (Reply.Status r) (Reply.StatusCode r) (Reply.Header r) h),
         set_bodies <[h := Body.mk (Reply.Chunks r) false]> w1)
    end
|}.

(** ** The configuration *)

Module ClientConfig.
Record t : Type := mk {
  authToken : string;
  BaseURL : string;
  AssistantVersion : string;
  HTTPClient : HTTPDoer;
  EmptyMessagesLimit : N;
}.
End ClientConfig.

(** A configuration as Go can hold it: the limit is a [uint]. *)
Definition config_wf (c : ClientConfig.t) : Prop :=
  (ClientConfig.EmptyMessagesLimit c ≤ max_uint)%N.

Section Default.
(** [&http.Client{}]: the transport of the standard library. *)
Context (http_Client : HTTPDoer).

Definition DefaultConfig (authToken : string) : ClientConfig.t := {|
  ClientConfig.authToken := authToken;
  ClientConfig.BaseURL := giteeaiAPIURLv1;
  ClientConfig.AssistantVersion := defaultAssistantVersion;
  ClientConfig.HTTPClient := http_Client;
  ClientConfig.EmptyMessagesLimit := defaultEmptyMessagesLimit;
|}.
End Default.

(** [ClientConfig.String()]: a constant, so that printing a configuration
    never shows the token. *)
Definition ClientConfig_String (c : ClientConfig.t) : string :=
  "<GiteeAI API ClientConfig>".

(** ** Lemmas *)

#[global] Instance serve_ok server : DoerOK (serve server).
Proof.
  split.
  - intros req w. simpl. by destruct (server req).
  - intros req w e. simpl. by destruct (server req).
  - intros req w resp. simpl. destruct (server req) as [r|e]; [|done].
    intros [= <-]. simpl. split.
    + apply not_elem_of_dom, is_fresh.
    + by eexists (Body.mk _ false).
Qed.

Section DoerLemmas.
Context (d : HTTPDoer) `{!DoerOK d}.
Implicit Types (w : World) (req : Request.t).

(** A call that fails opens nothing. *)
Lemma Do_fail_open req w e :
  (Do d req w).1 = Fail e → open_bodies (Do d req w).2 = open_bodies w.
Proof.
  intros H. unfold open_bodies. by rewrite (Do_fail _ _ _ H).
Qed.

(** A call that succeeds opens exactly the body of its response. *)
Lemma Do_ok_open req w resp :
  (Do d req w).1 = Ok resp →
  open_bodies (Do d req w).2 = {[Response.Body resp]} ∪ open_bodies w ∧
  Response.Body resp ∉ open_bodies w.
Proof.
  intros H. destruct (Do_ok _ _ _ H) as (Hnew & b & Hb & Heq). split.
  - unfold open_bodies. rewrite Heq.
    rewrite map_filter_insert_True by done. by rewrite dom_insert_L.
  - rewrite elem_of_open_bodies. intros (b' & Hb' & _). congruence.
Qed.

Lemma Do_ok_lookup req w resp :
  (Do d req w).1 = Ok resp →
  ∃ b, bodies (Do d req w).2 !! Response.Body resp = Some b ∧ Body.closed b = false.
Proof.
  intros H. destruct (Do_ok _ _ _ H) as (_ & b & Hb & Heq).
  exists b. by rewrite Heq, lookup_insert_eq.
Qed.
End DoerLemmas.

Lemma DefaultConfig_wf d token : config_wf (DefaultConfig d token).
Proof. unfold config_wf. simpl. by vm_compute. Qed.
