(* ===== verification/Fixtures.v ===== *)
(** * Fixtures: the servers, bodies and codecs of the examples

    The theorems of the development hold for every transport that satisfies
    [DoerOK] and for every JSON codec.  Their witnesses need one of each:
    this file has a payload type [Echo] that keeps the bytes it is decoded
    from, a codec for error bodies that knows the bodies of this file, and
    servers that answer every request with a fixed reply.  Nothing here is
    used by a definition that models the client. *)

From Stdlib Require Import ZArith NArith Ascii String List.
From stdpp Require Import base tactics option list gmap strings.
From S2P Require Import Prelude Bytes Errors Http Internal Config.

#[local] Open Scope string_scope.

(** ** JSON text *)

(** The double quote. *)
Definition dq : ascii := "034"%char.

(** JSON text written with single quotes in place of double quotes. *)
Definition jq (s : string) : bytes :=
  (λ c : ascii, if decide (c = "'"%char) then dq else c) <$> bs s.

(** ** A payload that keeps its bytes *)

Module Echo.
Record t : Type := mk { Payload : bytes; Seen : gmap string (list string) }.
End Echo.

#[global] Instance Echo_zero : Zero Echo.t := Echo.mk [] ∅.

(** As [json.Unmarshal] would, the codec of [Echo] accepts an object and
    nothing else. *)
Definition is_object (data : bytes) : bool :=
  match data with
  | c :: _ => bool_decide (c = "{"%char)
  | [] => false
  end.

Definition Echo_unmarshal : Unmarshal Echo.t := λ data x,
  if is_object data then (Echo.mk data (Echo.Seen x), None)
  else (x, Some (ErrExternal "invalid character looking for beginning of value")).

Definition Echo_decode : Decode Echo.t := λ data rerr x,
  match data, rerr with
  | [], None => (x, Some EOF)
  | [], Some e => (x, Some e)
  | _, _ => Echo_unmarshal data x
  end.

(** ** Error bodies *)

Definition invalid_key_body : bytes :=
  jq "{'error':{'message':'Incorrect API key provided','type':'invalid_request_error','code':'invalid_api_key'}}".

Definition invalid_key_error : APIError.t := {|
  APIError.Code := AnyString "invalid_api_key";
  APIError.Message := "Incorrect API key provided";
  APIError.Type_ := "invalid_request_error";
  APIError.HTTPStatus := "";
  APIError.HTTPStatusCode := 0;
|}.

(** A body that is not JSON. *)
Definition gateway_body : bytes := bs "<html>502 Bad Gateway</html>".

(** The codec of error bodies: it knows [invalid_key_body], takes any other
    object for an envelope without an error, and refuses the rest. *)
Definition ErrorResponse_unmarshal : Unmarshal ErrorResponse.t := λ data x,
  if decide (data = invalid_key_body)
  then (ErrorResponse.mk (Some invalid_key_error), None)
  else if is_object data then (x, None)
  else (x, Some (ErrExternal "invalid character looking for beginning of value")).

(** ** Servers *)

(** The server that answers every request with [r]. *)
Definition always (r : Reply.t) : HTTPDoer := serve (λ _, Ok r).

(** The server that cannot be reached. *)
Definition unreachable : HTTPDoer :=
  serve (λ _, Fail (ErrExternal "dial tcp: connection refused")).

Definition reply_401 : Reply.t :=
  Reply.mk "401 Unauthorized" 401 ∅ [Data invalid_key_body].

Definition reply_502 : Reply.t :=
  Reply.mk "502 Bad Gateway" 502 ∅ [Data gateway_body].

Definition reply_200 (chunks : list chunk) : Reply.t :=
  Reply.mk "200 OK" 200 (Header_Set "Content-Type" "application/json" ∅) chunks.

(** A request as a caller would build it. *)
Definition a_request : Request.t :=
  Request.mk Background "POST" "https://ai.gitee.com/v1/completions" ∅
    (Some (jq "{'model':'qwen2-7b-instruct'}")).

(** ** Lemmas *)

#[global] Instance always_ok r : DoerOK (always r).
Proof. apply serve_ok. Qed.

#[global] Instance unreachable_ok : DoerOK unreachable.
Proof. apply serve_ok. Qed.

Lemma jq_no_quote s : "'"%char ∉ jq s.
Proof.
  unfold jq. induction (bs s) as [|c l IH]; simpl; [apply not_elem_of_nil|].
  rewrite not_elem_of_cons. split; [|done]. by case_decide.
Qed.
