(* ===== verification/Client.v ===== *)
(** * Client: the API client (src/client.go)

    Every type and function of client.go, in the order of the file: the
    [Client], the [Response] interface and [httpHeader], the request options
    and [newRequest], the three ways to send a request ([sendRequest],
    [sendRequestRaw], [sendRequestStream]), [isFailureStatusCode], the
    decoding of a response body and [handleErrorResp].

    A function that touches the network or a response body is a function
    into [ST World]; a Go pointer argument that the function writes through
    ([v] of [sendRequest], [output] of [decodeString]) is an argument whose
    new value is returned with the error.

    The theorems: the classification of status codes, the shape of the error
    [handleErrorResp] returns on every branch, that [sendRequest] closes the
    body of every response it receives and that [sendRequestRaw] and
    [sendRequestStream] hand an open body to their caller on success but
    leave it open on a failure status as well, the headers of the request
    that reaches the transport, and the authorization header of
    [newRequest]. *)

From Stdlib Require Import ZArith NArith Ascii String List Lia.
From stdpp Require Import base tactics option list gmap strings.
From S2P Require Import Prelude Bytes Errors Http Internal Config Fixtures.

Set Warnings "-clear-no-such-hyp".
#[local] Open Scope string_scope.

(** ** The client *)

Record Client : Type := mkClient {
  config : ClientConfig.t;
  requestBuilder : RequestBuilder;
  createFormBuilder : FormBuilder;
}.

(** ** Responses *)

(** The interface [Response]: a value that can take the header of the HTTP
    response. *)
Class Response (T : Type) : Type := SetHeader : Header → T → T.
#[global] Hint Mode Response ! : typeclass_instances.

(** [type httpHeader http.Header]. *)
Record httpHeader : Type := mk_httpHeader { as_Header : Header }.

#[global] Instance httpHeader_zero : Zero httpHeader := mk_httpHeader ∅.

#[global] Instance httpHeader_SetHeader : Response httpHeader :=
  λ header _, mk_httpHeader header.

Definition httpHeader_Header (h : httpHeader) : Header := as_Header h.

Section RateLimit.
(** [newRateLimitHeaders], of a file that is not modelled. *)
Context {RateLimitHeaders : Type} (newRateLimitHeaders : Header → RateLimitHeaders).

Definition GetRateLimitHeaders (h : httpHeader) : RateLimitHeaders :=
  newRateLimitHeaders (httpHeader_Header h).
End RateLimit.

(** [RawResponse]: the body of a response, to be read and closed by the
    caller, with the header. [None] is the nil [ReadCloser]. *)
Module RawResponse.
Record t : Type := mk { ReadCloser : option nat; header : httpHeader }.
End RawResponse.

#[global] Instance RawResponse_zero : Zero RawResponse.t :=
  RawResponse.mk None zero.

#[global] Instance RawResponse_SetHeader : Response RawResponse.t :=
  λ h r, RawResponse.mk (RawResponse.ReadCloser r) (SetHeader h (RawResponse.header r)).

(** ** Construction *)

Definition NewClientWithConfig (config : ClientConfig.t) : Client := {|
  config := config;
  requestBuilder := NewRequestBuilder;
  createFormBuilder := NewFormBuilder;
|}.

Definition NewClient (http_Client : HTTPDoer) (authToken : string) : Client :=
  let config := DefaultConfig http_Client authToken in
  NewClientWithConfig config.

(** ** Request options *)

Module requestOptions.
Record t : Type := mk { body : reqBody; header : gmap string (list string) }.
End requestOptions.

Definition requestOption : Type := requestOptions.t → requestOptions.t.

Definition withBody (body : reqBody) : requestOption :=
  λ args, requestOptions.mk body (requestOptions.header args).

Definition withContentType (contentType : string) : requestOption :=
  λ args, requestOptions.mk (requestOptions.body args)
            (Header_Set "Content-Type" contentType (requestOptions.header args)).

Definition withBetaAssistantVersion (version : string) : requestOption :=
  λ args, requestOptions.mk (requestOptions.body args)
            (Header_Set "OpenAI-Beta" ("assistants=" ++ version) (requestOptions.header args)).

Definition setCommonHeaders (c : Client) (req : Request.t) : Request.t :=
  if decide (ClientConfig.authToken (config c) ≠ "")
  then Request.SetHeader "Authorization"
         ("Bearer " ++ ClientConfig.authToken (config c)) req
  else req.

Definition newRequest (c : Client) (ctx : context) (method url : string)
    (setters : list requestOption) : res Request.t :=
  let args := requestOptions.mk BodyNil ∅ in
  let args := fold_left (λ args setter, setter args) setters args in
  match Build (requestBuilder c) ctx method url
          (requestOptions.body args) (requestOptions.header args) with
  | Fail err => Fail err
  | Ok req => Ok (setCommonHeaders c req)
  end.

(** ** Status codes *)

Definition isFailureStatusCode (resp : Response.t) : bool :=
  (Response.StatusCode resp <? StatusOK)%Z || (StatusBadRequest <=? Response.StatusCode resp)%Z.

(** ** Error responses *)

Section HandleError.
Context `{!Unmarshal ErrorResponse.t}.

Definition handleErrorResp (c : Client) (resp : Response.t) : ST World error :=
  '(body, err) ← ReadAll (Response.Body resp);
  match err with
  | Some err => mret (ErrWrap "error, reading response body: %w" err)
  | None =>
      let '(errRes, err) := unmarshal body (zero : ErrorResponse.t) in
      match err, ErrorResponse.Error errRes with
      | None, Some apiErr =>
          mret (ErrAPI (APIError.set_status (Response.Status resp)
                          (Response.StatusCode resp) apiErr))
      | _, errResError =>
          let reqErr := mkRequestError (Response.Status resp)
                          (Response.StatusCode resp) err body in
          let reqErr := match errResError with
                        | Some apiErr => RequestErr.set_Err (Some (ErrAPI apiErr)) reqErr
                        | None => reqErr
                        end in
          mret (ErrRequest reqErr)
      end
  end.
End HandleError.

(** ** Decoding a response body *)

(** [audioTextResponse], of a file that is not modelled: client.go reads its
    field [Text] and passes it where a [Response] is expected. *)
Module audioTextResponse.
Record t : Type := mk { Text : string; header : httpHeader }.
Definition set_Text (s : string) (r : t) : t := {| Text := s; header := header r |}.
End audioTextResponse.

(** The argument [v] of [sendRequest] and [decodeResponse] by its dynamic
    type, as the type switch of [decodeResponse] tells them apart. *)
Inductive target (T : Type) : Type :=
| NilTarget                                   (* nil *)
| StringTarget (s : string)                   (* *string *)
| AudioTextTarget (r : audioTextResponse.t)   (* *audioTextResponse *)
| OtherTarget (v : T).                        (* a pointer to any other type *)
Arguments NilTarget {T}.
Arguments StringTarget {T} s.
Arguments AudioTextTarget {T} r.
Arguments OtherTarget {T} v.

Definition is_nil {T} (v : target T) : bool :=
  match v with NilTarget => true | _ => false end.

(** [v.SetHeader(h)] on the dynamic type of [v]. A [*string] is not a
    [Response]: Go's typing keeps it out of [sendRequest], and it is left as
    it is here. *)
Definition target_SetHeader {T} `{!Response T} (h : Header) (v : target T) : target T :=
  match v with
  | NilTarget => NilTarget
  | StringTarget s => StringTarget s
  | AudioTextTarget r =>
      AudioTextTarget (audioTextResponse.mk (audioTextResponse.Text r)
                         (SetHeader h (audioTextResponse.header r)))
  | OtherTarget x => OtherTarget (SetHeader h x)
  end.

(** The value behind the pointer [v], for a caller that passed [&d]. *)
Definition deref {T} (d : T) (v : target T) : T :=
  match v with
  | OtherTarget x => x
  | _ => d
  end.

Definition decodeString (body : nat) (output : string) : ST World (string * option error) :=
  '(b, err) ← ReadAll body;
  match err with
  | Some err => mret (output, Some err)
  | None => mret (string_of_bytes b, None)
  end.

Definition decodeResponse {T} `{!Decode T} (body : nat) (v : target T) :
    ST World (target T * option error) :=
  match v with
  | NilTarget => mret (NilTarget, None)
  | StringTarget o =>
      '(o', err) ← decodeString body o; mret (StringTarget o', err)
  | AudioTextTarget o =>
      '(text, err) ← decodeString body (audioTextResponse.Text o);
      mret (AudioTextTarget (audioTextResponse.set_Text text o), err)
  | OtherTarget x =>
      '(data, rerr) ← ReadAll body;
      let '(x', err) := decode data rerr x in
      mret (OtherTarget x', err)
  end.

(** ** Sending a request *)

Section Send.
Context {T : Type} `{!Response T, !Decode T, !Unmarshal ErrorResponse.t}.

Definition sendRequest (c : Client) (req : Request.t) (v : target T) :
    ST World (target T * option error) :=
  let req := Request.SetHeader "Accept" "application/json" req in
  let contentType := Header_Get "Content-Type" (Request.Header req) in
  let req := if decide (contentType = "")
             then Request.SetHeader "Content-Type" "application/json" req
             else req in
  r ← Do (ClientConfig.HTTPClient (config c)) req;
  match r with
  | Fail err => mret (v, Some err)
  | Ok res =>
      (* [defer res.Body.Close()] runs after the result is computed *)
      let v := if is_nil v then v else target_SetHeader (Response.Header res) v in
      '(v, err) ← (if isFailureStatusCode res
                   then err ← handleErrorResp c res; mret (v, Some err)
                   else decodeResponse (Response.Body res) v);
      _ ← Close (Response.Body res);
      mret (v, err)
  end.
End Send.

Section SendRaw.
Context `{!Unmarshal ErrorResponse.t}.

Definition sendRequestRaw (c : Client) (req : Request.t) :
    ST World (RawResponse.t * option error) :=
  r ← Do (ClientConfig.HTTPClient (config c)) req;
  match r with
  | Fail err => mret (zero, Some err)
  | Ok resp =>
      if isFailureStatusCode resp
      then err ← handleErrorResp c resp; mret (zero, Some err)
      else
        let response := SetHeader (Response.Header resp) (zero : RawResponse.t) in
        let response := RawResponse.mk (Some (Response.Body resp))
                          (RawResponse.header response) in
        mret (response, None)
  end.
End SendRaw.

(** ** Streams *)

(** A stream session. The first six fields are those [sendRequestStream]
    fills; the last three are the state the specification gives a session:
    the count of empty reads since the last event, whether the session was
    closed, and the terminal condition once one was produced. The zero value
    has no reader and no response. *)
Module streamReader.
Record t (T : Type) : Type := mk {
  emptyMessagesLimit : N;
  reader : option Bufio.t;
  response : option Response.t;
  errAccumulator : ErrorAccumulator.t;
  unmarshaler : option (bytes → T → T * option error);
  header : httpHeader;
  consecutiveEmptyReads : N;
  closed : bool;
  terminalError : option error;
}.
Arguments mk {T}.
Arguments emptyMessagesLimit {T}.
Arguments reader {T}.
Arguments response {T}.
Arguments errAccumulator {T}.
Arguments unmarshaler {T}.
Arguments header {T}.
Arguments consecutiveEmptyReads {T}.
Arguments closed {T}.
Arguments terminalError {T}.
End streamReader.

#[global] Instance streamReader_zero {T} : Zero (streamReader.t T) :=
  streamReader.mk 0 None None ErrorAccumulator.new None zero 0 false None.

Section SendStream.
Context {T : Type} `{!Unmarshal T, !Unmarshal ErrorResponse.t}.

Definition sendRequestStream (client : Client) (req : Request.t) :
    ST World (streamReader.t T * option error) :=
  let req := Request.SetHeader "Content-Type" "application/json" req in
  let req := Request.SetHeader "Accept" "text/event-stream" req in
  let req := Request.SetHeader "Cache-Control" "no-cache" req in
  let req := Request.SetHeader "Connection" "keep-alive" req in
  r ← Do (ClientConfig.HTTPClient (config client)) req;
  match r with
  | Fail err => mret (zero, Some err)
  | Ok resp =>
      if isFailureStatusCode resp
      then err ← handleErrorResp client resp; mret (zero, Some err)
      else mret (streamReader.mk
                   (ClientConfig.EmptyMessagesLimit (config client))
                   (Some (Bufio.NewReader (Response.Body resp)))
                   (Some resp)
                   ErrorAccumulator.new
                   (Some unmarshal)
                   (mk_httpHeader (Response.Header resp))
                   0 false None,
                 None)
  end.
End SendStream.

(** ** URLs *)

Module fullURLOptions.
Record t : Type := mk { model : string }.
End fullURLOptions.

Definition fullURLOption : Type := fullURLOptions.t → fullURLOptions.t.

Definition withModel (model : string) : fullURLOption :=
  λ args, fullURLOptions.mk model.

(** [fullURL]: the setters are accepted and never applied. *)
Definition fullURL (c : Client) (suffix : string) (setters : list fullURLOption) : string :=
  let baseURL := ClientConfig.BaseURL (config c) in
  baseURL ++ suffix.

(** ** Specification-level names

    The requests that reach the transport and the handling of a response,
    named so that the theorems can state them; the functions above do not
    use these names. *)

(** The request as [sendRequest] hands it to the transport. *)
Definition jsonRequest (req : Request.t) : Request.t :=
  let req := Request.SetHeader "Accept" "application/json" req in
  if decide (Header_Get "Content-Type" (Request.Header req) = "")
  then Request.SetHeader "Content-Type" "application/json" req
  else req.

(** The request as [sendRequestStream] hands it to the transport. *)
Definition eventStreamRequest (req : Request.t) : Request.t :=
  Request.SetHeader "Connection" "keep-alive"
    (Request.SetHeader "Cache-Control" "no-cache"
      (Request.SetHeader "Accept" "text/event-stream"
        (Request.SetHeader "Content-Type" "application/json" req))).

(** What [sendRequest] does with a response before it closes the body. *)
Definition respond {T} `{!Response T, !Decode T, !Unmarshal ErrorResponse.t}
    (c : Client) (v : target T) (res : Response.t) : ST World (target T * option error) :=
  let v := if is_nil v then v else target_SetHeader (Response.Header res) v in
  if isFailureStatusCode res
  then err ← handleErrorResp c res; mret (v, Some err)
  else decodeResponse (Response.Body res) v.

(** The end of every endpoint function: return the error of [newRequest],
    or send the request with [&response] as the target and return what
    [response] holds then. *)
Definition sendInto {T} `{!Response T, !Decode T, !Unmarshal ErrorResponse.t}
    (c : Client) (req : res Request.t) (response : T) : ST World (T * option error) :=
  match req with
  | Fail err => mret (response, Some err)
  | Ok req =>
      '(v, err) ← sendRequest c req (OtherTarget response);
      mret (deref response v, err)
  end.

(** The session [sendRequestStream] returns for a response. *)
Definition sessionOf {T} `{!Unmarshal T} (client : Client) (resp : Response.t) :
    streamReader.t T :=
  streamReader.mk (ClientConfig.EmptyMessagesLimit (config client))
    (Some (Bufio.NewReader (Response.Body resp))) (Some resp)
    ErrorAccumulator.new (Some unmarshal) (mk_httpHeader (Response.Header resp))
    0 false None.

(** Two header keys with different canonical forms. *)
Ltac key_ne := vm_compute; congruence.

(** * Theorems *)

(** ** Status codes *)

Lemma isFailureStatusCode_false resp :
  isFailureStatusCode resp = false ↔ (200 ≤ Response.StatusCode resp < 400)%Z.
Proof. unfold isFailureStatusCode, StatusOK, StatusBadRequest. lia. Qed.

Lemma isFailureStatusCode_true resp :
  isFailureStatusCode resp = true ↔
  (Response.StatusCode resp < 200 ∨ 400 ≤ Response.StatusCode resp)%Z.
Proof. unfold isFailureStatusCode, StatusOK, StatusBadRequest. lia. Qed.

(** ** Requests that reach the transport *)

Lemma jsonRequest_Accept req :
  Header_Get "Accept" (Request.Header (jsonRequest req)) = "application/json".
Proof.
  unfold jsonRequest. case_decide; simpl.
  - rewrite Header_Get_Set_ne by key_ne. by rewrite Header_Get_Set_eq.
  - by rewrite Header_Get_Set_eq.
Qed.

Lemma jsonRequest_ContentType req :
  Header_Get "Content-Type" (Request.Header (jsonRequest req)) =
  if decide (Header_Get "Content-Type" (Request.Header req) = "")
  then "application/json" else Header_Get "Content-Type" (Request.Header req).
Proof.
  unfold jsonRequest. simpl.
  rewrite (Header_Get_Set_ne "Accept" "Content-Type") by key_ne.
  case_decide; simpl; [by rewrite Header_Get_Set_eq|].
  by rewrite Header_Get_Set_ne by key_ne.
Qed.

Lemma jsonRequest_fields req :
  Request.Method (jsonRequest req) = Request.Method req ∧
  Request.URL (jsonRequest req) = Request.URL req ∧
  Request.Body (jsonRequest req) = Request.Body req ∧
  Request.Ctx (jsonRequest req) = Request.Ctx req.
Proof. unfold jsonRequest. by case_decide. Qed.

Lemma eventStreamRequest_headers req :
  let h := Request.Header (eventStreamRequest req) in
  Header_Get "Content-Type" h = "application/json" ∧
  Header_Get "Accept" h = "text/event-stream" ∧
  Header_Get "Cache-Control" h = "no-cache" ∧
  Header_Get "Connection" h = "keep-alive".
Proof.
  unfold eventStreamRequest. simpl.
  repeat split;
    repeat first [ by rewrite Header_Get_Set_eq
                 | rewrite Header_Get_Set_ne by key_ne ].
Qed.

(** ** [handleErrorResp] *)

Section HandleErrorTheorems.
Context `{!Unmarshal ErrorResponse.t}.
Implicit Types (c : Client) (resp : Response.t) (w : World) (b : Body.t).

Lemma handleErrorResp_quiet c resp : quiet (handleErrorResp c resp).
Proof.
  unfold handleErrorResp. apply quiet_bind; [apply quiet_ReadAll|].
  intros [body [err|]]; [apply quiet_ret|].
  destruct (unmarshal body zero) as [errRes [e|]]; [apply quiet_ret|].
  destruct (ErrorResponse.Error errRes); apply quiet_ret.
Qed.

(** The error [handleErrorResp] returns, branch by branch, from what reading
    the body gives. *)
Lemma handleErrorResp_run c resp w :
  (handleErrorResp c resp w).1 =
  match (ReadAll (Response.Body resp) w).1 with
  | (_, Some err) => ErrWrap "error, reading response body: %w" err
  | (body, None) =>
      let '(errRes, err) := unmarshal body (zero : ErrorResponse.t) in
      match err, ErrorResponse.Error errRes with
      | None, Some a =>
          ErrAPI (APIError.set_status (Response.Status resp) (Response.StatusCode resp) a)
      | _, Some a =>
          ErrRequest (mkRequestError (Response.Status resp) (Response.StatusCode resp)
                        (Some (ErrAPI a)) body)
      | _, None =>
          ErrRequest (mkRequestError (Response.Status resp) (Response.StatusCode resp)
                        err body)
      end
  end.
Proof.
  unfold handleErrorResp. rewrite ST_bind_run.
  destruct (ReadAll _ w) as [[body [err|]] w']; simpl; [done|].
  destruct (unmarshal body zero) as [errRes [e|]]; simpl;
    by destruct (ErrorResponse.Error errRes).
Qed.

(** C20: A body that decodes to an error object becomes that [APIError], with the
    status of the response written into it. *)
Theorem handleErrorResp_structured c resp w b errRes a :
  bodies w !! Response.Body resp = Some b → Body.closed b = false →
  fault (Body.pending b) = None →
  unmarshal (content (Body.pending b)) zero = (errRes, None) →
  ErrorResponse.Error errRes = Some a →
  (handleErrorResp c resp w).1 =
    ErrAPI (APIError.set_status (Response.Status resp) (Response.StatusCode resp) a).
Proof.
  intros Hb Hc Hf Hu Ha. rewrite handleErrorResp_run, (ReadAll_open _ _ _ Hb Hc), Hf.
  by rewrite Hu, Ha.
Qed.

(** C21: A body that does not decode to an error object is never dropped: the
    [RequestError] holds its bytes as they were read, and the status. *)
Theorem handleErrorResp_fallback c resp w b :
  bodies w !! Response.Body resp = Some b → Body.closed b = false →
  fault (Body.pending b) = None →
  (∀ errRes a, unmarshal (content (Body.pending b)) zero = (errRes, None) →
               ErrorResponse.Error errRes ≠ Some a) →
  ∃ cause, (handleErrorResp c resp w).1 =
    ErrRequest (mkRequestError (Response.Status resp) (Response.StatusCode resp)
                  cause (content (Body.pending b))).
Proof.
  intros Hb Hc Hf Hno. rewrite handleErrorResp_run, (ReadAll_open _ _ _ Hb Hc), Hf.
  destruct (unmarshal _ zero) as [errRes [e|]] eqn:Hu.
  - destruct (ErrorResponse.Error errRes); eauto.
  - destruct (ErrorResponse.Error errRes) as [a|] eqn:Ha; [|eauto].
    by destruct (Hno errRes a).
Qed.

(** Whatever the body holds, when it can be read the error carries the
    status code of the response. *)
Theorem handleErrorResp_status c resp w b :
  bodies w !! Response.Body resp = Some b → Body.closed b = false →
  fault (Body.pending b) = None →
  status_code_of (handleErrorResp c resp w).1 = Some (Response.StatusCode resp).
Proof.
  intros Hb Hc Hf. rewrite handleErrorResp_run, (ReadAll_open _ _ _ Hb Hc), Hf.
  destruct (unmarshal _ zero) as [errRes [e|]];
    by destruct (ErrorResponse.Error errRes).
Qed.

(** A body that cannot be read gives the read error, wrapped. *)
Theorem handleErrorResp_read_error c resp w b e :
  bodies w !! Response.Body resp = Some b → Body.closed b = false →
  fault (Body.pending b) = Some e →
  (handleErrorResp c resp w).1 = ErrWrap "error, reading response body: %w" e.
Proof.
  intros Hb Hc Hf. by rewrite handleErrorResp_run, (ReadAll_open _ _ _ Hb Hc), Hf.
Qed.
End HandleErrorTheorems.

(** ** [sendRequest] *)

Section SendTheorems.
Context {T : Type} `{!Response T, !Decode T, !Unmarshal ErrorResponse.t}.
Implicit Types (c : Client) (req : Request.t) (v : target T) (w : World).

Lemma decodeString_quiet body o : quiet (decodeString body o).
Proof.
  unfold decodeString. apply quiet_bind; [apply quiet_ReadAll|].
  intros [b [e|]]; apply quiet_ret.
Qed.

Lemma decodeResponse_quiet body v : quiet (decodeResponse body v).
Proof.
  destruct v as [|o|o|x]; simpl; [apply quiet_ret|..];
    (apply quiet_bind; [first [apply decodeString_quiet|apply quiet_ReadAll]|]);
    intros [??]; try destruct (decode _ _ _); apply quiet_ret.
Qed.

Lemma respond_quiet c v res : quiet (respond c v res).
Proof.
  unfold respond. destruct (isFailureStatusCode res); [|apply decodeResponse_quiet].
  apply quiet_bind; [apply handleErrorResp_quiet|]. intros e. apply quiet_ret.
Qed.

(** [sendRequest] is: hand [jsonRequest req] to the transport, [respond] to
    the response, close the body. *)
Lemma sendRequest_unfold c req v w :
  sendRequest c req v w =
  match Do (ClientConfig.HTTPClient (config c)) (jsonRequest req) w with
  | (Fail err, w1) => ((v, Some err), w1)
  | (Ok res, w1) =>
      ((respond c v res w1).1, (Close (Response.Body res) (respond c v res w1).2).2)
  end.
Proof.
  unfold sendRequest. fold (jsonRequest req). rewrite ST_bind_run.
  destruct (Do _ _ w) as [[res|err] w1]; cbn [fst snd]; [|done].
  fold (respond c v res). rewrite ST_bind_run.
  by destruct (respond c v res w1) as [[v1 e1] w2].
Qed.

Lemma sendRequest_open c req v w :
  DoerOK (ClientConfig.HTTPClient (config c)) →
  open_bodies (sendRequest c req v w).2 = open_bodies w.
Proof.
  intros Hd. rewrite sendRequest_unfold.
  destruct (Do _ _ w) as [[res|err] w1] eqn:HDo; cbn [snd].
  - destruct (Do_ok_open _ (jsonRequest req) w res) as [Hopen Hnew]; [by rewrite HDo|].
    rewrite HDo in Hopen. cbn [snd] in Hopen.
    rewrite open_bodies_Close. destruct (respond_quiet c v res w1) as [-> _].
    rewrite Hopen. set_solver.
  - rewrite <- (Do_fail_open _ (jsonRequest req) w err); by rewrite HDo.
Qed.

Lemma sendRequest_log c req v w :
  DoerOK (ClientConfig.HTTPClient (config c)) →
  sent (sendRequest c req v w).2 = (sent w ++ [jsonRequest req])%list.
Proof.
  intros Hd. rewrite sendRequest_unfold, <- (Do_sent (jsonRequest req) w).
  destruct (Do _ _ w) as [[res|err] w1]; cbn [snd]; [|done].
  rewrite Close_sent. by destruct (respond_quiet c v res w1) as [_ ->].
Qed.

(** C2: Every body [sendRequest] receives is closed when it returns, on the
    failure paths as on success: the open bodies are those that were open
    before the call. *)
Theorem sendRequest_closes_body c req v w :
  DoerOK (ClientConfig.HTTPClient (config c)) →
  open_bodies (sendRequest c req v w).2 = open_bodies w.
Proof. apply sendRequest_open. Qed.

(** [sendRequest] hands exactly one request to the transport:
    [jsonRequest req]. *)
Theorem sendRequest_sent c req v w :
  DoerOK (ClientConfig.HTTPClient (config c)) →
  sent (sendRequest c req v w).2 = (sent w ++ [jsonRequest req])%list.
Proof. apply sendRequest_log. Qed.

(** What an endpoint function leaves behind: no open body, and at most the
    one request it made. *)
Lemma sendInto_open c (rq : res Request.t) (x : T) w :
  DoerOK (ClientConfig.HTTPClient (config c)) →
  open_bodies (sendInto c rq x w).2 = open_bodies w.
Proof.
  intros Hd. destruct rq as [req|err]; simpl; [|done]. rewrite ST_bind_run.
  rewrite <- (sendRequest_open c req (OtherTarget x) w Hd).
  by destruct (sendRequest c req (OtherTarget x) w) as [[v e] w1].
Qed.

Lemma sendInto_sent c (rq : res Request.t) (x : T) w :
  DoerOK (ClientConfig.HTTPClient (config c)) →
  sent (sendInto c rq x w).2 =
  (sent w ++ match rq with Ok req => [jsonRequest req] | Fail _ => [] end)%list.
Proof.
  intros Hd. destruct rq as [req|err]; simpl; [|by rewrite app_nil_r].
  rewrite ST_bind_run, <- (sendRequest_log c req (OtherTarget x) w Hd).
  by destruct (sendRequest c req (OtherTarget x) w) as [[v e] w1].
Qed.

(** The error of [newRequest] is returned without a call of the
    transport. *)
Lemma sendInto_Fail c err (x : T) w : sendInto c (Fail err) x w = ((x, Some err), w).
Proof. done. Qed.

(** An error of the transport is returned as it is, and [v] is untouched. *)
Theorem sendRequest_transport_error c req v w err :
  (Do (ClientConfig.HTTPClient (config c)) (jsonRequest req) w).1 = Fail err →
  (sendRequest c req v w).1 = (v, Some err).
Proof.
  intros HDo. rewrite sendRequest_unfold.
  destruct (Do _ _ w) as [[res|err'] w1]; simplify_eq/=; done.
Qed.

(** On a failure status the body is not decoded into [v]: [v] gets the
    header of the response and nothing else, and the error is that of
    [handleErrorResp]. *)
Theorem sendRequest_failure_status c req v w res :
  (Do (ClientConfig.HTTPClient (config c)) (jsonRequest req) w).1 = Ok res →
  isFailureStatusCode res = true →
  (sendRequest c req v w).1 =
    (target_SetHeader (Response.Header res) v,
     Some (handleErrorResp c res (Do (ClientConfig.HTTPClient (config c)) (jsonRequest req) w).2).1).
Proof.
  intros HDo Hfail. rewrite sendRequest_unfold.
  destruct (Do _ _ w) as [[res'|err'] w1]; simplify_eq/=.
  unfold respond. rewrite Hfail, ST_bind_run. simpl. by destruct v.
Qed.

(** C22: On a success status a JSON target is decoded from the bytes of the body,
    after it got the header of the response. *)
Theorem sendRequest_success c req (x : T) w res b :
  let w1 := (Do (ClientConfig.HTTPClient (config c)) (jsonRequest req) w).2 in
  (Do (ClientConfig.HTTPClient (config c)) (jsonRequest req) w).1 = Ok res →
  isFailureStatusCode res = false →
  bodies w1 !! Response.Body res = Some b → Body.closed b = false →
  (sendRequest c req (OtherTarget x) w).1 =
    let '(x', err) := decode (content (Body.pending b)) (fault (Body.pending b))
                        (SetHeader (Response.Header res) x) in
    (OtherTarget x', err).
Proof.
  intros w1 HDo Hok Hb Hc. rewrite sendRequest_unfold. subst w1.
  destruct (Do _ _ w) as [[res'|err'] w1]; simplify_eq/=.
  unfold respond. rewrite Hok. simpl. rewrite ST_bind_run.
  rewrite (ReadAll_open _ _ _ Hb Hc). simpl. by destruct (decode _ _ _).
Qed.

(** A nil target: nothing is read from the body on success. *)
Theorem sendRequest_nil c req w res :
  (Do (ClientConfig.HTTPClient (config c)) (jsonRequest req) w).1 = Ok res →
  isFailureStatusCode res = false →
  sendRequest c req (@NilTarget T) w =
    ((NilTarget, None),
     (Close (Response.Body res)
        (Do (ClientConfig.HTTPClient (config c)) (jsonRequest req) w).2).2).
Proof.
  intros HDo Hok. rewrite sendRequest_unfold.
  destruct (Do _ _ w) as [[res'|err'] w1]; simplify_eq/=.
  unfold respond. by rewrite Hok.
Qed.
End SendTheorems.

(** ** [sendRequestRaw] and [sendRequestStream] *)

Section OpenTheorems.
Context {T : Type} `{!Unmarshal T, !Unmarshal ErrorResponse.t}.
Implicit Types (c : Client) (req : Request.t) (w : World).

Lemma sendRequestRaw_unfold c req w :
  sendRequestRaw c req w =
  match Do (ClientConfig.HTTPClient (config c)) req w with
  | (Fail err, w1) => ((zero, Some err), w1)
  | (Ok resp, w1) =>
      if isFailureStatusCode resp
      then ((zero, Some (handleErrorResp c resp w1).1), (handleErrorResp c resp w1).2)
      else ((RawResponse.mk (Some (Response.Body resp))
               (mk_httpHeader (Response.Header resp)), None), w1)
  end.
Proof.
  unfold sendRequestRaw. rewrite ST_bind_run.
  destruct (Do _ _ w) as [[resp|err] w1]; cbn [fst snd]; [|done].
  destruct (isFailureStatusCode resp); [|done].
  rewrite ST_bind_run. by destruct (handleErrorResp c resp w1).
Qed.

Lemma sendRequestStream_unfold c req w :
  sendRequestStream (T := T) c req w =
  match Do (ClientConfig.HTTPClient (config c)) (eventStreamRequest req) w with
  | (Fail err, w1) => ((zero, Some err), w1)
  | (Ok resp, w1) =>
      if isFailureStatusCode resp
      then ((zero, Some (handleErrorResp c resp w1).1), (handleErrorResp c resp w1).2)
      else ((sessionOf c resp, None), w1)
  end.
Proof.
  unfold sendRequestStream. fold (eventStreamRequest req). rewrite ST_bind_run.
  destruct (Do _ _ w) as [[resp|err] w1]; cbn [fst snd]; [|done].
  destruct (isFailureStatusCode resp); [|done].
  rewrite ST_bind_run. by destruct (handleErrorResp c resp w1).
Qed.

(** On a success status [sendRequestStream] returns a session over the body
    of the response: the limit is the one of the configuration, nothing has
    been read or counted, the session is open, and so is the body. *)
Theorem sendRequestStream_success c req w resp :
  DoerOK (ClientConfig.HTTPClient (config c)) →
  (Do (ClientConfig.HTTPClient (config c)) (eventStreamRequest req) w).1 = Ok resp →
  isFailureStatusCode resp = false →
  (sendRequestStream (T := T) c req w).1 = (sessionOf c resp, None) ∧
  Response.Body resp ∈ open_bodies (sendRequestStream (T := T) c req w).2 ∧
  Response.Body resp ∉ open_bodies w.
Proof.
  intros Hd HDo Hok. destruct (Do_ok_open _ _ _ _ HDo) as [Hopen Hnew].
  rewrite sendRequestStream_unfold.
  destruct (Do _ _ w) as [[resp'|err'] w1]; simplify_eq/=.
  rewrite Hok. simpl. split_and!; [done| |done]. rewrite Hopen. set_solver.
Qed.

(** A session is returned only for a success status: the status code of a
    session's response is in the success range. *)
Theorem sendRequestStream_session_status c req w s resp :
  (sendRequestStream (T := T) c req w).1 = (s, None) →
  streamReader.response s = Some resp →
  isFailureStatusCode resp = false.
Proof.
  rewrite sendRequestStream_unfold.
  destruct (Do _ _ w) as [[resp'|err'] w1]; [|done].
  destruct (isFailureStatusCode resp') eqn:E; [done|].
  by intros [= <-] [= <-].
Qed.

(** C4: On a failure status [sendRequestStream] returns the zero session, which
    has no reader, and the body of the response stays open: no caller holds
    it, so it is never closed. *)
Theorem sendRequestStream_failure_leaves_body_open c req w resp :
  DoerOK (ClientConfig.HTTPClient (config c)) →
  (Do (ClientConfig.HTTPClient (config c)) (eventStreamRequest req) w).1 = Ok resp →
  isFailureStatusCode resp = true →
  let r := sendRequestStream (T := T) c req w in
  r.1.1 = zero ∧ is_Some r.1.2 ∧ streamReader.reader r.1.1 = None ∧
  open_bodies r.2 = {[Response.Body resp]} ∪ open_bodies w ∧
  Response.Body resp ∉ open_bodies w.
Proof.
  intros Hd HDo Hfail. destruct (Do_ok_open _ _ _ _ HDo) as [Hopen Hnew].
  cbv zeta. rewrite sendRequestStream_unfold.
  destruct (Do _ _ w) as [[resp'|err'] w1]; simplify_eq/=.
  rewrite Hfail. simpl. split_and!; [done|by eexists|done| |done].
  by destruct (handleErrorResp_quiet c resp w1) as [-> _].
Qed.

(** The same holds of [sendRequestRaw]. *)
Theorem sendRequestRaw_failure_leaves_body_open c req w resp :
  DoerOK (ClientConfig.HTTPClient (config c)) →
  (Do (ClientConfig.HTTPClient (config c)) req w).1 = Ok resp →
  isFailureStatusCode resp = true →
  let r := sendRequestRaw c req w in
  RawResponse.ReadCloser r.1.1 = None ∧ is_Some r.1.2 ∧
  open_bodies r.2 = {[Response.Body resp]} ∪ open_bodies w ∧
  Response.Body resp ∉ open_bodies w.
Proof.
  intros Hd HDo Hfail. destruct (Do_ok_open _ _ _ _ HDo) as [Hopen Hnew].
  cbv zeta. rewrite sendRequestRaw_unfold.
  destruct (Do _ _ w) as [[resp'|err'] w1]; simplify_eq/=.
  rewrite Hfail. simpl. split_and!; [done|by eexists| |done].
  by destruct (handleErrorResp_quiet c resp w1) as [-> _].
Qed.

(** On success [sendRequestRaw] hands the open body and the header to the
    caller, and sends the request as it got it. *)
Theorem sendRequestRaw_success c req w resp :
  DoerOK (ClientConfig.HTTPClient (config c)) →
  (Do (ClientConfig.HTTPClient (config c)) req w).1 = Ok resp →
  isFailureStatusCode resp = false →
  let r := sendRequestRaw c req w in
  r.1 = (RawResponse.mk (Some (Response.Body resp))
           (mk_httpHeader (Response.Header resp)), None) ∧
  Response.Body resp ∈ open_bodies r.2 ∧
  sent r.2 = (sent w ++ [req])%list.
Proof.
  intros Hd HDo Hok. destruct (Do_ok_open _ _ _ _ HDo) as [Hopen Hnew].
  cbv zeta. rewrite sendRequestRaw_unfold, <- (Do_sent req w).
  destruct (Do _ _ w) as [[resp'|err'] w1]; simplify_eq/=.
  rewrite Hok. simpl. split_and!; [done| |done]. rewrite Hopen. set_solver.
Qed.

(** [sendRequestStream] hands exactly one request to the transport,
    [eventStreamRequest req], whose content type is JSON whatever the caller
    had set. *)
Theorem sendRequestStream_sent c req w :
  DoerOK (ClientConfig.HTTPClient (config c)) →
  sent (sendRequestStream (T := T) c req w).2 = (sent w ++ [eventStreamRequest req])%list.
Proof.
  intros Hd. rewrite sendRequestStream_unfold, <- (Do_sent (eventStreamRequest req) w).
  destruct (Do _ _ w) as [[resp|err] w1]; cbn [snd]; [|done].
  destruct (isFailureStatusCode resp); cbn [snd]; [|done].
  by destruct (handleErrorResp_quiet c resp w1) as [_ ->].
Qed.
End OpenTheorems.

(** ** [newRequest] and the request options *)

Section RequestTheorems.
Implicit Types (c : Client) (req : Request.t) (args : requestOptions.t).

Lemma setCommonHeaders_Authorization c req :
  ClientConfig.authToken (config c) ≠ "" →
  Header_Get "Authorization" (Request.Header (setCommonHeaders c req)) =
    "Bearer " ++ ClientConfig.authToken (config c).
Proof.
  intros Htok. unfold setCommonHeaders. rewrite decide_True by done.
  simpl. by rewrite Header_Get_Set_eq.
Qed.

Lemma setCommonHeaders_other c req k :
  CanonicalMIMEHeaderKey k ≠ "Authorization" →
  Header_Get k (Request.Header (setCommonHeaders c req)) =
    Header_Get k (Request.Header req).
Proof.
  intros Hk. unfold setCommonHeaders. case_decide; [|done].
  simpl. by rewrite Header_Get_Set_ne.
Qed.

Lemma setCommonHeaders_no_token c req :
  ClientConfig.authToken (config c) = "" → setCommonHeaders c req = req.
Proof. intros Htok. unfold setCommonHeaders. by rewrite decide_False by naive_solver. Qed.

(** C30: With a token, every request [newRequest] returns carries it as a bearer
    token, whatever the options set. *)
Theorem newRequest_Authorization c ctx method url setters req :
  ClientConfig.authToken (config c) ≠ "" →
  newRequest c ctx method url setters = Ok req →
  Header_Get "Authorization" (Request.Header req) =
    "Bearer " ++ ClientConfig.authToken (config c).
Proof.
  intros Htok. unfold newRequest. destruct (Build _ _ _ _ _ _) as [r|e]; [|done].
  intros [= <-]. by apply setCommonHeaders_Authorization.
Qed.

(** The options are applied in order to an empty set of options, and the
    request has the method, the URL and, the authorization apart, the header
    they give. *)
Theorem newRequest_fields c ctx method url setters req k :
  BuilderOK (requestBuilder c) →
  newRequest c ctx method url setters = Ok req →
  CanonicalMIMEHeaderKey k ≠ "Authorization" →
  Request.Method req = method ∧ Request.URL req = url ∧ Request.Ctx req = ctx ∧
  Header_Get k (Request.Header req) =
    Header_Get k (requestOptions.header
      (fold_left (λ args setter, setter args) setters (requestOptions.mk BodyNil ∅))).
Proof.
  intros Hb. unfold newRequest.
  destruct (Build _ _ _ _ _ _) as [r|e] eqn:HB; [|done]. intros [= <-] Hk.
  destruct (Build_fields _ _ _ _ _ _ HB) as (Hctx & Hm & Hu & Hh).
  rewrite setCommonHeaders_other by done. rewrite Hh.
  unfold setCommonHeaders. by case_decide.
Qed.

(** An error of the builder is the error of [newRequest]. *)
Theorem newRequest_build_error c ctx method url setters e :
  Build (requestBuilder c) ctx method url
    (requestOptions.body (fold_left (λ args setter, setter args) setters
                            (requestOptions.mk BodyNil ∅)))
    (requestOptions.header (fold_left (λ args setter, setter args) setters
                              (requestOptions.mk BodyNil ∅))) = Fail e →
  newRequest c ctx method url setters = Fail e.
Proof. intros HB. unfold newRequest. by rewrite HB. Qed.

(** The last content type option wins. *)
Lemma withContentType_last setters ct args :
  Header_Get "Content-Type"
    (requestOptions.header
       (fold_left (λ args setter, setter args) (setters ++ [withContentType ct]) args)) = ct.
Proof. rewrite fold_left_app. simpl. by rewrite Header_Get_Set_eq. Qed.

Lemma withBody_header body args :
  requestOptions.header (withBody body args) = requestOptions.header args.
Proof. done. Qed.

(** [withBetaAssistantVersion] sets the header under the canonical form of
    its key, [Openai-Beta]. *)
Lemma withBetaAssistantVersion_header version args :
  requestOptions.header (withBetaAssistantVersion version args) !! "Openai-Beta" =
    Some ["assistants=" ++ version].
Proof.
  unfold withBetaAssistantVersion, Header_Set. simpl.
  change (CanonicalMIMEHeaderKey "OpenAI-Beta") with "Openai-Beta".
  by rewrite lookup_insert_eq.
Qed.
End RequestTheorems.

(** ** [fullURL] *)

(** The URL of a call is the base URL followed by the suffix; the options
    ([withModel]) have no effect on it. *)
Theorem fullURL_spec c suffix setters :
  fullURL c suffix setters = ClientConfig.BaseURL (config c) ++ suffix.
Proof. done. Qed.

Theorem fullURL_ignores_setters c suffix setters setters' :
  fullURL c suffix setters = fullURL c suffix setters'.
Proof. done. Qed.

(** ** [decodeResponse] *)

Section DecodeTheorems.
Context {T : Type} `{!Decode T}.
Implicit Types (w : World) (b : Body.t).

(** A nil target is not decoded: the body is not read. *)
Theorem decodeResponse_nil body w :
  decodeResponse body (@NilTarget T) w = ((NilTarget, None), w).
Proof. done. Qed.

(** A string target receives the bytes of the body as they are. *)
Theorem decodeResponse_string body o w b :
  bodies w !! body = Some b → Body.closed b = false → fault (Body.pending b) = None →
  (decodeResponse body (@StringTarget T o) w).1 =
    (StringTarget (string_of_bytes (content (Body.pending b))), None).
Proof.
  intros Hb Hc Hf. simpl. rewrite ST_bind_run. unfold decodeString.
  rewrite ST_bind_run, (ReadAll_open _ _ _ Hb Hc), Hf. done.
Qed.

(** A read error leaves a string target as it was. *)
Theorem decodeResponse_string_error body o w b e :
  bodies w !! body = Some b → Body.closed b = false → fault (Body.pending b) = Some e →
  (decodeResponse body (@StringTarget T o) w).1 = (StringTarget o, Some e).
Proof.
  intros Hb Hc Hf. simpl. rewrite ST_bind_run. unfold decodeString.
  rewrite ST_bind_run, (ReadAll_open _ _ _ Hb Hc), Hf. done.
Qed.

(** An [audioTextResponse] receives the bytes of the body as its text. *)
Theorem decodeResponse_audioText body o w b :
  bodies w !! body = Some b → Body.closed b = false → fault (Body.pending b) = None →
  (decodeResponse body (@AudioTextTarget T o) w).1 =
    (AudioTextTarget
       (audioTextResponse.set_Text (string_of_bytes (content (Body.pending b))) o), None).
Proof.
  intros Hb Hc Hf. simpl. rewrite ST_bind_run. unfold decodeString.
  rewrite ST_bind_run, (ReadAll_open _ _ _ Hb Hc), Hf. done.
Qed.
End DecodeTheorems.

(** * Witnesses

    The theorems at the servers of [Fixtures]: a server that refuses the
    API key with status 401 and a structured error body, a gateway that
    answers 502 with a body that is not JSON, and a server that answers
    200. *)

Section Witnesses.
#[local] Existing Instances Echo_unmarshal Echo_decode ErrorResponse_unmarshal.
#[local] Instance Echo_SetHeader : Response Echo.t := λ h x, Echo.mk (Echo.Payload x) h.

Definition client_401 : Client := NewClient (always reply_401) "dummy-token-giteeai".
Definition client_502 : Client := NewClient (always reply_502) "dummy-token-giteeai".
Definition client_200 (chunks : list chunk) : Client :=
  NewClient (always (reply_200 chunks)) "dummy-token-giteeai".

(** The response of the first request to a server that always replies [r]. *)
Definition first_response (r : Reply.t) : Response.t :=
  Response.mk (Reply.Status r) (Reply.StatusCode r) (Reply.Header r) 0.

Definition world_with (cs : list chunk) : World :=
  mkWorld {[0 := Body.mk cs false]} [].

Lemma handleErrorResp_structured_witness :
  (handleErrorResp client_401 (first_response reply_401)
     (world_with [Data invalid_key_body])).1 =
  ErrAPI (APIError.set_status "401 Unauthorized" 401 invalid_key_error).
Proof.
  by apply (handleErrorResp_structured client_401 (first_response reply_401)
              (world_with [Data invalid_key_body]) (Body.mk [Data invalid_key_body] false)
              (ErrorResponse.mk (Some invalid_key_error)) invalid_key_error).
Defined.

Lemma handleErrorResp_fallback_witness :
  ∃ cause,
    (handleErrorResp client_502 (first_response reply_502)
       (world_with [Data gateway_body])).1 =
    ErrRequest (mkRequestError "502 Bad Gateway" 502 cause gateway_body).
Proof.
  apply (handleErrorResp_fallback client_502 (first_response reply_502)
           (world_with [Data gateway_body]) (Body.mk [Data gateway_body] false));
    [done..|].
  intros errRes a. by vm_compute.
Defined.

Lemma handleErrorResp_status_witness :
  status_code_of (handleErrorResp client_502 (first_response reply_502)
                    (world_with [Data gateway_body])).1 = Some 502%Z.
Proof.
  by apply (handleErrorResp_status client_502 (first_response reply_502)
              (world_with [Data gateway_body]) (Body.mk [Data gateway_body] false)).
Defined.

Lemma handleErrorResp_read_error_witness :
  (handleErrorResp client_502 (first_response reply_502)
     (world_with [Data gateway_body; Fault (ErrExternal "connection reset by peer")])).1 =
  ErrWrap "error, reading response body: %w" (ErrExternal "connection reset by peer").
Proof.
  by apply (handleErrorResp_read_error client_502 (first_response reply_502) _
              (Body.mk [Data gateway_body; Fault (ErrExternal "connection reset by peer")] false)).
Defined.

Lemma sendRequest_closes_body_witness :
  open_bodies (sendRequest client_401 a_request (OtherTarget (zero : Echo.t)) empty_world).2 =
  open_bodies empty_world.
Proof. apply (sendRequest_closes_body (T := Echo.t)), always_ok. Defined.

Lemma sendRequest_sent_witness :
  sent (sendRequest client_401 a_request (OtherTarget (zero : Echo.t)) empty_world).2 =
  [jsonRequest a_request].
Proof. apply (sendRequest_sent (T := Echo.t) client_401 a_request _ empty_world), always_ok. Defined.

Lemma sendRequest_transport_error_witness :
  (sendRequest (NewClient unreachable "t") a_request (OtherTarget (zero : Echo.t)) empty_world).1 =
  (OtherTarget zero, Some (ErrExternal "dial tcp: connection refused")).
Proof. by apply (sendRequest_transport_error (T := Echo.t)). Defined.

Lemma sendRequest_failure_status_witness :
  (sendRequest client_401 a_request (OtherTarget (zero : Echo.t)) empty_world).1 =
  (OtherTarget (Echo.mk [] ∅),
   Some (ErrAPI (APIError.set_status "401 Unauthorized" 401 invalid_key_error))).
Proof.
  by rewrite (sendRequest_failure_status (T := Echo.t) client_401 a_request _ empty_world
                (first_response reply_401)).
Defined.

Lemma sendRequest_success_witness :
  (sendRequest (client_200 [Data (jq "{'id':"); Data (jq "'a'}")]) a_request
     (OtherTarget (zero : Echo.t)) empty_world).1 =
  (OtherTarget (Echo.mk (jq "{'id':'a'}") (Header_Set "Content-Type" "application/json" ∅)),
   None).
Proof.
  by rewrite (sendRequest_success (T := Echo.t) (client_200 _) a_request zero empty_world
                (first_response (reply_200 [Data (jq "{'id':"); Data (jq "'a'}")]))
                (Body.mk [Data (jq "{'id':"); Data (jq "'a'}")] false)).
Defined.

Lemma sendRequest_nil_witness :
  (sendRequest (T := Echo.t) (client_200 [Data (jq "{}")]) a_request NilTarget empty_world).1 =
  (NilTarget, None).
Proof.
  by rewrite (sendRequest_nil (T := Echo.t) (client_200 _) a_request empty_world
                (first_response (reply_200 [Data (jq "{}")]))).
Defined.

Lemma sendRequestStream_success_witness :
  (sendRequestStream (T := Echo.t) (client_200 []) a_request empty_world).1 =
    (sessionOf (client_200 []) (first_response (reply_200 [])), None) ∧
  0 ∈ open_bodies (sendRequestStream (T := Echo.t) (client_200 []) a_request empty_world).2 ∧
  0 ∉ open_bodies empty_world.
Proof.
  by apply (sendRequestStream_success (T := Echo.t) (client_200 []) a_request empty_world
              (first_response (reply_200 []))); [apply always_ok|..].
Defined.

Lemma sendRequestStream_session_status_witness :
  isFailureStatusCode (first_response (reply_200 [])) = false.
Proof.
  by apply (sendRequestStream_session_status (T := Echo.t) (client_200 []) a_request
              empty_world (sessionOf (client_200 []) (first_response (reply_200 [])))).
Defined.

Lemma sendRequestStream_failure_leaves_body_open_witness :
  let r := sendRequestStream (T := Echo.t) client_401 a_request empty_world in
  r.1.1 = zero ∧ is_Some r.1.2 ∧ streamReader.reader r.1.1 = None ∧
  open_bodies r.2 = {[0]} ∪ open_bodies empty_world ∧ 0 ∉ open_bodies empty_world.
Proof.
  by apply (sendRequestStream_failure_leaves_body_open (T := Echo.t) client_401 a_request
              empty_world (first_response reply_401)); [apply always_ok|..].
Defined.

Lemma sendRequestRaw_failure_leaves_body_open_witness :
  let r := sendRequestRaw client_502 a_request empty_world in
  RawResponse.ReadCloser r.1.1 = None ∧ is_Some r.1.2 ∧
  open_bodies r.2 = {[0]} ∪ open_bodies empty_world ∧ 0 ∉ open_bodies empty_world.
Proof.
  by apply (sendRequestRaw_failure_leaves_body_open client_502 a_request
              empty_world (first_response reply_502)); [apply always_ok|..].
Defined.

Lemma sendRequestRaw_success_witness :
  let r := sendRequestRaw (client_200 [Data (bs "RIFF")]) a_request empty_world in
  r.1 = (RawResponse.mk (Some 0)
           (mk_httpHeader (Header_Set "Content-Type" "application/json" ∅)), None) ∧
  0 ∈ open_bodies r.2 ∧ sent r.2 = [a_request].
Proof.
  by apply (sendRequestRaw_success (client_200 [Data (bs "RIFF")]) a_request
              empty_world (first_response (reply_200 [Data (bs "RIFF")])));
    [apply always_ok|..].
Defined.

Lemma sendRequestStream_sent_witness :
  sent (sendRequestStream (T := Echo.t) client_401 a_request empty_world).2 =
  [eventStreamRequest a_request].
Proof.
  apply (sendRequestStream_sent (T := Echo.t) client_401 a_request empty_world), always_ok.
Defined.

(** The test of the authorization header (api_internal_test.go). *)
Lemma newRequest_Authorization_witness :
  ∃ req, newRequest client_401 Background "POST" "/chat/completions" [] = Ok req ∧
         Header_Get "Authorization" (Request.Header req) = "Bearer dummy-token-giteeai".
Proof.
  eexists. split; [reflexivity|].
  by apply (newRequest_Authorization client_401 Background "POST" "/chat/completions" []).
Defined.

Lemma newRequest_fields_witness :
  ∃ req, newRequest client_401 Background "POST" "/images/edits"
           [withBody (BodyReader (bs "form")); withContentType "multipart/form-data"] = Ok req ∧
         Request.Method req = "POST" ∧ Request.URL req = "/images/edits" ∧
         Request.Ctx req = Background ∧
         Header_Get "content-type" (Request.Header req) = "multipart/form-data".
Proof.
  eexists. split; [reflexivity|].
  by apply (newRequest_fields client_401 Background "POST" "/images/edits"
              [withBody (BodyReader (bs "form")); withContentType "multipart/form-data"] _
              "content-type"); [apply NewRequestBuilder_ok|..].
Defined.

(** The table of the URL test (api_internal_test.go). *)
Lemma decodeResponse_string_witness :
  (decodeResponse (T := Echo.t) 0 (StringTarget "") (world_with [Data (bs "hel"); Data (bs "lo")])).1 =
  (StringTarget "hello", None).
Proof.
  by apply (decodeResponse_string (T := Echo.t) 0 "" (world_with [Data (bs "hel"); Data (bs "lo")])
              (Body.mk [Data (bs "hel"); Data (bs "lo")] false)).
Defined.

(** [TestRequestAuthHeader] of api_internal_test.go. *)
Example TestRequestAuthHeader :
  match newRequest (NewClientWithConfig (DefaultConfig unreachable "dummy-token-giteeai"))
          Background "POST" "/chat/completions" [] with
  | Ok req => Header_Get "Authorization" (Request.Header req) = "Bearer dummy-token-giteeai"
  | Fail _ => False
  end.
Proof. done. Qed.

(** [TestClientConfigString] of config_test.go. *)
Example TestClientConfigString :
  ClientConfig_String (DefaultConfig unreachable "dummy-token") = "<GiteeAI API ClientConfig>".
Proof. done. Qed.

(** [TestGiteeAIFullURL] of api_internal_test.go. *)
Example fullURL_test :
  fullURL client_401 "/chat/completions" [] = "https://ai.gitee.com/v1/chat/completions" ∧
  fullURL client_401 "/completions" [] = "https://ai.gitee.com/v1/completions".
Proof. done. Qed.
End Witnesses.
