(* ===== verification/Stream.v ===== *)
(** * Stream: the stream session

    The streaming layer of the specification: the line reader, the event
    decoder, the resolution of an accumulated error body and the session
    state machine with [Recv] and [StreamClose].  The file that implements
    it is not among the sources: the definitions follow the specification
    (sections 3 and 4), on the session record that [sendRequestStream] of
    client.go fills and on the world of response bodies of [Http].

    - [nextLine] takes chunks from the body until its buffer holds a
      complete line, the body ends or a read fails; a closed body is a body
      whose every read fails;
    - [classify] sorts a line: blank, data with the sentinel, data with a
      payload that decodes or not, anything else;
    - [handleLine] and [handleEnd] are the transitions of the session on a
      line and on the end of the input; [processLines] is the loop of one
      [Recv], with fuel the number of bytes that can still arrive plus one,
      which is enough because every turn of the loop takes a line of at
      least one byte ([processLines_refines]);
    - [recv_lines] is the abstract session: the same transitions over the
      list of the complete lines of the input and the way the input ends,
      by structural recursion.  [Recv_refines] and [Recv_n_refines] show
      that [Recv] computes it whatever the chunks are.

    The theorems on [recv_lines] (events of a well-formed stream, stall,
    foreign lines, end of the input, invariants) are carried to the
    sessions that [sendRequestStream] returns by the refinement.

    A session without a reader (the zero session) has no behaviour in the
    specification and none here: [Recv] returns [None] on it. *)

From Stdlib Require Import ZArith NArith Ascii String List Lia.
From stdpp Require Import base tactics option list gmap strings.
From S2P Require Import Prelude Bytes Errors Http Internal Config Fixtures Client.

Set Warnings "-clear-no-such-hyp".

(** ** Updates of a session *)

Section Updates.
Context {T : Type}.
Implicit Types (s : streamReader.t T).

Definition with_reader (r : Bufio.t) s : streamReader.t T :=
  streamReader.mk (streamReader.emptyMessagesLimit s) (Some r) (streamReader.response s)
    (streamReader.errAccumulator s) (streamReader.unmarshaler s) (streamReader.header s)
    (streamReader.consecutiveEmptyReads s) (streamReader.closed s)
    (streamReader.terminalError s).

Definition with_count (n : N) s : streamReader.t T :=
  streamReader.mk (streamReader.emptyMessagesLimit s) (streamReader.reader s)
    (streamReader.response s) (streamReader.errAccumulator s) (streamReader.unmarshaler s)
    (streamReader.header s) n (streamReader.closed s) (streamReader.terminalError s).

Definition with_acc (a : ErrorAccumulator.t) s : streamReader.t T :=
  streamReader.mk (streamReader.emptyMessagesLimit s) (streamReader.reader s)
    (streamReader.response s) a (streamReader.unmarshaler s) (streamReader.header s)
    (streamReader.consecutiveEmptyReads s) (streamReader.closed s)
    (streamReader.terminalError s).

(** The session is sealed with its terminal condition. *)
Definition seal (e : error) s : streamReader.t T :=
  streamReader.mk (streamReader.emptyMessagesLimit s) (streamReader.reader s)
    (streamReader.response s) (streamReader.errAccumulator s) (streamReader.unmarshaler s)
    (streamReader.header s) (streamReader.consecutiveEmptyReads s) (streamReader.closed s)
    (Some e).

Definition with_closed s : streamReader.t T :=
  streamReader.mk (streamReader.emptyMessagesLimit s) (streamReader.reader s)
    (streamReader.response s) (streamReader.errAccumulator s) (streamReader.unmarshaler s)
    (streamReader.header s) (streamReader.consecutiveEmptyReads s) true
    (streamReader.terminalError s).
End Updates.

(** ** The line reader *)

(** What [nextLine] returns: the line, whether it is a complete line, and
    the error when it is not. *)
Definition line_result : Type := bytes * bool * option error.

(** From the buffer and the chunks still to come: the result, the buffer and
    the chunks left. A complete line ends with the delimiter. At the end of
    the input or on a failed read the bytes gathered so far are returned
    with the error, and the buffer is empty afterwards. *)
Fixpoint next_line (buf : bytes) (cs : list chunk) : line_result * bytes * list chunk :=
  match cut NL buf with
  | Some (l, rest) => ((l, true, None), rest, cs)
  | None =>
      match cs with
      | [] => ((buf, false, Some EOF), [], [])
      | Data d :: cs' => next_line (buf ++ d) cs'
      | Fault e :: _ => ((buf, false, Some e), [], cs)
      end
  end.

(** What a reader of the body [h] has before it: the pending chunks of an
    open body; a closed body fails every read. *)
Definition visible (w : World) (h : nat) : list chunk :=
  match bodies w !! h with
  | Some b => if Body.closed b then [Fault ErrBodyReadAfterClose] else Body.pending b
  | None => [Fault ErrBodyReadAfterClose]
  end.

Definition take_chunks (h : nat) (cs : list chunk) (w : World) : World :=
  match bodies w !! h with
  | Some b => if Body.closed b then w
              else set_bodies <[h := Body.set_pending cs b]> w
  | None => w
  end.

Definition nextLine (r : Bufio.t) : ST World (line_result * Bufio.t) := λ w,
  let '(out, buf, cs) := next_line (Bufio.buf r) (visible w (Bufio.src r)) in
  ((out, Bufio.set_buf buf r), take_chunks (Bufio.src r) cs w).

(** ** The event decoder *)

Definition dataMarker : bytes := bs "data:".
Definition doneSentinel : bytes := bs "[DONE]".

Inductive classification (T : Type) : Type :=
| Skip                          (* a blank line *)
| NotData (raw : bytes)         (* no data marker: not yet a data line *)
| StreamComplete                (* the sentinel *)
| Decoded (v : T)
| DecodeError (e : error).
Arguments Skip {T}.
Arguments NotData {T} raw.
Arguments StreamComplete {T}.
Arguments Decoded {T} v.
Arguments DecodeError {T} e.

Section Decoder.
Context {T : Type} `{!Zero T}.

Definition classify (um : bytes → T → T * option error) (line : bytes) : classification T :=
  if blank line then Skip
  else if HasPrefix line dataMarker then
    let payload := TrimSpace (TrimPrefix line dataMarker) in
    if bool_decide (payload = doneSentinel) then StreamComplete
    else match um payload zero with
         | (v, None) => Decoded v
         | (_, Some e) => DecodeError e
         end
  else NotData line.
End Decoder.

(** ** The session *)

(** One transition of the session: go on reading, or return to the caller. *)
Inductive step (T : Type) : Type :=
| Continue (s : streamReader.t T)
| Return (r : res T) (s : streamReader.t T).
Arguments Continue {T} s.
Arguments Return {T} r s.

Section Session.
Context {T : Type} `{!Zero T, !Unmarshal ErrorResponse.t}.
Implicit Types (s : streamReader.t T) (w : World).

(** The status of the response of a session. *)
Definition session_failed s : bool :=
  match streamReader.response s with
  | Some resp => isFailureStatusCode resp
  | None => false
  end.

(** The accumulated bytes as an error: the structured error they decode to,
    with the status of the response, or the generic error with the raw
    bytes and the status. *)
Definition resolveError s : error :=
  let body := ErrorAccumulator.Bytes (streamReader.errAccumulator s) in
  let status := from_option Response.Status EmptyString (streamReader.response s) in
  let code := from_option Response.StatusCode 0%Z (streamReader.response s) in
  let '(errRes, err) := unmarshal body (zero : ErrorResponse.t) in
  match err, ErrorResponse.Error errRes with
  | None, Some apiErr => ErrAPI (APIError.set_status status code apiErr)
  | _, _ => ErrRequest (mkRequestError status code err body)
  end.

(** The transition on a complete line. *)
Definition handleLine (um : bytes → T → T * option error) (line : bytes) s : step T :=
  match classify um line with
  | Skip =>
      let s := with_count (streamReader.consecutiveEmptyReads s + 1) s in
      if (streamReader.emptyMessagesLimit s <? streamReader.consecutiveEmptyReads s)%N
      then Return (Fail ErrTooManyEmptyStreamMessages) (seal ErrTooManyEmptyStreamMessages s)
      else Continue s
  | NotData raw =>
      Continue (with_acc (ErrorAccumulator.Write raw (streamReader.errAccumulator s)) s)
  | StreamComplete => Return (Fail EOF) (seal EOF s)
  | Decoded v => Return (Ok v) (with_count 0 s)
  | DecodeError e => Return (Fail e) (seal e s)
  end.

(** The transition when the line reader has no complete line: at the end of
    the input a failure status is resolved through the accumulator and any
    other status is a clean end; an error of the transport is passed on. In
    every case the session is sealed. *)
Definition handleEnd (err : error) s : res T * streamReader.t T :=
  if is_EOF err then
    if session_failed s
    then (Fail (resolveError s), seal (resolveError s) s)
    else (Fail EOF, seal EOF s)
  else (Fail err, seal err s).

(** The loop of one [Recv]. [None]: the session has no reader or no
    decoder, or the fuel ran out. *)
Fixpoint processLines (fuel : nat) s : ST World (option (res T * streamReader.t T)) :=
  match fuel, streamReader.reader s, streamReader.unmarshaler s with
  | S fuel, Some r, Some um => λ w,
      let '((line, ok, err), r, w) := nextLine r w in
      let s := with_reader r s in
      if ok : bool then
        match handleLine um line s with
        | Continue s => processLines fuel s w
        | Return v s => (Some (v, s), w)
        end
      else (Some (handleEnd (default EOF err) s), w)
  | _, _, _ => mret None
  end.

(** The bytes that can still reach the session. *)
Definition available s w : nat :=
  match streamReader.reader s with
  | Some r => length (Bufio.buf r) + length (content (visible w (Bufio.src r)))
  | None => 0
  end.

(** [Recv]: a sealed session returns its terminal condition and touches
    nothing; an open one runs the loop. *)
Definition Recv s : ST World (option (res T * streamReader.t T)) := λ w,
  match streamReader.terminalError s with
  | Some e => (Some (Fail e, s), w)
  | None => processLines (S (available s w)) s w
  end.

(** [Close]: release the body; a second call does nothing. *)
Definition StreamClose s : ST World (option error * streamReader.t T) :=
  if streamReader.closed s then mret (None, s)
  else match streamReader.response s with
       | Some resp => err ← Close (Response.Body resp); mret (err, with_closed s)
       | None => mret (None, with_closed s)
       end.

(** ** The abstract session

    The input of a session as the list of its complete lines, the bytes
    after the last delimiter and the way it ends; [recv_lines] is one
    [Recv] on it and returns the lines that are left. *)

Fixpoint recv_lines (um : bytes → T → T * option error) (ls : list bytes)
    (ending : option error) s : (res T * streamReader.t T) * list bytes :=
  match ls with
  | [] => (handleEnd (default EOF ending) s, [])
  | l :: ls' =>
      match handleLine um l s with
      | Continue s => recv_lines um ls' ending s
      | Return v s => ((v, s), ls')
      end
  end.

Definition recv_abstract (um : bytes → T → T * option error) (ls : list bytes)
    (ending : option error) s : (res T * streamReader.t T) * list bytes :=
  match streamReader.terminalError s with
  | Some e => ((Fail e, s), ls)
  | None => recv_lines um ls ending s
  end.

(** [n] calls of the abstract [Recv] in a row: what the caller sees. *)
Fixpoint recv_abstract_n (um : bytes → T → T * option error) (n : nat) (ls : list bytes)
    (ending : option error) s : list (res T) * streamReader.t T :=
  match n with
  | O => ([], s)
  | S n =>
      let '((v, s), ls) := recv_abstract um ls ending s in
      let '(vs, s) := recv_abstract_n um n ls ending s in
      (v :: vs, s)
  end.

(** [n] calls of [Recv] in a row; [None] as soon as one call returns
    [None]. *)
Fixpoint Recv_n (n : nat) s : ST World (option (list (res T) * streamReader.t T)) :=
  match n with
  | O => mret (Some ([], s))
  | S n =>
      r ← Recv s;
      match r with
      | None => mret None
      | Some (v, s) =>
          rs ← Recv_n n s;
          mret ('(vs, s) ← rs; Some (v :: vs, s))
      end
  end.
End Session.

(** ** What a reader has before it *)

(** The bytes that can still reach the reader: its buffer and the content of
    the body; the lines among them; and the way the input ends. *)
Definition input (r : Bufio.t) (w : World) : bytes :=
  Bufio.buf r ++ content (visible w (Bufio.src r)).

Definition lines (r : Bufio.t) (w : World) : list bytes := (pieces NL (input r w)).1.

Definition ending (r : Bufio.t) (w : World) : option error :=
  fault (visible w (Bufio.src r)).

(** What a read leaves as it was: the body the reader is on, the way its
    input ends, the open bodies, the other bodies and the requests sent. *)
Record advance (r : Bufio.t) (w : World) (r' : Bufio.t) (w' : World) : Prop := {
  advance_src : Bufio.src r' = Bufio.src r;
  advance_ending : ending r' w' = ending r w;
  advance_open : open_bodies w' = open_bodies w;
  advance_sent : sent w' = sent w;
  advance_other h : h ≠ Bufio.src r → bodies w' !! h = bodies w !! h;
}.

(** The part of a session that no transition changes. *)
Definition static {T} (s : streamReader.t T) :=
  (streamReader.emptyMessagesLimit s, streamReader.response s,
   streamReader.unmarshaler s, streamReader.header s, streamReader.closed s).

Definition step_map {T} (f : streamReader.t T → streamReader.t T) (x : step T) : step T :=
  match x with
  | Continue s => Continue (f s)
  | Return v s => Return v (f s)
  end.

Definition step_session {T} (x : step T) : streamReader.t T :=
  match x with Continue s | Return _ s => s end.

Definition on_session {A B T} (f : streamReader.t T → B) (x : A * streamReader.t T) : A * B :=
  (x.1, f x.2).

(** A frame of the wire format: the data marker, a space, the payload and
    the delimiter; and the blank line that separates frames. *)
Definition frame (payload : bytes) : bytes := dataMarker ++ bs " " ++ payload ++ [NL].
Definition separator : bytes := [NL].

(** A payload as a frame carries it: no delimiter inside, no white space
    around, not empty. *)
Definition tight (p : bytes) : Prop := (NL ∉ p) ∧ TrimSpace p = p ∧ p ≠ [].

(** A line of the input: bytes without the delimiter, then the delimiter. *)
Definition is_line (l : bytes) : Prop := ∃ x, l = x ++ [NL] ∧ NL ∉ x.

(** Blank lines that a session with this limit lets pass when its count is
    zero. *)
Definition keep_alives (limit : N) (bl : list bytes) : Prop :=
  Forall (λ l, blank l = true ∧ is_line l) bl ∧ (N.of_nat (length bl) ≤ limit)%N.

(** A line that is neither blank nor data. *)
Definition foreign (l : bytes) : Prop :=
  is_line l ∧ blank l = false ∧ HasPrefix l dataMarker = false.

(** A well-formed stream of events: each frame with the blank lines in
    front of it. *)
Definition script : Type := list (list bytes * bytes).

Definition script_lines (fs : script) : list bytes :=
  flat_map (λ f, f.1 ++ [frame f.2]) fs.

Section Scripts.
Context {T : Type} `{!Zero T}.

(** A payload that is an event: it decodes, and is not the sentinel. *)
Definition decodes (um : bytes → T → T * option error) (p : bytes) : Prop :=
  tight p ∧ p ≠ doneSentinel ∧ (um p zero).2 = None.

Definition well_formed (um : bytes → T → T * option error) (limit : N) (fs : script) : Prop :=
  Forall (λ f, keep_alives limit f.1 ∧ decodes um f.2) fs.

(** The events of a script: its payloads decoded, in order. *)
Definition script_events (um : bytes → T → T * option error) (fs : script) : list (res T) :=
  map (λ f, Ok (um f.2 zero).1) fs.

(** What a caller may rely on after a call: an event leaves the session
    open with its count at zero; an error seals the session with that
    error. *)
Definition outcome (v : res T) (s : streamReader.t T) : Prop :=
  match v with
  | Ok _ => streamReader.terminalError s = None ∧ streamReader.consecutiveEmptyReads s = 0%N
  | Fail e => streamReader.terminalError s = Some e
  end.

(** The count of an open session is within the limit, and the count of a
    sealed one is at most one above it. *)
Definition session_wf (s : streamReader.t T) : Prop :=
  (streamReader.consecutiveEmptyReads s ≤ streamReader.emptyMessagesLimit s + 1)%N ∧
  (streamReader.terminalError s = None →
   (streamReader.consecutiveEmptyReads s ≤ streamReader.emptyMessagesLimit s)%N).

(** The input and the ending of a session: those of its reader. *)
Definition stream_input (s : streamReader.t T) (w : World) : bytes :=
  from_option (λ r, input r w) [] (streamReader.reader s).

Definition stream_ending (s : streamReader.t T) (w : World) : option error :=
  streamReader.reader s ≫= λ r, ending r w.

(** The chunks the body of a session still holds. *)
Definition stream_chunks (s : streamReader.t T) (w : World) : list chunk :=
  from_option (λ r, visible w (Bufio.src r)) [] (streamReader.reader s).
End Scripts.

(** A sequence of results as a sealed session gives it: after the first
    error, that error again and nothing else. *)
Fixpoint sealed_trace {T} (vs : list (res T)) : Prop :=
  match vs with
  | [] => True
  | Ok _ :: vs' => sealed_trace vs'
  | Fail t :: vs' => vs' = replicate (length vs') (Fail t)
  end.

(** What the caller gets at the end of an input that ends with [e]: the end
    of the stream, or the error of the transport as it is. *)
Definition end_error (e : option error) : error :=
  if is_EOF (default EOF e) then EOF else default EOF e.

(** ** Lemmas: the line reader *)

Section LineReader.
Implicit Types (buf l rest : bytes) (cs : list chunk) (r : Bufio.t) (w : World).

(** A read stops at a fault and leaves it in place. *)
Lemma next_line_fault buf e cs : (next_line buf (Fault e :: cs)).2 = Fault e :: cs.
Proof. simpl. by destruct (cut NL buf) as [[??]|]. Qed.

(** When the input has a line, the reader returns it, whatever the chunks
    are, and keeps the rest. *)
Lemma next_line_cut buf cs l rest :
  cut NL (buf ++ content cs) = Some (l, rest) →
  ∃ buf' cs', next_line buf cs = ((l, true, None), buf', cs') ∧
    buf' ++ content cs' = rest ∧ fault cs' = fault cs.
Proof.
  revert buf. induction cs as [|[d|e] cs IH]; intros buf; simpl.
  - rewrite app_nil_r. intros ->. exists rest, []. by rewrite app_nil_r.
  - destruct (cut NL buf) as [[l' rest']|] eqn:E.
    + rewrite (cut_app_Some _ _ _ _ _ E). intros [= <- <-].
      by exists rest', (Data d :: cs).
    + rewrite app_assoc. apply IH.
  - rewrite app_nil_r. intros ->. exists rest, (Fault e :: cs).
    by rewrite app_nil_r.
Qed.

(** When it has none, the reader returns what is left with the error that
    ends the input, and nothing stays behind. *)
Lemma next_line_end buf cs :
  cut NL (buf ++ content cs) = None →
  ∃ cs', next_line buf cs =
           ((buf ++ content cs, false, Some (default EOF (fault cs))), [], cs') ∧
    content cs' = [] ∧ fault cs' = fault cs.
Proof.
  revert buf. induction cs as [|[d|e] cs IH]; intros buf; simpl.
  - rewrite app_nil_r. intros ->. by exists [].
  - rewrite app_assoc. intros H. destruct (cut NL buf) as [[l' rest']|] eqn:E.
    + by rewrite <- app_assoc, (cut_app_Some _ _ _ _ _ E) in H.
    + by apply IH.
  - rewrite app_nil_r. intros ->. by exists (Fault e :: cs).
Qed.

(** The chunks a read leaves are what the next read sees. *)
Lemma visible_take_chunks buf h w :
  visible (take_chunks h (next_line buf (visible w h)).2 w) h =
  (next_line buf (visible w h)).2.
Proof.
  unfold visible, take_chunks. destruct (bodies w !! h) as [b|] eqn:E.
  - destruct (Body.closed b) eqn:Hc.
    + by rewrite E, Hc, next_line_fault.
    + simpl. rewrite lookup_insert_eq. simpl. by rewrite Hc.
  - by rewrite E, next_line_fault.
Qed.

Lemma take_chunks_other h h' cs w :
  h' ≠ h → bodies (take_chunks h cs w) !! h' = bodies w !! h'.
Proof.
  intros Hne. unfold take_chunks. destruct (bodies w !! h) as [b|]; [|done].
  destruct (Body.closed b); [done|]. simpl. by rewrite lookup_insert_ne.
Qed.

Lemma take_chunks_open h cs w : open_bodies (take_chunks h cs w) = open_bodies w.
Proof.
  apply set_eq. intros h'. rewrite !elem_of_open_bodies.
  destruct (decide (h' = h)) as [->|Hne]; [|by rewrite take_chunks_other].
  unfold take_chunks. destruct (bodies w !! h) as [b|] eqn:E; [|by rewrite E].
  destruct (Body.closed b) eqn:Hc; [by rewrite E|]. simpl.
  rewrite lookup_insert_eq. split; intros (b' & [= <-] & ?); eauto.
Qed.

Lemma take_chunks_sent h cs w : sent (take_chunks h cs w) = sent w.
Proof.
  unfold take_chunks. destruct (bodies w !! h) as [b|]; [|done].
  by destruct (Body.closed b).
Qed.

Lemma advance_refl r w : advance r w r w.
Proof. by split. Qed.

Lemma advance_trans r w r1 w1 r2 w2 :
  advance r w r1 w1 → advance r1 w1 r2 w2 → advance r w r2 w2.
Proof.
  intros [Hs He Ho Hn Hb] [Hs' He' Ho' Hn' Hb']. split; try congruence.
  intros h Hh. rewrite Hb', Hb; congruence.
Qed.

(** A read advances the reader on its body and touches nothing else. *)
Lemma take_advance r w buf cs :
  visible (take_chunks (Bufio.src r) cs w) (Bufio.src r) = cs →
  fault cs = ending r w →
  advance r w (Bufio.set_buf buf r) (take_chunks (Bufio.src r) cs w).
Proof.
  intros Hv Hf. split; simpl; [done| |apply take_chunks_open|apply take_chunks_sent|].
  - unfold ending. simpl. by rewrite Hv.
  - intros h Hh. by apply take_chunks_other.
Qed.

Lemma nextLine_line r w l rest :
  cut NL (input r w) = Some (l, rest) →
  ∃ r' w', nextLine r w = (((l, true, None), r'), w') ∧
    input r' w' = rest ∧ advance r w r' w'.
Proof.
  intros H. destruct (next_line_cut _ _ _ _ H) as (buf' & cs' & E & Hrest & Hf).
  pose proof (visible_take_chunks (Bufio.buf r) (Bufio.src r) w) as Hv.
  unfold nextLine. rewrite E in Hv |- *. simpl in Hv. eexists _, _.
  split; [done|]. split; [|by apply take_advance].
  unfold input. simpl. by rewrite Hv.
Qed.

Lemma nextLine_end r w :
  cut NL (input r w) = None →
  ∃ r' w', nextLine r w =
             (((input r w, false, Some (default EOF (ending r w))), r'), w') ∧
    input r' w' = [] ∧ advance r w r' w'.
Proof.
  intros H. destruct (next_line_end _ _ H) as (cs' & E & Hrest & Hf).
  pose proof (visible_take_chunks (Bufio.buf r) (Bufio.src r) w) as Hv.
  unfold nextLine. rewrite E in Hv |- *. simpl in Hv. eexists _, _.
  split; [done|]. split; [|by apply take_advance].
  unfold input. simpl. by rewrite Hv.
Qed.

(** The input of a reader is at most what [available] counts. *)
Lemma available_input {T} (s : streamReader.t T) r w :
  streamReader.reader s = Some r → available s w = length (input r w).
Proof. intros Hr. unfold available, input. by rewrite Hr, length_app. Qed.
End LineReader.

(** ** Lemmas: the transitions *)

Section Transitions.
Context {T : Type} `{!Zero T, !Unmarshal ErrorResponse.t}.
Implicit Types (s : streamReader.t T) (r : Bufio.t) (l : bytes).
Implicit Types (um : bytes → T → T * option error).

Lemma with_reader_id s r : streamReader.reader s = Some r → with_reader r s = s.
Proof. destruct s. simpl. by intros ->. Qed.

Lemma with_reader_twice r r' s : with_reader r' (with_reader r s) = with_reader r' s.
Proof. done. Qed.

(** The transitions do not look at the reader. *)
Lemma handleLine_with_reader um l r s :
  handleLine um l (with_reader r s) = step_map (with_reader r) (handleLine um l s).
Proof.
  unfold handleLine. destruct (classify um l); simpl; try done.
  by destruct (_ <? _)%N.
Qed.

Lemma handleEnd_with_reader e r s :
  handleEnd e (with_reader r s) = on_session (with_reader r) (handleEnd e s).
Proof.
  unfold handleEnd, session_failed. simpl.
  destruct (is_EOF e); [|done]. by destruct (streamReader.response s) as [resp|]; [destruct (isFailureStatusCode resp)|].
Qed.

(** The transitions keep the static part of the session. *)
Lemma handleLine_static um l s : static (step_session (handleLine um l s)) = static s.
Proof.
  unfold handleLine. destruct (classify um l); simpl; try done.
  by destruct (_ <? _)%N.
Qed.

Lemma handleEnd_static e s : static (handleEnd e s).2 = static s.
Proof.
  unfold handleEnd. destruct (is_EOF e); [|done]. by destruct (session_failed s).
Qed.

Lemma static_with_reader r s : static (with_reader r s) = static s.
Proof. done. Qed.

Lemma static_unmarshaler s s' :
  static s' = static s → streamReader.unmarshaler s' = streamReader.unmarshaler s.
Proof. unfold static. congruence. Qed.

Lemma recv_lines_with_reader um ls e r s :
  recv_lines um ls e (with_reader r s) =
  (on_session (with_reader r) (recv_lines um ls e s).1, (recv_lines um ls e s).2).
Proof.
  revert s. induction ls as [|l ls IH]; intros s; simpl.
  - by rewrite handleEnd_with_reader.
  - rewrite handleLine_with_reader.
    destruct (handleLine um l s); simpl; [apply IH|done].
Qed.

Lemma recv_lines_static um ls e s : static (recv_lines um ls e s).1.2 = static s.
Proof.
  revert s. induction ls as [|l ls IH]; intros s; simpl.
  - apply handleEnd_static.
  - pose proof (handleLine_static um l s) as H.
    destruct (handleLine um l s); simpl in *; [by rewrite IH|done].
Qed.

Lemma recv_abstract_with_reader um ls e r s :
  recv_abstract um ls e (with_reader r s) =
  (on_session (with_reader r) (recv_abstract um ls e s).1, (recv_abstract um ls e s).2).
Proof.
  unfold recv_abstract. simpl. destruct (streamReader.terminalError s); [done|].
  apply recv_lines_with_reader.
Qed.

Lemma recv_abstract_static um ls e s : static (recv_abstract um ls e s).1.2 = static s.
Proof.
  unfold recv_abstract. destruct (streamReader.terminalError s); [done|].
  apply recv_lines_static.
Qed.

Lemma recv_abstract_n_with_reader um n ls e r s :
  recv_abstract_n um n ls e (with_reader r s) =
  on_session (with_reader r) (recv_abstract_n um n ls e s).
Proof.
  revert ls s. induction n as [|n IH]; intros ls s; simpl; [done|].
  rewrite recv_abstract_with_reader.
  destruct (recv_abstract um ls e s) as [[v s1] ls1]. simpl. rewrite IH.
  by destruct (recv_abstract_n um n ls1 e s1).
Qed.
End Transitions.

(** ** [Recv] computes the abstract session *)

Section Refinement.
Context {T : Type} `{!Zero T, !Unmarshal ErrorResponse.t}.
Implicit Types (s : streamReader.t T) (r : Bufio.t) (w : World).
Implicit Types (um : bytes → T → T * option error).

(** With fuel above the number of bytes that can arrive, the loop returns:
    its result is the abstract session's on the lines of the input, the
    session differs from the abstract one by its reader only, and the lines
    left to the reader are the lines left by the abstract session. *)
Lemma processLines_refines fuel s w r um :
  streamReader.reader s = Some r → streamReader.unmarshaler s = Some um →
  length (input r w) < fuel →
  ∃ r' w',
    processLines fuel s w =
      (Some (on_session (with_reader r') (recv_lines um (lines r w) (ending r w) s).1), w') ∧
    lines r' w' = (recv_lines um (lines r w) (ending r w) s).2 ∧
    advance r w r' w'.
Proof.
  revert s w r. induction fuel as [|fuel IH]; intros s w r Hr Hum Hlen; [lia|].
  simpl. rewrite Hr, Hum. unfold lines.
  destruct (cut NL (input r w)) as [[l rest]|] eqn:E.
  - destruct (nextLine_line _ _ _ _ E) as (r1 & w1 & -> & Hin & Hadv).
    rewrite (pieces_cut_Some _ _ _ _ E). simpl. rewrite handleLine_with_reader.
    pose proof (handleLine_static um l s) as Hst.
    destruct (handleLine um l s) as [s1|v s1]; simpl in *.
    + destruct (IH (with_reader r1 s1) w1 r1) as (r2 & w2 & -> & Hls & Hadv2);
        [done|by rewrite <- Hum; apply static_unmarshaler|
         apply cut_length in E; rewrite Hin; lia|].
      unfold lines in *. rewrite Hin, (advance_ending _ _ _ _ Hadv) in *.
      rewrite recv_lines_with_reader in *. exists r2, w2.
      split; [done|]. split; [done|by eapply advance_trans].
    + exists r1, w1. split; [done|]. split; [by rewrite Hin|done].
  - destruct (nextLine_end _ _ E) as (r1 & w1 & -> & Hin & Hadv).
    rewrite (pieces_cut_None _ _ E). simpl. rewrite handleEnd_with_reader.
    exists r1, w1. split; [done|]. split; [by rewrite Hin|done].
Qed.

(** One [Recv] is one step of the abstract session. *)
Lemma Recv_refines s w r um :
  streamReader.reader s = Some r → streamReader.unmarshaler s = Some um →
  ∃ r' w',
    Recv s w =
      (Some (on_session (with_reader r') (recv_abstract um (lines r w) (ending r w) s).1), w') ∧
    lines r' w' = (recv_abstract um (lines r w) (ending r w) s).2 ∧
    advance r w r' w'.
Proof.
  intros Hr Hum. unfold Recv, recv_abstract.
  destruct (streamReader.terminalError s) as [e|].
  - exists r, w. unfold on_session. simpl. rewrite with_reader_id by done.
    split; [done|]. split; [done|apply advance_refl].
  - apply processLines_refines; [done..|].
    rewrite (available_input s r) by done. lia.
Qed.

(** Any number of calls of [Recv] in a row return what the abstract session
    returns on the lines of the input. *)
Lemma Recv_n_refines n s w r um :
  streamReader.reader s = Some r → streamReader.unmarshaler s = Some um →
  ∃ r' w',
    Recv_n n s w =
      (Some (on_session (with_reader r') (recv_abstract_n um n (lines r w) (ending r w) s)), w') ∧
    advance r w r' w'.
Proof.
  revert s w r. induction n as [|n IH]; intros s w r Hr Hum.
  - exists r, w. unfold on_session. simpl. rewrite with_reader_id by done.
    split; [done|apply advance_refl].
  - simpl. rewrite ST_bind_run.
    destruct (Recv_refines s w r um) as (r1 & w1 & -> & Hls & Hadv); [done..|].
    pose proof (recv_abstract_static um (lines r w) (ending r w) s) as Hst.
    destruct (recv_abstract um (lines r w) (ending r w) s) as [[v s1] ls1].
    simpl in *. rewrite ST_bind_run.
    destruct (IH (with_reader r1 s1) w1 r1) as (r2 & w2 & -> & Hadv2);
      [done|by rewrite <- Hum; apply static_unmarshaler|].
    rewrite Hls, (advance_ending _ _ _ _ Hadv), recv_abstract_n_with_reader.
    destruct (recv_abstract_n um n ls1 (ending r w) s1) as [vs s2]. simpl.
    exists r2, w2. split; [done|by eapply advance_trans].
Qed.
End Refinement.

(** ** Lemmas: the decoder *)

Section DecoderLemmas.
Context {T : Type} `{!Zero T}.
Implicit Types (um : bytes → T → T * option error) (l p : bytes).

Lemma classify_blank um l : blank l = true → classify um l = Skip.
Proof. unfold classify. by intros ->. Qed.

Lemma classify_foreign um l : foreign l → classify um l = NotData l.
Proof. intros (_ & Hb & Hp). unfold classify. by rewrite Hb, Hp. Qed.

(** A data line is the marker, white space, the payload and white space;
    the decoder sees the payload. *)
Lemma classify_data um pad p pad' :
  blank pad = true → blank pad' = true → TrimSpace p = p →
  classify um (dataMarker ++ pad ++ p ++ pad') =
  if bool_decide (p = doneSentinel) then StreamComplete
  else match um p zero with
       | (v, None) => Decoded v
       | (_, Some e) => DecodeError e
       end.
Proof.
  intros Hpad Hpad' Hp. unfold classify. rewrite blank_app.
  change (blank dataMarker) with false. cbn [andb].
  by rewrite HasPrefix_app, TrimPrefix_app, TrimSpace_pad, Hp.
Qed.

Lemma classify_frame um p :
  tight p →
  classify um (frame p) =
  if bool_decide (p = doneSentinel) then StreamComplete
  else match um p zero with
       | (v, None) => Decoded v
       | (_, Some e) => DecodeError e
       end.
Proof. intros (_ & Hp & _). by apply (classify_data um (bs " ") p [NL]). Qed.

Lemma classify_event um p : decodes um p → classify um (frame p) = Decoded (um p zero).1.
Proof.
  intros (Ht & Hne & Hd). rewrite classify_frame, bool_decide_false by done.
  destruct (um p zero) as [v [e|]]; simplify_eq/=; done.
Qed.

Lemma classify_done um : classify um (frame doneSentinel) = StreamComplete.
Proof. by apply (classify_data um (bs " ") doneSentinel [NL]). Qed.

Lemma frame_is_line p : NL ∉ p → is_line (frame p).
Proof.
  intros Hp. exists (dataMarker ++ bs " " ++ p). split.
  - unfold frame. by rewrite <- !app_assoc.
  - rewrite !not_elem_of_app. split_and!; [| |done];
      apply (bool_decide_unpack _); by vm_compute.
Qed.
End DecoderLemmas.

(** ** Lemmas: the session on the lines of a stream *)

Section Frames.
Context {T : Type} `{!Zero T, !Unmarshal ErrorResponse.t}.
Implicit Types (s : streamReader.t T) (l p : bytes) (ls bl : list bytes).
Implicit Types (um : bytes → T → T * option error) (e : option error).

Lemma with_count_id s : with_count (streamReader.consecutiveEmptyReads s) s = s.
Proof. by destruct s. Qed.

(** A blank line is counted, and the count is checked against the limit. *)
Lemma handleLine_blank um l s :
  blank l = true →
  handleLine um l s =
  let s' := with_count (streamReader.consecutiveEmptyReads s + 1) s in
  if (streamReader.emptyMessagesLimit s <? streamReader.consecutiveEmptyReads s + 1)%N
  then Return (Fail ErrTooManyEmptyStreamMessages) (seal ErrTooManyEmptyStreamMessages s')
  else Continue s'.
Proof. intros Hl. unfold handleLine. by rewrite classify_blank. Qed.

(** Blank lines within the limit are passed over; the count keeps their
    number. *)
Lemma recv_lines_blanks um bl ls e s :
  Forall (λ l, blank l = true) bl →
  (streamReader.consecutiveEmptyReads s + N.of_nat (length bl) ≤
   streamReader.emptyMessagesLimit s)%N →
  recv_lines um (bl ++ ls) e s =
  recv_lines um ls e
    (with_count (streamReader.consecutiveEmptyReads s + N.of_nat (length bl)) s).
Proof.
  intros Hbl. revert s. induction Hbl as [|l bl Hl _ IH]; intros s Hle.
  - simpl. by rewrite N.add_0_r, with_count_id.
  - cbn [app recv_lines]. rewrite handleLine_blank by done. cbv zeta.
    rewrite (proj2 (N.ltb_ge _ _)) by (cbn [length] in Hle; lia).
    rewrite IH by (cbn [length] in Hle |- *; simpl; lia).
    f_equal. unfold with_count. cbn -[N.of_nat N.add]. f_equal. cbn [length]. lia.
Qed.

(** One blank line more than the limit allows: the stall error, after
    exactly that many lines. *)
Lemma recv_lines_stall um bl ls e s :
  Forall (λ l, blank l = true) bl →
  (streamReader.consecutiveEmptyReads s ≤ streamReader.emptyMessagesLimit s)%N →
  (streamReader.emptyMessagesLimit s <
   streamReader.consecutiveEmptyReads s + N.of_nat (length bl))%N →
  recv_lines um (bl ++ ls) e s =
  ((Fail ErrTooManyEmptyStreamMessages,
    seal ErrTooManyEmptyStreamMessages
      (with_count (streamReader.emptyMessagesLimit s + 1) s)),
   drop (S (N.to_nat (streamReader.emptyMessagesLimit s -
                      streamReader.consecutiveEmptyReads s))) bl ++ ls).
Proof.
  intros Hbl. revert s. induction Hbl as [|l bl Hl _ IH]; intros s Hle Hlt.
  - simpl in Hlt. lia.
  - cbn [app recv_lines]. rewrite handleLine_blank by done. cbv zeta.
    destruct (N.ltb_spec (streamReader.emptyMessagesLimit s)
                (streamReader.consecutiveEmptyReads s + 1)) as [H|H].
    + replace (streamReader.consecutiveEmptyReads s + 1)%N
        with (streamReader.emptyMessagesLimit s + 1)%N by lia.
      replace (streamReader.emptyMessagesLimit s - streamReader.consecutiveEmptyReads s)%N
        with 0%N by lia.
      done.
    + rewrite IH; cbn -[N.of_nat N.add N.sub drop]; [|lia|cbn [length] in Hlt; lia].
      do 2 f_equal.
      replace (N.to_nat (streamReader.emptyMessagesLimit s -
                         streamReader.consecutiveEmptyReads s))
        with (S (N.to_nat (streamReader.emptyMessagesLimit s -
                           (streamReader.consecutiveEmptyReads s + 1)))) by lia.
      done.
Qed.
End Frames.

Section Events.
Context {T : Type} `{!Zero T, !Unmarshal ErrorResponse.t}.
Implicit Types (s : streamReader.t T) (l p : bytes) (ls bl : list bytes).
Implicit Types (um : bytes → T → T * option error) (e : option error).

Lemma with_count_twice n m s : with_count n (with_count m s) = with_count n s.
Proof. done. Qed.

Lemma keep_alives_blank limit bl : keep_alives limit bl → Forall (λ l, blank l = true) bl.
Proof. intros [H _]. eapply Forall_impl; [done|]. by intros l [? _]. Qed.

(** An open session with a zero count passes over keep-alives and returns
    the event of the frame that follows; it is then as it was. *)
Lemma recv_event um bl p ls e s :
  keep_alives (streamReader.emptyMessagesLimit s) bl → decodes um p →
  streamReader.consecutiveEmptyReads s = 0%N → streamReader.terminalError s = None →
  recv_abstract um (bl ++ frame p :: ls) e s = ((Ok (um p zero).1, s), ls).
Proof.
  intros Hbl Hp Hc Ht. unfold recv_abstract. rewrite Ht.
  rewrite recv_lines_blanks; [|by eapply keep_alives_blank|rewrite Hc; destruct Hbl; lia].
  cbn [recv_lines]. unfold handleLine. rewrite classify_event by done.
  cbn -[N.of_nat N.add]. by rewrite with_count_twice, <- Hc, with_count_id.
Qed.

(** On the sentinel it returns the end of the stream and is sealed. *)
Lemma recv_done um bl ls e s :
  keep_alives (streamReader.emptyMessagesLimit s) bl →
  streamReader.consecutiveEmptyReads s = 0%N → streamReader.terminalError s = None →
  recv_abstract um (bl ++ frame doneSentinel :: ls) e s =
  ((Fail EOF, seal EOF (with_count (N.of_nat (length bl)) s)), ls).
Proof.
  intros Hbl Hc Ht. unfold recv_abstract. rewrite Ht.
  rewrite recv_lines_blanks; [|by eapply keep_alives_blank|rewrite Hc; destruct Hbl; lia].
  cbn [recv_lines]. unfold handleLine. by rewrite classify_done, Hc.
Qed.

(** A sealed session returns its terminal condition, as often as asked. *)
Lemma recv_sealed_n um n ls e s (t : error) :
  streamReader.terminalError s = Some t →
  recv_abstract_n um n ls e s = (replicate n (Fail t), s).
Proof.
  intros Ht. induction n as [|n IH]; simpl; [done|].
  unfold recv_abstract. by rewrite Ht, IH.
Qed.

(** The events of a well-formed stream, then the end of the stream, as
    often as asked. *)
Lemma recv_script um fs bl ls e s k :
  well_formed um (streamReader.emptyMessagesLimit s) fs →
  keep_alives (streamReader.emptyMessagesLimit s) bl →
  streamReader.consecutiveEmptyReads s = 0%N → streamReader.terminalError s = None →
  recv_abstract_n um (length fs + S k) (script_lines fs ++ bl ++ frame doneSentinel :: ls) e s =
  (script_events um fs ++ replicate (S k) (Fail EOF),
   seal EOF (with_count (N.of_nat (length bl)) s)).
Proof.
  intros Hfs Hbl Hc Ht. induction Hfs as [|[bl' p] fs [Hbl' Hp] _ IH].
  - cbn [length script_lines flat_map app Nat.add recv_abstract_n script_events map].
    rewrite recv_done by done. by rewrite (recv_sealed_n _ _ _ _ _ EOF).
  - cbn [length script_lines flat_map app Nat.add recv_abstract_n script_events map fst snd].
    rewrite <- !app_assoc. cbn [app]. rewrite recv_event by done.
    fold (script_lines fs). by rewrite IH.
Qed.

(** On a frame whose payload the decoder refuses, it returns the error of
    the decoder and is sealed with it. *)
Lemma recv_refused um bl p ls e s err :
  keep_alives (streamReader.emptyMessagesLimit s) bl →
  tight p → p ≠ doneSentinel → (um p zero).2 = Some err →
  streamReader.consecutiveEmptyReads s = 0%N → streamReader.terminalError s = None →
  recv_abstract um (bl ++ frame p :: ls) e s =
  ((Fail err, seal err (with_count (N.of_nat (length bl)) s)), ls).
Proof.
  intros Hbl Hp Hne Hd Hc Ht. unfold recv_abstract. rewrite Ht.
  rewrite recv_lines_blanks; [|by eapply keep_alives_blank|rewrite Hc; destruct Hbl; lia].
  cbn [recv_lines]. unfold handleLine. rewrite classify_frame, bool_decide_false by done.
  destruct (um p zero) as [v [e'|]]; simplify_eq/=. by rewrite Hc.
Qed.

(** The events of a well-formed stream, then the error of the frame that
    does not decode, as often as asked. *)
Lemma recv_script_refused um fs bl p ls e s err k :
  well_formed um (streamReader.emptyMessagesLimit s) fs →
  keep_alives (streamReader.emptyMessagesLimit s) bl →
  tight p → p ≠ doneSentinel → (um p zero).2 = Some err →
  streamReader.consecutiveEmptyReads s = 0%N → streamReader.terminalError s = None →
  recv_abstract_n um (length fs + S k) (script_lines fs ++ bl ++ frame p :: ls) e s =
  (script_events um fs ++ replicate (S k) (Fail err),
   seal err (with_count (N.of_nat (length bl)) s)).
Proof.
  intros Hfs Hbl Hp Hne Hd Hc Ht. induction Hfs as [|[bl' q] fs [Hbl' Hq] _ IH].
  - cbn [length script_lines flat_map app Nat.add recv_abstract_n script_events map].
    rewrite (recv_refused um bl p ls e s err) by done.
    by rewrite (recv_sealed_n _ _ _ _ _ err).
  - cbn [length script_lines flat_map app Nat.add recv_abstract_n script_events map fst snd].
    rewrite <- !app_assoc. cbn [app]. rewrite recv_event by done.
    fold (script_lines fs). by rewrite IH.
Qed.
End Events.

(** ** Lemmas: what every call establishes *)

Section Invariants.
Context {T : Type} `{!Zero T, !Unmarshal ErrorResponse.t}.
Implicit Types (s : streamReader.t T) (l p : bytes) (ls bl : list bytes).
Implicit Types (um : bytes → T → T * option error) (e : option error).

Lemma outcome_with_reader v r s : outcome v (with_reader r s) ↔ outcome v s.
Proof. by destruct v. Qed.

Lemma handleLine_outcome um l s :
  streamReader.terminalError s = None →
  match handleLine um l s with
  | Continue s' => streamReader.terminalError s' = None
  | Return v s' => outcome v s'
  end.
Proof.
  intros Ht. unfold handleLine. destruct (classify um l); simpl; try done.
  by destruct (_ <? _)%N.
Qed.

Lemma handleEnd_outcome t s : outcome (handleEnd t s).1 (handleEnd t s).2.
Proof. unfold handleEnd. destruct (is_EOF t); [|done]. by destruct (session_failed s). Qed.

Lemma recv_lines_outcome um ls e s :
  streamReader.terminalError s = None →
  outcome (recv_lines um ls e s).1.1 (recv_lines um ls e s).1.2.
Proof.
  revert s. induction ls as [|l ls IH]; intros s Ht; simpl.
  - apply handleEnd_outcome.
  - pose proof (handleLine_outcome um l s Ht) as H.
    destruct (handleLine um l s); simpl; auto.
Qed.

(** Whatever the session and the input: an event leaves the session open
    with a zero count, an error leaves it sealed with that error. *)
Lemma recv_abstract_outcome um ls e s :
  outcome (recv_abstract um ls e s).1.1 (recv_abstract um ls e s).1.2.
Proof.
  unfold recv_abstract. destruct (streamReader.terminalError s) eqn:Ht; [done|].
  by apply recv_lines_outcome.
Qed.

Lemma handleLine_wf um l s :
  session_wf s → streamReader.terminalError s = None →
  session_wf (step_session (handleLine um l s)).
Proof.
  intros [H1 H2] Ht. specialize (H2 Ht). unfold handleLine, session_wf.
  destruct (classify um l); simpl; try (split; [lia|intros; lia]); try done.
  destruct (N.ltb_spec (streamReader.emptyMessagesLimit s)
              (streamReader.consecutiveEmptyReads s + 1)); simpl;
    (split; [lia|intros; try done; lia]).
Qed.

Lemma handleEnd_wf t s :
  session_wf s → streamReader.terminalError s = None → session_wf (handleEnd t s).2.
Proof.
  intros [H1 H2] Ht. unfold handleEnd, session_wf.
  destruct (is_EOF t); [destruct (session_failed s)|]; simpl; done.
Qed.

Lemma recv_lines_wf um ls e s :
  session_wf s → streamReader.terminalError s = None →
  session_wf (recv_lines um ls e s).1.2.
Proof.
  revert s. induction ls as [|l ls IH]; intros s Hwf Ht; simpl.
  - by apply handleEnd_wf.
  - pose proof (handleLine_wf um l s Hwf Ht) as H.
    pose proof (handleLine_outcome um l s Ht) as H'.
    destruct (handleLine um l s); simpl in *; auto.
Qed.

Lemma recv_abstract_wf um ls e s : session_wf s → session_wf (recv_abstract um ls e s).1.2.
Proof.
  intros Hwf. unfold recv_abstract.
  destruct (streamReader.terminalError s) eqn:Ht; [done|]. by apply recv_lines_wf.
Qed.

Lemma session_wf_with_reader r s : session_wf (with_reader r s) ↔ session_wf s.
Proof. done. Qed.

(** Lines that are neither blank nor data go to the accumulator, in order,
    and are not counted. *)
Lemma recv_lines_foreign um fl ls e s :
  Forall foreign fl →
  recv_lines um (fl ++ ls) e s =
  recv_lines um ls e
    (with_acc (fold_left (λ a p, ErrorAccumulator.Write p a) fl
                 (streamReader.errAccumulator s)) s).
Proof.
  intros Hfl. revert s. induction Hfl as [|l fl Hl _ IH]; intros s.
  - by destruct s.
  - cbn [app recv_lines fold_left]. unfold handleLine at 1.
    rewrite classify_foreign by done. by rewrite IH.
Qed.
End Invariants.

(** ** Lemmas: the session that [sendRequestStream] opens *)

Section Opened.
Context {T : Type} `{!Zero T, !Unmarshal T, !Unmarshal ErrorResponse.t}.
Implicit Types (s : streamReader.t T) (c : Client) (w : World).

(** A session returned without an error is the session of a response with
    a success status. *)
Lemma sendRequestStream_session c req w s :
  (sendRequestStream (T := T) c req w).1 = (s, None) →
  ∃ resp, s = sessionOf c resp ∧ isFailureStatusCode resp = false.
Proof.
  rewrite sendRequestStream_unfold.
  destruct (Do _ _ w) as [[resp|err] w1]; [|done].
  destruct (isFailureStatusCode resp) eqn:E; [done|].
  intros [= <-]. by exists resp.
Qed.

Lemma sessionOf_wf c resp : session_wf (sessionOf (T := T) c resp).
Proof. unfold session_wf. simpl. split; intros; lia. Qed.

(** The lines of a script are lines. *)
Lemma script_lines_lines (um : bytes → T → T * option error) limit fs :
  well_formed um limit fs → Forall is_line (script_lines fs).
Proof.
  induction 1 as [|[bl p] fs [[Hbl _] ((Hp & _) & _)] _ IH]; simpl; [done|].
  rewrite <- app_assoc. apply Forall_app. split.
  - eapply Forall_impl; [done|]. by intros l [_ ?].
  - constructor; [by apply frame_is_line|done].
Qed.

Lemma keep_alives_lines limit bl : keep_alives limit bl → Forall is_line bl.
Proof. intros [H _]. eapply Forall_impl; [done|]. by intros l [_ ?]. Qed.
End Opened.

(** ** Theorems: [Recv] *)

Section RecvTheorems.
Context {T : Type} `{!Zero T, !Unmarshal ErrorResponse.t}.
Implicit Types (s : streamReader.t T) (r : Bufio.t) (w : World).
Implicit Types (um : bytes → T → T * option error).

(** A call that returns is on a sealed session or on one with a reader and
    a decoder. *)
Lemma Recv_Some_inv s w x w' :
  Recv s w = (Some x, w') → streamReader.terminalError s = None →
  ∃ r um, streamReader.reader s = Some r ∧ streamReader.unmarshaler s = Some um.
Proof.
  unfold Recv. intros H Ht. rewrite Ht in H. simpl in H.
  destruct (streamReader.reader s) as [r|]; [|done].
  destruct (streamReader.unmarshaler s) as [um|]; [|done]. by exists r, um.
Qed.

(** [Recv] returns on every session that has a reader and a decoder: the
    fuel of its loop is never exhausted. *)
Theorem Recv_total s w r um :
  streamReader.reader s = Some r → streamReader.unmarshaler s = Some um →
  is_Some (Recv s w).1.
Proof.
  intros Hr Hum. destruct (Recv_refines s w r um Hr Hum) as (r' & w' & -> & _).
  by eexists.
Qed.

(** What a call returns and the session it leaves agree: an event leaves
    the session open with the count of empty reads at zero; an error leaves
    it sealed with that error. *)
Theorem Recv_outcome s w v s' w' : Recv s w = (Some (v, s'), w') → outcome v s'.
Proof.
  intros H. destruct (streamReader.terminalError s) as [t|] eqn:Ht.
  - unfold Recv in H. rewrite Ht in H. by simplify_eq/=.
  - destruct (Recv_Some_inv _ _ _ _ H Ht) as (r & um & Hr & Hum).
    destruct (Recv_refines s w r um Hr Hum) as (r' & w'' & E & _).
    rewrite E in H. injection H as <- <- <-.
    apply outcome_with_reader, recv_abstract_outcome.
Qed.

(** Once a call has returned an error, every later call returns the same
    error, the session stays as it is and the world is not touched: no
    event follows a terminal condition, and the transport is not read
    again. *)
Theorem Recv_sealed s w t s' w' n :
  Recv s w = (Some (Fail t, s'), w') →
  Recv_n n s' w' = (Some (replicate n (Fail t), s'), w').
Proof.
  intros H%Recv_outcome. simpl in H. induction n as [|n IH]; simpl; [done|].
  rewrite ST_bind_run. unfold Recv at 1 2. rewrite H. simpl.
  rewrite ST_bind_run, IH. done.
Qed.

(** The count of empty reads stays within one of the limit: [Recv] keeps
    the session well formed. *)
Theorem Recv_wf s w v s' w' :
  session_wf s → Recv s w = (Some (v, s'), w') → session_wf s'.
Proof.
  intros Hwf H. destruct (streamReader.terminalError s) as [t|] eqn:Ht.
  - unfold Recv in H. rewrite Ht in H. by simplify_eq/=.
  - destruct (Recv_Some_inv _ _ _ _ H Ht) as (r & um & Hr & Hum).
    destruct (Recv_refines s w r um Hr Hum) as (r' & w'' & E & _).
    rewrite E in H. injection H as <- <- <-.
    by apply session_wf_with_reader, recv_abstract_wf.
Qed.

(** What [Recv] returns does not depend on how the transport cuts the body
    into chunks: two worlds in which the session's body delivers the same
    bytes and ends the same way give the same results, call after call. *)
Theorem Recv_chunking n s w1 w2 r um :
  streamReader.reader s = Some r → streamReader.unmarshaler s = Some um →
  same_stream (visible w1 (Bufio.src r)) (visible w2 (Bufio.src r)) →
  ∃ vs s1 s2,
    (Recv_n n s w1).1 = Some (vs, s1) ∧ (Recv_n n s w2).1 = Some (vs, s2) ∧
    streamReader.terminalError s1 = streamReader.terminalError s2 ∧
    streamReader.consecutiveEmptyReads s1 = streamReader.consecutiveEmptyReads s2 ∧
    streamReader.errAccumulator s1 = streamReader.errAccumulator s2.
Proof.
  intros Hr Hum [Hc Hf].
  destruct (Recv_n_refines n s w1 r um Hr Hum) as (r1 & w1' & -> & _).
  destruct (Recv_n_refines n s w2 r um Hr Hum) as (r2 & w2' & -> & _).
  unfold lines, input, ending. rewrite Hc, Hf. by eexists _, _, _.
Qed.
End RecvTheorems.

(** ** Theorems: the session of a streaming call *)

Section StreamTheorems.
Context {T : Type} `{!Zero T, !Unmarshal T, !Unmarshal ErrorResponse.t}.
Implicit Types (s : streamReader.t T) (r : Bufio.t) (c : Client) (w : World).
Implicit Types (ls bl fl : list bytes) (rest : bytes).

Lemma recv_abstract_n_static um n ls e s :
  static (recv_abstract_n (T := T) um n ls e s).2 = static s.
Proof.
  revert ls s. induction n as [|n IH]; intros ls s; simpl; [done|].
  pose proof (recv_abstract_static um ls e s) as H.
  destruct (recv_abstract um ls e s) as [[v s1] ls1]. specialize (IH ls1 s1).
  destruct (recv_abstract_n um n ls1 e s1). simpl in *. congruence.
Qed.

(** The lines of an input that starts with lines. *)
Lemma lines_of_input r w ls rest :
  input r w = concat ls ++ rest → Forall is_line ls →
  lines r w = ls ++ (pieces NL rest).1.
Proof. intros Hin Hls. unfold lines. by rewrite Hin, pieces_concat_pieces. Qed.

(** The session of a response whose body is a well-formed stream: the
    events, then the end of the stream as often as asked. *)
Lemma sessionOf_script c resp w fs bl rest k :
  well_formed (unmarshal (T := T)) (ClientConfig.EmptyMessagesLimit (config c)) fs →
  keep_alives (ClientConfig.EmptyMessagesLimit (config c)) bl →
  stream_input (sessionOf (T := T) c resp) w =
    concat (script_lines fs ++ bl ++ [frame doneSentinel]) ++ rest →
  ∃ s' w',
    Recv_n (length fs + S k) (sessionOf (T := T) c resp) w =
      (Some (script_events (unmarshal (T := T)) fs ++ replicate (S k) (Fail EOF), s'), w') ∧
    streamReader.terminalError s' = Some EOF.
Proof.
  intros Hfs Hbl Hin.
  destruct (Recv_n_refines (length fs + S k) (sessionOf (T := T) c resp) w _ _ eq_refl eq_refl)
    as (r' & w' & -> & _).
  rewrite (lines_of_input _ _ _ _ Hin).
  - rewrite <- !app_assoc. cbn [app]. rewrite recv_script by done.
    by eexists _, _.
  - rewrite !Forall_app. split_and!;
      [by eapply script_lines_lines|by eapply keep_alives_lines|].
    constructor; [|done]. apply frame_is_line, (bool_decide_unpack _). by vm_compute.
Qed.

(** The same on a stream that ends with a frame the decoder refuses: the
    events, then the error of the decoder as often as asked. *)
Lemma sessionOf_script_refused c resp w fs bl p rest err k :
  well_formed (unmarshal (T := T)) (ClientConfig.EmptyMessagesLimit (config c)) fs →
  keep_alives (ClientConfig.EmptyMessagesLimit (config c)) bl →
  tight p → p ≠ doneSentinel → (unmarshal (T := T) p zero).2 = Some err →
  stream_input (sessionOf (T := T) c resp) w = concat (script_lines fs ++ bl ++ [frame p]) ++ rest →
  ∃ s' w',
    Recv_n (length fs + S k) (sessionOf (T := T) c resp) w =
      (Some (script_events (unmarshal (T := T)) fs ++ replicate (S k) (Fail err), s'), w') ∧
    streamReader.terminalError s' = Some err.
Proof.
  intros Hfs Hbl Hp Hne Hd Hin.
  destruct (Recv_n_refines (length fs + S k) (sessionOf (T := T) c resp) w _ _ eq_refl eq_refl)
    as (r' & w' & -> & _).
  rewrite (lines_of_input _ _ _ _ Hin).
  - rewrite <- !app_assoc. cbn [app]. rewrite (recv_script_refused _ _ _ p _ _ _ err) by done.
    by eexists _, _.
  - rewrite !Forall_app. split_and!;
      [by eapply script_lines_lines|by eapply keep_alives_lines|].
    constructor; [|done]. apply frame_is_line, Hp.
Qed.

(** C11: A frame whose payload does not decode ends the stream with the error of
    the decoder: the events before it are delivered, the call that meets
    the frame returns the error, and so does every later call. *)
Theorem stream_decode_error c req w s fs bl p rest err k :
  (sendRequestStream (T := T) c req w).1 = (s, None) →
  well_formed (unmarshal (T := T)) (ClientConfig.EmptyMessagesLimit (config c)) fs →
  keep_alives (ClientConfig.EmptyMessagesLimit (config c)) bl →
  tight p → p ≠ doneSentinel → (unmarshal (T := T) p zero).2 = Some err →
  stream_input s (sendRequestStream (T := T) c req w).2 =
    concat (script_lines fs ++ bl ++ [frame p]) ++ rest →
  ∃ s' w',
    Recv_n (length fs + S k) s (sendRequestStream (T := T) c req w).2 =
      (Some (script_events (unmarshal (T := T)) fs ++ replicate (S k) (Fail err), s'), w') ∧
    streamReader.terminalError s' = Some err.
Proof.
  intros (resp & -> & Hok)%sendRequestStream_session. apply sessionOf_script_refused.
Qed.

(** C1: The events of a well-formed stream reach the caller in order, whatever
    the chunks of the body are; keep-alive lines within the limit are not
    seen; the sentinel ends the stream, and every call after it returns the
    end of the stream again. *)
Theorem stream_delivers_events c req w s fs bl rest k :
  (sendRequestStream (T := T) c req w).1 = (s, None) →
  well_formed (unmarshal (T := T)) (ClientConfig.EmptyMessagesLimit (config c)) fs →
  keep_alives (ClientConfig.EmptyMessagesLimit (config c)) bl →
  stream_input s (sendRequestStream (T := T) c req w).2 =
    concat (script_lines fs ++ bl ++ [frame doneSentinel]) ++ rest →
  ∃ s' w',
    Recv_n (length fs + S k) s (sendRequestStream (T := T) c req w).2 =
      (Some (script_events (unmarshal (T := T)) fs ++ replicate (S k) (Fail EOF), s'), w') ∧
    streamReader.terminalError s' = Some EOF.
Proof. intros (resp & -> & Hok)%sendRequestStream_session. apply sessionOf_script. Qed.

(** C5: A server that sends more blank lines than the limit allows, and no
    frame among them, gets the stall error: the call returns after one line
    more than the limit, and the session is sealed. *)
Theorem stream_stalls c req w s bl rest :
  (sendRequestStream (T := T) c req w).1 = (s, None) →
  Forall (λ l, blank l = true ∧ is_line l) bl →
  (ClientConfig.EmptyMessagesLimit (config c) < N.of_nat (length bl))%N →
  stream_input s (sendRequestStream (T := T) c req w).2 = concat bl ++ rest →
  ∃ s' w',
    Recv s (sendRequestStream (T := T) c req w).2 =
      (Some (Fail ErrTooManyEmptyStreamMessages, s'), w') ∧
    streamReader.terminalError s' = Some ErrTooManyEmptyStreamMessages ∧
    streamReader.consecutiveEmptyReads s' =
      (ClientConfig.EmptyMessagesLimit (config c) + 1)%N.
Proof.
  intros (resp & -> & Hok)%sendRequestStream_session Hbl Hlen Hin.
  set (w1 := (sendRequestStream (T := T) c req w).2) in *.
  destruct (Recv_refines (sessionOf (T := T) c resp) w1 _ _ eq_refl eq_refl) as (r' & w' & -> & _).
  rewrite (lines_of_input _ _ _ _ Hin) by (eapply Forall_impl; [done|]; by intros l [_ ?]).
  unfold recv_abstract. cbn [sessionOf streamReader.terminalError].
  rewrite recv_lines_stall; [by eexists _, _|..]; simpl; try lia.
  eapply Forall_impl; [done|]. by intros l [? _].
Qed.

End StreamTheorems.

(** ** Theorems: the end of a stream, and its release *)

Section EndTheorems.
Context {T : Type} `{!Zero T, !Unmarshal T, !Unmarshal ErrorResponse.t}.
Implicit Types (s : streamReader.t T) (r : Bufio.t) (c : Client) (w : World).
Implicit Types (ls bl fl : list bytes) (rest : bytes) (e : option error).
Implicit Types (um : bytes → T → T * option error).

(** At the end of the input a session with a success status returns the end
    of the stream, or the error of the transport. *)
Lemma recv_end um bl e s :
  keep_alives (streamReader.emptyMessagesLimit s) bl →
  streamReader.consecutiveEmptyReads s = 0%N → streamReader.terminalError s = None →
  session_failed s = false →
  recv_abstract um bl e s =
  ((Fail (end_error e), seal (end_error e) (with_count (N.of_nat (length bl)) s)), []).
Proof.
  intros Hbl Hc Ht Hs. unfold recv_abstract. rewrite Ht.
  rewrite <- (app_nil_r bl) at 1.
  rewrite recv_lines_blanks; [|by eapply keep_alives_blank|rewrite Hc; destruct Hbl; lia].
  cbn [recv_lines]. unfold handleEnd, end_error, session_failed in *.
  cbn [with_count streamReader.response]. rewrite Hc, Hs.
  by destruct (is_EOF (default EOF e)).
Qed.

Lemma recv_script_end um fs bl e s k :
  well_formed um (streamReader.emptyMessagesLimit s) fs →
  keep_alives (streamReader.emptyMessagesLimit s) bl →
  streamReader.consecutiveEmptyReads s = 0%N → streamReader.terminalError s = None →
  session_failed s = false →
  recv_abstract_n um (length fs + S k) (script_lines fs ++ bl) e s =
  (script_events um fs ++ replicate (S k) (Fail (end_error e)),
   seal (end_error e) (with_count (N.of_nat (length bl)) s)).
Proof.
  intros Hfs Hbl Hc Ht Hs. induction Hfs as [|[bl' p] fs [Hbl' Hp] _ IH].
  - cbn [length script_lines flat_map app Nat.add recv_abstract_n script_events map].
    rewrite recv_end by done. by rewrite (recv_sealed_n _ _ _ _ _ (end_error e)).
  - cbn [length script_lines flat_map app Nat.add recv_abstract_n script_events map fst snd].
    rewrite <- !app_assoc. cbn [app]. rewrite recv_event by done.
    fold (script_lines fs). by rewrite IH.
Qed.

(** C8: A stream that ends without the sentinel: the events reach the caller,
    then the end of the stream when the body just ends, or the error of the
    transport as it is when a read fails (a cancelled context); the session
    is sealed with it. *)
Theorem stream_abrupt_end c req w s fs bl rest k :
  (sendRequestStream (T := T) c req w).1 = (s, None) →
  well_formed (unmarshal (T := T)) (ClientConfig.EmptyMessagesLimit (config c)) fs →
  keep_alives (ClientConfig.EmptyMessagesLimit (config c)) bl →
  stream_input s (sendRequestStream (T := T) c req w).2 =
    concat (script_lines fs ++ bl) ++ rest →
  NL ∉ rest →
  let t := end_error (stream_ending s (sendRequestStream (T := T) c req w).2) in
  ∃ s' w',
    Recv_n (length fs + S k) s (sendRequestStream (T := T) c req w).2 =
      (Some (script_events (unmarshal (T := T)) fs ++ replicate (S k) (Fail t), s'), w') ∧
    streamReader.terminalError s' = Some t.
Proof.
  intros (resp & -> & Hok)%sendRequestStream_session Hfs Hbl Hin Hrest.
  set (w1 := (sendRequestStream (T := T) c req w).2) in *. cbv zeta.
  destruct (Recv_n_refines (length fs + S k) (sessionOf (T := T) c resp) w1 _ _ eq_refl eq_refl)
    as (r' & w' & -> & _).
  rewrite (lines_of_input _ _ _ _ Hin).
  - rewrite pieces_notin, app_nil_r by done.
    rewrite recv_script_end; [by eexists _, _|done..|].
    unfold session_failed. simpl. by rewrite Hok.
  - rewrite Forall_app. split; [by eapply script_lines_lines|by eapply keep_alives_lines].
Qed.

(** The session of a streaming call, the response it is on and the world
    the call leaves. *)
Lemma sendRequestStream_opened c req w s :
  (sendRequestStream (T := T) c req w).1 = (s, None) →
  ∃ resp, s = sessionOf c resp ∧
    (Do (ClientConfig.HTTPClient (config c)) (eventStreamRequest req) w).1 = Ok resp ∧
    (sendRequestStream (T := T) c req w).2 =
      (Do (ClientConfig.HTTPClient (config c)) (eventStreamRequest req) w).2.
Proof.
  rewrite sendRequestStream_unfold.
  destruct (Do _ _ w) as [[resp|err] w1]; [|done].
  destruct (isFailureStatusCode resp) eqn:E; [done|].
  intros [= <-]. by exists resp.
Qed.

Lemma StreamClose_open s w resp :
  streamReader.closed s = false → streamReader.response s = Some resp →
  StreamClose s w = ((None, with_closed s), (Close (Response.Body resp) w).2).
Proof. intros Hc Hr. unfold StreamClose. by rewrite Hc, Hr. Qed.

Lemma StreamClose_closed s w : streamReader.closed s = true → StreamClose s w = ((None, s), w).
Proof. intros Hc. unfold StreamClose. by rewrite Hc. Qed.

(** C9: Closing the session of a streaming call, after any number of calls of
    [Recv], releases the body of the response: the open bodies are those
    from before the call.  It returns no error, and a second [Close] does
    nothing. *)
Theorem stream_close_releases c req w s n vs s' w' :
  DoerOK (ClientConfig.HTTPClient (config c)) →
  (sendRequestStream (T := T) c req w).1 = (s, None) →
  Recv_n n s (sendRequestStream (T := T) c req w).2 = (Some (vs, s'), w') →
  let r := StreamClose s' w' in
  r.1.1 = None ∧ open_bodies r.2 = open_bodies w ∧
  StreamClose r.1.2 r.2 = ((None, r.1.2), r.2).
Proof.
  intros Hd (resp & -> & HDo & Hw)%sendRequestStream_opened H.
  destruct (Do_ok_open _ _ _ _ HDo) as [Hopen Hnew]. rewrite <- Hw in Hopen.
  destruct (Recv_n_refines n (sessionOf (T := T) c resp)
              (sendRequestStream (T := T) c req w).2 _ _ eq_refl eq_refl)
    as (r' & w'' & E & Hadv).
  rewrite E in H. injection H as <- <- <-.
  pose proof (recv_abstract_n_static unmarshal n
                (lines (Bufio.NewReader (Response.Body resp)) (sendRequestStream (T := T) c req w).2)
                (ending (Bufio.NewReader (Response.Body resp)) (sendRequestStream (T := T) c req w).2)
                (sessionOf (T := T) c resp)) as Hst.
  unfold static in Hst. injection Hst as _ Hresp _ _ Hcl.
  cbv zeta. rewrite (StreamClose_open _ _ resp) by done. cbn [fst snd].
  split_and!; [done| |by apply StreamClose_closed].
  rewrite open_bodies_Close, (advance_open _ _ _ _ Hadv), Hopen. set_solver.
Qed.
End EndTheorems.

(** ** Theorems: every session of a streaming call *)

Section SessionTheorems.
Context {T : Type} `{!Zero T, !Unmarshal T, !Unmarshal ErrorResponse.t}.
Implicit Types (s : streamReader.t T) (r : Bufio.t) (c : Client) (w : World).
Implicit Types (um : bytes → T → T * option error).

Lemma recv_abstract_n_trace um n ls e s : sealed_trace (recv_abstract_n um n ls e s).1.
Proof.
  revert ls s. induction n as [|n IH]; intros ls s; simpl; [done|].
  pose proof (recv_abstract_outcome um ls e s) as H.
  destruct (recv_abstract um ls e s) as [[[v|t] s1] ls1]; simpl in H.
  - specialize (IH ls1 s1). by destruct (recv_abstract_n um n ls1 e s1).
  - rewrite (recv_sealed_n _ _ _ _ _ t) by done. simpl. by rewrite length_replicate.
Qed.

Lemma recv_abstract_n_length um n ls e s : length (recv_abstract_n um n ls e s).1 = n.
Proof.
  revert ls s. induction n as [|n IH]; intros ls s; simpl; [done|].
  destruct (recv_abstract um ls e s) as [[v s1] ls1]. specialize (IH ls1 s1).
  destruct (recv_abstract_n um n ls1 e s1). simpl in *. by rewrite IH.
Qed.

Lemma recv_abstract_n_wf um n ls e s :
  session_wf s → session_wf (recv_abstract_n um n ls e s).2.
Proof.
  revert ls s. induction n as [|n IH]; intros ls s Hwf; simpl; [done|].
  pose proof (recv_abstract_wf um ls e s Hwf) as H.
  destruct (recv_abstract um ls e s) as [[v s1] ls1]. specialize (IH ls1 s1 H).
  by destruct (recv_abstract_n um n ls1 e s1).
Qed.

(** C3: On the session of a streaming call, in any world, any number of calls
    of [Recv] return, and return what the abstract session returns on the
    lines of the input; they open no body, close none and send nothing. *)
Theorem stream_refines c req w s n w1 :
  (sendRequestStream (T := T) c req w).1 = (s, None) →
  ∃ s' w',
    Recv_n n s w1 =
      (Some ((recv_abstract_n unmarshal n (pieces NL (stream_input s w1)).1
                (stream_ending s w1) s).1, s'), w') ∧
    open_bodies w' = open_bodies w1 ∧ sent w' = sent w1.
Proof.
  intros (resp & -> & Hok)%sendRequestStream_session.
  destruct (Recv_n_refines n (sessionOf (T := T) c resp) w1 _ _ eq_refl eq_refl)
    as (r' & w' & -> & Hadv).
  eexists _, _. split; [done|]. split; [apply Hadv|apply Hadv].
Qed.

(** C7: After any number of calls of [Recv] on the session of a streaming call
    the count of empty reads is at most one above the limit of the
    configuration, and within it while the session is open; the results
    are as many as the calls, and after the first error they repeat it. *)
Theorem stream_invariant c req w s n w1 vs s' w' :
  (sendRequestStream (T := T) c req w).1 = (s, None) →
  Recv_n n s w1 = (Some (vs, s'), w') →
  streamReader.emptyMessagesLimit s' = ClientConfig.EmptyMessagesLimit (config c) ∧
  session_wf s' ∧ length vs = n ∧ sealed_trace vs.
Proof.
  intros (resp & -> & Hok)%sendRequestStream_session H.
  destruct (Recv_n_refines n (sessionOf (T := T) c resp) w1 _ _ eq_refl eq_refl)
    as (r' & w'' & E & _).
  rewrite E in H. injection H as <- <- <-. cbn [on_session fst snd]. split_and!.
  - pose proof (recv_abstract_n_static unmarshal n
                  (lines (Bufio.NewReader (Response.Body resp)) w1)
                  (ending (Bufio.NewReader (Response.Body resp)) w1)
                  (sessionOf (T := T) c resp)) as Hst.
    unfold static in Hst. injection Hst as Hl _ _ _ _. exact Hl.
  - apply session_wf_with_reader, recv_abstract_n_wf, sessionOf_wf.
  - apply recv_abstract_n_length.
  - apply recv_abstract_n_trace.
Qed.

(** C6: What the calls of [Recv] return does not depend on how the transport
    cuts the body into chunks: in two worlds in which the body of the
    session delivers the same bytes and ends the same way, the results are
    the same, and so are the terminal condition, the count and the
    accumulated bytes of the session. *)
Theorem stream_chunking c req w s n w1 w2 :
  (sendRequestStream (T := T) c req w).1 = (s, None) →
  same_stream (stream_chunks s w1) (stream_chunks s w2) →
  ∃ vs s1 s2,
    (Recv_n n s w1).1 = Some (vs, s1) ∧ (Recv_n n s w2).1 = Some (vs, s2) ∧
    streamReader.terminalError s1 = streamReader.terminalError s2 ∧
    streamReader.consecutiveEmptyReads s1 = streamReader.consecutiveEmptyReads s2 ∧
    streamReader.errAccumulator s1 = streamReader.errAccumulator s2.
Proof.
  intros (resp & -> & Hok)%sendRequestStream_session Hsame.
  exact (Recv_chunking n (sessionOf (T := T) c resp) w1 w2
           (Bufio.NewReader (Response.Body resp)) unmarshal eq_refl eq_refl Hsame).
Qed.
End SessionTheorems.

(** ** Deciding the facts about lines by computation *)

Lemma is_line_cut l : cut NL l = Some (l, []) → is_line l.
Proof. intros H. by destruct (cut_last _ _ _ _ H) as (x & ? & ?); exists x. Qed.

Lemma notin_cut (l : bytes) : cut NL l = None → NL ∉ l.
Proof. apply cut_None. Qed.

(** Facts about concrete lines, payloads and scripts. *)
Ltac line_facts :=
  repeat first
    [ apply Forall_nil_2
    | apply Forall_cons_2
    | apply is_line_cut; reflexivity
    | apply notin_cut; reflexivity
    | reflexivity
    | by vm_compute
    | split ].

(** ** Witnesses *)

Section StreamWitnesses.
#[local] Existing Instances Echo_unmarshal ErrorResponse_unmarshal.

(** The example of the specification: two events and the sentinel, each
    frame followed by a blank line. *)
Definition event_a : bytes := jq "{'id':'a'}".
Definition event_b : bytes := jq "{'id':'b'}".

Definition example_script : script := [([], event_a); ([separator], event_b)].

Definition example_body : bytes :=
  concat (script_lines example_script ++ [separator] ++ [frame doneSentinel]) ++ separator.

(** The body in one chunk, and cut in the middle of a frame and between a
    line and its delimiter. *)
Definition one_chunk : list chunk := [Data example_body].
Definition three_chunks : list chunk :=
  [Data (take 9 example_body); Data (take 8 (drop 9 example_body));
   Data (drop 17 example_body)].

(** The streaming call on a server that replies with these chunks. *)
Definition opened (chunks : list chunk) : (streamReader.t Echo.t * option error) * World :=
  sendRequestStream (client_200 chunks) a_request empty_world.

Lemma stream_delivers_events_witness :
  ∃ s' w',
    Recv_n 4 (opened three_chunks).1.1 (opened three_chunks).2 =
      (Some ([Ok (Echo.mk event_a ∅); Ok (Echo.mk event_b ∅); Fail EOF; Fail EOF], s'), w') ∧
    streamReader.terminalError s' = Some EOF.
Proof.
  change [Ok (Echo.mk event_a ∅); Ok (Echo.mk event_b ∅); Fail EOF; Fail EOF]
    with (script_events (unmarshal (T := Echo.t)) example_script ++ replicate 2 (Fail EOF)).
  apply (stream_delivers_events (client_200 three_chunks) a_request empty_world
           (opened three_chunks).1.1 example_script [separator] separator 1);
    line_facts.
Defined.

(** More blank lines than the default limit allows. *)
Definition stalled : list chunk := [Data (concat (replicate 301 separator))].

Lemma stream_stalls_witness :
  ∃ s' w',
    Recv (opened stalled).1.1 (opened stalled).2 =
      (Some (Fail ErrTooManyEmptyStreamMessages, s'), w') ∧
    streamReader.terminalError s' = Some ErrTooManyEmptyStreamMessages ∧
    streamReader.consecutiveEmptyReads s' = 301%N.
Proof.
  apply (stream_stalls (client_200 stalled) a_request empty_world
           (opened stalled).1.1 (replicate 301 separator) []).
  - reflexivity.
  - apply Forall_replicate. line_facts.
  - by vm_compute.
  - by vm_compute.
Defined.



(** An event, then the context of the request is cancelled. *)
Definition canceled : error := ErrExternal "context canceled".
Definition cut_short : list chunk := [Data (frame event_a); Fault canceled].

Lemma stream_abrupt_end_witness :
  ∃ s' w',
    Recv_n 3 (opened cut_short).1.1 (opened cut_short).2 =
      (Some (script_events (unmarshal (T := Echo.t)) [([], event_a)] ++
             replicate 2 (Fail canceled), s'), w') ∧
    streamReader.terminalError s' = Some canceled.
Proof.
  apply (stream_abrupt_end (client_200 cut_short) a_request empty_world
           (opened cut_short).1.1 [([], event_a)] [] [] 1); line_facts.
Defined.

(** An event, then a frame whose payload is not an object. *)
Definition garbled : list chunk := [Data (frame event_a ++ frame (bs "<html>"))].
Definition not_a_value : error :=
  ErrExternal "invalid character looking for beginning of value".

Lemma stream_decode_error_witness :
  ∃ s' w',
    Recv_n 3 (opened garbled).1.1 (opened garbled).2 =
      (Some (script_events (unmarshal (T := Echo.t)) [([], event_a)] ++
             replicate 2 (Fail not_a_value), s'), w') ∧
    streamReader.terminalError s' = Some not_a_value.
Proof.
  apply (stream_decode_error (client_200 garbled) a_request empty_world
           (opened garbled).1.1 [([], event_a)] [] (bs "<html>") [] not_a_value 1);
    unfold tight; line_facts.
Defined.

(** Two calls of [Recv] on the example, then [Close]. *)
Definition after_two : option (list (res Echo.t) * streamReader.t Echo.t) * World :=
  Recv_n 2 (opened three_chunks).1.1 (opened three_chunks).2.

Definition session_after_two : streamReader.t Echo.t := (default ([], zero) after_two.1).2.

Lemma stream_close_releases_witness :
  let r := StreamClose session_after_two after_two.2 in
  r.1.1 = None ∧ open_bodies r.2 = open_bodies empty_world ∧
  StreamClose r.1.2 r.2 = ((None, r.1.2), r.2).
Proof.
  apply (stream_close_releases (client_200 three_chunks) a_request empty_world
           (opened three_chunks).1.1 2 (default ([], zero) after_two.1).1
           session_after_two after_two.2); [apply always_ok|reflexivity|by vm_compute].
Defined.

Lemma stream_refines_witness :
  ∃ s' w',
    Recv_n 4 (opened three_chunks).1.1 (opened three_chunks).2 =
      (Some ((recv_abstract_n unmarshal 4
                (pieces NL (stream_input (opened three_chunks).1.1 (opened three_chunks).2)).1
                (stream_ending (opened three_chunks).1.1 (opened three_chunks).2)
                (opened three_chunks).1.1).1, s'), w') ∧
    open_bodies w' = open_bodies (opened three_chunks).2 ∧
    sent w' = sent (opened three_chunks).2.
Proof.
  by apply (stream_refines (client_200 three_chunks) a_request empty_world
              (opened three_chunks).1.1 4 (opened three_chunks).2).
Defined.

Lemma stream_invariant_witness :
  streamReader.emptyMessagesLimit session_after_two =
    ClientConfig.EmptyMessagesLimit (config (client_200 three_chunks)) ∧
  session_wf session_after_two ∧
  length (default ([], zero) after_two.1).1 = 2 ∧
  sealed_trace (default ([], zero) after_two.1).1.
Proof.
  apply (stream_invariant (client_200 three_chunks) a_request empty_world
           (opened three_chunks).1.1 2 (opened three_chunks).2
           (default ([], zero) after_two.1).1 session_after_two after_two.2);
    [reflexivity|by vm_compute].
Defined.

Lemma stream_chunking_witness :
  ∃ vs s1 s2,
    (Recv_n 4 (opened three_chunks).1.1 (opened three_chunks).2).1 = Some (vs, s1) ∧
    (Recv_n 4 (opened three_chunks).1.1 (opened one_chunk).2).1 = Some (vs, s2) ∧
    streamReader.terminalError s1 = streamReader.terminalError s2 ∧
    streamReader.consecutiveEmptyReads s1 = streamReader.consecutiveEmptyReads s2 ∧
    streamReader.errAccumulator s1 = streamReader.errAccumulator s2.
Proof.
  apply (stream_chunking (client_200 three_chunks) a_request empty_world
           (opened three_chunks).1.1 4 (opened three_chunks).2 (opened one_chunk).2);
    [reflexivity|split; by vm_compute].
Defined.
End StreamWitnesses.

(** ** Corner cases *)

Section Corners.
Context {T : Type} `{!Zero T, !Unmarshal ErrorResponse.t}.
Implicit Types (s : streamReader.t T) (fl : list bytes) (e : option error).
Implicit Types (um : bytes → T → T * option error).

(** The branch of the specification for a session with a failure status:
    at the end of the input the accumulated lines are resolved into an
    error.  No session of [sendRequestStream] has such a status. *)
Lemma recv_resolves um fl e s :
  Forall foreign fl → streamReader.terminalError s = None →
  session_failed s = true → is_EOF (default EOF e) = true →
  (recv_abstract um fl e s).1.1 =
  Fail (resolveError
          (with_acc (fold_left (λ a p, ErrorAccumulator.Write p a) fl
                       (streamReader.errAccumulator s)) s)).
Proof.
  intros Hfl Ht Hs He. unfold recv_abstract. rewrite Ht.
  rewrite <- (app_nil_r fl) at 1. rewrite recv_lines_foreign by done.
  cbn [recv_lines]. unfold handleEnd. rewrite He.
  change (session_failed (with_acc _ s)) with (session_failed s). by rewrite Hs.
Qed.
End Corners.

Section CornerExamples.
#[local] Existing Instances Echo_unmarshal ErrorResponse_unmarshal.

(** With the limit 0, which the configuration allows, the blank line after
    the first frame of the example is one empty read too many. *)
Definition strict_client (chunks : list chunk) : Client :=
  NewClientWithConfig
    (ClientConfig.mk "dummy-token-giteeai" giteeaiAPIURLv1 defaultAssistantVersion
       (always (reply_200 chunks)) 0).

Example limit_zero_stalls :
  let r := sendRequestStream (T := Echo.t) (strict_client one_chunk) a_request empty_world in
  fst <$> (Recv_n 3 r.1.1 r.2).1 =
  Some [Ok (Echo.mk event_a ∅); Fail ErrTooManyEmptyStreamMessages;
        Fail ErrTooManyEmptyStreamMessages].
Proof. by vm_compute. Qed.

(** An error body on a response with the status 200, with or without a
    final newline, is the end of the stream for the caller. *)
Example error_body_is_EOF :
  let r := sendRequestStream (T := Echo.t) (client_200 [Data invalid_key_body]) a_request
             empty_world in
  fst <$> (Recv_n 2 r.1.1 r.2).1 = Some [Fail EOF; Fail EOF].
Proof. by vm_compute. Qed.

(** After [Close] a call of [Recv] fails with the error of a read on a
    closed body, and the frames that were not read are lost. *)
Example Recv_after_Close :
  let r := opened three_chunks in
  let c := StreamClose r.1.1 r.2 in
  fst <$> (Recv_n 2 c.1.2 c.2).1 =
  Some [Fail ErrBodyReadAfterClose; Fail ErrBodyReadAfterClose].
Proof. by vm_compute. Qed.
End CornerExamples.
