(* ===== verification/Machine.v ===== *)
(** * Machine: the stream session as a transition system

    Section 4.4 of the specification describes the session as a state
    machine.  Here it is one, written from the specification and not from
    the code of [Stream]: an inductive step relation [mstep] over the
    state of section 3 ([MState.t]: the count of empty reads, the release
    of the connection, the terminal condition, the accumulated bytes) and
    the lines the transport still has, with one rule for each case of
    section 4.4.  A step is silent (a line that gives the caller nothing)
    or gives the caller an event: the result of a call of [Recv], or the
    return of a call of [Close].  The one choice of the machine is how
    much input a release cuts off, which the code settles by what its
    reader had buffered.

    - The machine by itself, by induction on the rules: the invariant of
      the count ([mstep_wf]); a sealed session stays sealed and gives no
      event ([mstep_sealed], [runs_sealed_events]); a release is for good
      ([runs_released]); the steps inside a call are determined
      ([mstep_det], [receives_det]); every call of [Recv] returns, after
      at most as many silent steps as there are lines ahead
      ([receives_total], [silent_steps_bound]).
    - The session of [Stream] refines it: [abs] and [view] map a session
      and the world to a configuration, [handleLine_mstep] and
      [handleEnd_mstep] show each transition of the code to be a rule,
      and [Recv_simulates] and [StreamClose_simulates] each call to be a
      call of the machine.  [receives_recv_abstract] is the converse for
      the functional session of [Stream].
    - The programs of a caller ([run_calls]) are lists of calls of [Recv]
      and [Close] in any order; [run_calls_simulates] carries the
      simulation to them, and [stream_machine] and [stream_calls_safe]
      state it for the sessions that [sendRequestStream] of client.go
      returns. *)

From Stdlib Require Import ZArith NArith Ascii String List Lia.
From stdpp Require Import base tactics option list gmap strings relations.
From S2P Require Import Prelude Bytes Errors Http Internal Config Fixtures Client Stream.

Set Warnings "-clear-no-such-hyp,-notation-for-abbreviation".

(** * Definitions *)

(** ** The machine of the specification *)

(** The state of a session (section 3 of the specification): the count of
    empty reads, whether the connection was released, the terminal
    condition, and what the error accumulator holds. *)
Module MState.
Record t : Type := mk {
  empties : N;
  released : bool;
  terminal : option error;
  gathered : bytes;
}.
Definition set_empties (n : N) (m : t) : t := mk n (released m) (terminal m) (gathered m).
Definition seal (e : error) (m : t) : t := mk (empties m) (released m) (Some e) (gathered m).
Definition gather (raw : bytes) (m : t) : t :=
  mk (empties m) (released m) (terminal m) (gathered m ++ raw).
Definition release (m : t) : t := mk (empties m) true (terminal m) (gathered m).
Definition initial : t := mk 0 false None [].
End MState.

(** A configuration: the state, the complete lines the transport still has
    for the session, and how its input ends after them. *)
Record conf : Type := Conf {
  now : MState.t;
  ahead : list bytes;
  closing : option error;
}.

(** What the caller sees of a step. *)
Inductive event (T : Type) : Type :=
| Got (v : res T)      (* a call of [Recv] returns *)
| Closed.              (* a call of [Close] returns *)
Arguments Got {T} v.
Arguments Closed {T}.

Section Machine.
Context {T : Type} `{!Zero T}.
(** The decoder of the payloads, the limit of empty reads, whether the
    status of the response is a failure, and the error that the
    accumulated bytes resolve to. *)
Context (um : bytes → T → T * option error) (limit : N) (failed : bool).
Context (resolve : bytes → error).

(** The terminal condition at the end of the input. *)
Definition final (m : MState.t) (e : option error) : error :=
  if is_EOF (default EOF e)
  then (if failed then resolve (MState.gathered m) else EOF)
  else default EOF e.

(** The steps of section 4.4.  A step without an event takes a line and
    gives the caller nothing: the call of [Recv] goes on. *)
Inductive mstep : conf → option (event T) → conf → Prop :=
| step_blank m l ls e :
    MState.terminal m = None → classify um l = Skip →
    (MState.empties m + 1 ≤ limit)%N →
    mstep (Conf m (l :: ls) e) None
          (Conf (MState.set_empties (MState.empties m + 1) m) ls e)
| step_stall m l ls e :
    MState.terminal m = None → classify um l = Skip →
    (limit < MState.empties m + 1)%N →
    mstep (Conf m (l :: ls) e) (Some (Got (Fail ErrTooManyEmptyStreamMessages)))
          (Conf (MState.seal ErrTooManyEmptyStreamMessages
                   (MState.set_empties (MState.empties m + 1) m)) ls e)
| step_foreign m l ls e raw :
    MState.terminal m = None → classify um l = NotData raw →
    mstep (Conf m (l :: ls) e) None (Conf (MState.gather raw m) ls e)
| step_done m l ls e :
    MState.terminal m = None → classify um l = StreamComplete →
    mstep (Conf m (l :: ls) e) (Some (Got (Fail EOF))) (Conf (MState.seal EOF m) ls e)
| step_decoded m l ls e v :
    MState.terminal m = None → classify um l = Decoded v →
    mstep (Conf m (l :: ls) e) (Some (Got (Ok v))) (Conf (MState.set_empties 0 m) ls e)
| step_garbled m l ls e err :
    MState.terminal m = None → classify um l = DecodeError err →
    mstep (Conf m (l :: ls) e) (Some (Got (Fail err))) (Conf (MState.seal err m) ls e)
| step_end m e :
    MState.terminal m = None →
    mstep (Conf m [] e) (Some (Got (Fail (final m e)))) (Conf (MState.seal (final m e) m) [] e)
| step_sealed m ls e t :
    MState.terminal m = Some t →
    mstep (Conf m ls e) (Some (Got (Fail t))) (Conf m ls e)
| step_close m ls ls' e :
    MState.released m = false → ls' `prefix_of` ls →
    mstep (Conf m ls e) (Some Closed) (Conf (MState.release m) ls' (Some ErrBodyReadAfterClose))
| step_close_again m ls e :
    MState.released m = true →
    mstep (Conf m ls e) (Some Closed) (Conf m ls e).

(** The steps inside a call of [Recv], and a whole call: lines that give
    nothing, then the step that returns. *)
Definition silent : relation conf := λ c c', mstep c None c'.

Definition receives (c : conf) (v : res T) (c' : conf) : Prop :=
  ∃ c1, rtc silent c c1 ∧ mstep c1 (Some (Got v)) c'.

(** The runs of the machine and what the caller sees of them. *)
Inductive runs : conf → list (event T) → conf → Prop :=
| runs_nil c : runs c [] c
| runs_step c o c1 tr c' :
    mstep c o c1 → runs c1 tr c' → runs c (option_list o ++ tr) c'.

(** The invariant of the count (section 3): at most one above the limit,
    and within it while the session is not sealed. *)
Definition mstate_wf (m : MState.t) : Prop :=
  (MState.empties m ≤ limit + 1)%N ∧
  (MState.terminal m = None → (MState.empties m ≤ limit)%N).

(** After the first error, that error and nothing else is received. *)
Fixpoint sealed_events (tr : list (event T)) : Prop :=
  match tr with
  | [] => True
  | Got (Fail t) :: tr' => Forall (λ o, o = Closed ∨ o = Got (Fail t)) tr' 
  | _ :: tr' => sealed_events tr'
  end.
End Machine.

(** ** The machine of a session *)

Section Abstraction.
Context {T : Type} `{!Zero T, !Unmarshal ErrorResponse.t}.
Implicit Types (s : streamReader.t T) (r : Bufio.t) (w : World).

(** The state of the machine that a session is in. *)
Definition abs s : MState.t :=
  MState.mk (streamReader.consecutiveEmptyReads s) (streamReader.closed s)
    (streamReader.terminalError s)
    (ErrorAccumulator.Bytes (streamReader.errAccumulator s)).

(** What a session never changes and the machine takes as given: the
    limit, the response and the decoder. *)
Definition settings s :=
  (streamReader.emptyMessagesLimit s, streamReader.response s, streamReader.unmarshaler s).

(** The error that accumulated bytes resolve to on the response of a
    session. *)
Definition resolution s (b : bytes) : error :=
  resolveError (with_acc (ErrorAccumulator.mk b) s).

(** The configuration of the machine that a session and the world are in. *)
Definition view s w : conf :=
  Conf (abs s) (pieces NL (stream_input s w)).1 (stream_ending s w).

(** The machine of a session. *)
Definition session_step s (um : bytes → T → T * option error) :=
  mstep um (streamReader.emptyMessagesLimit s) (session_failed s) (resolution s).

Definition session_receives s (um : bytes → T → T * option error) :=
  receives um (streamReader.emptyMessagesLimit s) (session_failed s) (resolution s).

Definition session_runs s (um : bytes → T → T * option error) :=
  runs um (streamReader.emptyMessagesLimit s) (session_failed s) (resolution s).

(** A session that reads the body of its response. *)
Definition attached s (h : nat) : Prop :=
  ∃ r resp, streamReader.reader s = Some r ∧ streamReader.response s = Some resp ∧
            Bufio.src r = h ∧ Response.Body resp = h.
End Abstraction.

(** ** The programs of a caller *)

Inductive call : Type := CallRecv | CallClose.

Section Programs.
Context {T : Type} `{!Zero T, !Unmarshal ErrorResponse.t}.
Implicit Types (s : streamReader.t T) (w : World).

Definition perform (a : call) s : ST World (option (event T * streamReader.t T)) :=
  match a with
  | CallRecv => r ← Recv s; mret (prod_map Got id <$> r)
  | CallClose => '(_, s) ← StreamClose s; mret (Some (Closed, s))
  end.

Fixpoint run_calls (p : list call) s : ST World (option (list (event T) * streamReader.t T)) :=
  match p with
  | [] => mret (Some ([], s))
  | a :: p =>
      r ← perform a s;
      match r with
      | None => mret None
      | Some (o, s) => rs ← run_calls p s; mret ('(tr, s) ← rs; Some (o :: tr, s))
      end
  end.
End Programs.

(** Whether a program calls [Close]. *)
Definition closes (p : list call) : bool :=
  existsb (λ a, match a with CallClose => true | CallRecv => false end) p.

(** * Lemmas: the machine *)

Section MachineLemmas.
Context {T : Type} `{!Zero T}.
Context (um : bytes → T → T * option error) (limit : N) (failed : bool).
Context (resolve : bytes → error).
Implicit Types (c : conf) (m : MState.t) (o : option (event T)) (tr : list (event T)).

Notation mstep := (mstep um limit failed resolve).
Notation silent := (silent um limit failed resolve).
Notation receives := (receives um limit failed resolve).
Notation runs := (runs um limit failed resolve).
Notation mstate_wf := (mstate_wf limit).

#[local] Hint Constructors Machine.mstep : core.

Lemma runs_once c o c' : mstep c o c' → runs c (option_list o) c'.
Proof.
  intros H. rewrite <- (app_nil_r (option_list o)). eapply runs_step; [done|constructor].
Qed.

Lemma runs_app c tr c1 tr' c' : runs c tr c1 → runs c1 tr' c' → runs c (tr ++ tr') c'.
Proof.
  induction 1 as [|c o c2 tr c1 Hs _ IH]; [done|]. intros H.
  rewrite <- app_assoc. eapply runs_step; [done|by apply IH].
Qed.

Lemma runs_silent c c' : rtc silent c c' → runs c [] c'.
Proof.
  induction 1 as [|c c1 c' Hs _ IH]; [constructor|]. by apply (runs_step _ _ _ _ c None c1 [] c').
Qed.

(** A call of [Recv] is a run with one event. *)
Lemma receives_runs c v c' : receives c v c' → runs c [Got v] c'.
Proof.
  intros (c1 & Hs & Hv). apply (runs_app _ [] c1); [by apply runs_silent|].
  by apply (runs_once _ (Some (Got v))).
Qed.

(** ** Invariants, by induction on the rules *)

Lemma mstep_wf c o c' : mstep c o c' → mstate_wf (now c) → mstate_wf (now c').
Proof.
  unfold Machine.mstate_wf. destruct 1; simpl; intros [Hle Hopen];
    try specialize (Hopen ltac:(assumption));
    (split; [lia|intros; first [done | congruence | lia | auto]]).
Qed.

Lemma runs_wf c tr c' : runs c tr c' → mstate_wf (now c) → mstate_wf (now c').
Proof. induction 1; eauto using mstep_wf. Qed.

(** What a step that returns to the caller leaves: an event leaves the
    session open with a zero count, an error seals it. *)
Lemma mstep_got c v c' :
  mstep c (Some (Got v)) c' →
  match v with
  | Ok _ => MState.terminal (now c') = None ∧ MState.empties (now c') = 0%N
  | Fail t => MState.terminal (now c') = Some t
  end.
Proof. by inversion 1. Qed.

(** A sealed session stays as it is, but for its release. *)
Lemma mstep_sealed c o c' t :
  mstep c o c' → MState.terminal (now c) = Some t →
  MState.terminal (now c') = Some t ∧ (o = Some Closed ∨ o = Some (Got (Fail t))).
Proof.
  destruct 1; simpl; intros Ht; try congruence;
    (split; [done|first [by left | right; congruence]]).
Qed.

Lemma runs_sealed c tr c' t :
  runs c tr c' → MState.terminal (now c) = Some t →
  MState.terminal (now c') = Some t ∧ Forall (λ x, x = Closed ∨ x = Got (Fail t)) tr.
Proof.
  induction 1 as [|c o c1 tr c' Hs _ IH]; intros Ht; [done|].
  destruct (mstep_sealed _ _ _ _ Hs Ht) as [Ht1 Ho]. destruct (IH Ht1) as [Ht' Htr].
  split; [done|]. apply Forall_app. split; [|done].
  destruct Ho as [-> | ->]; simpl; (constructor; [auto|constructor]).
Qed.

(** After the first error the caller receives that error and nothing
    else, whatever the calls. *)
Lemma runs_sealed_events c tr c' : runs c tr c' → sealed_events tr.
Proof.
  induction 1 as [|c o c1 tr c' Hs Hr IH]; [done|].
  destruct o as [[[v|t]|]|]; simpl; try done.
  apply mstep_got in Hs. by destruct (runs_sealed _ _ _ _ Hr Hs).
Qed.

(** The release is for good. *)
Lemma mstep_released c o c' :
  mstep c o c' →
  (MState.released (now c) = true ∨ o = Some Closed → MState.released (now c') = true).
Proof. destruct 1; simpl; intros [?|?]; congruence. Qed.

Lemma runs_released c tr c' :
  runs c tr c' → MState.released (now c) = true ∨ Closed ∈ tr →
  MState.released (now c') = true.
Proof.
  induction 1 as [|c o c1 tr c' Hs _ IH]; intros H.
  - destruct H as [?|H]; [done|by apply elem_of_nil in H].
  - apply IH. destruct H as [H|H].
    + left. apply (mstep_released _ _ _ Hs). by left.
    + apply elem_of_app in H as [H|H]; [|by right]. left.
      apply (mstep_released _ _ _ Hs). right. destruct o as [[]|]; simpl in H;
        [by apply list_elem_of_singleton in H|done|by apply elem_of_nil in H].
Qed.
End MachineLemmas.

Section MachineRuns.
Context {T : Type} `{!Zero T}.
Context (um : bytes → T → T * option error) (limit : N) (failed : bool).
Context (resolve : bytes → error).
Implicit Types (c : conf) (m : MState.t) (o : option (event T)) (tr : list (event T)).

Notation mstep := (mstep um limit failed resolve).
Notation silent := (silent um limit failed resolve).
Notation receives := (receives um limit failed resolve).

(** ** Determinism: the only choice is how much input a release cuts off *)

Lemma mstep_det c o1 c1 o2 c2 :
  mstep c o1 c1 → mstep c o2 c2 → o1 ≠ Some Closed → o2 ≠ Some Closed →
  o1 = o2 ∧ c1 = c2.
Proof.
  destruct 1; inversion 1; subst; intros; try congruence; try lia; try done.
  all: split; congruence.
Qed.

Lemma silent_det : deterministic silent.
Proof. intros c c1 c2 H1 H2. by destruct (mstep_det _ _ _ _ _ H1 H2). Qed.

(** A call of [Recv] has one result. *)
Lemma receives_det c v1 c1 v2 c2 :
  receives c v1 c1 → receives c v2 c2 → v1 = v2 ∧ c1 = c2.
Proof.
  intros (a & Ha & H1) (b & Hb & H2). revert b Hb H2.
  induction Ha as [a|a a1 a2 Hs _ IH]; intros b Hb H2.
  - destruct Hb as [|b b1 b2 Hs' _].
    + destruct (mstep_det _ _ _ _ _ H1 H2) as [[= ->] ->]; done.
    + by destruct (mstep_det _ _ _ _ _ H1 Hs').
  - destruct Hb as [|b b1 b2 Hs' Hb].
    + by destruct (mstep_det _ _ _ _ _ Hs H2).
    + rewrite <- (silent_det _ _ _ Hs Hs') in Hb. by apply (IH H1 b2).
Qed.

(** ** Progress and termination: every call of [Recv] returns *)

(** A step inside a call takes a line. *)
Lemma silent_ahead c c' : silent c c' → ahead c = hd [] (ahead c) :: ahead c'.
Proof. by inversion 1. Qed.

Lemma receives_total c : ∃ v c', receives c v c'.
Proof.
  destruct c as [m ls e]. revert m. induction ls as [|l ls IH]; intros m.
  - destruct (MState.terminal m) as [t|] eqn:Ht.
    + eexists _, _, _. split; [done|]. by apply step_sealed.
    + eexists _, _, _. split; [done|]. by apply step_end.
  - destruct (MState.terminal m) as [t|] eqn:Ht.
    { eexists _, _, _. split; [done|]. by apply step_sealed. }
    destruct (classify um l) as [|raw| |v|err] eqn:Hc.
    + destruct (N.le_gt_cases (MState.empties m + 1) limit) as [Hle|Hgt].
      * destruct (IH (MState.set_empties (MState.empties m + 1) m)) as (v & c' & c1 & Hs & Hv).
        exists v, c', c1. split; [|done]. eapply rtc_l; [|done]. by apply step_blank.
      * eexists _, _, _. split; [done|]. by apply step_stall.
    + destruct (IH (MState.gather raw m)) as (v & c' & c1 & Hs & Hv).
      exists v, c', c1. split; [|done]. eapply rtc_l; [|done]. by apply step_foreign.
    + eexists _, _, _. split; [done|]. by apply step_done.
    + eexists _, _, _. split; [done|]. by apply step_decoded.
    + eexists _, _, _. split; [done|]. by apply step_garbled.
Qed.

(** The steps inside a call are fewer than the lines ahead. *)
Lemma silent_steps_bound n c c' : nsteps silent n c c' → n + length (ahead c') = length (ahead c).
Proof.
  induction 1 as [|n c c1 c' Hs _ IH]; [done|].
  rewrite (silent_ahead _ _ Hs). simpl. lia.
Qed.
End MachineRuns.

(** * Lemmas: the session refines the machine *)

Section Simulation.
Context {T : Type} `{!Zero T, !Unmarshal ErrorResponse.t}.
Implicit Types (s : streamReader.t T) (r : Bufio.t) (w : World) (ls : list bytes).
Implicit Types (um : bytes → T → T * option error) (e : option error).

Lemma static_settings s s' : static s' = static s → settings s' = settings s.
Proof. unfold static, settings. congruence. Qed.

Lemma settings_failed s s0 : settings s = settings s0 → session_failed s = session_failed s0.
Proof. unfold settings, session_failed. by intros [= _ -> _]. Qed.

Lemma settings_resolution s s0 :
  settings s = settings s0 →
  resolveError s = resolution s0 (ErrorAccumulator.Bytes (streamReader.errAccumulator s)).
Proof. unfold settings, resolution, resolveError. simpl. by intros [= _ -> _]. Qed.

(** The transition on a line is a step of the machine. *)
Lemma handleLine_mstep um l s s0 ls e :
  settings s = settings s0 → streamReader.terminalError s = None →
  session_step s0 um (Conf (abs s) (l :: ls) e)
    (match handleLine um l s with Continue _ => None | Return v _ => Some (Got v) end)
    (Conf (abs (step_session (handleLine um l s))) ls e).
Proof.
  intros Hs Ht. assert (Hl : streamReader.emptyMessagesLimit s = streamReader.emptyMessagesLimit s0)
    by (unfold settings in Hs; congruence).
  unfold handleLine, session_step. destruct (classify um l) eqn:Hc; cbn [step_session].
  - cbn [with_count streamReader.emptyMessagesLimit streamReader.consecutiveEmptyReads].
    rewrite Hl. destruct (N.ltb_spec (streamReader.emptyMessagesLimit s0)
                            (streamReader.consecutiveEmptyReads s + 1)).
    + by apply (step_stall _ _ _ _ (abs s)).
    + by apply (step_blank _ _ _ _ (abs s)).
  - by apply (step_foreign _ _ _ _ (abs s)).
  - by apply (step_done _ _ _ _ (abs s)).
  - by apply (step_decoded _ _ _ _ (abs s)).
  - by apply (step_garbled _ _ _ _ (abs s)).
Qed.

(** The transition at the end of the input is the step of the machine. *)
Lemma handleEnd_mstep um s s0 e :
  settings s = settings s0 → streamReader.terminalError s = None →
  session_step s0 um (Conf (abs s) [] e)
    (Some (Got (handleEnd (default EOF e) s).1)) (Conf (abs (handleEnd (default EOF e) s).2) [] e).
Proof.
  intros Hs Ht. pose proof (step_end um (streamReader.emptyMessagesLimit s0)
    (session_failed s0) (resolution s0) (abs s) e Ht) as H.
  unfold final in H. cbn [abs MState.gathered] in H.
  rewrite <- (settings_resolution _ _ Hs) in H. unfold handleEnd, session_step.
  rewrite (settings_failed _ _ Hs).
  destruct (is_EOF (default EOF e)); [destruct (session_failed s0)|]; exact H.
Qed.

(** The abstract session is a call of [Recv] of the machine. *)
Lemma recv_lines_receives um ls e s s0 :
  settings s = settings s0 → streamReader.terminalError s = None →
  session_receives s0 um (Conf (abs s) ls e) (recv_lines um ls e s).1.1
    (Conf (abs (recv_lines um ls e s).1.2) (recv_lines um ls e s).2 e).
Proof.
  revert s. induction ls as [|l ls IH]; intros s Hs Ht; cbn [recv_lines].
  - eexists. split; [done|]. by apply handleEnd_mstep.
  - pose proof (handleLine_mstep um l s s0 ls e Hs Ht) as Hstep.
    pose proof (handleLine_static um l s) as Hst%static_settings.
    pose proof (handleLine_outcome um l s Ht) as Hout.
    destruct (handleLine um l s) as [s1|v s1]; cbn [step_session fst snd] in *.
    + destruct (IH s1) as (c1 & Hrtc & Hv); [congruence|done|].
      exists c1. split; [by eapply rtc_l|done].
    + eexists. split; [done|exact Hstep].
Qed.

Lemma recv_abstract_receives um ls e s s0 :
  settings s = settings s0 →
  session_receives s0 um (Conf (abs s) ls e) (recv_abstract um ls e s).1.1
    (Conf (abs (recv_abstract um ls e s).1.2) (recv_abstract um ls e s).2 e).
Proof.
  intros Hs. unfold recv_abstract. destruct (streamReader.terminalError s) as [t|] eqn:Ht.
  - eexists. split; [done|]. by apply step_sealed.
  - by apply recv_lines_receives.
Qed.

Lemma view_reader s r w :
  streamReader.reader s = Some r → view s w = Conf (abs s) (lines r w) (ending r w).
Proof. intros Hr. unfold view, stream_input, stream_ending, lines. by rewrite Hr. Qed.

(** A call of [Recv] returns, and it is a call of [Recv] of the machine;
    the session stays on its body, with its settings. *)
Lemma Recv_simulates s s0 w h um :
  attached s h → streamReader.unmarshaler s = Some um → settings s = settings s0 →
  ∃ v s' w',
    Recv s w = (Some (v, s'), w') ∧
    session_receives s0 um (view s w) v (view s' w') ∧
    attached s' h ∧ static s' = static s ∧
    open_bodies w' = open_bodies w ∧ sent w' = sent w ∧
    (∀ k, k ≠ h → bodies w' !! k = bodies w !! k).
Proof.
  intros (r & resp & Hr & Hresp & Hsrc & Hbody) Hum Hs.
  destruct (Recv_refines s w r um Hr Hum) as (r' & w' & E & Hls & Hadv).
  pose proof (recv_abstract_receives um (lines r w) (ending r w) s s0 Hs) as Hrecv.
  pose proof (recv_abstract_static um (lines r w) (ending r w) s) as Hst.
  destruct (recv_abstract um (lines r w) (ending r w) s) as [[v s1] ls1].
  cbn [fst snd on_session] in *. exists v, (with_reader r' s1), w'.
  split; [done|]. split_and!.
  - rewrite (view_reader s r), (view_reader (with_reader r' s1) r') by done.
    by rewrite Hls, (advance_ending _ _ _ _ Hadv).
  - exists r', resp. split_and!; [done| |by rewrite (advance_src _ _ _ _ Hadv)|done].
    cbn. unfold static in Hst. congruence.
  - done.
  - apply Hadv.
  - apply Hadv.
  - intros k Hk. apply Hadv. congruence.
Qed.

(** ** Calls in a row *)

Lemma Recv_n_S_inv n s w vs s' w' :
  Recv_n (S n) s w = (Some (vs, s'), w') →
  ∃ v s1 w1 vs1, Recv s w = (Some (v, s1), w1) ∧
    Recv_n n s1 w1 = (Some (vs1, s'), w') ∧ vs = v :: vs1.
Proof.
  cbn [Recv_n]. rewrite ST_bind_run. destruct (Recv s w) as [[[v s1]|] w1] eqn:E; [|done].
  cbn [fst snd]. rewrite ST_bind_run.
  destruct (Recv_n n s1 w1) as [[[vs1 s2]|] w2] eqn:En; [|done].
  cbn. rewrite ST_ret_run. intros [= <- <- <-]. by eexists _, _, _, _.
Qed.

Lemma Recv_n_length n s w vs s' w' : Recv_n n s w = (Some (vs, s'), w') → length vs = n.
Proof.
  revert s w vs. induction n as [|n IH]; intros s w vs; [by intros [= <- _ _]|].
  intros (v & s1 & w1 & vs1 & _ & En & ->)%Recv_n_S_inv. cbn. f_equal. by eapply IH.
Qed.

(** Calls in a row add up. *)
Lemma Recv_n_add n m s w vs s' w' :
  Recv_n (n + m) s w = (Some (vs, s'), w') →
  ∃ vs1 s1 w1 vs2, Recv_n n s w = (Some (vs1, s1), w1) ∧
    Recv_n m s1 w1 = (Some (vs2, s'), w') ∧ vs = (vs1 ++ vs2).
Proof.
  revert s w vs. induction n as [|n IH]; intros s w vs.
  - intros H. by exists [], s, w, vs.
  - intros (v & s1 & w1 & vs1 & E & (vsa & sa & wa & vsb & Ea & Eb & ->)%IH & ->)%Recv_n_S_inv.
    exists (v :: vsa), sa, wa, vsb. split; [|done].
    cbn [Recv_n]. rewrite ST_bind_run, E. cbn [fst snd]. by rewrite ST_bind_run, Ea.
Qed.


(** Calls of [Recv] in a row return, keep the session on its body and
    leave the bodies as open as they were. *)
Lemma Recv_n_attached n s w h um :
  attached s h → streamReader.unmarshaler s = Some um →
  ∃ vs s' w', Recv_n n s w = (Some (vs, s'), w') ∧ attached s' h ∧
    static s' = static s ∧ open_bodies w' = open_bodies w.
Proof.
  revert s w. induction n as [|n IH]; intros s w Ha Hum; [by exists [], s, w|].
  destruct (Recv_simulates s s w h um Ha Hum eq_refl)
    as (v & s1 & w1 & E & _ & Ha1 & Hst & Hopen & _).
  destruct (IH s1 w1 Ha1) as (vs & s' & w' & En & Ha' & Hst' & Hopen');
    [rewrite <- Hum; by apply static_unmarshaler|].
  exists (v :: vs), s', w'. cbn [Recv_n]. rewrite ST_bind_run, E. cbn [fst snd].
  rewrite ST_bind_run, En. split_and!; [done..|congruence|congruence].
Qed.

(** A closed body fails every read. *)
Lemma visible_Close h w : visible (Close h w).2 h = [Fault ErrBodyReadAfterClose].
Proof.
  unfold visible, Close. st_unfold. cbn. rewrite lookup_alter_eq.
  by destruct (bodies w !! h).
Qed.

(** A call of [Close] is a release of the machine: what the reader has
    buffered stays ahead, and the input ends with the error of a read on a
    closed body. *)
Lemma StreamClose_simulates s s0 w h um :
  attached s h → settings s = settings s0 →
  ∃ s' w',
    StreamClose s w = ((None, s'), w') ∧
    session_step s0 um (view s w) (Some Closed) (view s' w') ∧
    attached s' h ∧ settings s' = settings s ∧
    open_bodies w' = (if streamReader.closed s then open_bodies w else open_bodies w ∖ {[h]}) ∧
    sent w' = sent w ∧ (∀ k, k ≠ h → bodies w' !! k = bodies w !! k).
Proof.
  intros (r & resp & Hr & Hresp & Hsrc & Hbody) Hs.
  destruct (streamReader.closed s) eqn:Hc.
  - exists s, w. rewrite StreamClose_closed by done. split_and!; try done.
    + by apply step_close_again.
    + by exists r, resp.
  - exists (with_closed s), (Close h w).2. rewrite (StreamClose_open _ _ resp), Hbody by done.
    split_and!; try done.
    + rewrite (view_reader s r), (view_reader (with_closed s) r) by done.
      unfold lines, ending, input. rewrite Hsrc, visible_Close. cbn [content fault].
      rewrite app_nil_r. apply (step_close _ _ _ _ (abs s)); [done|apply pieces_app_prefix].
    + by exists r, resp.
    + apply open_bodies_Close.
    + intros k Hk. apply Close_other; congruence.
Qed.
End Simulation.

Section ProgramLemmas.
Context {T : Type} `{!Zero T, !Unmarshal ErrorResponse.t}.
Implicit Types (s : streamReader.t T) (w : World) (p : list call).
Implicit Types (um : bytes → T → T * option error).

(** A call of the caller is a run of the machine with one event. *)
Lemma perform_simulates a s s0 w h um :
  attached s h → streamReader.unmarshaler s = Some um → settings s = settings s0 →
  ∃ o s' w',
    perform a s w = (Some (o, s'), w') ∧
    session_runs s0 um (view s w) [o] (view s' w') ∧
    attached s' h ∧ settings s' = settings s ∧
    (o = Closed ↔ a = CallClose) ∧
    (a = CallRecv → streamReader.closed s' = streamReader.closed s ∧
                    open_bodies w' = open_bodies w) ∧
    (a = CallClose → streamReader.closed s' = true ∧
       open_bodies w' = (if streamReader.closed s then open_bodies w
                          else open_bodies w ∖ {[h]})) ∧
    sent w' = sent w ∧ (∀ k, k ≠ h → bodies w' !! k = bodies w !! k).
Proof.
  intros Ha Hum Hs. destruct a; cbn [perform].
  - destruct (Recv_simulates s s0 w h um Ha Hum Hs)
      as (v & s' & w' & E & Hrecv & Ha' & Hst & Hopen & Hsent & Hother).
    exists (Got v), s', w'. rewrite ST_bind_run, E. split_and!; try done.
    + by apply receives_runs.
    + by apply static_settings.
    + intros _. split; [|done]. unfold static in Hst. congruence.
  - destruct (StreamClose_simulates s s0 w h um Ha Hs)
      as (s' & w' & E & Hstep & Ha' & Hs' & Hopen & Hsent & Hother).
    exists Closed, s', w'. rewrite ST_bind_run, E. split_and!; try done.
    + by apply (runs_once _ _ _ _ _ (Some Closed)).
    + intros _. split; [|done]. unfold StreamClose in E.
      destruct (streamReader.closed s) eqn:Hc; [by injection E as <- _|].
      destruct Ha as (r & resp & _ & Hresp & _). rewrite Hresp in E. by injection E as <- _.
Qed.

(** A program of calls is a run of the machine, whatever the order of the
    calls: it returns an event per call, the session is closed if it was
    or if the program closes it, and the body is released by the first
    call of [Close]. *)
Lemma run_calls_simulates p s s0 w h um :
  attached s h → streamReader.unmarshaler s = Some um → settings s = settings s0 →
  ∃ tr s' w',
    run_calls p s w = (Some (tr, s'), w') ∧
    session_runs s0 um (view s w) tr (view s' w') ∧
    attached s' h ∧ settings s' = settings s ∧
    Forall2 (λ a o, o = Closed ↔ a = CallClose) p tr ∧
    streamReader.closed s' = streamReader.closed s || closes p ∧
    open_bodies w' = (if negb (streamReader.closed s) && closes p
                      then open_bodies w ∖ {[h]} else open_bodies w) ∧
    sent w' = sent w ∧ (∀ k, k ≠ h → bodies w' !! k = bodies w !! k).
Proof.
  revert s w. induction p as [|a p IH]; intros s w Ha Hum Hs.
  - exists [], s, w. cbn. rewrite orb_false_r, andb_false_r.
    split_and!; try done; constructor.
  - destruct (perform_simulates a s s0 w h um Ha Hum Hs)
      as (o & s1 & w1 & E & Hrun & Ha1 & Hs1 & Ho & Hrecv & Hclose & Hsent & Hother).
    destruct (IH s1 w1) as (tr & s' & w' & E' & Hrun' & Ha' & Hs' & Htr & Hc & Hopen & Hsent' & Hother');
      [done|unfold settings in *; congruence|congruence|].
    exists (o :: tr), s', w'. cbn [run_calls]. rewrite ST_bind_run, E. cbn [fst snd].
    rewrite ST_bind_run, E'. split_and!; try done.
    + by apply (runs_app _ _ _ _ _ [o] (view s1 w1)).
    + congruence.
    + by constructor.
    + rewrite Hc. destruct a; cbn [closes existsb].
      * by destruct (Hrecv eq_refl) as [-> _].
      * destruct (Hclose eq_refl) as [-> _]. by rewrite orb_true_r.
    + rewrite Hopen. destruct a; cbn [closes existsb].
      * by destruct (Hrecv eq_refl) as [-> ->].
      * destruct (Hclose eq_refl) as [-> ->]. cbn.
        by destruct (streamReader.closed s).
    + congruence.
    + intros k Hk. by rewrite Hother', Hother.
Qed.
End ProgramLemmas.

(** * Theorems: the sessions of streaming calls *)

Section SessionMachine.
Context {T : Type} `{!Zero T, !Unmarshal T, !Unmarshal ErrorResponse.t}.
Implicit Types (s : streamReader.t T) (c : Client) (w : World) (p : list call).

Lemma sessionOf_attached c resp : attached (sessionOf (T := T) c resp) (Response.Body resp).
Proof. by exists (Bufio.NewReader (Response.Body resp)), resp. Qed.

(** The machine and the functional session agree: a call of [Recv] of the
    machine returns what [recv_abstract] computes. *)
Lemma receives_recv_abstract um ls e s s0 v (k : conf) :
  settings s = settings s0 →
  session_receives s0 um (Conf (abs s) ls e) v k →
  v = (recv_abstract um ls e s).1.1 ∧
  k = Conf (abs (recv_abstract um ls e s).1.2) (recv_abstract um ls e s).2 e.
Proof.
  intros Hs H. by apply (receives_det _ _ _ _ _ _ _ _ _ H), recv_abstract_receives.
Qed.

(** C12: Any program of calls of [Recv] and [Close], in any order, on the
    session of a streaming call, in any world, returns; what the caller
    sees is a run of the machine of section 4.4 with the decoder of the
    events, the limit of the configuration and a success status, from the
    configuration the session and the world are in. *)
Theorem stream_machine c req w s p w1 :
  (sendRequestStream (T := T) c req w).1 = (s, None) →
  ∃ tr s' w',
    run_calls p s w1 = (Some (tr, s'), w') ∧
    runs unmarshal (ClientConfig.EmptyMessagesLimit (config c)) false (resolution s)
      (view s w1) tr (view s' w') ∧
    Forall2 (λ a o, o = Closed ↔ a = CallClose) p tr.
Proof.
  intros (resp & -> & Hok)%sendRequestStream_session.
  destruct (run_calls_simulates p (sessionOf (T := T) c resp) (sessionOf c resp) w1
              (Response.Body resp) unmarshal (sessionOf_attached c resp) eq_refl eq_refl)
    as (tr & s' & w' & E & Hrun & _ & _ & Htr & _).
  exists tr, s', w'. split_and!; [done| |done].
  unfold session_runs, session_failed in Hrun. cbn in Hrun. by rewrite Hok in Hrun.
Qed.

(** C13: Whatever the order of the calls of [Recv] and [Close] on the session
    of a streaming call: after the first error the caller receives that
    error and no event; the count stays within its bound; the session is
    closed exactly when the program called [Close], and then the body of
    the response is released, whatever was read. *)
Theorem stream_calls_safe c req w s p tr s' w' :
  DoerOK (ClientConfig.HTTPClient (config c)) →
  (sendRequestStream (T := T) c req w).1 = (s, None) →
  run_calls p s (sendRequestStream (T := T) c req w).2 = (Some (tr, s'), w') →
  sealed_events tr ∧ session_wf s' ∧ streamReader.closed s' = closes p ∧
  open_bodies w' =
    (if closes p then open_bodies w else open_bodies (sendRequestStream (T := T) c req w).2).
Proof.
  intros Hd (resp & -> & HDo & Hw)%sendRequestStream_opened H.
  destruct (Do_ok_open _ _ _ _ HDo) as [Hopen Hnew]. rewrite <- Hw in Hopen.
  set (w1 := (sendRequestStream (T := T) c req w).2) in *.
  destruct (run_calls_simulates p (sessionOf (T := T) c resp) (sessionOf c resp) w1
              (Response.Body resp) unmarshal (sessionOf_attached c resp) eq_refl eq_refl)
    as (tr1 & s1 & w1' & E & Hrun & _ & Hs & _ & Hc & Hop & _).
  rewrite E in H. injection H as <- <- <-. split_and!.
  - by eapply runs_sealed_events.
  - pose proof (runs_wf _ _ _ _ _ _ _ Hrun (sessionOf_wf c resp)) as Hwf.
    unfold settings in Hs. injection Hs as Hl _ _. unfold session_wf. rewrite Hl. exact Hwf.
  - by rewrite Hc.
  - rewrite Hop. cbn. destruct (closes p); [|done]. rewrite Hopen. set_solver.
Qed.
End SessionMachine.

(** * Witnesses *)

Section MachineWitnesses.
#[local] Existing Instances Echo_unmarshal ErrorResponse_unmarshal.

(** A caller that closes the session after the first event and goes on
    receiving. *)
Definition impatient : list call := [CallRecv; CallClose; CallRecv; CallRecv; CallClose].

Definition impatient_run (chunks : list chunk) :
    option (list (event Echo.t) * streamReader.t Echo.t) * World :=
  run_calls impatient (opened chunks).1.1 (opened chunks).2.

Lemma stream_machine_witness :
  ∃ tr s' w',
    run_calls impatient (opened three_chunks).1.1 (opened three_chunks).2 =
      (Some (tr, s'), w') ∧
    runs unmarshal (ClientConfig.EmptyMessagesLimit (config (client_200 three_chunks))) false
      (resolution (opened three_chunks).1.1)
      (view (opened three_chunks).1.1 (opened three_chunks).2) tr (view s' w') ∧
    Forall2 (λ a o, o = Closed ↔ a = CallClose) impatient tr.
Proof.
  by apply (stream_machine (client_200 three_chunks) a_request empty_world
              (opened three_chunks).1.1 impatient (opened three_chunks).2).
Defined.

Lemma stream_calls_safe_witness :
  let r := default ([], zero) (impatient_run one_chunk).1 in
  sealed_events r.1 ∧ session_wf r.2 ∧ streamReader.closed r.2 = closes impatient ∧
  open_bodies (impatient_run one_chunk).2 = open_bodies empty_world.
Proof.
  apply (stream_calls_safe (client_200 one_chunk) a_request empty_world
           (opened one_chunk).1.1 impatient
           (default ([], zero) (impatient_run one_chunk).1).1
           (default ([], zero) (impatient_run one_chunk).1).2
           (impatient_run one_chunk).2); [apply always_ok|reflexivity|by vm_compute].
Defined.

(** What a release cuts off is what the reader had not buffered.  When
    the body came in one chunk the reader holds all of it, and the events
    after the release still reach the caller; when the chunks end with the
    first frame, the rest is lost and the caller gets the error of a read
    on a closed body. *)
Example release_keeps_the_buffer :
  fst <$> (impatient_run one_chunk).1 =
  Some [Got (Ok (Echo.mk event_a ∅)); Closed; Got (Ok (Echo.mk event_b ∅));
        Got (Fail EOF); Closed].
Proof. by vm_compute. Qed.

Example release_loses_the_rest :
  fst <$> (impatient_run three_chunks).1 =
  Some [Got (Ok (Echo.mk event_a ∅)); Closed; Got (Fail ErrBodyReadAfterClose);
        Got (Fail ErrBodyReadAfterClose); Closed].
Proof. by vm_compute. Qed.
End MachineWitnesses.
