(* ===== verification/Tests.v ===== *)
(** * Tests: the test of the streaming call

    [TestCompletionStream] of api_integration_test.go is the one consumer
    of a stream session among the sources.  After the call that opens the
    stream it defers [Close], calls [Recv] in a loop that counts the events
    and reports the errors, and leaves the loop at the end of the stream.
    The call that opens the stream is not among the sources; the test is
    modelled from the deferred [Close] on, over the session it got.

    - [receive_all] is the loop, with fuel: [None] means that the loop is
      still running when the fuel is spent;
    - [TestCompletionStream_passes]: on a well-formed stream the loop
      returns after one call more than there are events, the test reports
      nothing and the body is released;
    - [TestCompletionStream_hangs]: the loop leaves at the end of the
      stream only, so on a stream that ends with any other error (a stall,
      a payload that does not decode, a cancelled context) the session is
      sealed with it, every call returns it again, and the test never
      returns: whatever the fuel, the result is [None], and the body stays
      open. *)

From Stdlib Require Import ZArith NArith Ascii String List Lia.
From stdpp Require Import base tactics option list gmap strings.
From S2P Require Import Prelude Bytes Errors Http Internal Config Fixtures Client Stream Machine.

Set Warnings "-clear-no-such-hyp".

(** * Definitions *)

(** What a test reports to [testing.T]. *)
Inductive report : Type :=
| Errorf (format : string) (err : error)     (* [t.Errorf(format, err)] *)
| ErrorMsg (msg : string).                   (* [t.Error(msg)] *)

Section Consumer.
Context {T : Type} `{!Zero T, !Unmarshal ErrorResponse.t}.
Implicit Types (stream : streamReader.t T) (w : World).

(** The loop of the test: it counts the events, reports the errors and
    stops at the end of the stream, and at nothing else.  [None]: the loop
    is still running when the fuel is spent. *)
Fixpoint receive_all (fuel : nat) (counter : Z) (log : list report) stream :
    ST World (option (Z * list report * streamReader.t T)) :=
  match fuel with
  | O => mret None
  | S fuel =>
      r ← Recv stream;
      match r with
      | None => mret None
      | Some (Fail err, stream) =>
          if is_EOF err then mret (Some (counter, log, stream))
          else receive_all fuel counter (log ++ [Errorf "Stream error: %v" err]) stream
      | Some (Ok _, stream) => receive_all fuel (counter + 1) log stream
      end
  end.

(** The test from the deferred [Close] on: the loop, the check of the
    counter, and the [Close] when the function returns. *)
Definition TestCompletionStream (fuel : nat) stream : ST World (option (list report)) :=
  r ← receive_all fuel 0 [] stream;
  match r with
  | None => mret None
  | Some (counter, log, stream) =>
      let log := if (counter =? 0)%Z
                 then (log ++ [ErrorMsg "Stream did not return any responses"]) else log in
      _ ← StreamClose stream;
      mret (Some log)
  end.

(** What the loop has counted and reported after a list of results. *)
Fixpoint tally (counter : Z) (log : list report) (vs : list (res T)) : Z * list report :=
  match vs with
  | [] => (counter, log)
  | Ok _ :: vs => tally (counter + 1) log vs
  | Fail err :: vs => tally counter (log ++ [Errorf "Stream error: %v" err]) vs
  end.

(** A result that does not stop the loop. *)
Definition goes_on (v : res T) : Prop :=
  match v with Ok _ => True | Fail err => is_EOF err = false end.
End Consumer.

(** * Lemmas *)

Section ConsumerLemmas.
Context {T : Type} `{!Zero T, !Unmarshal ErrorResponse.t}.
Implicit Types (s : streamReader.t T) (w : World) (vs : list (res T)).

(** The loop goes through the results that do not stop it. *)
Lemma receive_all_goes_on n fuel counter log s w vs s' w' :
  Recv_n n s w = (Some (vs, s'), w') → Forall goes_on vs →
  receive_all (n + fuel) counter log s w =
  receive_all fuel (tally counter log vs).1 (tally counter log vs).2 s' w'.
Proof.
  revert counter log s w vs. induction n as [|n IH]; intros counter log s w vs.
  - by intros [= <- <- <-].
  - intros (v & s1 & w1 & vs1 & E & En & ->)%Recv_n_S_inv [Hv Hvs]%Forall_cons.
    cbn [Nat.add receive_all]. rewrite ST_bind_run, E. cbn [fst snd].
    destruct v as [a|err]; cbn [tally].
    + by apply IH.
    + simpl in Hv. rewrite Hv. by apply IH.
Qed.

(** The loop returns at the first end of the stream. *)
Lemma receive_all_returns fuel counter log s w err s' w' :
  Recv s w = (Some (Fail err, s'), w') → is_EOF err = true →
  receive_all (S fuel) counter log s w = (Some (counter, log, s'), w').
Proof. intros E He. cbn [receive_all]. by rewrite ST_bind_run, E; cbn; rewrite He. Qed.

(** On a session sealed with an error that is not the end of the stream
    the loop runs for ever: whatever the fuel, it has not returned. *)
Lemma receive_all_sealed fuel counter log s w t :
  streamReader.terminalError s = Some t → is_EOF t = false →
  (receive_all fuel counter log s w).1 = None.
Proof.
  intros Ht He. revert counter log. induction fuel as [|fuel IH]; intros counter log; [done|].
  cbn [receive_all]. rewrite ST_bind_run. unfold Recv at 1 2. rewrite Ht. cbn. rewrite He.
  apply IH.
Qed.
End ConsumerLemmas.

Section ConsumerTheorems.
Context {T : Type} `{!Zero T, !Unmarshal T, !Unmarshal ErrorResponse.t}.
Implicit Types (s : streamReader.t T) (c : Client) (w : World) (vs : list (res T)).

Lemma tally_events (um : bytes → T → T * option error) fs counter log :
  tally counter log (script_events um fs) = ((counter + Z.of_nat (length fs))%Z, log).
Proof.
  revert counter. induction fs as [|f fs IH]; intros counter; cbn.
  - f_equal. lia.
  - rewrite IH. f_equal. lia.
Qed.

Lemma script_events_go_on (um : bytes → T → T * option error) fs :
  Forall goes_on (script_events um fs).
Proof. induction fs; by constructor. Qed.

(** The loop never returns when the stream ends with an error that is not
    the end of the stream: the session is sealed with it, and every call
    returns it again. *)
Lemma receive_all_hangs n fuel counter log s w vs s' w' t :
  Recv_n n s w = (Some (vs, s'), w') →
  streamReader.terminalError s' = Some t → is_EOF t = false →
  (receive_all fuel counter log s w).1 = None.
Proof.
  revert fuel counter log s w vs. induction n as [|n IH]; intros fuel counter log s w vs.
  - intros [= _ <- _] Ht He. by apply (receive_all_sealed _ _ _ _ _ t).
  - intros (v & s1 & w1 & vs1 & E & En & ->)%Recv_n_S_inv Ht He.
    destruct fuel as [|fuel]; [done|]. cbn [receive_all]. rewrite ST_bind_run, E. cbn [fst snd].
    destruct v as [a|err]; [by eapply IH|].
    destruct (is_EOF err) eqn:Herr; [|by eapply IH].
    rewrite (Recv_sealed _ _ _ _ _ n E) in En. injection En as _ <- _.
    apply Recv_outcome in E. simpl in E. congruence.
Qed.
End ConsumerTheorems.

(** * Theorems *)

Section TestTheorems.
Context {T : Type} `{!Zero T, !Unmarshal T, !Unmarshal ErrorResponse.t}.
Implicit Types (s : streamReader.t T) (c : Client) (w : World) (vs : list (res T)).

(** The loop leaves the bodies as open as they were. *)
Lemma receive_all_open fuel counter log s w h um :
  attached s h → streamReader.unmarshaler s = Some um →
  open_bodies (receive_all fuel counter log s w).2 = open_bodies w.
Proof.
  revert counter log s w. induction fuel as [|fuel IH]; intros counter log s w Ha Hum; [done|].
  destruct (Recv_simulates s s w h um Ha Hum eq_refl)
    as (v & s' & w' & E & _ & Ha' & Hst & Hopen & _).
  assert (streamReader.unmarshaler s' = Some um) as Hum'
    by (rewrite <- Hum; by apply static_unmarshaler).
  cbn [receive_all]. rewrite ST_bind_run, E. cbn [fst snd].
  destruct v as [a|err]; [by rewrite IH|]. destruct (is_EOF err); [done|by rewrite IH].
Qed.

(** C19: The test hangs on a stream that ends with an error: when some call
    of [Recv] on the session of a streaming call seals it with an error
    that is not the end of the stream, the test has not returned whatever
    the fuel, and the body of the response stays open. *)
Theorem TestCompletionStream_hangs c req w s w1 n vs s' w' t fuel :
  (sendRequestStream (T := T) c req w).1 = (s, None) →
  Recv_n n s w1 = (Some (vs, s'), w') →
  streamReader.terminalError s' = Some t → is_EOF t = false →
  (TestCompletionStream fuel s w1).1 = None ∧
  open_bodies (TestCompletionStream fuel s w1).2 = open_bodies w1.
Proof.
  intros (resp & -> & Hok)%sendRequestStream_session Hn Ht He.
  pose proof (receive_all_hangs n fuel 0 [] _ _ _ _ _ t Hn Ht He) as Hnone.
  pose proof (receive_all_open fuel 0 [] _ w1 _ _ (sessionOf_attached c resp) eq_refl) as Hop.
  unfold TestCompletionStream. rewrite ST_bind_run.
  destruct (receive_all fuel 0 [] (sessionOf c resp) w1) as [[x|] w2]; [done|]. by split.
Qed.

(** C29: The test passes on a well-formed stream: with fuel for one call more
    than there are events the loop returns at the sentinel, nothing is
    reported unless the stream has no event, and the deferred [Close]
    releases the body of the response. *)
Theorem TestCompletionStream_passes c req w s fs bl rest fuel :
  DoerOK (ClientConfig.HTTPClient (config c)) →
  (sendRequestStream (T := T) c req w).1 = (s, None) →
  well_formed (unmarshal (T := T)) (ClientConfig.EmptyMessagesLimit (config c)) fs →
  keep_alives (ClientConfig.EmptyMessagesLimit (config c)) bl →
  stream_input s (sendRequestStream (T := T) c req w).2 =
    concat (script_lines fs ++ bl ++ [frame doneSentinel]) ++ rest →
  length fs < fuel →
  ∃ w', TestCompletionStream fuel s (sendRequestStream (T := T) c req w).2 =
          (Some (if decide (fs = [])
                 then [ErrorMsg "Stream did not return any responses"] else []), w') ∧
        open_bodies w' = open_bodies w.
Proof.
  intros Hd (resp & -> & HDo & Hw)%sendRequestStream_opened Hfs Hbl Hin Hfuel.
  destruct (Do_ok_open _ _ _ _ HDo) as [Hopen Hnew]. rewrite <- Hw in Hopen.
  set (w1 := (sendRequestStream (T := T) c req w).2) in *.
  destruct (sessionOf_script c resp w1 fs bl rest 0 Hfs Hbl Hin) as (s' & w2 & E & Ht).
  destruct (Recv_n_attached (length fs + 1) (sessionOf (T := T) c resp) w1 _ unmarshal
              (sessionOf_attached c resp) eq_refl) as (vs & s2 & w2' & E2 & _ & Hst & Hop).
  rewrite E in E2. injection E2 as <- <- <-.
  destruct (Recv_n_add _ _ _ _ _ _ _ E) as (vs1 & sa & wa & vs2 & Ea & Eb & Hvs).
  apply app_inj_1 in Hvs as [<- <-];
    [|by rewrite (Recv_n_length _ _ _ _ _ _ Ea); unfold script_events; rewrite length_map].
  apply Recv_n_S_inv in Eb as (v & sb & wb & vsb & Eb & Ez & Hv).
  cbn in Ez. rewrite ST_ret_run in Ez. injection Ez as <- <- <-. injection Hv as <-.
  replace fuel with (length fs + S (fuel - length fs - 1)) by lia.
  unfold TestCompletionStream. rewrite ST_bind_run.
  rewrite (receive_all_goes_on _ _ _ _ _ _ _ _ _ Ea (script_events_go_on _ fs)), tally_events.
  cbn [fst snd]. rewrite (receive_all_returns _ _ _ _ _ _ _ _ Eb eq_refl). cbn [fst snd].
  unfold static in Hst. injection Hst as _ Hresp _ _ Hcl.
  rewrite ST_bind_run, (StreamClose_open _ _ resp) by done. cbn [fst snd].
  eexists. split.
  - rewrite ST_ret_run. do 2 f_equal. destruct fs as [|f fs']; [done|].
    rewrite decide_False by done.
    by destruct (Z.eqb_spec (0 + Z.of_nat (length (f :: fs'))) 0); [cbn in *; lia|].
  - rewrite open_bodies_Close, Hop, Hopen. set_solver.
Qed.
End TestTheorems.

(** * Witnesses *)

Section TestWitnesses.
#[local] Existing Instances Echo_unmarshal ErrorResponse_unmarshal.

Lemma TestCompletionStream_passes_witness :
  ∃ w', TestCompletionStream 3 (opened three_chunks).1.1 (opened three_chunks).2 =
          (Some [], w') ∧
        open_bodies w' = open_bodies empty_world.
Proof.
  apply (TestCompletionStream_passes (client_200 three_chunks) a_request empty_world
           (opened three_chunks).1.1 example_script [separator] separator 3);
    [apply always_ok|line_facts..|simpl; lia].
Defined.

Lemma TestCompletionStream_hangs_witness :
  (TestCompletionStream 50 (opened stalled).1.1 (opened stalled).2).1 = None ∧
  open_bodies (TestCompletionStream 50 (opened stalled).1.1 (opened stalled).2).2 =
    open_bodies (opened stalled).2.
Proof.
  apply (TestCompletionStream_hangs (client_200 stalled) a_request empty_world
           (opened stalled).1.1 (opened stalled).2 1
           (default ([], zero) (Recv_n 1 (opened stalled).1.1 (opened stalled).2).1).1
           (default ([], zero) (Recv_n 1 (opened stalled).1.1 (opened stalled).2).1).2
           (Recv_n 1 (opened stalled).1.1 (opened stalled).2).2
           ErrTooManyEmptyStreamMessages 50); [reflexivity|by vm_compute..].
Defined.

(** A stream without events: the test reports it. *)
Example TestCompletionStream_empty :
  (TestCompletionStream 1 (opened [Data (frame doneSentinel)]).1.1
     (opened [Data (frame doneSentinel)]).2).1 =
  Some [ErrorMsg "Stream did not return any responses"].
Proof. by vm_compute. Qed.

(** A stream cut by a cancelled context: the loop reports the error at
    every turn and has not returned after a hundred. *)
Example TestCompletionStream_canceled :
  (receive_all 3 0 [] (opened cut_short).1.1 (opened cut_short).2).1 = None ∧
  (TestCompletionStream 100 (opened cut_short).1.1 (opened cut_short).2).1 = None.
Proof. by vm_compute. Qed.
End TestWitnesses.
