(* ===== verification/Isolation.v ===== *)
(** * Isolation: sessions and calls that share a transport

    A client has one transport, and the bodies of all its responses live
    in one world.  Section 5 of the specification gives every session the
    exclusive ownership of its connection.  Here that is a theorem: what
    a session does is [local] to the body of its response.

    - [local h m]: the computation [m] sends nothing, changes no body but
      [h], and what it returns and what it leaves of [h] depend on [h]
      only.  It is closed under the operations of the state monad
      ([local_ret], [local_bind]), and two computations that are local to
      different bodies commute ([local_commute]);
    - the line reader, the loop of [Recv], [Recv], [Close] and the
      programs of calls of [Machine] are local to the body of the session
      ([nextLine_local], [processLines_local], [Recv_local],
      [StreamClose_local], [run_calls_local]); [sendRequest] of client.go
      is local to the body that its own call of the transport opens
      ([respond_local], [sendRequest_preserving]);
    - [interleave] drives two sessions in turns, in any order of the calls
      on the two; [interleave_solo] and [streams_independent]: each session
      gives its caller what it gives when it is driven alone;
      [stream_undisturbed]: a call of the client in between changes
      nothing for a session. *)

From Stdlib Require Import ZArith NArith Ascii String List Lia.
From stdpp Require Import base tactics option list gmap strings.
From S2P Require Import Prelude Bytes Errors Http Internal Config Fixtures Client Stream Machine.

Set Warnings "-clear-no-such-hyp".

(** * Definitions *)

(** Two worlds hold the same body under the handle [h]. *)
Definition agree (h : nat) (w1 w2 : World) : Prop := bodies w1 !! h = bodies w2 !! h.

(** A computation that works on the body [h] and on nothing else: it
    sends nothing, changes no other body, and what it returns and what it
    leaves of [h] depend on [h] only. *)
Record local (h : nat) {A : Type} (m : ST World A) : Prop := {
  local_sent w : sent (m w).2 = sent w;
  local_other w k : k ≠ h → bodies (m w).2 !! k = bodies w !! k;
  local_result w1 w2 : agree h w1 w2 → (m w1).1 = (m w2).1;
  local_body w1 w2 : agree h w1 w2 → agree h (m w1).2 (m w2).2;
}.

(** A computation that leaves the bodies there are as they are. *)
Definition preserving {A : Type} (m : ST World A) : Prop :=
  ∀ w k, is_Some (bodies w !! k) → bodies (m w).2 !! k = bodies w !! k.

(** Whose turn it is. *)
Inductive side : Type := First | Second.

Section Interleaving.
Context {T1 T2 : Type} `{!Zero T1, !Zero T2, !Unmarshal ErrorResponse.t}.

(** Two sessions driven in turns: each turn is a call on one of them. *)
Fixpoint interleave (sch : list (side * call)) (s1 : streamReader.t T1) (s2 : streamReader.t T2) :
    ST World (option (list (event T1) * list (event T2) *
                      (streamReader.t T1 * streamReader.t T2))) :=
  match sch with
  | [] => mret (Some ([], [], (s1, s2)))
  | (First, a) :: sch =>
      r ← perform a s1;
      match r with
      | None => mret None
      | Some (o, s1) =>
          rs ← interleave sch s1 s2;
          mret ('(tr1, tr2, ss) ← rs; Some (o :: tr1, tr2, ss))
      end
  | (Second, a) :: sch =>
      r ← perform a s2;
      match r with
      | None => mret None
      | Some (o, s2) =>
          rs ← interleave sch s1 s2;
          mret ('(tr1, tr2, ss) ← rs; Some (tr1, o :: tr2, ss))
      end
  end.

(** The calls of one side, in order. *)
Definition calls_of (x : side) (sch : list (side * call)) : list call :=
  omap (λ t, match x, t.1 with
             | First, First | Second, Second => Some t.2
             | _, _ => None
             end) sch.
End Interleaving.

(** A session that reads the body [h], if it reads any. *)
Definition reads {T} (s : streamReader.t T) (h : nat) : Prop :=
  ∀ r, streamReader.reader s = Some r → Bufio.src r = h.

(** * Lemmas *)

#[global] Instance agree_equiv h : Equivalence (agree h).
Proof. unfold agree. split; [by intros w|by intros w1 w2|]. intros w1 w2 w3. congruence. Qed.

Lemma world_eq (w1 w2 : World) :
  (∀ k, bodies w1 !! k = bodies w2 !! k) → sent w1 = sent w2 → w1 = w2.
Proof. destruct w1, w2. simpl. intros Hb%map_eq ->. by rewrite Hb. Qed.

Section Local.
Context {A B : Type}.
Implicit Types (h : nat) (w : World).

Lemma local_ret h (a : A) : local h (mret a).
Proof. by split. Qed.

Lemma local_ext h (m m' : ST World A) : (∀ w, m w = m' w) → local h m' → local h m.
Proof. intros E [H1 H2 H3 H4]. split; intros; rewrite !E; auto. Qed.

Lemma local_bind h (m : ST World A) (f : A → ST World B) :
  local h m → (∀ a, local h (f a)) → local h (m ≫= f).
Proof.
  intros Hm Hf. split.
  - intros w. by rewrite ST_bind_run, (local_sent _ _ (Hf _)), (local_sent _ _ Hm).
  - intros w k Hk. by rewrite ST_bind_run, (local_other _ _ (Hf _)), (local_other _ _ Hm).
  - intros w1 w2 Hw. rewrite !ST_bind_run, (local_result _ _ Hm w1 w2 Hw).
    apply (local_result _ _ (Hf _)), (local_body _ _ Hm), Hw.
  - intros w1 w2 Hw. rewrite !ST_bind_run, (local_result _ _ Hm w1 w2 Hw).
    apply (local_body _ _ (Hf _)), (local_body _ _ Hm), Hw.
Qed.

(** The same when the continuation is local on what the first part can
    return. *)
Lemma local_bind_with (P : A → Prop) h (m : ST World A) (f : A → ST World B) :
  local h m → (∀ w, P (m w).1) → (∀ a, P a → local h (f a)) → local h (m ≫= f).
Proof.
  intros Hm HP Hf. split.
  - intros w. by rewrite ST_bind_run, (local_sent _ _ (Hf _ (HP w))), (local_sent _ _ Hm).
  - intros w k Hk.
    by rewrite ST_bind_run, (local_other _ _ (Hf _ (HP w))), (local_other _ _ Hm).
  - intros w1 w2 Hw. rewrite !ST_bind_run, (local_result _ _ Hm w1 w2 Hw).
    apply (local_result _ _ (Hf _ (HP w2))), (local_body _ _ Hm), Hw.
  - intros w1 w2 Hw. rewrite !ST_bind_run, (local_result _ _ Hm w1 w2 Hw).
    apply (local_body _ _ (Hf _ (HP w2))), (local_body _ _ Hm), Hw.
Qed.

(** A computation with a parameter that depends on the body only. *)
Lemma local_dependent {N} h (g : World → N) (m : N → ST World A) :
  (∀ w1 w2, agree h w1 w2 → g w1 = g w2) → (∀ n, local h (m n)) →
  local h (λ w, m (g w) w).
Proof.
  intros Hg Hm. split.
  - intros w. apply (local_sent _ _ (Hm _)).
  - intros w k. apply (local_other _ _ (Hm _)).
  - intros w1 w2 Hw. rewrite (Hg _ _ Hw). by apply (local_result _ _ (Hm _)).
  - intros w1 w2 Hw. rewrite (Hg _ _ Hw). by apply (local_body _ _ (Hm _)).
Qed.

(** Computations on different bodies commute. *)
Lemma local_commute h1 h2 (m1 : ST World A) (m2 : ST World B) w :
  h1 ≠ h2 → local h1 m1 → local h2 m2 →
  (a ← m1; b ← m2; mret (a, b)) w = (b ← m2; a ← m1; mret (a, b)) w.
Proof.
  intros Hne H1 H2. rewrite !ST_bind_run, !ST_ret_run.
  assert (agree h2 (m1 w).2 w) as Ha by (apply (local_other _ _ H1); congruence).
  assert (agree h1 (m2 w).2 w) as Hb by (by apply (local_other _ _ H2)).
  rewrite (local_result _ _ H2 _ _ Ha), (local_result _ _ H1 _ _ Hb). f_equal.
  apply world_eq.
  - intros k. destruct (decide (k = h1)) as [->|Hk1]; [|destruct (decide (k = h2)) as [->|Hk2]].
    + rewrite (local_other _ _ H2) by done. symmetry. apply (local_body _ _ H1 _ _ Hb).
    + rewrite (local_other _ _ H1 (m2 w).2) by done. apply (local_body _ _ H2 _ _ Ha).
    + by rewrite (local_other _ _ H2), (local_other _ _ H1), (local_other _ _ H1),
        (local_other _ _ H2).
  - by rewrite (local_sent _ _ H2), (local_sent _ _ H1), (local_sent _ _ H1), (local_sent _ _ H2).
Qed.
End Local.

Section Primitives.
Implicit Types (h : nat) (w : World) (r : Bufio.t).

Lemma visible_agree h w1 w2 : agree h w1 w2 → visible w1 h = visible w2 h.
Proof. unfold agree, visible. by intros ->. Qed.

Lemma take_chunks_local h cs : local h (λ w, ((), take_chunks h cs w)).
Proof.
  split; cbn [fst snd]; unfold take_chunks.
  - intros w. destruct (bodies w !! h) as [b|]; [|done]. by destruct (Body.closed b).
  - intros w k Hk. destruct (bodies w !! h) as [b|]; [|done].
    destruct (Body.closed b); [done|]. cbn. by rewrite lookup_insert_ne.
  - done.
  - unfold agree. intros w1 w2 Hw. rewrite Hw.
    destruct (bodies w2 !! h) as [b|] eqn:E; [|by rewrite Hw].
    destruct (Body.closed b); [congruence|]. cbn. by rewrite !lookup_insert_eq.
Qed.

Lemma nextLine_local r : local (Bufio.src r) (nextLine r).
Proof.
  pose proof (λ cs, take_chunks_local (Bufio.src r) cs) as Ht.
  split; unfold nextLine.
  - intros w. destruct (next_line _ _) as [[out buf] cs]. apply (local_sent _ _ (Ht cs)).
  - intros w k Hk. destruct (next_line _ _) as [[out buf] cs]. by apply (local_other _ _ (Ht cs)).
  - intros w1 w2 Hw. rewrite (visible_agree _ _ _ Hw). by destruct (next_line _ _) as [[out buf] cs].
  - intros w1 w2 Hw. rewrite (visible_agree _ _ _ Hw). destruct (next_line _ _) as [[out buf] cs].
    by apply (local_body _ _ (Ht cs)).
Qed.

Lemma nextLine_src r w : Bufio.src (nextLine r w).1.2 = Bufio.src r.
Proof. unfold nextLine. by destruct (next_line _ _) as [[out buf] cs]. Qed.

Lemma Close_local h : local h (Close h).
Proof.
  split; unfold Close; st_unfold; cbn.
  - done.
  - intros w k Hk. by rewrite lookup_alter_ne.
  - done.
  - unfold agree. intros w1 w2 Hw. cbn. by rewrite !lookup_alter_eq, Hw.
Qed.
End Primitives.

Section SessionsLocal.
Context {T : Type} `{!Zero T, !Unmarshal ErrorResponse.t}.
Implicit Types (s : streamReader.t T) (h : nat) (w : World).

Lemma processLines_local fuel s h : reads s h → local h (processLines fuel s).
Proof.
  revert s. induction fuel as [|fuel IH]; intros s Hs; [apply local_ret|].
  destruct (streamReader.reader s) as [r|] eqn:Hr;
    [|apply (local_ext _ _ (mret None)); [by intros w; cbn; rewrite Hr|apply local_ret]].
  destruct (streamReader.unmarshaler s) as [um|] eqn:Hum;
    [|apply (local_ext _ _ (mret None)); [by intros w; cbn; rewrite Hr, Hum|apply local_ret]].
  pose proof (Hs r Hr) as Hh. subst h.
  apply (local_ext _ _ (nextLine r ≫= λ x,
           if x.1.1.2 : bool then
             match handleLine um x.1.1.1 (with_reader x.2 s) with
             | Continue s => processLines fuel s
             | Return v s => mret (Some (v, s))
             end
           else mret (Some (handleEnd (default EOF x.1.2) (with_reader x.2 s))))).
  - intros w. cbn [processLines]. rewrite Hr, Hum, ST_bind_run.
    destruct (nextLine r w) as [[[[line ok] err] r'] w']. cbn [fst snd].
    destruct ok; [|done]. by destruct (handleLine _ _ _).
  - apply (local_bind_with (λ x, Bufio.src x.2 = Bufio.src r));
      [apply nextLine_local|apply nextLine_src|].
    intros [[[line ok] err] r'] Hsrc. cbn [fst snd] in *.
    destruct ok; [|apply local_ret]. rewrite handleLine_with_reader.
    destruct (handleLine um line s) as [s1|v s1]; cbn [step_map]; [|apply local_ret].
    apply IH. by intros r1 [= <-].
Qed.

(** A call of [Recv], calls in a row and a call of [Close] work on the
    body of the session and on nothing else. *)
Lemma Recv_local s h : reads s h → local h (Recv s).
Proof.
  intros Hs. destruct (streamReader.terminalError s) as [t|] eqn:Ht.
  - apply (local_ext _ _ (mret (Some (Fail t, s)))); [|apply local_ret].
    intros w. unfold Recv. by rewrite Ht.
  - apply (local_ext _ _ (λ w, processLines (S (available s w)) s w)).
    { intros w. unfold Recv. by rewrite Ht. }
    apply (local_dependent h (λ w, S (available s w)) (λ n, processLines n s));
      [|intros n; by apply processLines_local].
    intros w1 w2 Hw. unfold available. destruct (streamReader.reader s) as [r|] eqn:Hr; [|done].
    by rewrite (Hs r Hr), (visible_agree _ _ _ Hw).
Qed.

Lemma attached_reads s h : attached s h → reads s h.
Proof. intros (r & resp & Hr & _ & Hsrc & _) r' Hr'. congruence. Qed.

Lemma StreamClose_local s h : attached s h → local h (StreamClose s).
Proof.
  intros (r & resp & _ & Hresp & _ & Hbody). unfold StreamClose.
  destruct (streamReader.closed s); [apply local_ret|]. rewrite Hresp, Hbody.
  apply local_bind; [apply Close_local|]. intros e. apply local_ret.
Qed.

Lemma perform_local a s h : attached s h → local h (perform a s).
Proof.
  intros Ha. destruct a; cbn [perform].
  - apply local_bind; [by apply Recv_local, attached_reads|]. intros x. apply local_ret.
  - apply local_bind; [by apply StreamClose_local|]. intros [e s']. apply local_ret.
Qed.

(** What a call returns keeps the session on its body. *)
Lemma perform_attached a s w h um :
  attached s h → streamReader.unmarshaler s = Some um →
  ∃ o s', (perform a s w).1 = Some (o, s') ∧ attached s' h ∧
          streamReader.unmarshaler s' = Some um.
Proof.
  intros Ha Hum. destruct (perform_simulates a s s w h um Ha Hum eq_refl)
    as (o & s' & w' & E & _ & Ha' & Hs & _).
  exists o, s'. rewrite E. split_and!; [done..|]. unfold settings in Hs. congruence.
Qed.

Lemma run_calls_local p s h um :
  attached s h → streamReader.unmarshaler s = Some um → local h (run_calls p s).
Proof.
  revert s. induction p as [|a p IH]; intros s Ha Hum; [apply local_ret|].
  cbn [run_calls].
  apply (local_bind_with (λ x, ∃ o s', x = Some (o, s') ∧ attached s' h ∧
                                 streamReader.unmarshaler s' = Some um));
    [by apply perform_local|intros w; by apply perform_attached|].
  intros x (o & s' & -> & Ha' & Hum'). apply local_bind; [by apply IH|].
  intros rs. apply local_ret.
Qed.
End SessionsLocal.

Section InterleavingLemmas.
Context {T1 T2 : Type} `{!Zero T1, !Zero T2, !Unmarshal ErrorResponse.t}.
Implicit Types (w : World) (sch : list (side * call)).

(** A program after its first call. *)
Lemma run_calls_cons {T} `{!Zero T} a p (s s' : streamReader.t T) w o tr s'' :
  (perform a s w).1 = Some (o, s') →
  (run_calls p s' (perform a s w).2).1 = Some (tr, s'') →
  run_calls (a :: p) s w = (Some (o :: tr, s''), (run_calls p s' (perform a s w).2).2).
Proof.
  intros E En. cbn [run_calls]. rewrite ST_bind_run, E, ST_bind_run, ST_ret_run, En. done.
Qed.

(** Two sessions on different bodies, driven in turns in any order: each
    gets what its own calls give it on its body alone. *)
Lemma interleave_solo sch (s1 : streamReader.t T1) (s2 : streamReader.t T2)
    h1 h2 um1 um2 w wa wb :
  h1 ≠ h2 → attached s1 h1 → attached s2 h2 →
  streamReader.unmarshaler s1 = Some um1 → streamReader.unmarshaler s2 = Some um2 →
  agree h1 w wa → agree h2 w wb →
  ∃ tr1 tr2 s1' s2' w',
    interleave sch s1 s2 w = (Some (tr1, tr2, (s1', s2')), w') ∧
    (run_calls (calls_of First sch) s1 wa).1 = Some (tr1, s1') ∧
    (run_calls (calls_of Second sch) s2 wb).1 = Some (tr2, s2') ∧
    agree h1 w' (run_calls (calls_of First sch) s1 wa).2 ∧
    agree h2 w' (run_calls (calls_of Second sch) s2 wb).2.
Proof.
  intros Hne. revert s1 s2 w wa wb.
  induction sch as [|[[] a] sch IH]; intros s1 s2 w wa wb Ha1 Ha2 Hum1 Hum2 Hwa Hwb.
  - by exists [], [], s1, s2, w.
  - destruct (perform_attached a s1 w h1 um1 Ha1 Hum1) as (o & s1a & E & Ha1' & Hum1').
    pose proof (perform_local a s1 h1 Ha1) as Hl.
    pose proof (local_result _ _ Hl w wa Hwa) as Ea. rewrite E in Ea. symmetry in Ea.
    destruct (IH s1a s2 (perform a s1 w).2 (perform a s1 wa).2 wb)
      as (tr1 & tr2 & s1' & s2' & w' & Ei & E1 & E2 & Hw1 & Hw2); [done..| | |].
    { by apply (local_body _ _ Hl). }
    { unfold agree. rewrite (local_other _ _ Hl) by done. exact Hwb. }
    exists (o :: tr1), tr2, s1', s2', w'.
    change (calls_of First ((First, a) :: sch)) with (a :: calls_of First sch).
    change (calls_of Second ((First, a) :: sch)) with (calls_of Second sch).
    rewrite (run_calls_cons _ _ _ _ _ _ _ _ Ea E1). cbn [interleave fst snd].
    rewrite ST_bind_run, E, ST_bind_run, Ei. by split_and!.
  - destruct (perform_attached a s2 w h2 um2 Ha2 Hum2) as (o & s2a & E & Ha2' & Hum2').
    pose proof (perform_local a s2 h2 Ha2) as Hl.
    pose proof (local_result _ _ Hl w wb Hwb) as Eb. rewrite E in Eb. symmetry in Eb.
    destruct (IH s1 s2a (perform a s2 w).2 wa (perform a s2 wb).2)
      as (tr1 & tr2 & s1' & s2' & w' & Ei & E1 & E2 & Hw1 & Hw2); [done..| | |].
    { unfold agree. rewrite (local_other _ _ Hl) by done. exact Hwa. }
    { by apply (local_body _ _ Hl). }
    exists tr1, (o :: tr2), s1', s2', w'.
    change (calls_of Second ((Second, a) :: sch)) with (a :: calls_of Second sch).
    change (calls_of First ((Second, a) :: sch)) with (calls_of First sch).
    rewrite (run_calls_cons _ _ _ _ _ _ _ _ Eb E2). cbn [interleave fst snd].
    rewrite ST_bind_run, E, ST_bind_run, Ei. by split_and!.
Qed.
End InterleavingLemmas.

Section CallsLocal.
Context {T : Type} `{!Response T, !Decode T, !Unmarshal ErrorResponse.t}.
Implicit Types (c : Client) (req : Request.t) (v : target T) (w : World).

Lemma ReadAll_local h : local h (ReadAll h).
Proof.
  split; unfold ReadAll.
  - intros w. destruct (bodies w !! h) as [b|]; [|done]. destruct (Body.closed b); [done|].
    by destruct (read_all _) as [[d e] r].
  - intros w k Hk. destruct (bodies w !! h) as [b|]; [|done]. destruct (Body.closed b); [done|].
    destruct (read_all _) as [[d e] r]. cbn. by rewrite lookup_insert_ne.
  - unfold agree. intros w1 w2 ->. destruct (bodies w2 !! h) as [b|]; [|done].
    destruct (Body.closed b); [done|]. by destruct (read_all _) as [[d e] r].
  - unfold agree. intros w1 w2 Hw. rewrite Hw.
    destruct (bodies w2 !! h) as [b|] eqn:E; [|cbn; congruence].
    destruct (Body.closed b); [cbn; congruence|]. destruct (read_all _) as [[d e] r]. cbn.
    by rewrite !lookup_insert_eq.
Qed.

Lemma handleErrorResp_local c resp : local (Response.Body resp) (handleErrorResp c resp).
Proof.
  unfold handleErrorResp. apply local_bind; [apply ReadAll_local|].
  intros [body [err|]]; [apply local_ret|].
  destruct (unmarshal body zero) as [errRes [e|]]; [apply local_ret|].
  destruct (ErrorResponse.Error errRes); apply local_ret.
Qed.

Lemma decodeString_local body o : local body (decodeString body o).
Proof.
  unfold decodeString. apply local_bind; [apply ReadAll_local|].
  intros [b [e|]]; apply local_ret.
Qed.

Lemma decodeResponse_local body v : local body (decodeResponse body v).
Proof.
  destruct v as [|o|o|x]; simpl; [apply local_ret|..];
    (apply local_bind; [first [apply decodeString_local|apply ReadAll_local]|]);
    intros [??]; try destruct (decode _ _ _); apply local_ret.
Qed.

Lemma respond_local c v res : local (Response.Body res) (respond c v res).
Proof.
  unfold respond. destruct (isFailureStatusCode res); [|apply decodeResponse_local].
  apply local_bind; [apply handleErrorResp_local|]. intros e. apply local_ret.
Qed.

(** A call leaves the bodies there are as they are: it works on the body
    of its own response. *)
Lemma sendRequest_preserving c req v :
  DoerOK (ClientConfig.HTTPClient (config c)) → preserving (sendRequest c req v).
Proof.
  intros Hd w k Hk. rewrite sendRequest_unfold.
  destruct (Do _ _ w) as [[res|err] w1] eqn:HDo; cbn [snd].
  - destruct (Do_ok (jsonRequest req) w res) as (Hnew & b & _ & Hb); [by rewrite HDo|].
    rewrite HDo in Hb. cbn [snd] in Hb.
    assert (k ≠ Response.Body res) as Hne by (intros ->; rewrite Hnew in Hk; by destruct Hk).
    rewrite (local_other _ _ (Close_local _)), (local_other _ _ (respond_local c v res)), Hb
      by done.
    by apply lookup_insert_ne.
  - pose proof (Do_fail (jsonRequest req) w err) as Hf. rewrite HDo in Hf.
    cbn [fst snd] in Hf. by rewrite Hf.
Qed.
End CallsLocal.

(** * Theorems *)

Section IsolationTheorems.
Context {T1 T2 : Type} `{!Zero T1, !Zero T2, !Unmarshal T1, !Unmarshal T2}.
Context `{!Unmarshal ErrorResponse.t}.
Implicit Types (c : Client) (w : World) (sch : list (side * call)).

(** The session of a streaming call is on a body that the call opened. *)
Lemma sendRequestStream_attached {T} `{!Zero T, !Unmarshal T} c req w (s : streamReader.t T) :
  DoerOK (ClientConfig.HTTPClient (config c)) →
  (sendRequestStream (T := T) c req w).1 = (s, None) →
  ∃ h b, attached s h ∧ streamReader.unmarshaler s = Some unmarshal ∧
         bodies w !! h = None ∧
         bodies (sendRequestStream (T := T) c req w).2 = <[h := b]> (bodies w).
Proof.
  intros Hd (resp & -> & HDo & ->)%sendRequestStream_opened.
  destruct (Do_ok _ _ _ HDo) as (Hnew & b & _ & Hb).
  exists (Response.Body resp), b. split_and!; [apply sessionOf_attached|done..].
Qed.

(** C14: Two streams opened one after the other and read in turns, in any
    order of the calls of [Recv] and [Close] on the two sessions: each
    session gives its caller what it gives when it is driven alone, the
    first one in the world before the second was opened.  The sessions
    share nothing. *)
Theorem streams_independent c1 c2 req1 req2 w (s1 : streamReader.t T1)
    (s2 : streamReader.t T2) sch :
  DoerOK (ClientConfig.HTTPClient (config c1)) →
  DoerOK (ClientConfig.HTTPClient (config c2)) →
  (sendRequestStream (T := T1) c1 req1 w).1 = (s1, None) →
  (sendRequestStream (T := T2) c2 req2 (sendRequestStream (T := T1) c1 req1 w).2).1 =
    (s2, None) →
  let w1 := (sendRequestStream (T := T1) c1 req1 w).2 in
  let w2 := (sendRequestStream (T := T2) c2 req2 w1).2 in
  ∃ tr1 tr2 s1' s2' w',
    interleave sch s1 s2 w2 = (Some (tr1, tr2, (s1', s2')), w') ∧
    (run_calls (calls_of First sch) s1 w1).1 = Some (tr1, s1') ∧
    (run_calls (calls_of Second sch) s2 w2).1 = Some (tr2, s2').
Proof.
  intros Hd1 Hd2 H1 H2 w1 w2.
  destruct (sendRequestStream_attached c1 req1 w s1 Hd1 H1) as (h1 & b1 & Ha1 & Hum1 & _ & Hb1).
  destruct (sendRequestStream_attached c2 req2 w1 s2 Hd2 H2) as (h2 & b2 & Ha2 & Hum2 & Hnew & Hb2).
  assert (h1 ≠ h2) as Hne.
  { intros ->. unfold w1 in Hnew. by rewrite Hb1, lookup_insert_eq in Hnew. }
  destruct (interleave_solo sch s1 s2 h1 h2 _ _ w2 w1 w2 Hne Ha1 Ha2 Hum1 Hum2)
    as (tr1 & tr2 & s1' & s2' & w' & E & E1 & E2 & _); [|done|by exists tr1, tr2, s1', s2', w'].
  unfold agree, w2. rewrite Hb2. by apply lookup_insert_ne.
Qed.

(** C28: A call of the client between the opening of a stream and its reading
    changes nothing of what the session gives its caller, whatever the
    calls of [Recv] and [Close]. *)
Theorem stream_undisturbed {T} `{!Response T, !Decode T} c1 c2 req1 req2 w
    (s1 : streamReader.t T1) (v : target T) p :
  DoerOK (ClientConfig.HTTPClient (config c1)) →
  DoerOK (ClientConfig.HTTPClient (config c2)) →
  (sendRequestStream (T := T1) c1 req1 w).1 = (s1, None) →
  let w1 := (sendRequestStream (T := T1) c1 req1 w).2 in
  (run_calls p s1 (sendRequest c2 req2 v w1).2).1 = (run_calls p s1 w1).1.
Proof.
  intros Hd1 Hd2 H1 w1.
  destruct (sendRequestStream_attached c1 req1 w s1 Hd1 H1) as (h1 & b1 & Ha1 & Hum1 & _ & Hb1).
  apply (local_result _ _ (run_calls_local p s1 h1 _ Ha1 Hum1)).
  apply (sendRequest_preserving c2 req2 v Hd2). unfold w1. rewrite Hb1, lookup_insert_eq.
  by eexists.
Qed.
End IsolationTheorems.

(** * Witnesses *)

Section IsolationWitnesses.
#[local] Existing Instances Echo_unmarshal Echo_decode ErrorResponse_unmarshal.
#[local] Instance Echo_header : Response Echo.t := λ h x, Echo.mk (Echo.Payload x) h.

(** Two streams on one transport: the example of the specification, and a
    stream of one event; the callers take turns, and the second closes
    its session in the middle. *)
Definition short_stream : list chunk := [Data (frame event_b ++ frame doneSentinel)].

Definition first_world : World := (opened one_chunk).2.

Definition second : (streamReader.t Echo.t * option error) * World :=
  sendRequestStream (client_200 short_stream) a_request first_world.

Definition turns : list (side * call) :=
  [(First, CallRecv); (Second, CallRecv); (Second, CallClose); (First, CallRecv);
   (Second, CallRecv); (First, CallRecv); (First, CallClose)].

Lemma streams_independent_witness :
  ∃ tr1 tr2 s1' s2' w',
    interleave turns (opened one_chunk).1.1 second.1.1 second.2 =
      (Some (tr1, tr2, (s1', s2')), w') ∧
    (run_calls (calls_of First turns) (opened one_chunk).1.1 first_world).1 = Some (tr1, s1') ∧
    (run_calls (calls_of Second turns) second.1.1 second.2).1 = Some (tr2, s2').
Proof.
  apply (streams_independent (client_200 one_chunk) (client_200 short_stream) a_request
           a_request empty_world (opened one_chunk).1.1 second.1.1 turns);
    [apply always_ok|apply always_ok|reflexivity|reflexivity].
Defined.

Example turns_events :
  (λ x, (x.1.1, x.1.2)) <$> (interleave turns (opened one_chunk).1.1 second.1.1 second.2).1 =
  Some ([Got (Ok (Echo.mk event_a ∅)); Got (Ok (Echo.mk event_b ∅)); Got (Fail EOF); Closed],
        [Got (Ok (Echo.mk event_b ∅)); Closed; Got (Fail EOF)]).
Proof. by vm_compute. Qed.

Lemma stream_undisturbed_witness :
  (run_calls [CallRecv; CallRecv; CallClose] (opened one_chunk).1.1
     (sendRequest client_401 a_request (OtherTarget (zero : Echo.t)) first_world).2).1 =
  (run_calls [CallRecv; CallRecv; CallClose] (opened one_chunk).1.1 first_world).1.
Proof.
  apply (stream_undisturbed (client_200 one_chunk) client_401 a_request a_request empty_world
           (opened one_chunk).1.1 (OtherTarget (zero : Echo.t)) [CallRecv; CallRecv; CallClose]);
    [apply always_ok|apply always_ok|reflexivity].
Defined.
End IsolationWitnesses.
