(* ===== verification/Demand.v ===== *)
(** * Demand: the session reads when it is asked to, and no more

    Section 5 of the specification makes the stream a pull iteration: the
    session goes forward only inside a call of the caller, the events come
    in the order of the bytes, and nothing is buffered beyond what a line
    needs.  In the model a read of the transport is the taking of a chunk
    from the body, so the claim is one about the chunks that a call of
    [Recv] takes.

    - [taken_by] is what one call of the line reader takes; [starved]
      says of a list of chunks that each was taken when the bytes before
      it held no complete line, and [held] which bytes the reader may
      keep: the rest of the last chunk ([next_line_taken],
      [next_line_held]);
    - [idle] says of lines that the session passes over them; [on_demand]
      says of the chunks of a call of [Recv] that each was taken when the
      complete lines received before it had all been passed over
      ([processLines_on_demand], [Recv_on_demand]); a call that has its
      result in the buffer takes nothing ([Recv_buffered]);
    - [stream_on_demand] states both for the sessions of
      [sendRequestStream] of client.go, after any calls. *)

From Stdlib Require Import ZArith NArith Ascii String List Lia.
From stdpp Require Import base tactics option list gmap strings.
From S2P Require Import Prelude Bytes Errors Http Internal Config Fixtures Client Stream Machine.

Set Warnings "-clear-no-such-hyp".

(** * Definitions *)

(** The line reader took the chunks [taken] one by one, each when the bytes
    it had held no complete line. *)
Fixpoint starved (buf : bytes) (taken : list chunk) : bool :=
  match taken with
  | [] => true
  | Data d :: taken => bool_decide (cut NL buf = None) && starved (buf ++ d) taken
  | Fault _ :: _ => false
  end.

(** What the line reader holds after it took the chunks [taken] comes
    from the last of them, or from what it held when it took none. *)
Fixpoint held (buf : bytes) (taken : list chunk) : bytes :=
  match taken with
  | [] => buf
  | Data d :: taken => held d taken
  | Fault _ :: taken => held buf taken
  end.

(** The chunks that one call of the line reader takes. *)
Fixpoint taken_by (buf : bytes) (cs : list chunk) : list chunk :=
  match cut NL buf, cs with
  | None, Data d :: cs => Data d :: taken_by (buf ++ d) cs
  | _, _ => []
  end.

Section Demand.
Context {T : Type} `{!Zero T, !Unmarshal ErrorResponse.t}.
Implicit Types (s : streamReader.t T) (w : World) (r : Bufio.t).
Implicit Types (cs taken : list chunk) (buf : bytes) (ls : list bytes).

(** The lines [ls] give the caller nothing: the session goes through them
    and reads on. *)
Fixpoint idle (um : bytes → T → T * option error) ls s : bool :=
  match ls with
  | [] => true
  | l :: ls =>
      match handleLine um l s with
      | Continue s => idle um ls s
      | Return _ _ => false
      end
  end.

(** A call of [Recv] took the chunks [taken] one by one, each when the
    complete lines among the bytes it had gave the caller nothing. *)
Fixpoint on_demand (um : bytes → T → T * option error) buf s taken : bool :=
  match taken with
  | [] => true
  | Data d :: taken => idle um (pieces NL buf).1 s && on_demand um (buf ++ d) s taken
  | Fault _ :: _ => false
  end.

(** The bytes the reader of a session holds. *)
Definition stream_buffer s : bytes := from_option Bufio.buf [] (streamReader.reader s).
End Demand.

(** * Lemmas *)

Section LineReaderDemand.
Implicit Types (cs taken : list chunk) (buf : bytes).

(** The line reader takes a chunk only when it has no line, and what it
    returns is the first line of what it had and took. *)
Lemma next_line_taken buf cs :
  cs = taken_by buf cs ++ (next_line buf cs).2 ∧ starved buf (taken_by buf cs) = true ∧
  ∀ l err, (next_line buf cs).1.1 = (l, true, err) →
           cut NL (buf ++ content (taken_by buf cs)) = Some (l, (next_line buf cs).1.2).
Proof.
  revert buf. induction cs as [|[d|e] cs IH]; intros buf; simpl;
    destruct (cut NL buf) as [[l rest]|] eqn:E; simpl; rewrite ?app_nil_r;
    try (split_and!; [done..|by intros ?? [= <-]]).
  destruct (IH (buf ++ d)) as (Hcs & Hst & Hl).
  rewrite bool_decide_eq_true_2 by done. rewrite app_assoc.
  split_and!; [by f_equal|done|done].
Qed.

(** What it keeps is the rest of the last chunk it took. *)
Lemma next_line_held x buf cs :
  NL ∉ x → (next_line (x ++ buf) cs).1.2 `suffix_of` held buf (taken_by (x ++ buf) cs).
Proof.
  revert x buf. induction cs as [|[d|e] cs IH]; intros x buf Hx; simpl;
    destruct (cut NL (x ++ buf)) as [[l rest]|] eqn:E; simpl;
    try apply suffix_nil;
    try (destruct (cut NL buf) as [[l1 rest1]|] eqn:E1;
         [rewrite (cut_app_notin _ _ _ Hx), E1 in E; injection E as _ <-;
          apply cut_Some in E1 as ->; by apply suffix_app_r
         |by rewrite (cut_app_notin _ _ _ Hx), E1 in E]).
  apply IH. by apply cut_None.
Qed.

Lemma held_app buf t1 t2 : held buf (t1 ++ t2) = held (held buf t1) t2.
Proof. revert buf. induction t1 as [|[d|e] t1 IH]; intros buf; simpl; auto. Qed.

Lemma held_suffix b1 b2 taken : b1 `suffix_of` b2 → held b1 taken `suffix_of` held b2 taken.
Proof. revert b1 b2. induction taken as [|[d|e] t IH]; intros b1 b2 Hb; simpl; auto. Qed.
End LineReaderDemand.

Section DemandLemmas.
Context {T : Type} `{!Zero T, !Unmarshal ErrorResponse.t}.
Implicit Types (s : streamReader.t T) (w : World) (r : Bufio.t).
Implicit Types (cs taken : list chunk) (buf : bytes) (ls : list bytes).
Implicit Types (um : bytes → T → T * option error).

Lemma idle_with_reader um ls r s : idle um ls (with_reader r s) = idle um ls s.
Proof.
  revert s. induction ls as [|l ls IH]; intros s; [done|]. simpl.
  rewrite handleLine_with_reader. destruct (handleLine um l s); simpl; auto.
Qed.

Lemma on_demand_with_reader um buf r s taken :
  on_demand um buf (with_reader r s) taken = on_demand um buf s taken.
Proof.
  revert buf. induction taken as [|[d|e] taken IH]; intros buf; simpl; [done| |done].
  by rewrite idle_with_reader, IH.
Qed.

(** A reader that has no line makes no demand on the session. *)
Lemma starved_on_demand um buf s taken : starved buf taken = true → on_demand um buf s taken = true.
Proof.
  revert buf. induction taken as [|[d|e] taken IH]; intros buf; simpl; [done| |done].
  intros [Hc%bool_decide_eq_true Ht]%andb_prop. by rewrite (pieces_cut_None _ _ Hc), IH.
Qed.

(** After a line that gives nothing, the call goes on as if it had begun
    behind it. *)
Lemma on_demand_line um buf s l rest s' taken :
  cut NL buf = Some (l, rest) → handleLine um l s = Continue s' →
  on_demand um rest s' taken = true → on_demand um buf s taken = true.
Proof.
  intros Hc Hl. revert buf rest Hc.
  induction taken as [|[d|e] taken IH]; intros buf rest Hc; simpl; [done| |done].
  intros [Hi Ht]%andb_prop. rewrite (pieces_cut_Some _ _ _ _ Hc). simpl. rewrite Hl, Hi.
  apply (IH _ (rest ++ d)); [|done]. by apply cut_app_Some.
Qed.

Lemma on_demand_app um buf s t1 t2 l rest s' :
  starved buf t1 = true → cut NL (buf ++ content t1) = Some (l, rest) →
  handleLine um l s = Continue s' → on_demand um rest s' t2 = true →
  on_demand um buf s (t1 ++ t2) = true.
Proof.
  intros Hst Hc Hl Ht. revert buf Hst Hc.
  induction t1 as [|[d|e] t1 IH]; intros buf; simpl; [|  |done].
  - rewrite app_nil_r. intros _ Hc. by apply (on_demand_line um buf s l rest s').
  - intros [Hn%bool_decide_eq_true Hst]%andb_prop Hc.
    rewrite (pieces_cut_None _ _ Hn). simpl. apply IH; [done|]. by rewrite <- app_assoc.
Qed.

(** The session that a transition on the reader [r] leaves is on [r]. *)
Lemma handleLine_reader um l r s :
  streamReader.reader (step_session (handleLine um l (with_reader r s))) = Some r.
Proof. rewrite handleLine_with_reader. by destruct (handleLine um l s). Qed.

Lemma handleEnd_reader e r s : streamReader.reader (handleEnd e (with_reader r s)).2 = Some r.
Proof. rewrite handleEnd_with_reader. by destruct (handleEnd e s). Qed.

(** The loop of [Recv] takes from the body what its line reader takes, one
    line after the other, and leaves the rest; what the reader holds when
    the loop returns is the rest of the last chunk. *)
Lemma processLines_on_demand fuel s w r um x w' :
  streamReader.reader s = Some r → streamReader.unmarshaler s = Some um →
  processLines fuel s w = (Some x, w') →
  ∃ taken, visible w (Bufio.src r) = taken ++ visible w' (Bufio.src r) ∧
    on_demand um (Bufio.buf r) s taken = true ∧
    stream_buffer x.2 `suffix_of` held (Bufio.buf r) taken.
Proof.
  revert s w r. induction fuel as [|fuel IH]; intros s w r Hr Hum; [done|].
  cbn [processLines]. rewrite Hr, Hum. unfold nextLine.
  destruct (next_line_taken (Bufio.buf r) (visible w (Bufio.src r))) as (Hcs & Hst & Hl).
  pose proof (next_line_held [] (Bufio.buf r) (visible w (Bufio.src r))) as Hh.
  pose proof (visible_take_chunks (Bufio.buf r) (Bufio.src r) w) as Hv.
  simpl in Hh. specialize (Hh ltac:(by apply not_elem_of_nil)).
  set (t1 := taken_by (Bufio.buf r) (visible w (Bufio.src r))) in *.
  destruct (next_line _ _) as [[[[l ok] err] buf'] cs'] eqn:E. simpl in Hcs, Hl, Hv, Hh.
  destruct ok.
  - pose proof (handleLine_reader um l (Bufio.set_buf buf' r) s) as Hr1.
    destruct (handleLine um l _) as [s1|v s1] eqn:Eh.
    + intros Hp. rewrite handleLine_with_reader in Eh.
      destruct (handleLine um l s) as [s0|] eqn:Eh0; [|done]. injection Eh as <-.
      assert (streamReader.unmarshaler (with_reader (Bufio.set_buf buf' r) s0) = Some um) as Hum0.
      { rewrite <- Hum. apply static_unmarshaler. rewrite static_with_reader.
        by rewrite <- (handleLine_static um l s), Eh0. }
      destruct (IH (with_reader (Bufio.set_buf buf' r) s0) _ _ eq_refl Hum0 Hp)
        as (t2 & Hcs2 & Ht2 & Hh2).
      simpl in Hcs2, Ht2, Hh2. exists (t1 ++ t2). split_and!.
      * by rewrite Hcs at 1; rewrite <- app_assoc, <- Hcs2, Hv.
      * rewrite on_demand_with_reader in Ht2.
        by apply (on_demand_app um _ s t1 t2 l buf' s0); [|apply (Hl _ err)|..].
      * rewrite held_app. etrans; [exact Hh2|]. by apply held_suffix.
    + intros [= <- <-]. exists t1. simpl in Hr1. unfold stream_buffer. simpl. rewrite Hr1.
      split_and!; [by rewrite Hv|by apply starved_on_demand|done].
  - intros [= <- <-]. exists t1. unfold stream_buffer. rewrite handleEnd_reader.
    split_and!; [by rewrite Hv|by apply starved_on_demand|done].
Qed.

(** [Recv] takes from the body what its loop takes; a sealed session takes
    nothing. *)
Lemma Recv_on_demand s w r um x w' :
  streamReader.reader s = Some r → streamReader.unmarshaler s = Some um →
  Recv s w = (Some x, w') →
  ∃ taken, visible w (Bufio.src r) = taken ++ visible w' (Bufio.src r) ∧
    on_demand um (Bufio.buf r) s taken = true ∧
    stream_buffer x.2 `suffix_of` held (Bufio.buf r) taken.
Proof.
  intros Hr Hum. unfold Recv. destruct (streamReader.terminalError s).
  - intros [= <- <-]. exists []. unfold stream_buffer. simpl. by rewrite Hr.
  - by apply processLines_on_demand.
Qed.

(** A call that finds its result in the buffer leaves the body alone. *)
Lemma Recv_buffered s w r um x w' :
  streamReader.reader s = Some r → streamReader.unmarshaler s = Some um →
  Recv s w = (Some x, w') → idle um (pieces NL (Bufio.buf r)).1 s = false →
  visible w' (Bufio.src r) = visible w (Bufio.src r).
Proof.
  intros Hr Hum E Hi.
  destruct (Recv_on_demand s w r um x w' Hr Hum E) as (taken & -> & Ht & _).
  destruct taken as [|[d|e] taken]; [done|simpl in Ht; by rewrite Hi in Ht|done].
Qed.
End DemandLemmas.

(** * Theorems: the sessions of streaming calls *)

Section DemandTheorems.
Context {T : Type} `{!Zero T, !Unmarshal T, !Unmarshal ErrorResponse.t}.
Implicit Types (s : streamReader.t T) (c : Client) (w : World) (p : list call).

(** C15: On the session of a streaming call, after any calls of [Recv] and
    [Close], a call of [Recv] takes from the transport no more than it
    needs for its result: the chunks it takes are the first of those the
    body holds, it leaves the others in place, and it takes each of them
    only when the complete lines among the bytes it has received have all
    been handled without a result for the caller; and what the session
    holds when the call returns is the rest of the last chunk it took.
    Nothing is read ahead of the caller. *)
Theorem stream_on_demand c req w s p w1 tr s1 w2 x w' :
  (sendRequestStream (T := T) c req w).1 = (s, None) →
  run_calls p s w1 = (Some (tr, s1), w2) →
  Recv s1 w2 = (Some x, w') →
  ∃ taken, stream_chunks s1 w2 = taken ++ stream_chunks x.2 w' ∧
    on_demand unmarshal (stream_buffer s1) s1 taken = true ∧
    stream_buffer x.2 `suffix_of` held (stream_buffer s1) taken.
Proof.
  intros (resp & -> & _)%sendRequestStream_opened Hp E.
  destruct (run_calls_simulates p _ (sessionOf (T := T) c resp) w1 _ unmarshal
              (sessionOf_attached c resp) eq_refl eq_refl)
    as (tr0 & s0 & w0 & Hp0 & _ & Ha & Hs & _).
  rewrite Hp in Hp0. injection Hp0 as <- <- <-.
  assert (streamReader.unmarshaler s1 = Some unmarshal) as Hum
    by (unfold settings in Hs; by injection Hs as _ _ ->).
  destruct (Recv_simulates s1 s1 w2 _ unmarshal Ha Hum eq_refl)
    as (v & s' & w'' & E' & _ & (r' & _ & Hr' & _ & Hsrc' & _) & _).
  rewrite E in E'. injection E' as -> ->.
  destruct Ha as (r & _ & Hr & _ & Hsrc & _).
  destruct (Recv_on_demand s1 w2 r unmarshal _ _ Hr Hum E) as (taken & Hv & Ht & Hh).
  exists taken. unfold stream_chunks. unfold stream_buffer at 1 3. rewrite Hr. simpl.
  rewrite Hr'. simpl. by rewrite Hsrc', <- Hsrc.
Qed.
End DemandTheorems.

(** * Witnesses *)

Section DemandWitnesses.
#[local] Existing Instances Echo_unmarshal ErrorResponse_unmarshal.

(** The session on the body in three chunks, after its first call. *)
Definition after_one : option (list (event Echo.t) * streamReader.t Echo.t) * World :=
  run_calls [CallRecv] (opened three_chunks).1.1 (opened three_chunks).2.

Definition session_after_one : streamReader.t Echo.t := (default ([], zero) after_one.1).2.

Lemma stream_on_demand_witness :
  ∃ taken,
    stream_chunks session_after_one after_one.2 =
      taken ++ stream_chunks (default (Fail EOF, zero) (Recv session_after_one after_one.2).1).2
                 (Recv session_after_one after_one.2).2 ∧
    on_demand unmarshal (stream_buffer session_after_one) session_after_one taken = true ∧
    stream_buffer (default (Fail EOF, zero) (Recv session_after_one after_one.2).1).2
      `suffix_of` held (stream_buffer session_after_one) taken.
Proof.
  apply (stream_on_demand (client_200 three_chunks) a_request empty_world
           (opened three_chunks).1.1 [CallRecv] (opened three_chunks).2
           (default ([], zero) after_one.1).1 session_after_one after_one.2
           (default (Fail EOF, zero) (Recv session_after_one after_one.2).1)
           (Recv session_after_one after_one.2).2); by vm_compute.
Defined.

(** The first frame ends in the second chunk: the first call takes two
    chunks and leaves the third with the transport; the second call finds
    no frame in the bytes it holds and takes the third. *)
Example first_call_takes_two :
  stream_chunks (opened three_chunks).1.1 (opened three_chunks).2 = three_chunks ∧
  stream_chunks session_after_one after_one.2 = [Data (drop 17 example_body)] ∧
  stream_buffer session_after_one = [].
Proof. by vm_compute. Qed.

(** From a body in one chunk the first call takes everything, and the
    later calls take nothing. *)
Example one_chunk_is_buffered :
  let first := Recv (opened one_chunk).1.1 (opened one_chunk).2 in
  let s := (default (Fail EOF, zero) first.1).2 in
  stream_chunks s first.2 = [] ∧ stream_chunks (default (Fail EOF, zero) (Recv s first.2).1).2 (Recv s first.2).2 = [] ∧
  (Recv s first.2).2 = first.2.
Proof. by vm_compute. Qed.
End DemandWitnesses.
