(* ===== verification/Completion.v ===== *)
(** * Completion: the completion endpoint

    completion.go: the model names, the test of the dynamic type of a
    prompt, the request and response structures and [CreateCompletion] with
    its guards in the order of the code.  The types [StreamOptions] and
    [Usage] are declared in files that are not among the sources; the
    structures take them as parameters. *)

From Stdlib Require Import ZArith Ascii String List Floats.SpecFloat.
From stdpp Require Import base tactics option list gmap strings.
From S2P Require Import Prelude Bytes Errors Http Internal Config Fixtures Client.

Set Warnings "-clear-no-such-hyp".
#[local] Open Scope string_scope.

(** ** Model names *)

Definition Qwen2_7B_Instruct : string := "qwen2-7b-instruct".
Definition Qwen2_57B_Instruct : string := "qwen2-57b-instruct".
Definition DeepSeek_V2 : string := "deepseek-v2".
Definition DeepSeek_V2_Lite : string := "deepseek-v2-lite".

(** ** Checks *)

Definition checkEndpointSupportsModel (endpoint model : string) : bool := true.

(** [checkPromptType]: a string, a [[]string], or a [[]any] whose items are
    all strings. *)
Definition checkPromptType (prompt : any) : bool :=
  let isString := match prompt with AnyString _ => true | _ => false end in
  let isStringSlice := match prompt with AnyStrings _ => true | _ => false end in
  if isString || isStringSlice then true
  else
    match prompt with
    | AnySlice slice =>
        forallb (λ item, match item with AnyString _ => true | _ => false end) slice
    | _ => false
    end.

(** ** Structures *)

(** A Go [float32], as the value it denotes. *)
Definition float32 : Type := spec_float.

Module CompletionRequest.
Record t (StreamOptions : Type) : Type := mk {
  Model : string;
  Prompt : any;
  BestOf : Z;
  Echo : bool;
  FrequencyPenalty : float32;
  LogitBias : gmap string Z;
  Store : bool;
  Metadata : gmap string string;
  LogProbs : Z;
  MaxTokens : Z;
  N : Z;
  PresencePenalty : float32;
  Seed : option Z;
  Stop : list string;
  Stream : bool;
  Suffix : string;
  Temperature : float32;
  TopP : float32;
  User : string;
  StreamOptions_ : option StreamOptions;
}.
Arguments mk {StreamOptions}.
Arguments Model {StreamOptions}.
Arguments Prompt {StreamOptions}.
Arguments BestOf {StreamOptions}.
Arguments Echo {StreamOptions}.
Arguments FrequencyPenalty {StreamOptions}.
Arguments LogitBias {StreamOptions}.
Arguments Store {StreamOptions}.
Arguments Metadata {StreamOptions}.
Arguments LogProbs {StreamOptions}.
Arguments MaxTokens {StreamOptions}.
Arguments N {StreamOptions}.
Arguments PresencePenalty {StreamOptions}.
Arguments Seed {StreamOptions}.
Arguments Stop {StreamOptions}.
Arguments Stream {StreamOptions}.
Arguments Suffix {StreamOptions}.
Arguments Temperature {StreamOptions}.
Arguments TopP {StreamOptions}.
Arguments User {StreamOptions}.
Arguments StreamOptions_ {StreamOptions}.
End CompletionRequest.

Module LogprobResult.
Record t : Type := mk {
  Tokens : list string;
  TokenLogprobs : list float32;
  TopLogprobs : list (gmap string float32);
  TextOffset : list Z;
}.
End LogprobResult.

Module CompletionChoice.
Record t : Type := mk {
  Text : string;
  Index : Z;
  FinishReason : string;
  LogProbs : LogprobResult.t;
}.
End CompletionChoice.

Module CompletionResponse.
Record t (Usage : Type) : Type := mk {
  ID : string;
  Object : string;
  Created : Z;
  Model : string;
  Choices : list CompletionChoice.t;
  Usage_ : option Usage;
  header : httpHeader;
}.
Arguments mk {Usage}.
Arguments ID {Usage}.
Arguments Object {Usage}.
Arguments Created {Usage}.
Arguments Model {Usage}.
Arguments Choices {Usage}.
Arguments Usage_ {Usage}.
Arguments header {Usage}.
End CompletionResponse.

#[global] Instance CompletionResponse_zero {Usage} : Zero (CompletionResponse.t Usage) :=
  CompletionResponse.mk zero zero zero zero zero zero zero.

(** The embedded [httpHeader] makes the response a [Response]. *)
#[global] Instance CompletionResponse_SetHeader {Usage} : Response (CompletionResponse.t Usage) :=
  λ h r, CompletionResponse.mk (CompletionResponse.ID r) (CompletionResponse.Object r)
           (CompletionResponse.Created r) (CompletionResponse.Model r)
           (CompletionResponse.Choices r) (CompletionResponse.Usage_ r)
           (SetHeader h (CompletionResponse.header r)).

(** ** The call *)

Section Create.
Context {StreamOptions Usage : Type}.
Context `{!Marshal (CompletionRequest.t StreamOptions)}.
Context `{!Decode (CompletionResponse.t Usage), !Unmarshal ErrorResponse.t}.

Definition CreateCompletion (c : Client) (ctx : context)
    (request : CompletionRequest.t StreamOptions) :
    ST World (CompletionResponse.t Usage * option error) :=
  let response : CompletionResponse.t Usage := zero in
  if CompletionRequest.Stream request
  then mret (response, Some ErrCompletionStreamNotSupported)
  else
    let urlSuffix := "/completions" in
    if negb (checkEndpointSupportsModel urlSuffix (CompletionRequest.Model request))
    then mret (response, Some ErrCompletionUnsupportedModel)
    else if negb (checkPromptType (CompletionRequest.Prompt request))
    then mret (response, Some ErrCompletionRequestPromptTypeNotSupported)
    else
      match newRequest c ctx "POST"
              (fullURL c urlSuffix [withModel (CompletionRequest.Model request)])
              [withBody (BodyValue (marshal request))] with
      | Fail err => mret (response, Some err)
      | Ok req =>
          '(v, err) ← sendRequest c req (OtherTarget response);
          mret (deref response v, err)
      end.

(** The request of a completion call, as [newRequest] builds it. *)
Definition completionRequest (c : Client) (ctx : context)
    (request : CompletionRequest.t StreamOptions) : res Request.t :=
  newRequest c ctx "POST" (ClientConfig.BaseURL (config c) ++ "/completions")
    [withBody (BodyValue (marshal request))].
End Create.

(** ** Theorems *)

(** C37: The prompts that [checkPromptType] accepts: strings, slices of strings,
    and slices of [any] that hold strings only. *)
Lemma checkPromptType_spec prompt :
  checkPromptType prompt = true ↔
  (∃ s, prompt = AnyString s) ∨ (∃ l, prompt = AnyStrings l) ∨
  (∃ l, prompt = AnySlice (AnyString <$> l)).
Proof.
  split.
  - destruct prompt as [| | | |s|l|l| |]; simpl; try done; [eauto..|].
    intros H. right. right. induction l as [|[| | | |s| | | |] l IH]; simpl in *; try done.
    + by exists [].
    + destruct (IH H) as (l' & [= ->]). by exists (s :: l').
  - intros [[s ->]|[[l ->]|[l ->]]]; simpl; [done..|].
    by induction l as [|s l IH].
Qed.

Section CreateTheorems.
Context {StreamOptions Usage : Type}.
Context `{!Marshal (CompletionRequest.t StreamOptions)}.
Context `{!Decode (CompletionResponse.t Usage), !Unmarshal ErrorResponse.t}.
Implicit Types (c : Client) (request : CompletionRequest.t StreamOptions) (w : World).

(** [CreateCompletion] is its guards, then the request and the call. *)
Lemma CreateCompletion_unfold c ctx request :
  CreateCompletion (Usage := Usage) c ctx request =
  if CompletionRequest.Stream request
  then mret (zero, Some ErrCompletionStreamNotSupported)
  else if checkPromptType (CompletionRequest.Prompt request)
  then sendInto c (completionRequest c ctx request) zero
  else mret (zero, Some ErrCompletionRequestPromptTypeNotSupported).
Proof.
  unfold CreateCompletion, completionRequest, sendInto, fullURL. simpl.
  destruct (CompletionRequest.Stream request); [done|].
  by destruct (checkPromptType _).
Qed.

(** A request for a stream is refused before anything is built or sent. *)
Theorem CreateCompletion_stream_refused c ctx request w :
  CompletionRequest.Stream request = true →
  CreateCompletion (Usage := Usage) c ctx request w =
    ((zero, Some ErrCompletionStreamNotSupported), w).
Proof. intros H. by rewrite CreateCompletion_unfold, H. Qed.

(** A prompt of another type than text is refused before anything is built
    or sent. *)
Theorem CreateCompletion_prompt_refused c ctx request w :
  CompletionRequest.Stream request = false →
  checkPromptType (CompletionRequest.Prompt request) = false →
  CreateCompletion (Usage := Usage) c ctx request w =
    ((zero, Some ErrCompletionRequestPromptTypeNotSupported), w).
Proof. intros Hs Hp. by rewrite CreateCompletion_unfold, Hs, Hp. Qed.


(** Whatever the outcome, the call leaves no body open, and it hands the
    transport one request at most: the POST of the encoded request to the
    completions URL. *)
Theorem CreateCompletion_effects c ctx request w :
  DoerOK (ClientConfig.HTTPClient (config c)) →
  let w' := (CreateCompletion (Usage := Usage) c ctx request w).2 in
  open_bodies w' = open_bodies w ∧
  (sent w' = sent w ∨
   ∃ req, completionRequest c ctx request = Ok req ∧
          sent w' = (sent w ++ [jsonRequest req])%list).
Proof.
  intros Hd. cbv zeta. rewrite CreateCompletion_unfold.
  destruct (CompletionRequest.Stream request); [by split; [|left]|].
  destruct (checkPromptType _); [|by split; [|left]].
  split; [by apply sendInto_open|]. rewrite sendInto_sent by done.
  destruct (completionRequest c ctx request) as [req|err]; [right; by exists req|left].
  by rewrite app_nil_r.
Qed.
End CreateTheorems.

(** ** Witnesses *)

Section CompletionWitnesses.
#[local] Existing Instances ErrorResponse_unmarshal.

(** A codec for the witnesses: the request is encoded by its model, the
    response takes the bytes of an object as its identifier. *)
#[local] Instance model_marshal : Marshal (CompletionRequest.t unit) :=
  λ r, Ok (jq "{'model':'" ++ bs (CompletionRequest.Model r) ++ jq "'}")%list.
#[local] Instance id_decode : Decode (CompletionResponse.t unit) :=
  λ data rerr x,
    if is_object data
    then (CompletionResponse.mk (string_of_bytes data) "" 0 "" [] None
            (CompletionResponse.header x), None)
    else (x, Some (ErrExternal "invalid character looking for beginning of value")).

Definition a_completion (stream : bool) (prompt : any) : CompletionRequest.t unit :=
  CompletionRequest.mk Qwen2_7B_Instruct prompt 0 false (S754_zero false) ∅ false ∅ 0 5 0
    (S754_zero false) None [] stream "" (S754_zero false) (S754_zero false) "" None.

Definition completion_client : Client := client_200 [Data (jq "{'id':'cmpl-1'}")].

Lemma CreateCompletion_stream_refused_witness :
  CreateCompletion (Usage := unit) completion_client Background
    (a_completion true (AnyString "Lorem ipsum")) empty_world =
  ((zero, Some ErrCompletionStreamNotSupported), empty_world).
Proof.
  by apply (CreateCompletion_stream_refused completion_client Background
              (a_completion true (AnyString "Lorem ipsum")) empty_world).
Defined.

Lemma CreateCompletion_prompt_refused_witness :
  CreateCompletion (Usage := unit) completion_client Background
    (a_completion false (AnySlice [AnyString "Lorem"; AnyInt 5])) empty_world =
  ((zero, Some ErrCompletionRequestPromptTypeNotSupported), empty_world).
Proof.
  by apply (CreateCompletion_prompt_refused completion_client Background
              (a_completion false (AnySlice [AnyString "Lorem"; AnyInt 5])) empty_world).
Defined.


Lemma CreateCompletion_effects_witness :
  let w' := (CreateCompletion (Usage := unit) completion_client Background
               (a_completion false (AnyString "Lorem ipsum")) empty_world).2 in
  open_bodies w' = open_bodies empty_world ∧
  (sent w' = sent empty_world ∨
   ∃ req, completionRequest completion_client Background
            (a_completion false (AnyString "Lorem ipsum")) = Ok req ∧
          sent w' = (sent empty_world ++ [jsonRequest req])%list).
Proof.
  apply (CreateCompletion_effects completion_client Background
           (a_completion false (AnyString "Lorem ipsum")) empty_world), always_ok.
Defined.

(** The completion of the example: the response is decoded, and it has the
    header of the HTTP response. *)
Example CreateCompletion_example :
  (CreateCompletion (Usage := unit) completion_client Background
     (a_completion false (AnyString "Lorem ipsum")) empty_world).1 =
  (CompletionResponse.mk (string_of_bytes (jq "{'id':'cmpl-1'}")) "" 0 "" [] None
     (mk_httpHeader (Header_Set "Content-Type" "application/json" ∅)), None).
Proof. by vm_compute. Qed.
End CompletionWitnesses.
