(* ===== verification/Models.v ===== *)
(** * Models: the model endpoints

    models.go: the structures of a model, its permissions, a list of models
    and the answer to a deletion, and the three calls [ListModels],
    [GetModel] and [DeleteFineTuneModel]. *)

From Stdlib Require Import ZArith Ascii String List.
From stdpp Require Import base tactics option list gmap strings.
From S2P Require Import Prelude Bytes Errors Http Internal Config Fixtures Client.

Set Warnings "-clear-no-such-hyp".
#[local] Open Scope string_scope.

(** ** Structures *)

Module Permission.
Record t : Type := mk {
  CreatedAt : Z;
  ID : string;
  Object : string;
  AllowCreateEngine : bool;
  AllowSampling : bool;
  AllowLogprobs : bool;
  AllowSearchIndices : bool;
  AllowView : bool;
  AllowFineTuning : bool;
  Organization : string;
  Group : any;
  IsBlocking : bool;
}.
End Permission.

Module Model.
Record t : Type := mk {
  CreatedAt : Z;
  ID : string;
  Object : string;
  OwnedBy : string;
  Permission : list Permission.t;
  Root : string;
  Parent : string;
  header : httpHeader;
}.
End Model.

Module FineTuneModelDeleteResponse.
Record t : Type := mk {
  ID : string;
  Object : string;
  Deleted : bool;
  header : httpHeader;
}.
End FineTuneModelDeleteResponse.

Module ModelsList.
Record t : Type := mk {
  Models : list Model.t;
  header : httpHeader;
}.
End ModelsList.

#[global] Instance Model_zero : Zero Model.t :=
  Model.mk zero zero zero zero zero zero zero zero.
#[global] Instance FineTuneModelDeleteResponse_zero : Zero FineTuneModelDeleteResponse.t :=
  FineTuneModelDeleteResponse.mk zero zero zero zero.
#[global] Instance ModelsList_zero : Zero ModelsList.t := ModelsList.mk zero zero.

(** The embedded [httpHeader] makes each of them a [Response]. *)
#[global] Instance Model_SetHeader : Response Model.t :=
  λ h m, Model.mk (Model.CreatedAt m) (Model.ID m) (Model.Object m) (Model.OwnedBy m)
           (Model.Permission m) (Model.Root m) (Model.Parent m)
           (SetHeader h (Model.header m)).
#[global] Instance FineTuneModelDeleteResponse_SetHeader :
    Response FineTuneModelDeleteResponse.t :=
  λ h r, FineTuneModelDeleteResponse.mk (FineTuneModelDeleteResponse.ID r)
           (FineTuneModelDeleteResponse.Object r) (FineTuneModelDeleteResponse.Deleted r)
           (SetHeader h (FineTuneModelDeleteResponse.header r)).
#[global] Instance ModelsList_SetHeader : Response ModelsList.t :=
  λ h l, ModelsList.mk (ModelsList.Models l) (SetHeader h (ModelsList.header l)).

(** ** The calls *)

Section Calls.
Context `{!Decode ModelsList.t, !Decode Model.t, !Decode FineTuneModelDeleteResponse.t}.
Context `{!Unmarshal ErrorResponse.t}.

Definition ListModels (c : Client) (ctx : context) : ST World (ModelsList.t * option error) :=
  let models : ModelsList.t := zero in
  match newRequest c ctx "GET" (fullURL c "/models" []) [] with
  | Fail err => mret (models, Some err)
  | Ok req =>
      '(v, err) ← sendRequest c req (OtherTarget models);
      mret (deref models v, err)
  end.

Definition GetModel (c : Client) (ctx : context) (modelID : string) :
    ST World (Model.t * option error) :=
  let model : Model.t := zero in
  let urlSuffix := "/models/" ++ modelID in
  match newRequest c ctx "GET" (fullURL c urlSuffix []) [] with
  | Fail err => mret (model, Some err)
  | Ok req =>
      '(v, err) ← sendRequest c req (OtherTarget model);
      mret (deref model v, err)
  end.

Definition DeleteFineTuneModel (c : Client) (ctx : context) (modelID : string) :
    ST World (FineTuneModelDeleteResponse.t * option error) :=
  let response : FineTuneModelDeleteResponse.t := zero in
  match newRequest c ctx "DELETE" (fullURL c ("/models/" ++ modelID) []) [] with
  | Fail err => mret (response, Some err)
  | Ok req =>
      '(v, err) ← sendRequest c req (OtherTarget response);
      mret (deref response v, err)
  end.
End Calls.

(** The request of a call on a model, as [newRequest] builds it. *)
Definition modelRequest (c : Client) (ctx : context) (method path : string) : res Request.t :=
  newRequest c ctx method (ClientConfig.BaseURL (config c) ++ path) [].

(** ** Theorems *)

Section CallTheorems.
Context `{!Decode ModelsList.t, !Decode Model.t, !Decode FineTuneModelDeleteResponse.t}.
Context `{!Unmarshal ErrorResponse.t}.
Implicit Types (c : Client) (w : World) (modelID : string).

Lemma ListModels_unfold c ctx :
  ListModels c ctx = sendInto c (modelRequest c ctx "GET" "/models") zero.
Proof. done. Qed.

Lemma GetModel_unfold c ctx modelID :
  GetModel c ctx modelID = sendInto c (modelRequest c ctx "GET" ("/models/" ++ modelID)) zero.
Proof. done. Qed.

Lemma DeleteFineTuneModel_unfold c ctx modelID :
  DeleteFineTuneModel c ctx modelID =
  sendInto c (modelRequest c ctx "DELETE" ("/models/" ++ modelID)) zero.
Proof. done. Qed.

(** With the default request builder the request of a call on a model has
    the method and the URL of the call, no body, and no header but the
    authorization. *)
Lemma modelRequest_default cfg ctx method path :
  modelRequest (NewClientWithConfig cfg) ctx method path =
  Ok (setCommonHeaders (NewClientWithConfig cfg)
        (Request.mk ctx method (ClientConfig.BaseURL cfg ++ path) ∅ None)).
Proof. done. Qed.

(** The three calls leave no body open, and each hands the transport the
    one request of its method and path, unless the request cannot be
    built. *)
Theorem model_calls_effects c ctx modelID w :
  DoerOK (ClientConfig.HTTPClient (config c)) →
  let sends (w' : World) (method path : string) :=
    open_bodies w' = open_bodies w ∧
    sent w' = (sent w ++ match modelRequest c ctx method path with
                         | Ok req => [jsonRequest req]
                         | Fail _ => []
                         end)%list in
  sends (ListModels c ctx w).2 "GET" "/models" ∧
  sends (GetModel c ctx modelID w).2 "GET" ("/models/" ++ modelID) ∧
  sends (DeleteFineTuneModel c ctx modelID w).2 "DELETE" ("/models/" ++ modelID).
Proof.
  intros Hd. cbv zeta.
  rewrite ListModels_unfold, GetModel_unfold, DeleteFineTuneModel_unfold.
  split_and!; first [by apply sendInto_open|by apply sendInto_sent].
Qed.

(** The identifier of a model goes into the path as it is: with the default
    builder, [GetModel] and [DeleteFineTuneModel] address the same URL, the
    base URL followed by [/models/] and the identifier, and differ by the
    method. *)
Theorem model_calls_url cfg ctx modelID req :
  modelRequest (NewClientWithConfig cfg) ctx "GET" ("/models/" ++ modelID) = Ok req →
  Request.URL req = ClientConfig.BaseURL cfg ++ "/models/" ++ modelID ∧
  Request.Method req = "GET" ∧ Request.Body req = None ∧
  ∃ req', modelRequest (NewClientWithConfig cfg) ctx "DELETE" ("/models/" ++ modelID) = Ok req' ∧
          Request.URL req' = Request.URL req ∧ Request.Method req' = "DELETE".
Proof.
  rewrite !modelRequest_default. intros [= <-].
  unfold setCommonHeaders. case_decide; simpl; (split_and!; [done..|]);
    eexists; (split; [done|]); done.
Qed.
End CallTheorems.

(** ** Witnesses *)

Section ModelWitnesses.
#[local] Existing Instances ErrorResponse_unmarshal.

(** A codec for the witnesses: it takes any object and keeps nothing of
    it. *)
#[local] Instance list_decode : Decode ModelsList.t :=
  λ data rerr x,
    if is_object data then (x, None)
    else (x, Some (ErrExternal "invalid character looking for beginning of value")).
#[local] Instance model_decode : Decode Model.t :=
  λ data rerr x,
    if is_object data then (x, None)
    else (x, Some (ErrExternal "invalid character looking for beginning of value")).
#[local] Instance deleted_decode : Decode FineTuneModelDeleteResponse.t :=
  λ data rerr x,
    if is_object data then (x, None)
    else (x, Some (ErrExternal "invalid character looking for beginning of value")).

Definition models_client : Client := client_200 [Data (jq "{'data':[]}")].

Definition models_config : ClientConfig.t :=
  DefaultConfig (always (reply_200 [Data (jq "{'data':[]}")])) "dummy-token-giteeai".

Definition get_request : Request.t :=
  setCommonHeaders models_client
    (Request.mk Background "GET" "https://ai.gitee.com/v1/models/qwen2-7b-instruct" ∅ None).

Lemma model_calls_effects_witness :
  let sends (w' : World) (method path : string) :=
    open_bodies w' = open_bodies empty_world ∧
    sent w' = (sent empty_world ++
               match modelRequest models_client Background method path with
               | Ok req => [jsonRequest req]
               | Fail _ => []
               end)%list in
  sends (ListModels models_client Background empty_world).2 "GET" "/models" ∧
  sends (GetModel models_client Background "qwen2-7b-instruct" empty_world).2 "GET"
    ("/models/" ++ "qwen2-7b-instruct") ∧
  sends (DeleteFineTuneModel models_client Background "qwen2-7b-instruct" empty_world).2
    "DELETE" ("/models/" ++ "qwen2-7b-instruct").
Proof.
  apply (model_calls_effects models_client Background "qwen2-7b-instruct" empty_world),
    always_ok.
Defined.

Lemma model_calls_url_witness :
  Request.URL get_request = "https://ai.gitee.com/v1" ++ "/models/" ++ "qwen2-7b-instruct" ∧
  Request.Method get_request = "GET" ∧ Request.Body get_request = None ∧
  ∃ req', modelRequest (NewClientWithConfig models_config) Background "DELETE"
            ("/models/" ++ "qwen2-7b-instruct") = Ok req' ∧
          Request.URL req' = Request.URL get_request ∧ Request.Method req' = "DELETE".
Proof.
  by apply (model_calls_url models_config Background "qwen2-7b-instruct" get_request).
Defined.

(** The identifier is not checked: an empty one addresses the list of
    models, with a slash at the end. *)
Example GetModel_empty_id :
  sent (GetModel models_client Background "" empty_world).2 =
  [jsonRequest (setCommonHeaders models_client
     (Request.mk Background "GET" "https://ai.gitee.com/v1/models/" ∅ None))].
Proof. by vm_compute. Qed.
End ModelWitnesses.
