(* ===== verification/Image.v ===== *)
(** * Image: the image endpoints

    image.go: the constants of the image API, the request and response
    structures, [CreateImage], the reader wrapper [file] with [WrapReader],
    and the two calls that upload a multipart form, [CreateEditImage] and
    [CreateVariImage].  A form is built by a sequence of steps of the form
    builder of the client, each of which may fail; [;;] runs a step after
    another unless the first fails, as the code does with its returns. *)

From Stdlib Require Import ZArith Ascii String List Floats.SpecFloat.
From stdpp Require Import base tactics option list gmap strings.
From S2P Require Import Prelude Bytes Errors Http Internal Config Fixtures Client.

Set Warnings "-clear-no-such-hyp".
#[local] Open Scope string_scope.

(** ** Constants *)

Definition CreateImageSize256x256 : string := "256x256".
Definition CreateImageSize512x512 : string := "512x512".
Definition CreateImageSize1024x1024 : string := "1024x1024".
Definition CreateImageSize1792x1024 : string := "1792x1024".
Definition CreateImageSize1024x1792 : string := "1024x1792".
Definition CreateImageSize1536x1024 : string := "1536x1024".
Definition CreateImageSize1024x1536 : string := "1024x1536".

Definition CreateImageResponseFormatB64JSON : string := "b64_json".
Definition CreateImageResponseFormatURL : string := "url".

Definition CreateImageModelFluxSchnell : string := "flux-1-schnell".

Definition CreateImageQualityStandard : string := "standard".
Definition CreateImageQualityHD : string := "hd".

Definition CreateImageStyleVivid : string := "vivid".
Definition CreateImageStyleNatural : string := "natural".

(** ** Structures *)

Module ImageRequest.
Record t : Type := mk {
  Prompt : string;
  Model : string;
  N : Z;
  Quality : string;
  Size : string;
  Style : string;
  ResponseFormat : string;
  User : string;
  GuidanceScale : spec_float;
  Seed : Z;
}.
End ImageRequest.

Module ImageResponseDataInner.
Record t : Type := mk {
  URL : string;
  B64JSON : string;
  RevisedPrompt : string;
}.
End ImageResponseDataInner.

Module ImageResponse.
Record t : Type := mk {
  Created : Z;
  Data : list ImageResponseDataInner.t;
  header : httpHeader;
}.
End ImageResponse.

#[global] Instance ImageResponse_zero : Zero ImageResponse.t := ImageResponse.mk zero zero zero.

#[global] Instance ImageResponse_SetHeader : Response ImageResponse.t :=
  λ h r, ImageResponse.mk (ImageResponse.Created r) (ImageResponse.Data r)
           (SetHeader h (ImageResponse.header r)).

(** ** Wrapped readers *)

(** [file]: a reader with a name and a content type of its own. *)
Module file.
Record t : Type := mk {
  Reader : option Reader.t;
  name : string;
  contentType : string;
}.
End file.

(** [Name]: the name given, or else the name of the reader when it has
    one. *)
Definition file_Name (f : file.t) : string :=
  if decide (file.name f ≠ "") then file.name f
  else match file.Reader f ≫= Reader.name with
       | Some named => named
       | None => ""
       end.

Definition file_ContentType (f : file.t) : string := file.contentType f.

(** A [file] as the [io.Reader] it is: the content of the reader it embeds,
    with the methods [Name] and [ContentType]. *)
Definition file_as_Reader (f : file.t) : Reader.t :=
  Reader.mk (from_option Reader.content [] (file.Reader f))
    (Some (file_Name f)) (Some (file_ContentType f)).

Definition WrapReader (rdr : option Reader.t) (filename contentType : string) :
    option Reader.t :=
  Some (file_as_Reader (file.mk rdr filename contentType)).

(** ** Steps of a form *)

Definition form_step : Type := Form.t → Form.t * option error.

Definition form_then (m k : form_step) : form_step := λ f,
  match m f with
  | (f', None) => k f'
  | (f', Some err) => (f', Some err)
  end.

Definition form_skip : form_step := λ f, (f, None).

Notation "m ;; k" := (form_then m k) (at level 100, k at level 200, right associativity) : go_scope.
#[local] Open Scope go_scope.

(** ** The calls *)

Module ImageEditRequest.
Record t : Type := mk {
  Image : option Reader.t;
  Mask : option Reader.t;
  Prompt : string;
  Model : string;
  N : Z;
  Size : string;
  ResponseFormat : string;
  User : string;
}.
End ImageEditRequest.

Module ImageVariRequest.
Record t : Type := mk {
  Image : option Reader.t;
  Model : string;
  N : Z;
  Size : string;
  ResponseFormat : string;
  User : string;
}.
End ImageVariRequest.

Section Calls.
Context `{!Marshal ImageRequest.t, !Decode ImageResponse.t, !Unmarshal ErrorResponse.t}.

Definition CreateImage (c : Client) (ctx : context) (request : ImageRequest.t) :
    ST World (ImageResponse.t * option error) :=
  let response : ImageResponse.t := zero in
  let urlSuffix := "/images/generations" in
  match newRequest c ctx "POST" (fullURL c urlSuffix [withModel (ImageRequest.Model request)])
          [withBody (BodyValue (marshal request))] with
  | Fail err => mret (response, Some err)
  | Ok req =>
      '(v, err) ← sendRequest c req (OtherTarget response);
      mret (deref response v, err)
  end.

(** The form of an edit: the image, the mask when there is one, then the
    prompt, the number of images, the size and the format. *)
Definition editForm (builder : FormBuilder) (request : ImageEditRequest.t) : form_step :=
  CreateFormFileReader builder "image" (ImageEditRequest.Image request) "" ;;
  (if ImageEditRequest.Mask request is Some _
   then CreateFormFileReader builder "mask" (ImageEditRequest.Mask request) ""
   else form_skip) ;;
  WriteField builder "prompt" (ImageEditRequest.Prompt request) ;;
  WriteField builder "n" (Itoa (ImageEditRequest.N request)) ;;
  WriteField builder "size" (ImageEditRequest.Size request) ;;
  WriteField builder "response_format" (ImageEditRequest.ResponseFormat request) ;;
  FormClose builder.

Definition CreateEditImage (c : Client) (ctx : context) (request : ImageEditRequest.t) :
    ST World (ImageResponse.t * option error) :=
  let response : ImageResponse.t := zero in
  let builder := createFormBuilder c in
  match editForm builder request Form.empty with
  | (_, Some err) => mret (response, Some err)
  | (body, None) =>
      match newRequest c ctx "POST"
              (fullURL c "/images/edits" [withModel (ImageEditRequest.Model request)])
              [withBody (BodyReader (FormBytes builder body));
               withContentType (FormDataContentType builder body)] with
      | Fail err => mret (response, Some err)
      | Ok req =>
          '(v, err) ← sendRequest c req (OtherTarget response);
          mret (deref response v, err)
      end
  end.

(** The form of a variation: the image, the number of images, the size and
    the format. *)
Definition variForm (builder : FormBuilder) (request : ImageVariRequest.t) : form_step :=
  CreateFormFileReader builder "image" (ImageVariRequest.Image request) "" ;;
  WriteField builder "n" (Itoa (ImageVariRequest.N request)) ;;
  WriteField builder "size" (ImageVariRequest.Size request) ;;
  WriteField builder "response_format" (ImageVariRequest.ResponseFormat request) ;;
  FormClose builder.

Definition CreateVariImage (c : Client) (ctx : context) (request : ImageVariRequest.t) :
    ST World (ImageResponse.t * option error) :=
  let response : ImageResponse.t := zero in
  let builder := createFormBuilder c in
  match variForm builder request Form.empty with
  | (_, Some err) => mret (response, Some err)
  | (body, None) =>
      match newRequest c ctx "POST"
              (fullURL c "/images/variations" [withModel (ImageVariRequest.Model request)])
              [withBody (BodyReader (FormBytes builder body));
               withContentType (FormDataContentType builder body)] with
      | Fail err => mret (response, Some err)
      | Ok req =>
          '(v, err) ← sendRequest c req (OtherTarget response);
          mret (deref response v, err)
      end
  end.
End Calls.

(** The request that carries a form, as [newRequest] builds it. *)
Definition formRequest (c : Client) (ctx : context) (path : string) (body : Form.t) :
    res Request.t :=
  newRequest c ctx "POST" (ClientConfig.BaseURL (config c) ++ path)
    [withBody (BodyReader (FormBytes (createFormBuilder c) body));
     withContentType (FormDataContentType (createFormBuilder c) body)].

(** ** Theorems *)

Section FormLemmas.
Implicit Types (m k : form_step) (f : Form.t).

(** A step that fails ends the sequence with its error and its form. *)
Lemma form_then_error m k f f' err : m f = (f', Some err) → (m ;; k) f = (f', Some err).
Proof. unfold form_then. by intros ->. Qed.

Lemma form_then_ok m k f f' : m f = (f', None) → (m ;; k) f = k f'.
Proof. unfold form_then. by intros ->. Qed.

Lemma form_then_assoc m k l f : ((m ;; k) ;; l) f = (m ;; (k ;; l)) f.
Proof. unfold form_then. by destruct (m f) as [f' [e|]]. Qed.

Lemma form_skip_l m f : (form_skip ;; m) f = m f.
Proof. done. Qed.
End FormLemmas.

Section NameLemmas.
(** The name given to [WrapReader] is the name of the file. *)
Lemma file_Name_given rdr filename contentType :
  filename ≠ "" → file_Name (file.mk rdr filename contentType) = filename.
Proof. intros H. unfold file_Name. simpl. by rewrite decide_True. Qed.

(** Without one, the file has the name of the reader it wraps, if any. *)
Lemma file_Name_inherited rdr contentType :
  file_Name (file.mk rdr "" contentType) = default "" (rdr ≫= Reader.name).
Proof. unfold file_Name. simpl. by destruct (rdr ≫= Reader.name). Qed.

(** What the default form builder writes for a wrapped reader: the name and
    the content type given to [WrapReader], and the content of the
    reader. *)
Theorem WrapReader_part fieldname rdr filename contentType f :
  filename ≠ "" →
  CreateFormFileReader NewFormBuilder fieldname
    (WrapReader (Some rdr) filename contentType) "" f =
  (add_part (FilePart fieldname filename contentType (Reader.content rdr)) f, None).
Proof. intros H. simpl. by rewrite file_Name_given. Qed.
End NameLemmas.

Section CallTheorems.
Context `{!Marshal ImageRequest.t, !Decode ImageResponse.t, !Unmarshal ErrorResponse.t}.
Implicit Types (c : Client) (w : World).

Lemma CreateImage_unfold c ctx request :
  CreateImage c ctx request =
  sendInto c (newRequest c ctx "POST" (ClientConfig.BaseURL (config c) ++ "/images/generations")
                [withBody (BodyValue (marshal request))]) zero.
Proof. done. Qed.

Lemma CreateEditImage_unfold c ctx request :
  CreateEditImage c ctx request =
  match editForm (createFormBuilder c) request Form.empty with
  | (_, Some err) => mret (zero, Some err)
  | (body, None) => sendInto c (formRequest c ctx "/images/edits" body) zero
  end.
Proof. unfold CreateEditImage. by destruct (editForm _ _ _) as [body [err|]]. Qed.

Lemma CreateVariImage_unfold c ctx request :
  CreateVariImage c ctx request =
  match variForm (createFormBuilder c) request Form.empty with
  | (_, Some err) => mret (zero, Some err)
  | (body, None) => sendInto c (formRequest c ctx "/images/variations" body) zero
  end.
Proof. unfold CreateVariImage. by destruct (variForm _ _ _) as [body [err|]]. Qed.

(** The form of an edit with the default builder: the parts in the order of
    the code, the mask only when there is one, and the form closed. *)
Theorem editForm_default img request :
  ImageEditRequest.Image request = Some img →
  let file_part fieldname (r : Reader.t) :=
    FilePart fieldname (default "" (Reader.name r)) (default "" (Reader.contentType r))
      (Reader.content r) in
  editForm NewFormBuilder request Form.empty =
  (Form.mk ([file_part "image" img] ++
            match ImageEditRequest.Mask request with
            | Some mask => [file_part "mask" mask]
            | None => []
            end ++
            [FieldPart "prompt" (ImageEditRequest.Prompt request);
             FieldPart "n" (Itoa (ImageEditRequest.N request));
             FieldPart "size" (ImageEditRequest.Size request);
             FieldPart "response_format" (ImageEditRequest.ResponseFormat request)])
     true, None).
Proof.
  intros Himg. unfold editForm, form_then. simpl. rewrite Himg.
  by destruct (ImageEditRequest.Mask request).
Qed.

(** The form of a variation with the default builder: the image, then the
    number of images in decimal, the size and the format, and the form
    closed. *)
Theorem variForm_default img request :
  ImageVariRequest.Image request = Some img →
  variForm NewFormBuilder request Form.empty =
  (Form.mk [FilePart "image" (default "" (Reader.name img))
              (default "" (Reader.contentType img)) (Reader.content img);
            FieldPart "n" (Itoa (ImageVariRequest.N request));
            FieldPart "size" (ImageVariRequest.Size request);
            FieldPart "response_format" (ImageVariRequest.ResponseFormat request)]
     true, None).
Proof. intros Himg. unfold variForm, form_then. simpl. by rewrite Himg. Qed.

(** When a step of the form fails, the call returns its error, and nothing
    is built or sent. *)
Theorem CreateEditImage_form_error c ctx request w f err :
  editForm (createFormBuilder c) request Form.empty = (f, Some err) →
  CreateEditImage c ctx request w = ((zero, Some err), w).
Proof. intros H. by rewrite CreateEditImage_unfold, H. Qed.

(** C39: The model and the user of an edit reach neither the form nor the URL:
    two requests that differ in them only make the same call. *)
Theorem CreateEditImage_ignores_model c ctx image mask prompt n size format
    model user model' user' :
  CreateEditImage c ctx (ImageEditRequest.mk image mask prompt model n size format user) =
  CreateEditImage c ctx (ImageEditRequest.mk image mask prompt model' n size format user').
Proof. done. Qed.

(** The same holds of a variation. *)
Theorem CreateVariImage_ignores_model c ctx image n size format model user model' user' :
  CreateVariImage c ctx (ImageVariRequest.mk image model n size format user) =
  CreateVariImage c ctx (ImageVariRequest.mk image model' n size format user').
Proof. done. Qed.

(** C40: The image calls leave no body open. *)
Theorem image_calls_release c ctx request edit vari w :
  DoerOK (ClientConfig.HTTPClient (config c)) →
  open_bodies (CreateImage c ctx request w).2 = open_bodies w ∧
  open_bodies (CreateEditImage c ctx edit w).2 = open_bodies w ∧
  open_bodies (CreateVariImage c ctx vari w).2 = open_bodies w.
Proof.
  intros Hd. rewrite CreateImage_unfold, CreateEditImage_unfold, CreateVariImage_unfold.
  destruct (editForm _ _ _) as [b1 [e1|]], (variForm _ _ _) as [b2 [e2|]];
    split_and!; first [by apply sendInto_open|done].
Qed.

(** The request that carries a form keeps the content type of the form:
    [sendRequest] adds [Accept] and leaves [Content-Type] as the form
    builder gave it. *)
Theorem formRequest_content_type cfg ctx path body req :
  FormDataContentType (createFormBuilder (NewClientWithConfig cfg)) body ≠ "" →
  formRequest (NewClientWithConfig cfg) ctx path body = Ok req →
  Request.Method req = "POST" ∧
  Request.URL req = ClientConfig.BaseURL cfg ++ path ∧
  Request.Body req = Some (render body) ∧
  Header_Get "Content-Type" (Request.Header (jsonRequest req)) =
    FormDataContentType NewFormBuilder body ∧
  Header_Get "Accept" (Request.Header (jsonRequest req)) = "application/json".
Proof.
  intros Hct. unfold formRequest, newRequest. simpl. intros [= <-].
  unfold jsonRequest, setCommonHeaders.
  case_decide; simpl; rewrite ?Header_Get_Set_eq, ?Header_Get_Set_ne by key_ne;
    rewrite decide_False by done; simpl;
    rewrite ?Header_Get_Set_eq, ?Header_Get_Set_ne by key_ne; done.
Qed.
End CallTheorems.

(** ** Witnesses *)

Section ImageWitnesses.
#[local] Existing Instances ErrorResponse_unmarshal.

(** A codec for the witnesses: the request is encoded by its prompt, the
    response keeps nothing of an object and refuses anything else. *)
#[local] Instance prompt_marshal : Marshal ImageRequest.t :=
  λ r, Ok (jq "{'prompt':'" ++ bs (ImageRequest.Prompt r) ++ jq "'}")%list.
#[local] Instance created_decode : Decode ImageResponse.t :=
  λ data rerr x,
    if is_object data then (x, None)
    else (x, Some (ErrExternal "invalid character looking for beginning of value")).

Definition a_png : Reader.t := Reader.mk (bs "PNG-otter") (Some "otter.png") None.
Definition a_mask : Reader.t := Reader.mk (bs "PNG-mask") None None.

Definition an_edit (mask : option Reader.t) (model : string) : ImageEditRequest.t :=
  ImageEditRequest.mk (Some a_png) mask "a cute baby sea otter" model 1
    CreateImageSize512x512 CreateImageResponseFormatURL "".

Definition a_variation : ImageVariRequest.t :=
  ImageVariRequest.mk (Some a_png) CreateImageModelFluxSchnell 2
    CreateImageSize256x256 CreateImageResponseFormatB64JSON "".

Definition image_client : Client := client_200 [Data (jq "{'created':1}")].

Lemma WrapReader_part_witness :
  CreateFormFileReader NewFormBuilder "image"
    (WrapReader (Some a_mask) "mask.png" "image/png") "" Form.empty =
  (add_part (FilePart "image" "mask.png" "image/png" (bs "PNG-mask")) Form.empty, None).
Proof. by apply (WrapReader_part "image" a_mask "mask.png" "image/png" Form.empty). Defined.

Lemma editForm_default_witness :
  editForm NewFormBuilder (an_edit (Some a_mask) "") Form.empty =
  (Form.mk [FilePart "image" "otter.png" "" (bs "PNG-otter");
            FilePart "mask" "" "" (bs "PNG-mask");
            FieldPart "prompt" "a cute baby sea otter"; FieldPart "n" "1";
            FieldPart "size" "512x512"; FieldPart "response_format" "url"] true, None).
Proof. by apply (editForm_default a_png (an_edit (Some a_mask) "")). Defined.

Lemma variForm_default_witness :
  variForm NewFormBuilder a_variation Form.empty =
  (Form.mk [FilePart "image" "otter.png" "" (bs "PNG-otter"); FieldPart "n" "2";
            FieldPart "size" "256x256"; FieldPart "response_format" "b64_json"] true, None).
Proof. by apply (variForm_default a_png a_variation). Defined.

(** An edit without an image: the default form builder fails at the first
    step. *)
Lemma CreateEditImage_form_error_witness :
  CreateEditImage image_client Background
    (ImageEditRequest.mk None None "p" "" 1 "" "" "") empty_world =
  ((zero, Some (ErrExternal "invalid memory address or nil pointer dereference")),
   empty_world).
Proof.
  by apply (CreateEditImage_form_error image_client Background
              (ImageEditRequest.mk None None "p" "" 1 "" "" "") empty_world Form.empty).
Defined.

Lemma image_calls_release_witness :
  open_bodies (CreateImage image_client Background
                 (ImageRequest.mk "otter" "" 1 "" "" "" "" "" (S754_zero false) 0) empty_world).2 =
    open_bodies empty_world ∧
  open_bodies (CreateEditImage image_client Background (an_edit None "") empty_world).2 =
    open_bodies empty_world ∧
  open_bodies (CreateVariImage image_client Background a_variation empty_world).2 =
    open_bodies empty_world.
Proof.
  apply (image_calls_release image_client Background
           (ImageRequest.mk "otter" "" 1 "" "" "" "" "" (S754_zero false) 0)
           (an_edit None "") a_variation empty_world), always_ok.
Defined.

Definition edit_request : Request.t :=
  match formRequest image_client Background "/images/edits"
          (editForm NewFormBuilder (an_edit None "") Form.empty).1 with
  | Ok req => req
  | Fail _ => a_request
  end.

Lemma formRequest_content_type_witness :
  Request.Method edit_request = "POST" ∧
  Request.URL edit_request = "https://ai.gitee.com/v1/images/edits" ∧
  Request.Body edit_request =
    Some (render (editForm NewFormBuilder (an_edit None "") Form.empty).1) ∧
  Header_Get "Content-Type" (Request.Header (jsonRequest edit_request)) =
    "multipart/form-data; boundary=giteeai-form-boundary" ∧
  Header_Get "Accept" (Request.Header (jsonRequest edit_request)) = "application/json".
Proof.
  by apply (formRequest_content_type
              (DefaultConfig (always (reply_200 [Data (jq "{'created':1}")]))
                 "dummy-token-giteeai")
              Background "/images/edits"
              (editForm NewFormBuilder (an_edit None "") Form.empty).1 edit_request).
Defined.
End ImageWitnesses.
