(* ===== verification/Json.v ===== *)
(** * Json: JSON values, their encoding and their decoding

    The model of encoding/json that the codecs of the structures use.

    - [json]: a JSON value; a number is its literal, as Go's [json.Number];
      [wf] holds of the values whose numbers are literals of the grammar;
    - [print]: the compact encoding of [json.Marshal], with its escapes of
      the quote, the backslash, the control characters and the characters
      of HTML;
    - [parse_value]: the decoder of one value from the front of the input,
      with the rest; [parse]: the decoder of an input that is one value.
      A decoder that fails tells an input that ended inside a value
      ([Short]) from an input with a character that cannot be there
      ([Bad]), as the scanner of encoding/json does.  The recursion on
      nested values takes fuel, and the length of the input plus one is
      enough of it ([parse_value_fuel]).

    The round trip is stated with the bytes that follow the value
    ([parse_value_print]), so that it composes to arrays and objects.
    The encoder writes no control character ([print_printable]): an
    encoding is one line.

    Text is UTF-8, as in Go.  The encoder copies a well-formed sequence
    of bytes, escapes the line separators U+2028 and U+2029, and writes
    the escape of U+FFFD for a byte that begins no well-formed sequence;
    the decoder coerces what it reads to well-formed UTF-8, with U+FFFD
    for such a byte ([on_rune] is [utf8.DecodeRune]).  So a string is read
    back as [coerce] makes it ([parse_chars_escape], [string_round_trip]),
    which is the string itself exactly when it is well-formed ([text],
    [coerce_text]); the theorems on encodings are stated for the values
    whose strings are well-formed ([plain]).  The escapes of the control
    characters are those of [\u00XX], also for backspace and form
    feed. *)

From Stdlib Require Import ZArith NArith Ascii String List Lia.
From stdpp Require Import base tactics option list strings.
From S2P Require Import Prelude Bytes.

Set Warnings "-clear-no-such-hyp".
#[local] Open Scope char_scope.

(** ** Values *)

#[local] Unset Elimination Schemes.
Inductive json : Type :=
| JNull
| JBool (b : bool)
| JNumber (lit : string)
| JString (s : string)
| JArray (elems : list json)
| JObject (members : list (string * json)).
#[local] Set Elimination Schemes.

(** Induction on values, with the hypothesis on every element of an array
    and on every member of an object. *)
Section Induction.
Context (P : json → Prop).
Context (Hnull : P JNull) (Hbool : ∀ b, P (JBool b)).
Context (Hnumber : ∀ lit, P (JNumber lit)) (Hstring : ∀ s, P (JString s)).
Context (Harray : ∀ l, Forall P l → P (JArray l)).
Context (Hobject : ∀ l, Forall (λ kv, P kv.2) l → P (JObject l)).

Fixpoint json_ind (v : json) : P v :=
  match v with
  | JNull => Hnull
  | JBool b => Hbool b
  | JNumber lit => Hnumber lit
  | JString s => Hstring s
  | JArray l =>
      Harray l ((fix all l : Forall P l :=
                   match l with
                   | [] => Forall_nil_2 P
                   | x :: l' => Forall_cons_2 P x l' (json_ind x) (all l')
                   end) l)
  | JObject l =>
      Hobject l ((fix all l : Forall (λ kv, P kv.2) l :=
                    match l with
                    | [] => Forall_nil_2 _
                    | x :: l' => Forall_cons_2 _ x l' (json_ind x.2) (all l')
                    end) l)
  end.
End Induction.

(** ** The result of a decoder *)

(** What a decoder makes of the front of an input: a result, or the end of
    the input inside a value, or a character that cannot be there. *)
Inductive parsed (A : Type) : Type :=
| Got (a : A)
| Short
| Bad.
Arguments Got {A} a.
Arguments Short {A}.
Arguments Bad {A}.

#[global] Instance parsed_ret : MRet parsed := @Got.
#[global] Instance parsed_bind : MBind parsed :=
  λ A B k m, match m with Got a => k a | Short => Short | Bad => Bad end.

(** ** Characters *)

Definition dquote : ascii := "034".
Definition bslash : ascii := "\".

Definition ord (c : ascii) : N := N_of_ascii c.

Definition is_ws (c : ascii) : bool :=
  bool_decide (c = " ") || bool_decide (c = "009") || bool_decide (c = "010")
  || bool_decide (c = "013").

Definition is_dec (c : ascii) : bool := (48 <=? ord c)%N && (ord c <=? 57)%N.

(** The characters of a number literal. *)
Definition is_num_char (c : ascii) : bool :=
  is_dec c || bool_decide (c = "-") || bool_decide (c = "+") || bool_decide (c = ".")
  || bool_decide (c = "e") || bool_decide (c = "E").

Definition hex_digit (n : N) : ascii :=
  nth (N.to_nat n) (bs "0123456789abcdef") "0".

Definition hex_val (c : ascii) : option N :=
  if is_dec c then Some (ord c - 48)%N
  else if (97 <=? ord c)%N && (ord c <=? 102)%N then Some (ord c - 87)%N
  else if (65 <=? ord c)%N && (ord c <=? 70)%N then Some (ord c - 55)%N
  else None.

Fixpoint skip_ws (l : bytes) : bytes :=
  match l with
  | c :: l' => if is_ws c then skip_ws l' else l
  | [] => []
  end.

(** ** Number literals *)

(** The states of the scanner inside a number: before it, after the sign,
    after a leading zero, inside the integer digits, after the point, inside
    the fraction, after the exponent mark, after its sign, inside its
    digits. *)
Inductive nstate : Type :=
| SBegin | SNeg | SZero | SInt | SDot | SFrac | SExp | SExpSign | SExpInt.

Definition is_e (c : ascii) : bool := bool_decide (c = "e") || bool_decide (c = "E").

(** The state after a character that continues the number. *)
Definition nstep (s : nstate) (c : ascii) : option nstate :=
  match s with
  | SBegin => if bool_decide (c = "-") then Some SNeg
              else if bool_decide (c = "0") then Some SZero
              else if is_dec c then Some SInt else None
  | SNeg => if bool_decide (c = "0") then Some SZero
            else if is_dec c then Some SInt else None
  | SZero => if bool_decide (c = ".") then Some SDot
             else if is_e c then Some SExp else None
  | SInt => if is_dec c then Some SInt
            else if bool_decide (c = ".") then Some SDot
            else if is_e c then Some SExp else None
  | SDot => if is_dec c then Some SFrac else None
  | SFrac => if is_dec c then Some SFrac else if is_e c then Some SExp else None
  | SExp => if bool_decide (c = "+") || bool_decide (c = "-") then Some SExpSign
            else if is_dec c then Some SExpInt else None
  | SExpSign => if is_dec c then Some SExpInt else None
  | SExpInt => if is_dec c then Some SExpInt else None
  end.

(** The states in which a number may end. *)
Definition accepting (s : nstate) : bool :=
  match s with SZero | SInt | SFrac | SExpInt => true | _ => false end.

(** The longest run of characters that continue the number, and the rest.
    A run that ends where a number may not is an error, or the end of the
    input. *)
Fixpoint scan_number (s : nstate) (l : bytes) : parsed (bytes * bytes) :=
  match l with
  | c :: l' =>
      match nstep s c with
      | Some s' => '(x, r) ← scan_number s' l'; Got (c :: x, r)
      | None => if accepting s then Got ([], l) else Bad
      end
  | [] => if accepting s then Got ([], []) else Short
  end.

(** The literals of the grammar of JSON numbers. *)
Definition number_lit (l : bytes) : bool :=
  match scan_number SBegin l with
  | Got (x, r) => bool_decide (r = [])
  | _ => false
  end.

(** ** Well-formed values *)

Fixpoint wf (v : json) : bool :=
  match v with
  | JNumber lit => number_lit (bs lit)
  | JArray l => forallb wf l
  | JObject l => forallb (λ kv, wf kv.2) l
  | _ => true
  end.

(** The number of nodes of a value. *)
Fixpoint json_size (v : json) : nat :=
  match v with
  | JArray l => S (list_sum (map json_size l))
  | JObject l => S (list_sum (map (λ kv, json_size kv.2) l))
  | _ => 1
  end.

(** ** UTF-8

    The sequences of two, three and four bytes that encode a code point
    (package unicode/utf8: the table of the leading bytes and of the ranges
    of the second byte, which leave out the encodings that are longer than
    needed, the halves of surrogate pairs and what is beyond U+10FFFF). *)

Definition between (lo hi : N) (c : ascii) : bool := (lo <=? ord c)%N && (ord c <? hi)%N.

(** A continuation byte. *)
Definition is_cont (c : ascii) : bool := between 128 192 c.

Definition seq2 (c0 c1 : ascii) : bool := between 194 224 c0 && is_cont c1.

Definition seq3 (c0 c1 c2 : ascii) : bool :=
  between 224 240 c0 &&
  (if (ord c0 =? 224)%N then between 160 192 c1
   else if (ord c0 =? 237)%N then between 128 160 c1 else is_cont c1) &&
  is_cont c2.

Definition seq4 (c0 c1 c2 c3 : ascii) : bool :=
  between 240 245 c0 &&
  (if (ord c0 =? 240)%N then between 144 192 c1
   else if (ord c0 =? 244)%N then between 128 144 c1 else is_cont c1) &&
  is_cont c2 && is_cont c3.

(** The code point of a sequence. *)
Definition rune2 (c0 c1 : ascii) : N := ((ord c0 - 192) * 64 + (ord c1 - 128))%N.
Definition rune3 (c0 c1 c2 : ascii) : N :=
  ((ord c0 - 224) * 4096 + (ord c1 - 128) * 64 + (ord c2 - 128))%N.
Definition rune4 (c0 c1 c2 c3 : ascii) : N :=
  ((ord c0 - 240) * 262144 + (ord c1 - 128) * 4096 + (ord c2 - 128) * 64 + (ord c3 - 128))%N.

(** [utf8.DecodeRune] at a byte [c] that is not 7-bit, followed by [l]:
    [seq] on the code point, the bytes of its sequence and what follows
    them, or [bad] when no well-formed sequence begins with [c] (Go then
    returns [RuneError] and the width 1). *)
Definition on_rune {A} (c : ascii) (l : bytes) (seq : N → bytes → bytes → A) (bad : A) : A :=
  match l with
  | c1 :: l1 =>
      if seq2 c c1 then seq (rune2 c c1) [c; c1] l1
      else match l1 with
           | c2 :: l2 =>
               if seq3 c c1 c2 then seq (rune3 c c1 c2) [c; c1; c2] l2
               else match l2 with
                    | c3 :: l3 =>
                        if seq4 c c1 c2 c3 then seq (rune4 c c1 c2 c3) [c; c1; c2; c3] l3
                        else bad
                    | [] => bad
                    end
           | [] => bad
           end
  | [] => bad
  end.

(** The UTF-8 encoding of a code point. *)
Definition utf8 (cp : N) : bytes :=
  if (cp <? 128)%N then [ascii_of_N cp]
  else if (cp <? 2048)%N
  then [ascii_of_N (192 + cp / 64); ascii_of_N (128 + cp mod 64)]
  else if (cp <? 65536)%N
  then [ascii_of_N (224 + cp / 4096); ascii_of_N (128 + (cp / 64) mod 64);
        ascii_of_N (128 + cp mod 64)]
  else [ascii_of_N (240 + cp / 262144); ascii_of_N (128 + (cp / 4096) mod 64);
        ascii_of_N (128 + (cp / 64) mod 64); ascii_of_N (128 + cp mod 64)].

(** U+2028 and U+2029, the line separators that the encoder escapes. *)
Definition is_line_sep (cp : N) : bool := (cp =? 8232)%N || (cp =? 8233)%N.

(** ** The encoder *)

Definition escape_char (c : ascii) : bytes :=
  if bool_decide (c = dquote) then [bslash; dquote]
  else if bool_decide (c = bslash) then [bslash; bslash]
  else if bool_decide (c = "010") then [bslash; "n"]
  else if bool_decide (c = "013") then [bslash; "r"]
  else if bool_decide (c = "009") then [bslash; "t"]
  else if (ord c <? 32)%N || bool_decide (c = "<") || bool_decide (c = ">")
          || bool_decide (c = "&")
  then [bslash; "u"; "0"; "0"; hex_digit (ord c / 16); hex_digit (ord c mod 16)]
  else [c].

(** The characters of a string between its quotes: a 7-bit character by
    [escape_char]; a well-formed sequence as it is, but for the line
    separators; [\ufffd] for a byte that begins no well-formed sequence. *)
Fixpoint escape (l : bytes) : bytes :=
  match l with
  | [] => []
  | c :: l' =>
      if (ord c <? 128)%N then escape_char c ++ escape l'
      else on_rune c l'
             (λ cp x rest,
                (if is_line_sep cp then bs "\u202" ++ [hex_digit (cp mod 16)] else x)
                ++ escape rest)
             (bs "\ufffd" ++ escape l')
  end.

Definition print_string (s : string) : bytes :=
  dquote :: escape (bs s) ++ [dquote].

(** The encodings of the elements between commas. *)
Fixpoint join (ls : list bytes) : bytes :=
  match ls with
  | [] => []
  | [x] => x
  | x :: r => x ++ "," :: join r
  end.

Fixpoint print (v : json) : bytes :=
  match v with
  | JNull => bs "null"
  | JBool true => bs "true"
  | JBool false => bs "false"
  | JNumber lit => bs lit
  | JString s => print_string s
  | JArray l => "[" :: join (map print l) ++ ["]"]
  | JObject l =>
      "{" :: join (map (λ kv, print_string kv.1 ++ ":" :: print kv.2) l) ++ ["}"]
  end.

(** ** The decoder *)

Definition is_hex (c : ascii) : bool := bool_decide (is_Some (hex_val c)).

Definition hex4 (h1 h2 h3 h4 : ascii) : option N :=
  a ← hex_val h1; b ← hex_val h2; c ← hex_val h3; d ← hex_val h4;
  Some (((a * 16 + b) * 16 + c) * 16 + d)%N.

(** The two halves of a surrogate pair, and the code point of a pair. *)
Definition is_high (cp : N) : bool := (55296 <=? cp)%N && (cp <? 56320)%N.
Definition is_low (cp : N) : bool := (56320 <=? cp)%N && (cp <? 57344)%N.
Definition surrogate_pair (hi lo : N) : N := (65536 + (hi - 55296) * 1024 + (lo - 56320))%N.

(** What stands for a half without its other half: U+FFFD. *)
Definition replacement : bytes := utf8 65533.

(** The character of an escape of one letter. *)
Definition unescape (e : ascii) : option ascii :=
  if bool_decide (e = dquote) then Some dquote
  else if bool_decide (e = bslash) then Some bslash
  else if bool_decide (e = "/") then Some "/"
  else if bool_decide (e = "b") then Some "008"
  else if bool_decide (e = "f") then Some "012"
  else if bool_decide (e = "n") then Some "010"
  else if bool_decide (e = "r") then Some "013"
  else if bool_decide (e = "t") then Some "009"
  else None.

(** The characters of a string up to its closing quote, escapes resolved,
    and what follows the quote. *)
Fixpoint parse_chars (l : bytes) : parsed (bytes * bytes) :=
  match l with
  | [] => Short
  | c :: l' =>
      if bool_decide (c = dquote) then Got ([], l')
      else if bool_decide (c = bslash) then
        match l' with
        | e :: l'' =>
            if bool_decide (e = "u") then
              match l'' with
              | h1 :: h2 :: h3 :: h4 :: l3 =>
                  match hex4 h1 h2 h3 h4 with
                  | Some cp =>
                      let single (x : bytes) :=
                        '(s, r) ← parse_chars l3; Got (x ++ s, r) in
                      if negb (is_high cp || is_low cp) then single (utf8 cp)
                      else
                        match l3 with
                        | b :: u :: g1 :: g2 :: g3 :: g4 :: l4 =>
                            match (if bool_decide (b = bslash) && bool_decide (u = "u")
                                   then hex4 g1 g2 g3 g4 else None) with
                            | Some lo =>
                                if is_high cp && is_low lo
                                then '(s, r) ← parse_chars l4;
                                     Got (utf8 (surrogate_pair cp lo) ++ s, r)
                                else single replacement
                            | None => single replacement
                            end
                        | _ => single replacement
                        end
                  | None => Bad
                  end
              | digits => if forallb is_hex digits then Short else Bad
              end
            else match unescape e with
                 | Some x => '(s, r) ← parse_chars l''; Got ([x] ++ s, r)
                 | None => Bad
                 end
        | [] => Short
        end
      else if (ord c <? 32)%N then Bad
      else if (ord c <? 128)%N then '(s, r) ← parse_chars l'; Got ([c] ++ s, r)
      else
        (* the bytes are coerced to well-formed UTF-8 *)
        on_rune c l'
          (λ cp _ rest, '(s, r) ← parse_chars rest; Got (utf8 cp ++ s, r))
          ('(s, r) ← parse_chars l'; Got (replacement ++ s, r))
  end.

(** The rest of the input after a word. *)
Fixpoint expect (w l : bytes) : parsed bytes :=
  match w with
  | [] => Got l
  | c :: w' =>
      match l with
      | [] => Short
      | d :: l' => if bool_decide (c = d) then expect w' l' else Bad
      end
  end.

(** What the first character of a value announces. *)
Inductive kind : Type := KNull | KTrue | KFalse | KString | KArray | KObject | KNumber | KBad.

Definition kind_of (c : ascii) : kind :=
  if bool_decide (c = "n") then KNull
  else if bool_decide (c = "t") then KTrue
  else if bool_decide (c = "f") then KFalse
  else if bool_decide (c = dquote) then KString
  else if bool_decide (c = "[") then KArray
  else if bool_decide (c = "{") then KObject
  else if is_dec c || bool_decide (c = "-") then KNumber
  else KBad.

Definition parse_number (l : bytes) : parsed (json * bytes) :=
  '(lit, rest) ← scan_number SBegin l; Got (JNumber (string_of_bytes lit), rest).

Section Loops.
Context (parse_value : bytes → parsed (json * bytes)).

(** The elements of an array after the first bracket, up to the closing
    one. *)
Fixpoint parse_elems (n : nat) (l : bytes) : parsed (list json * bytes) :=
  match n with
  | O => Bad
  | S n =>
      '(v, r) ← parse_value l;
      match skip_ws r with
      | c :: r' =>
          if bool_decide (c = ",") then '(vs, r'') ← parse_elems n r'; Got (v :: vs, r'')
          else if bool_decide (c = "]") then Got ([v], r')
          else Bad
      | [] => Short
      end
  end.

(** The members of an object. *)
Fixpoint parse_members (n : nat) (l : bytes) : parsed (list (string * json) * bytes) :=
  match n with
  | O => Bad
  | S n =>
      match skip_ws l with
      | q :: r =>
          if bool_decide (q = dquote) then
            '(k, r) ← parse_chars r;
            match skip_ws r with
            | c :: r =>
                if bool_decide (c = ":") then
                  '(v, r) ← parse_value r;
                  match skip_ws r with
                  | c :: r' =>
                      if bool_decide (c = ",")
                      then '(ms, r'') ← parse_members n r';
                           Got ((string_of_bytes k, v) :: ms, r'')
                      else if bool_decide (c = "}")
                      then Got ([(string_of_bytes k, v)], r')
                      else Bad
                  | [] => Short
                  end
                else Bad
            | [] => Short
            end
          else Bad
      | [] => Short
      end
  end.
End Loops.

Fixpoint parse_value (fuel : nat) (l : bytes) : parsed (json * bytes) :=
  match fuel with
  | O => Bad
  | S fuel =>
      match skip_ws l with
      | [] => Short
      | c :: r =>
          match kind_of c with
          | KNull => r' ← expect (bs "ull") r; Got (JNull, r')
          | KTrue => r' ← expect (bs "rue") r; Got (JBool true, r')
          | KFalse => r' ← expect (bs "alse") r; Got (JBool false, r')
          | KString => '(s, r') ← parse_chars r; Got (JString (string_of_bytes s), r')
          | KArray =>
              match skip_ws r with
              | c' :: r' =>
                  if bool_decide (c' = "]") then Got (JArray [], r')
                  else '(vs, r'') ← parse_elems (parse_value fuel) fuel r; Got (JArray vs, r'')
              | [] => Short
              end
          | KObject =>
              match skip_ws r with
              | c' :: r' =>
                  if bool_decide (c' = "}") then Got (JObject [], r')
                  else '(ms, r'') ← parse_members (parse_value fuel) fuel r;
                       Got (JObject ms, r'')
              | [] => Short
              end
          | KNumber => parse_number (c :: r)
          | KBad => Bad
          end
      end
  end.

(** The first value of an input. *)
Definition parse_front (l : bytes) : parsed (json * bytes) := parse_value (S (length l)) l.

(** [json.Unmarshal]: the input is one value, with white space around
    it. *)
Definition parse (l : bytes) : parsed json :=
  '(v, r) ← parse_front l;
  if bool_decide (skip_ws r = []) then Got v else Bad.

(** ** The notions of the theorems *)

(** The encoding of a member of an object. *)
Definition print_member (kv : string * json) : bytes :=
  print_string kv.1 ++ ":" :: print kv.2.

(** What may follow a number: nothing, or a character no number has. *)
Definition stops (rest : bytes) : bool :=
  match rest with c :: _ => negb (is_num_char c) | [] => true end.

(** Text in well-formed UTF-8: 7-bit characters and well-formed sequences. *)
Fixpoint text (l : bytes) : bool :=
  match l with
  | [] => true
  | c :: l' =>
      if (ord c <? 128)%N then text l' else on_rune c l' (λ _ _ rest, text rest) false
  end.

(** What the decoder makes of the bytes of a string: every byte that begins
    no well-formed sequence becomes U+FFFD. *)
Fixpoint coerce (l : bytes) : bytes :=
  match l with
  | [] => []
  | c :: l' =>
      if (ord c <? 128)%N then c :: coerce l'
      else on_rune c l' (λ _ x rest, x ++ coerce rest) (replacement ++ coerce l')
  end.

(** The values whose strings and keys are well-formed UTF-8. *)
Fixpoint plain (v : json) : bool :=
  match v with
  | JString s => text (bs s)
  | JArray l => forallb plain l
  | JObject l => forallb (λ kv, text (bs kv.1) && plain kv.2) l
  | _ => true
  end.

(** Text without control characters: what the encoder writes. *)
Definition printable (l : bytes) : bool := forallb (λ c, (32 <=? ord c)%N) l.

(** The next character of a string: its end with what follows, a
    character by its bytes with what follows, the end of the input, or an
    error. *)
Inductive token : Type :=
| TEnd (rest : bytes)
| TChar (x : bytes) (rest : bytes)
| TShort
| TBad.

Definition lex (l : bytes) : token :=
  match l with
  | [] => TShort
  | c :: l' =>
      if bool_decide (c = dquote) then TEnd l'
      else if bool_decide (c = bslash) then
        match l' with
        | e :: l'' =>
            if bool_decide (e = "u") then
              match l'' with
              | h1 :: h2 :: h3 :: h4 :: l3 =>
                  match hex4 h1 h2 h3 h4 with
                  | Some cp =>
                      if negb (is_high cp || is_low cp) then TChar (utf8 cp) l3
                      else
                        match l3 with
                        | b :: u :: g1 :: g2 :: g3 :: g4 :: l4 =>
                            match (if bool_decide (b = bslash) && bool_decide (u = "u")
                                   then hex4 g1 g2 g3 g4 else None) with
                            | Some lo =>
                                if is_high cp && is_low lo
                                then TChar (utf8 (surrogate_pair cp lo)) l4
                                else TChar replacement l3
                            | None => TChar replacement l3
                            end
                        | _ => TChar replacement l3
                        end
                  | None => TBad
                  end
              | digits => if forallb is_hex digits then TShort else TBad
              end
            else match unescape e with Some x => TChar [x] l'' | None => TBad end
        | [] => TShort
        end
      else if (ord c <? 32)%N then TBad
      else if (ord c <? 128)%N then TChar [c] l'
      else on_rune c l' (λ cp _ rest, TChar (utf8 cp) rest) (TChar replacement l')
  end.

(** What [on_rune] finds at a byte: a sequence, whatever follows it, or
    nothing. *)
Inductive rune_view (c : ascii) (l : bytes) : Prop :=
| rune_seq cp x rest :
    l = x ++ rest → utf8 cp = c :: x → Forall (λ b, (128 ≤ ord b)%N) x →
    (∀ A rest' (k : N → bytes → bytes → A) bad,
       on_rune c (x ++ rest') k bad = k cp (c :: x) rest') →
    rune_view c l
| rune_bad :
    (∀ A (k : N → bytes → bytes → A) bad, on_rune c l k bad = bad) → rune_view c l.

(** A decoder reads back the encoding of a value, whatever follows it. *)
Definition round_trips (f : bytes → parsed (json * bytes)) (v : json) : Prop :=
  ∀ rest, stops rest = true → f (print v ++ rest) = Got (v, rest).

Definition round_trip_at (v : json) : Prop :=
  wf v = true → plain v = true → ∀ fuel, json_size v ≤ fuel →
  round_trips (parse_value fuel) v.

(** * Lemmas *)

(** Case analysis on the result of a decoder in a hypothesis that it
    succeeded. *)
Tactic Notation "got" hyp(H) "as" simple_intropattern(p) "eqn" ":" ident(E) :=
  match type of H with
  | context [mbind _ ?m] =>
      destruct m as [p| |] eqn:E; [|done..]; cbn [mbind parsed_bind] in H
  end.

(** ** UTF-8 *)

Lemma ascii_ord c : ascii_of_N (ord c) = c.
Proof. apply ascii_N_embedding. Qed.

Lemma ord_bound c : (ord c < 256)%N.
Proof. apply N_ascii_bounded. Qed.

(** The tests on bytes as facts on numbers. *)
Ltac byte_facts :=
  unfold seq2, seq3, seq4, is_cont, between in *;
  repeat match goal with
         | H : _ && _ = true |- _ => apply andb_prop in H as [? ?]
         | H : (if ?b then _ else _) = true |- _ => destruct b eqn:?
         | H : (_ <=? _)%N = true |- _ => apply N.leb_le in H
         | H : (_ <? _)%N = true |- _ => apply N.ltb_lt in H
         | H : (_ <? _)%N = false |- _ => apply N.ltb_ge in H
         | H : (_ =? _)%N = true |- _ => apply N.eqb_eq in H
         | H : (_ =? _)%N = false |- _ => apply N.eqb_neq in H
         end.

(** The bytes of the goal as numbers below 256. *)
Ltac byte_numbers :=
  repeat match goal with
         | |- context [ord ?c] =>
             let n := fresh "n" in
             pose proof (ord_bound c); set (n := ord c) in *; clearbody n
         end.

(** The encoding of the code point of a sequence, by arithmetic. *)
Ltac utf8_arith :=
  byte_facts; unfold utf8, rune2, rune3, rune4; byte_numbers;
  repeat match goal with
         | |- context [(?a <? ?b)%N] => destruct (N.ltb_spec a b); [try lia|try lia]
         end;
  repeat f_equal; zify; Z.to_euclidean_division_equations; lia.

(** A well-formed sequence is the encoding of its code point:
    [utf8.EncodeRune] undoes [utf8.DecodeRune]. *)
Lemma utf8_rune2 c0 c1 : seq2 c0 c1 = true → utf8 (rune2 c0 c1) = [c0; c1].
Proof. intros H. rewrite <- (ascii_ord c0), <- (ascii_ord c1) at 2. utf8_arith. Qed.

Lemma utf8_rune3 c0 c1 c2 : seq3 c0 c1 c2 = true → utf8 (rune3 c0 c1 c2) = [c0; c1; c2].
Proof.
  intros H. rewrite <- (ascii_ord c0), <- (ascii_ord c1), <- (ascii_ord c2) at 2. utf8_arith.
Qed.

Lemma utf8_rune4 c0 c1 c2 c3 :
  seq4 c0 c1 c2 c3 = true → utf8 (rune4 c0 c1 c2 c3) = [c0; c1; c2; c3].
Proof.
  intros H.
  rewrite <- (ascii_ord c0), <- (ascii_ord c1), <- (ascii_ord c2), <- (ascii_ord c3) at 2.
  utf8_arith.
Qed.

Lemma is_cont_ord c : is_cont c = true → (128 ≤ ord c)%N.
Proof. intros H. by byte_facts. Qed.

Lemma on_rune_view c l : rune_view c l.
Proof.
  destruct l as [|c1 l1]; [by right|]. destruct (seq2 c c1) eqn:E2.
  { apply (rune_seq c _ (rune2 c c1) [c1] l1); [done|by apply utf8_rune2| |].
    - repeat constructor. by apply is_cont_ord, (andb_prop _ _ E2).
    - intros. simpl. by rewrite E2. }
  destruct l1 as [|c2 l2]; [right; intros; simpl; by rewrite E2|].
  destruct (seq3 c c1 c2) eqn:E3.
  { apply (rune_seq c _ (rune3 c c1 c2) [c1; c2] l2); [done|by apply utf8_rune3| |].
    - clear E2. repeat constructor; byte_facts; lia.
    - intros. simpl. by rewrite E2, E3. }
  destruct l2 as [|c3 l3]; [right; intros; simpl; by rewrite E2, E3|].
  destruct (seq4 c c1 c2 c3) eqn:E4; [|right; intros; simpl; by rewrite E2, E3, E4].
  apply (rune_seq c _ (rune4 c c1 c2 c3) [c1; c2; c3] l3); [done|by apply utf8_rune4| |].
  - clear E2 E3. repeat constructor; byte_facts; lia.
  - intros. simpl. by rewrite E2, E3, E4.
Qed.

(** ** Strings *)

(** The decoder reads an escaped character back. *)
Lemma escape_char_parse c l :
  (ord c <? 128)%N = true →
  parse_chars (escape_char c ++ l) = '(s, r) ← parse_chars l; Got (c :: s, r).
Proof.
  destruct c as [[] [] [] [] [] [] [] []]; intros H; try discriminate H; reflexivity.
Qed.

(** At a byte that is not 7-bit the decoder looks for a sequence. *)
Lemma parse_chars_high c l :
  (ord c <? 128)%N = false →
  parse_chars (c :: l) =
  on_rune c l (λ cp _ rest, '(s, r) ← parse_chars rest; Got (utf8 cp ++ s, r))
    ('(s, r) ← parse_chars l; Got (replacement ++ s, r)).
Proof. destruct c as [[] [] [] [] [] [] [] []]; intros H; try discriminate H; reflexivity. Qed.

(** The escapes of the line separators and of the replacement character
    are read back. *)
Lemma parse_chars_line_sep cp l :
  is_line_sep cp = true →
  parse_chars ((bs "\u202" ++ [hex_digit (cp mod 16)]) ++ l) =
  '(s, r) ← parse_chars l; Got (utf8 cp ++ s, r).
Proof. by intros [->%N.eqb_eq| ->%N.eqb_eq]%orb_prop. Qed.

Lemma parse_chars_replacement l :
  parse_chars (bs "\ufffd" ++ l) = '(s, r) ← parse_chars l; Got (replacement ++ s, r).
Proof. done. Qed.

(** The decoder reads the encoding of a string back as the string coerced
    to well-formed UTF-8. *)
Lemma parse_chars_escape s rest :
  parse_chars (escape s ++ dquote :: rest) = Got (coerce s, rest).
Proof.
  induction s as [s IH] using (induction_ltof1 _ (@length _)). unfold ltof in IH.
  destruct s as [|c s]; [done|]. cbn [escape coerce]. destruct (ord c <? 128)%N eqn:Hc.
  { by rewrite <- app_assoc, escape_char_parse, IH by (done || simpl; lia). }
  destruct (on_rune_view c s) as [cp x s' -> Hu Hx Hon|Hbad].
  - rewrite !Hon, <- app_assoc. destruct (is_line_sep cp) eqn:Hsep.
    + rewrite parse_chars_line_sep, IH, Hu by (done || simpl; rewrite length_app; lia). done.
    + rewrite <- app_comm_cons, parse_chars_high, Hon, IH, Hu
        by (done || simpl; rewrite length_app; lia). done.
  - rewrite !Hbad, <- app_assoc, parse_chars_replacement, IH by (simpl; lia). done.
Qed.

(** Well-formed text is what it is coerced to. *)
Lemma coerce_text s : text s = true → coerce s = s.
Proof.
  induction s as [s IH] using (induction_ltof1 _ (@length _)). unfold ltof in IH.
  destruct s as [|c s]; [done|]. cbn [text coerce]. destruct (ord c <? 128)%N.
  { intros H. by rewrite IH by (done || simpl; lia). }
  destruct (on_rune_view c s) as [cp x s' -> Hu Hx Hon|Hbad]; [|by rewrite Hbad].
  rewrite !Hon. intros H. by rewrite IH by (done || simpl; rewrite length_app; lia).
Qed.

Lemma coerce_idemp s : text (coerce s) = true.
Proof.
  induction s as [s IH] using (induction_ltof1 _ (@length _)). unfold ltof in IH.
  destruct s as [|c s]; [done|]. cbn [coerce]. destruct (ord c <? 128)%N eqn:Hc.
  { cbn [text]. rewrite Hc. apply IH. simpl; lia. }
  destruct (on_rune_view c s) as [cp x s' -> Hu Hx Hon|Hbad].
  - rewrite Hon, <- app_comm_cons. cbn [text]. rewrite Hc, Hon.
    apply IH. simpl. rewrite length_app. lia.
  - rewrite Hbad. change (text (coerce s) = true). apply IH. simpl; lia.
Qed.

Lemma parse_chars_print s rest :
  text s = true →
  parse_chars (escape s ++ dquote :: rest) = Got (s, rest).
Proof. intros H. by rewrite parse_chars_escape, coerce_text. Qed.

(** ** Numbers *)

Lemma nstep_num_char s c s' : nstep s c = Some s' → is_num_char c = true.
Proof.
  unfold is_num_char, is_e. destruct s; simpl; unfold is_e;
    repeat case_bool_decide; destruct (is_dec c) eqn:E; simpl; try done;
    subst; done.
Qed.

Lemma scan_number_app s lit rest :
  scan_number s lit = Got (lit, []) → stops rest = true →
  scan_number s (lit ++ rest) = Got (lit, rest).
Proof.
  revert s. induction lit as [|c lit IH]; intros s; simpl.
  - case_match; [|done]. intros _ Hr. destruct rest as [|c rest]; simpl; [by rewrite H|].
    destruct (nstep s c) eqn:E; [|by rewrite H].
    apply nstep_num_char in E. simpl in Hr. by rewrite E in Hr.
  - destruct (nstep s c) as [s'|]; [|by case_match].
    destruct (scan_number s' lit) as [[x r]| |] eqn:E; [|done..]. simpl.
    intros [= -> ->] Hr. by rewrite (IH _ E Hr).
Qed.

Lemma scan_number_split s l x r : scan_number s l = Got (x, r) → l = x ++ r.
Proof.
  revert s x. induction l as [|c l IH]; intros s x; simpl.
  - case_match; [|done]. by intros [= <- <-].
  - destruct (nstep s c) as [s'|]; [|case_match; [|done]; by intros [= <- <-]].
    destruct (scan_number s' l) as [[x' r']| |] eqn:E; [|done..]. simpl.
    intros [= <- <-]. simpl. f_equal. eauto.
Qed.

Lemma scan_number_lit s l x r : scan_number s l = Got (x, r) → scan_number s x = Got (x, []).
Proof.
  revert s x. induction l as [|c l IH]; intros s x; simpl.
  - case_match eqn:E; [|done]. intros [= <- <-]. simpl. by rewrite E.
  - destruct (nstep s c) as [s'|] eqn:En.
    + destruct (scan_number s' l) as [[x' r']| |] eqn:E; [|done..]. simpl.
      intros [= <- <-]. simpl. rewrite En. by rewrite (IH _ _ E).
    + case_match eqn:E; [|done]. intros [= <- <-]. simpl. by rewrite E.
Qed.

Lemma scan_number_begin l x r : scan_number SBegin l = Got (x, r) → x ≠ [].
Proof.
  destruct l as [|c l]; [done|]. cbn [scan_number]. destruct (nstep SBegin c); [|done].
  destruct (scan_number _ l) as [[??]| |]; simpl; [|done..]. by intros [= <- <-].
Qed.

Lemma number_lit_scan l : number_lit l = true ↔ scan_number SBegin l = Got (l, []).
Proof.
  unfold number_lit. split.
  - destruct (scan_number SBegin l) as [[x r]| |] eqn:E; [|done..].
    intros ->%bool_decide_eq_true. apply scan_number_split in E as E'.
    rewrite app_nil_r in E'. by subst.
  - by intros ->.
Qed.

Lemma number_lit_head l :
  number_lit l = true → ∃ c r, l = c :: r ∧ kind_of c = KNumber ∧ is_ws c = false.
Proof.
  intros H%number_lit_scan.
  destruct l as [|c r]; [by vm_compute in H|]. exists c, r. split; [done|].
  cbn [scan_number] in H.
  destruct (nstep SBegin c) eqn:E; [|done]. clear H. revert E. unfold nstep, kind_of, is_ws.
  destruct c as [[] [] [] [] [] [] [] []]; vm_compute; done.
Qed.

(** ** White space and words *)

Lemma skip_ws_length l : length (skip_ws l) ≤ length l.
Proof. induction l as [|c l IH]; simpl; [done|]. case_match; simpl; lia. Qed.

Lemma skip_ws_keep c l : is_ws c = false → skip_ws (c :: l) = c :: l.
Proof. simpl. by intros ->. Qed.

Lemma expect_length w l r : expect w l = Got r → length r ≤ length l.
Proof.
  revert l. induction w as [|c w IH]; intros [|d l]; simpl; try done.
  - by intros [= <-].
  - by intros [= <-].
  - case_bool_decide; [|done]. intros ?%IH. lia.
Qed.

Lemma expect_app w rest : expect w (w ++ rest) = Got rest.
Proof. induction w as [|c w IH]; simpl; [done|]. by rewrite bool_decide_eq_true_2. Qed.

(** ** The string decoder, one character at a time *)

Lemma parse_chars_lex l :
  parse_chars l =
  match lex l with
  | TEnd r => Got ([], r)
  | TChar x l' => '(s, r) ← parse_chars l'; Got (x ++ s, r)
  | TShort => Short
  | TBad => Bad
  end.
Proof.
  destruct l as [|c l]; [done|]. cbn [parse_chars lex].
  repeat (case_match; try reflexivity).
  all: destruct (on_rune_view c l) as [? ? ? -> _ _ Hon|Hbad];
    match goal with H : on_rune _ _ _ _ = _ |- _ => rewrite ?Hon, ?Hbad in H end;
    rewrite ?Hon, ?Hbad; by simplify_eq.
Qed.

Lemma lex_length l x l' : lex l = TChar x l' → length l' < length l.
Proof.
  destruct l as [|c l]; [done|]. cbn [lex].
  repeat (case_match; try done); try (intros [= <- <-]; subst; simpl; lia).
  all: destruct (on_rune_view c l) as [? ? ? -> _ _ Hon|Hbad]; rewrite ?Hon, ?Hbad;
    intros [= <- <-]; simpl; rewrite ?length_app; lia.
Qed.

Lemma lex_end_length l r : lex l = TEnd r → length r < length l.
Proof.
  destruct l as [|c l]; [done|]. cbn [lex].
  repeat (case_match; try done); try (intros [= <-]; subst; simpl; lia).
  all: by destruct (on_rune_view c l) as [? ? ? -> _ _ Hon|Hbad]; rewrite ?Hon, ?Hbad.
Qed.

Lemma parse_chars_length l s r : parse_chars l = Got (s, r) → length r < length l.
Proof.
  revert s r. induction l as [l IH] using (induction_ltof1 _ (@length _)).
  unfold ltof in IH. intros s r. rewrite parse_chars_lex.
  destruct (lex l) as [r'|x l'| |] eqn:E; [| |done..].
  - intros [= <- <-]. by apply lex_end_length.
  - apply lex_length in E. intros H. got H as [s' r'] eqn:E'. apply IH in E'; [|done]. simplify_eq. lia.
Qed.

(** ** Decoding an encoding *)

Lemma print_head v :
  wf v = true →
  ∃ c r, print v = c :: r ∧ is_ws c = false ∧ c ≠ "]" ∧ c ≠ "}".
Proof.
  destruct v as [|[]|lit|s|l|l]; simpl; intros H;
    try (eexists _, _; split; [reflexivity|done]).
  apply number_lit_head in H as (c & r & -> & Hk & Hw). exists c, r.
  split_and!; try done; intros ->; done.
Qed.

Lemma join_head (x : bytes) xs c r : x = c :: r → ∃ r', join (x :: xs) = c :: r'.
Proof. intros ->. destruct xs; simpl; eauto. Qed.

Section PrintLoops.
Context (f : bytes → parsed (json * bytes)).

Lemma parse_elems_print l n rest :
  Forall (round_trips f) l → l ≠ [] → length l ≤ n →
  parse_elems f n (join (map print l) ++ "]" :: rest) = Got (l, rest).
Proof.
  revert n. induction l as [|v l IH]; intros n Hall Hne Hn; [done|].
  destruct n as [|n]; [simpl in Hn; lia|]. apply Forall_cons in Hall as [Hv Hall].
  cbn [parse_elems map]. destruct l as [|v' l].
  - cbn [join map]. rewrite Hv by done. done.
  - change (join (print v :: map print (v' :: l))) with
      (print v ++ "," :: join (map print (v' :: l))).
    rewrite <- app_assoc, <- app_comm_cons, Hv by done.
    cbn [mbind parsed_bind]. rewrite skip_ws_keep by done.
    rewrite bool_decide_eq_true_2 by done.
    rewrite IH; [done|done|done|simpl in *; lia].
Qed.

Lemma parse_members_step k v n tl :
  text (bs k) = true → f (print v ++ tl) = Got (v, tl) →
  parse_members f (S n) (print_member (k, v) ++ tl) =
  match skip_ws tl with
  | c :: r' =>
      if bool_decide (c = ",")
      then '(ms, r'') ← parse_members f n r'; Got ((k, v) :: ms, r'')
      else if bool_decide (c = "}") then Got ([(k, v)], r') else Bad
  | [] => Short
  end.
Proof.
  intros Hk Hv. unfold print_member, print_string. cbn [fst snd parse_members].
  rewrite <- !app_comm_cons, skip_ws_keep, bool_decide_eq_true_2 by done.
  rewrite <- !app_assoc. cbn [app]. rewrite parse_chars_print by done.
  cbn [mbind parsed_bind]. rewrite skip_ws_keep, bool_decide_eq_true_2 by done.
  rewrite Hv. cbn [mbind parsed_bind]. by rewrite string_of_bytes_bs.
Qed.

Lemma parse_members_print (l : list (string * json)) n rest :
  Forall (λ kv, text (bs kv.1) = true ∧ round_trips f kv.2) l →
  l ≠ [] → length l ≤ n →
  parse_members f n (join (map print_member l) ++ "}" :: rest) = Got (l, rest).
Proof.
  revert n. induction l as [|[k v] l IH]; intros n Hall Hne Hn; [done|].
  destruct n as [|n]; [simpl in Hn; lia|]. apply Forall_cons in Hall as [[Hk Hv] Hall].
  simpl in Hk, Hv. cbn [map]. destruct l as [|kv l].
  - cbn [join map]. rewrite parse_members_step by auto. done.
  - change (join (print_member (k, v) :: map print_member (kv :: l))) with
      (print_member (k, v) ++ "," :: join (map print_member (kv :: l))).
    rewrite <- app_assoc, <- app_comm_cons, parse_members_step by auto.
    rewrite skip_ws_keep, bool_decide_eq_true_2 by done.
    rewrite IH; [done|done|done|simpl in *; lia].
Qed.
End PrintLoops.

Lemma json_size_pos v : 0 < json_size v.
Proof. destruct v; simpl; lia. Qed.

Lemma elems_round_trip l fuel :
  Forall round_trip_at l → forallb wf l = true → forallb plain l = true →
  list_sum (map json_size l) ≤ fuel → Forall (round_trips (parse_value fuel)) l.
Proof.
  induction 1 as [|v l Hv _ IH]; simpl; [done|].
  intros [??]%andb_prop [??]%andb_prop ?. constructor; [apply Hv|apply IH]; auto; lia.
Qed.

Lemma members_round_trip (l : list (string * json)) fuel :
  Forall (λ kv, round_trip_at kv.2) l → forallb (λ kv, wf kv.2) l = true →
  forallb (λ kv, text (bs kv.1) && plain kv.2) l = true →
  list_sum (map (λ kv, json_size kv.2) l) ≤ fuel →
  Forall (λ kv, text (bs kv.1) = true ∧ round_trips (parse_value fuel) kv.2) l.
Proof.
  induction 1 as [|v l Hv _ IH]; simpl; [done|].
  intros [??]%andb_prop [[??]%andb_prop ?]%andb_prop ?.
  constructor; [split; [done|apply Hv]|apply IH]; auto; lia.
Qed.

(** An array and an object whose parts are read back are read back. *)
Lemma array_round_trip l fuel rest :
  Forall (round_trips (parse_value fuel)) l → forallb wf l = true → length l ≤ fuel →
  parse_value (S fuel) (print (JArray l) ++ rest) = Got (JArray l, rest).
Proof.
  intros Hall Hwf Hlen. cbn [print parse_value].
  rewrite <- app_comm_cons, skip_ws_keep by done.
  change (kind_of "[") with KArray. cbn match. rewrite <- app_assoc. cbn [app].
  destruct l as [|v l]; [done|]. apply andb_prop in Hwf as [Hv _].
  destruct (print_head v Hv) as (c & r & E & Hw & Hc & _).
  destruct (join_head _ (map print l) _ _ E) as [r' Er'].
  cbn [map]. rewrite Er', <- app_comm_cons, skip_ws_keep, bool_decide_eq_false_2 by done.
  rewrite app_comm_cons, <- Er'. change (print v :: map print l) with (map print (v :: l)).
  by rewrite parse_elems_print.
Qed.

Lemma object_round_trip (l : list (string * json)) fuel rest :
  Forall (λ kv, text (bs kv.1) = true ∧ round_trips (parse_value fuel) kv.2) l →
  length l ≤ fuel →
  parse_value (S fuel) (print (JObject l) ++ rest) = Got (JObject l, rest).
Proof.
  intros Hall Hlen. cbn [print parse_value].
  rewrite <- app_comm_cons, skip_ws_keep by done.
  change (kind_of "{") with KObject. cbn match. rewrite <- app_assoc. cbn [app].
  destruct l as [|[k v] l]; [done|].
  change (map _ ((k, v) :: l)) with (map print_member ((k, v) :: l)).
  destruct (join_head (print_member (k, v)) (map print_member l) dquote _ eq_refl)
    as [r' Er'].
  cbn [map]. rewrite Er', <- app_comm_cons, skip_ws_keep, bool_decide_eq_false_2 by done.
  rewrite app_comm_cons, <- Er'.
  change (print_member (k, v) :: map print_member l) with (map print_member ((k, v) :: l)).
  by rewrite parse_members_print.
Qed.

(** The decoder reads back the encoding of a well-formed value of 7-bit
    text, with fuel for its nodes, whatever follows it. *)
Lemma parse_value_print v : round_trip_at v.
Proof.
  induction v as [|b|lit|s|l IH|l IH] using json_ind;
    intros Hwf Hpl [|fuel] Hfuel rest Hrest; try (simpl in Hfuel; lia).
  - done.
  - by destruct b.
  - simpl in Hwf. destruct (number_lit_head _ Hwf) as (c & r & E & Hk & Hw).
    cbn [print parse_value]. rewrite E, <- app_comm_cons, skip_ws_keep, Hk by done.
    rewrite app_comm_cons, <- E. unfold parse_number.
    apply number_lit_scan in Hwf. rewrite (scan_number_app _ _ _ Hwf Hrest).
    simpl. by rewrite string_of_bytes_bs.
  - simpl in Hpl. cbn [print parse_value]. unfold print_string.
    rewrite <- app_comm_cons, skip_ws_keep by done.
    change (kind_of dquote) with KString. cbn match.
    rewrite <- app_assoc. cbn [app]. rewrite parse_chars_print by done. simpl.
    by rewrite string_of_bytes_bs.
  - pose proof (list_sum_length json_size l json_size_pos) as Hlen.
    cbn [wf plain json_size] in Hwf, Hpl, Hfuel.
    apply array_round_trip; [|done|lia]. apply elems_round_trip; [done..|lia].
  - pose proof (list_sum_length (λ kv : string * json, json_size kv.2) l
                  (λ kv, json_size_pos kv.2)) as Hlen.
    cbn [wf plain json_size] in Hwf, Hpl, Hfuel.
    apply object_round_trip; [|lia]. apply members_round_trip; [done..|lia].
Qed.

Lemma length_join_le (ls : list bytes) : list_sum (map length ls) ≤ length (join ls).
Proof.
  induction ls as [|x [|y ls] IH]; simpl in *; [lia..|]. rewrite length_app. simpl. lia.
Qed.

Lemma length_print_member kv : length (print kv.2) ≤ length (print_member kv).
Proof. unfold print_member. rewrite length_app. simpl. lia. Qed.

(** An encoding has a byte at least for every node of the value. *)
Lemma json_size_print v : wf v = true → json_size v ≤ length (print v).
Proof.
  induction v as [|b|lit|s|l IH|l IH] using json_ind; intros Hwf.
  - simpl; lia.
  - destruct b; simpl; lia.
  - destruct (number_lit_head _ Hwf) as (c & r & E & _). simpl. rewrite E. simpl. lia.
  - simpl; lia.
  - cbn [json_size print wf] in *. rewrite length_cons, length_app.
    pose proof (length_join_le (map print l)) as Hj. rewrite map_map in Hj.
    pose proof (list_sum_le _ _ _ (Forall_forallb_impl _ _ _ IH Hwf)). lia.
  - cbn [json_size print wf] in *. rewrite length_cons, length_app.
    pose proof (length_join_le (map print_member l)) as Hj. rewrite map_map in Hj.
    pose proof (list_sum_le _ (λ kv, length (print_member kv)) _
      (Forall_impl _ _ _ (Forall_forallb_impl (λ kv, wf kv.2) _ _ IH Hwf)
         (λ kv H, Nat.le_trans _ _ _ H (length_print_member kv)))).
    change (map _ l) with (map print_member l) at 2. lia.
Qed.

(** The first value of an encoding followed by anything that is not of a
    number is the value. *)
Lemma parse_front_print v rest :
  wf v = true → plain v = true → stops rest = true →
  parse_front (print v ++ rest) = Got (v, rest).
Proof.
  intros Hwf Hpl Hrest. apply parse_value_print; [done..| |done].
  pose proof (json_size_print v Hwf). rewrite length_app. lia.
Qed.

(** [json.Unmarshal] after [json.Marshal]. *)
Lemma parse_print v : wf v = true → plain v = true → parse (print v) = Got v.
Proof.
  intros Hwf Hpl. unfold parse.
  pose proof (parse_front_print v [] Hwf Hpl eq_refl) as H.
  rewrite app_nil_r in H. by rewrite H.
Qed.

(** ** A decoded value consumed input *)

Section Length.
Context (f : bytes → parsed (json * bytes)).
Context (Hf : ∀ l v r, f l = Got (v, r) → length r < length l).

Lemma parse_elems_length n l vs r :
  parse_elems f n l = Got (vs, r) → length r < length l.
Proof.
  revert l vs r. induction n as [|n IH]; intros l vs r H; [done|]. cbn [parse_elems] in H.
  got H as [v r1] eqn:E. apply Hf in E. pose proof (skip_ws_length r1) as Hws.
  destruct (skip_ws r1) as [|c r']; [done|]. simpl in Hws.
  case_bool_decide; [|case_bool_decide; [|done]].
  - got H as [vs' r''] eqn:E'. apply IH in E'. simplify_eq. lia.
  - simplify_eq. lia.
Qed.

Lemma parse_members_length n l ms r :
  parse_members f n l = Got (ms, r) → length r < length l.
Proof.
  revert l ms r. induction n as [|n IH]; intros l ms r H; [done|].
  cbn [parse_members] in H. pose proof (skip_ws_length l) as Hws0.
  destruct (skip_ws l) as [|q r0]; [done|]. simpl in Hws0. case_bool_decide; [|done].
  got H as [k r1] eqn:Ek. apply parse_chars_length in Ek.
  pose proof (skip_ws_length r1) as Hws1.
  destruct (skip_ws r1) as [|c r2]; [done|]. simpl in Hws1. case_bool_decide; [|done].
  got H as [v r3] eqn:E. apply Hf in E. pose proof (skip_ws_length r3) as Hws3.
  destruct (skip_ws r3) as [|c' r4]; [done|]. simpl in Hws3.
  case_bool_decide; [|case_bool_decide; [|done]].
  - got H as [ms' r5] eqn:E'. apply IH in E'. simplify_eq. lia.
  - simplify_eq. lia.
Qed.
End Length.

Lemma parse_number_length l v r : parse_number l = Got (v, r) → length r < length l.
Proof.
  unfold parse_number. intros H. got H as [x r'] eqn:E. simplify_eq.
  pose proof (scan_number_begin _ _ _ E).
  apply scan_number_split in E as ->. rewrite length_app. destruct x; [done|simpl; lia].
Qed.

Lemma parse_value_length fuel l v r : parse_value fuel l = Got (v, r) → length r < length l.
Proof.
  revert l v r. induction fuel as [|m IH]; intros l v r H; [done|]. cbn [parse_value] in H.
  pose proof (skip_ws_length l) as Hws. destruct (skip_ws l) as [|c r0]; [done|].
  simpl in Hws. destruct (kind_of c); try done.
  1-3: got H as r' eqn:E; apply expect_length in E; simplify_eq; lia.
  - got H as [s r'] eqn:E. apply parse_chars_length in E. simplify_eq. lia.
  - pose proof (skip_ws_length r0) as Hws'. destruct (skip_ws r0) as [|c' r']; [done|].
    simpl in Hws'. case_bool_decide; [simplify_eq; lia|].
    got H as [vs r''] eqn:E. apply (parse_elems_length _ IH) in E. simplify_eq. lia.
  - pose proof (skip_ws_length r0) as Hws'. destruct (skip_ws r0) as [|c' r']; [done|].
    simpl in Hws'. case_bool_decide; [simplify_eq; lia|].
    got H as [ms r''] eqn:E. apply (parse_members_length _ IH) in E. simplify_eq. lia.
  - apply parse_number_length in H. simpl in H. lia.
Qed.

(** ** Fuel

    Two decoders that agree on the inputs up to a length and consume input
    drive the loops to the same result, with any fuel above the length of
    the input. *)

Section Fuel.
Context (f g : bytes → parsed (json * bytes)) (L : nat).
Context (Hfg : ∀ l, length l ≤ L → f l = g l).
Context (Hf : ∀ l v r, f l = Got (v, r) → length r < length l).

Lemma parse_elems_fuel n m l :
  length l ≤ L → length l < n → length l < m → parse_elems f n l = parse_elems g m l.
Proof.
  revert m l. induction n as [|n IH]; intros [|m] l HL Hn Hm; try lia.
  cbn [parse_elems]. rewrite <- Hfg by done. destruct (f l) as [[v r]| |] eqn:E; [|done..].
  apply Hf in E. cbn [mbind parsed_bind]. pose proof (skip_ws_length r) as Hws.
  destruct (skip_ws r) as [|c r']; [done|]. simpl in Hws.
  case_bool_decide; [|done]. by rewrite (IH m) by lia.
Qed.

Lemma parse_members_fuel n m l :
  length l ≤ L → length l < n → length l < m → parse_members f n l = parse_members g m l.
Proof.
  revert m l. induction n as [|n IH]; intros [|m] l HL Hn Hm; try lia.
  cbn [parse_members]. pose proof (skip_ws_length l) as Hws0.
  destruct (skip_ws l) as [|q r0]; [done|]. simpl in Hws0. case_bool_decide; [|done].
  destruct (parse_chars r0) as [[k r1]| |] eqn:Ek; [|done..]. apply parse_chars_length in Ek.
  cbn [mbind parsed_bind]. pose proof (skip_ws_length r1) as Hws1.
  destruct (skip_ws r1) as [|c r2]; [done|]. simpl in Hws1. case_bool_decide; [|done].
  rewrite <- Hfg by lia. destruct (f r2) as [[v r3]| |] eqn:E; [|done..]. apply Hf in E.
  cbn [mbind parsed_bind]. pose proof (skip_ws_length r3) as Hws3.
  destruct (skip_ws r3) as [|c' r4]; [done|]. simpl in Hws3.
  case_bool_decide; [|done]. by rewrite (IH m) by lia.
Qed.
End Fuel.

Lemma parse_value_fuel_eq m n l :
  length l < m → length l < n → parse_value m l = parse_value n l.
Proof.
  revert n l. induction m as [|m IH]; intros [|n] l Hm Hn; try lia. cbn [parse_value].
  pose proof (skip_ws_length l) as Hws. destruct (skip_ws l) as [|c r0]; [done|].
  simpl in Hws. destruct (kind_of c); try done.
  - destruct (skip_ws r0) as [|c' r']; [done|]. case_bool_decide; [done|].
    by rewrite (parse_elems_fuel _ (parse_value n) (length r0)
                  (λ l Hl, IH n l ltac:(lia) ltac:(lia)) (parse_value_length m) m n) by lia.
  - destruct (skip_ws r0) as [|c' r']; [done|]. case_bool_decide; [done|].
    by rewrite (parse_members_fuel _ (parse_value n) (length r0)
                  (λ l Hl, IH n l ltac:(lia) ltac:(lia)) (parse_value_length m) m n) by lia.
Qed.

(** The length of the input and one is fuel enough: more changes nothing. *)
Lemma parse_value_fuel l fuel :
  length l < fuel → parse_value fuel l = parse_front l.
Proof. intros. apply parse_value_fuel_eq; lia. Qed.

(** ** Decoded values are well formed *)

Section WfLoops.
Context (f : bytes → parsed (json * bytes)).
Context (Hf : ∀ l v r, f l = Got (v, r) → wf v = true).

Lemma parse_elems_wf n l vs r : parse_elems f n l = Got (vs, r) → forallb wf vs = true.
Proof.
  revert l vs r. induction n as [|n IH]; intros l vs r H; [done|]. cbn [parse_elems] in H.
  got H as [v r1] eqn:E. apply Hf in E. destruct (skip_ws r1) as [|c r']; [done|].
  case_bool_decide; [|case_bool_decide; [|done]].
  - got H as [vs' r''] eqn:E'. apply IH in E'. simplify_eq/=. by rewrite E, E'.
  - simplify_eq/=. by rewrite E.
Qed.

Lemma parse_members_wf n l ms r :
  parse_members f n l = Got (ms, r) → forallb (λ kv, wf kv.2) ms = true.
Proof.
  revert l ms r. induction n as [|n IH]; intros l ms r H; [done|]. cbn [parse_members] in H.
  destruct (skip_ws l) as [|q r0]; [done|]. case_bool_decide; [|done].
  got H as [k r1] eqn:Ek. destruct (skip_ws r1) as [|c r2]; [done|].
  case_bool_decide; [|done].
  got H as [v r3] eqn:E. apply Hf in E. destruct (skip_ws r3) as [|c' r4]; [done|].
  case_bool_decide; [|case_bool_decide; [|done]].
  - got H as [ms' r5] eqn:E'. apply IH in E'. simplify_eq/=. by rewrite E, E'.
  - simplify_eq/=. by rewrite E.
Qed.
End WfLoops.

(** The numbers of a decoded value are literals. *)
Lemma parse_value_wf fuel l v r : parse_value fuel l = Got (v, r) → wf v = true.
Proof.
  revert l v r. induction fuel as [|m IH]; intros l v r H; [done|]. cbn [parse_value] in H.
  destruct (skip_ws l) as [|c r0]; [done|]. destruct (kind_of c); try done.
  1-3: got H as ? eqn:E; by simplify_eq/=.
  - got H as [s r'] eqn:E. by simplify_eq/=.
  - destruct (skip_ws r0) as [|c' r']; [done|]. case_bool_decide; [by simplify_eq|].
    got H as [vs r''] eqn:E. apply (parse_elems_wf _ IH) in E. by simplify_eq/=.
  - destruct (skip_ws r0) as [|c' r']; [done|]. case_bool_decide; [by simplify_eq|].
    got H as [ms r''] eqn:E. apply (parse_members_wf _ IH) in E. by simplify_eq/=.
  - unfold parse_number in H. got H as [x r'] eqn:E. apply scan_number_lit in E.
    simplify_eq/=.
    apply number_lit_scan. by rewrite bs_string_of_bytes.
Qed.

(** ** The encoder writes no control character *)

Lemma printable_app l r : printable (l ++ r) = printable l && printable r.
Proof. apply forallb_app. Qed.

Lemma printable_concat ls : Forall (λ l, printable l = true) ls → printable (concat ls) = true.
Proof. induction 1 as [|l ls Hl _ IH]; [done|]. simpl. by rewrite printable_app, Hl. Qed.

Lemma printable_elem c l : printable l = true → c ∈ l → (32 ≤ ord c)%N.
Proof.
  unfold printable. rewrite forallb_forall. intros Hl Hc.
  apply N.leb_le, Hl, list_elem_of_In, Hc.
Qed.

Lemma escape_char_printable c : printable (escape_char c) = true.
Proof. by destruct c as [[] [] [] [] [] [] [] []]. Qed.

Lemma printable_high l : Forall (λ b, (128 ≤ ord b)%N) l → printable l = true.
Proof.
  intros H. apply forallb_forall. intros c Hc%list_elem_of_In.
  rewrite Forall_forall in H. apply N.leb_le. specialize (H c Hc). lia.
Qed.

Lemma escape_printable l : printable (escape l) = true.
Proof.
  induction l as [l IH] using (induction_ltof1 _ (@length _)). unfold ltof in IH.
  destruct l as [|c l]; [done|]. cbn [escape]. destruct (ord c <? 128)%N eqn:Hc.
  { rewrite printable_app, escape_char_printable, IH by (simpl; lia). done. }
  destruct (on_rune_view c l) as [cp x l' -> _ Hx Hon|Hbad].
  - rewrite Hon, printable_app, IH by (simpl; rewrite length_app; lia).
    destruct (is_line_sep cp) eqn:Hsep; [by apply orb_prop in Hsep as [->%N.eqb_eq| ->%N.eqb_eq]|].
    rewrite printable_high; [done|]. constructor; [|done]. apply N.ltb_ge in Hc. lia.
  - rewrite Hbad, printable_app, IH by (simpl; lia). done.
Qed.

Lemma print_string_printable s : printable (print_string s) = true.
Proof.
  unfold print_string. cbn [printable forallb].
  fold (printable (escape (bs s) ++ [dquote])).
  by rewrite printable_app, escape_printable.
Qed.

Lemma num_char_printable c : is_num_char c = true → (32 <=? ord c)%N = true.
Proof. by destruct c as [[] [] [] [] [] [] [] []]. Qed.

Lemma scan_number_printable s l x r : scan_number s l = Got (x, r) → printable x = true.
Proof.
  revert s x. induction l as [|c l IH]; intros s x; simpl.
  - case_match; [|done]. by intros [= <- <-].
  - destruct (nstep s c) as [s'|] eqn:Es; [|case_match; [|done]; by intros [= <- <-]].
    destruct (scan_number s' l) as [[x' r']| |] eqn:E; [|done..]. simpl.
    intros [= <- <-]. simpl. rewrite (num_char_printable c) by (by eapply nstep_num_char).
    eauto.
Qed.

Lemma number_lit_printable l : number_lit l = true → printable l = true.
Proof. intros H%number_lit_scan. by eapply scan_number_printable. Qed.

Lemma join_printable ls : Forall (λ l, printable l = true) ls → printable (join ls) = true.
Proof.
  induction 1 as [|l ls Hl Hls IH]; [done|]. destruct ls as [|l' ls]; [done|].
  change (join (l :: l' :: ls)) with (l ++ "," :: join (l' :: ls)).
  rewrite printable_app, Hl. cbn [printable forallb]. by apply IH.
Qed.

Lemma print_printable v : wf v = true → printable (print v) = true.
Proof.
  induction v as [| [] |lit|s|l IH|l IH] using json_ind; intros Hwf; try done.
  - by apply number_lit_printable.
  - apply print_string_printable.
  - cbn [print wf] in *. change (printable (join (map print l) ++ ["]"]) = true).
    rewrite printable_app, join_printable; [done|].
    by apply Forall_fmap, (Forall_forallb_impl wf).
  - cbn [print wf] in *.
    change (printable (join (map print_member l) ++ ["}"]) = true).
    rewrite printable_app, join_printable; [done|].
    apply Forall_fmap, (Forall_forallb_impl (λ kv, wf kv.2)); [|done].
    eapply Forall_impl; [exact IH|]. intros [k v] H1 H2. unfold compose, print_member. cbn beta. cbn [fst snd] in *.
    rewrite printable_app, print_string_printable. cbn [printable forallb andb]. by apply H1.
Qed.

(** The encoding of an object: no line break inside, no white space
    around. *)
Lemma print_object_shape ms :
  wf (JObject ms) = true →
  (NL ∉ print (JObject ms)) ∧ TrimSpace (print (JObject ms)) = print (JObject ms).
Proof.
  intros Hwf. split.
  - intros Hin. by apply (printable_elem _ _ (print_printable _ Hwf)) in Hin.
  - cbn [print]. by apply TrimSpace_id.
Qed.

(** ** Text beyond 7 bits *)

(** Whatever the bytes of a string, the decoder reads its encoding back
    as the string coerced to well-formed UTF-8. *)
Theorem string_round_trip s :
  parse (print (JString s)) = Got (JString (string_of_bytes (coerce (bs s)))).
Proof.
  unfold parse, parse_front. cbn [print]. unfold print_string. cbn [length parse_value skip_ws].
  change (is_ws dquote) with false. change (kind_of dquote) with KString. cbn match.
  by rewrite parse_chars_escape.
Qed.

(** Two characters of three bytes each (U+4F60, U+597D) are written as
    they are. *)
Example print_string_beyond_ascii :
  let s := string_of_bytes ["228"; "189"; "160"; "229"; "165"; "189"] in
  text (bs s) = true ∧ print (JString s) = dquote :: bs s ++ [dquote] ∧
  parse (print (JString s)) = Got (JString s).
Proof. by vm_compute. Qed.

(** A line separator (U+2028) is escaped, and read back. *)
Example print_string_line_separator :
  let s := string_of_bytes ["a"; "226"; "128"; "168"; "b"] in
  print (JString s) = dquote :: bs "a\u2028b" ++ [dquote] ∧
  parse (print (JString s)) = Got (JString s).
Proof. by vm_compute. Qed.

(** Bytes that are not UTF-8 are not sent: a lone continuation byte, the
    first two bytes of a sequence of three, and an encoding of a surrogate
    half become U+FFFD, byte by byte, and the string that is read back is
    another. *)
Example print_string_ill_formed :
  let s := string_of_bytes ["a"; "128"; "228"; "189"; "b"; "237"; "160"; "128"] in
  text (bs s) = false ∧
  print (JString s) =
    dquote :: bs "a\ufffd\ufffd\ufffdb\ufffd\ufffd\ufffd" ++ [dquote] ∧
  parse (print (JString s)) =
    Got (JString (string_of_bytes
                    ("a" :: replacement ++ replacement ++ replacement ++
                     "b" :: replacement ++ replacement ++ replacement))).
Proof. by vm_compute. Qed.

(** The decoder coerces the bytes between the quotes in the same way. *)
Example parse_ill_formed :
  parse [dquote; "255"; dquote] = Got (JString (string_of_bytes replacement)).
Proof. by vm_compute. Qed.
