(* ===== verification/Codec.v ===== *)
(** * Codec: encoding/json on the values of the program

    What [json.Marshal], [json.Unmarshal] and a [json.Decoder] do with the
    types of the program, on the JSON values of [Json].

    - [JSON A]: the encoding of the values of a Go type, the decoding of a
      JSON value into a variable of the type, and the test of emptiness of
      [omitempty]; with instances for strings, integers, booleans, slices,
      pointers, maps with string keys and the interface type [any];
    - [field], [encode_struct], [decode_struct]: a structure is the list of
      its fields with their keys and options, as its tags give them.  The
      encoder writes the fields in order and leaves out the empty ones that
      are [omitempty]; the decoder takes the members in the order of the
      input, finds the field of a key by its exact name or else without
      regard to case, skips unknown keys, and keeps the first error;
    - [json_marshal], [json_unmarshal], [json_decode]: the three entry
      points on bytes, which the client calls through the classes
      [Marshal], [Unmarshal] and [Decode];
    - [JSONOK], [StructOK]: the laws of a codec and of the description of a
      structure, from which [struct_round_trip] and [marshal_unmarshal]
      follow: decoding the encoding of a value gives the value;
    - [same_outcome], [decode_struct_members], [decode_struct_reordered]:
      the decoder of a structure reads the members of an object in any
      order and skips those it has no field for; two results agree when
      they hold the same value and an error both or none, since the error
      kept is the first in the order of the input;
    - [json_perm], [Unordered], [FieldsUnordered], [decode_struct_lenient]:
      the same holds at every depth: a codec of the class [Unordered] reads
      a value of its scope from any reordering of the objects of its
      encoding, and every codec here is of the class, the interface type on
      the values that hold no object; [reversed] is a reordering of every
      value with distinct keys;
    - [decode_struct_frame], [decode_struct_invariant]: what decoding
      leaves as it is.

    Floating point numbers are printed and read by the functions of a
    class ([FloatCodec]), with the law [FloatCodecOK] on the numbers of a
    scope that depends on the width of the type; [Floats] holds the
    instance of Go.  The messages of the errors name the kind of the value
    and the type, not the path of the field. *)

From Stdlib Require Import ZArith NArith Ascii String List Lia Floats.SpecFloat.
From Stdlib Require DecimalString DecimalZ DecimalPos DecimalFacts.
From stdpp Require Import base tactics option list gmap strings sorting.
From S2P Require Import Prelude Bytes Errors Http Json.

Set Warnings "-clear-no-such-hyp,-register-all".
#[local] Open Scope string_scope.

(** ** Results *)

#[global] Instance res_ret : MRet res := @Ok.
#[global] Instance res_bind : MBind res :=
  λ A B k m, match m with Ok a => k a | Fail e => Fail e end.
#[global] Instance res_fmap : FMap res :=
  λ A B f m, match m with Ok a => Ok (f a) | Fail e => Fail e end.

(** The first of two errors: the decoder keeps the first error it meets and
    goes on. *)
Definition first_error (e1 e2 : option error) : option error :=
  match e1 with Some _ => e1 | None => e2 end.

(** ** Errors of encoding/json *)

Definition describe (v : json) : string :=
  match v with
  | JNull => "null"
  | JBool _ => "bool"
  | JNumber _ => "number"
  | JString _ => "string"
  | JArray _ => "array"
  | JObject _ => "object"
  end.

(** [*json.UnmarshalTypeError]. *)
Definition UnmarshalTypeError (value go_type : string) : error :=
  ErrExternal ("json: cannot unmarshal " ++ value ++ " into Go value of type " ++ go_type).

(** [*json.UnsupportedTypeError] and [*json.UnsupportedValueError]. *)
Definition UnsupportedTypeError (go_type : string) : error :=
  ErrExternal ("json: unsupported type: " ++ go_type).
Definition UnsupportedValueError (value : string) : error :=
  ErrExternal ("json: unsupported value: " ++ value).

(** [*json.SyntaxError], for an input that is not JSON and for an input
    that ends too early, and [io.ErrUnexpectedEOF]. *)
Definition SyntaxError : error := ErrExternal "invalid character in JSON input".
Definition UnexpectedEnd : error := ErrExternal "unexpected end of JSON input".
Definition ErrUnexpectedEOF : error := ErrExternal "unexpected EOF".

(** ** The codec of a type *)

Class JSON (A : Type) : Type := {
  go_type : string;
  enc : A → res json;
  dec : json → A → A * option error;
  is_empty : A → bool;
}.
#[global] Hint Mode JSON ! : typeclass_instances.
Arguments go_type A {_}.

(** The decoding of a value of the wrong kind. *)
Definition mismatch {A} (go_type : string) (v : json) (a : A) : A * option error :=
  (a, Some (UnmarshalTypeError (describe v) go_type)).

#[global] Instance JSON_string : JSON string := {|
  go_type := "string";
  enc s := Ok (JString s);
  dec v a := match v with
             | JString s => (s, None)
             | JNull => (a, None)
             | _ => mismatch "string" v a
             end;
  is_empty s := bool_decide (s = "");
|}.

#[global] Instance JSON_bool : JSON bool := {|
  go_type := "bool";
  enc b := Ok (JBool b);
  dec v a := match v with
             | JBool b => (b, None)
             | JNull => (a, None)
             | _ => mismatch "bool" v a
             end;
  is_empty b := negb b;
|}.

(** The integers of 64 bits: [int64], and [int] on the platforms of 64
    bits. *)
Definition in_int64 (z : Z) : bool := (- 2 ^ 63 <=? z)%Z && (z <? 2 ^ 63)%Z.

Definition dec_int (go_type : string) (v : json) (a : Z) : Z * option error :=
  match v with
  | JNumber lit =>
      match Atoi lit with
      | Some z => if in_int64 z then (z, None)
                  else (a, Some (UnmarshalTypeError ("number " ++ lit) go_type))
      | None => (a, Some (UnmarshalTypeError ("number " ++ lit) go_type))
      end
  | JNull => (a, None)
  | _ => mismatch go_type v a
  end.

Definition JSON_integer (go_type : string) : JSON Z := {|
  go_type := go_type;
  enc z := Ok (JNumber (Itoa z));
  dec := dec_int go_type;
  is_empty z := bool_decide (z = 0%Z);
|}.

#[global] Instance JSON_int : JSON Z := JSON_integer "int".
Definition JSON_int64 : JSON Z := JSON_integer "int64".

(** Floating point numbers: how they are printed and read is a parameter.
    A number that is not finite has no encoding. *)
Class FloatCodec : Type := {
  format_float : Z → spec_float → option string;
  parse_float : Z → string → option spec_float;
}.

Definition JSON_float `{FloatCodec} (bits : Z) (go_type : string) : JSON spec_float := {|
  go_type := go_type;
  enc f := match format_float bits f with
           | Some lit => Ok (JNumber lit)
           | None => Fail (UnsupportedValueError "float")
           end;
  dec v a := match v with
             | JNumber lit =>
                 match parse_float bits lit with
                 | Some f => (f, None)
                 | None => (a, Some (UnmarshalTypeError ("number " ++ lit) go_type))
                 end
             | JNull => (a, None)
             | _ => mismatch go_type v a
             end;
  is_empty f := match f with S754_zero _ => true | _ => false end;
|}.

Definition JSON_float32 `{FloatCodec} : JSON spec_float := JSON_float 32 "float32".
Definition JSON_float64 `{FloatCodec} : JSON spec_float := JSON_float 64 "float64".

(** The results of decoding the elements of an array, each into a new
    variable. *)
Definition dec_elems {A} `{JSON A, Zero A} (vs : list json) : list A * option error :=
  fold_right (λ v acc, let '(a, e) := dec v zero in (a :: acc.1, first_error e acc.2))
             ([], None) vs.

(** Slices.  The empty slice of the model is the nil slice, whose encoding
    is [null]. *)
#[global] Instance JSON_list {A} `{JSON A, Zero A} : JSON (list A) := {|
  go_type := "[]" ++ go_type A;
  enc l := match l with [] => Ok JNull | _ => JArray <$> mapM enc l end;
  dec v l := match v with
             | JArray vs => dec_elems vs
             | JNull => ([], None)
             | _ => mismatch ("[]" ++ go_type A) v l
             end;
  is_empty l := match l with [] => true | _ => false end;
|}.

(** Pointers: [None] is nil; decoding into nil allocates. *)
#[global] Instance JSON_option {A} `{JSON A, Zero A} : JSON (option A) := {|
  go_type := "*" ++ go_type A;
  enc o := match o with None => Ok JNull | Some a => enc a end;
  dec v o := match v with
             | JNull => (None, None)
             | _ => let '(a, e) := dec v (default zero o) in (Some a, e)
             end;
  is_empty o := match o with None => true | Some _ => false end;
|}.

(** The members of an object in the order of their keys, as the encoder
    writes the entries of a map. *)
Definition key_le {A} (x y : string * A) : Prop := String.leb x.1 y.1 = true.

#[global] Instance key_le_dec {A} (x y : string * A) : Decision (key_le x y).
Proof. unfold key_le. apply _. Defined.

Definition sort_members {A} (ms : list (string * A)) : list (string * A) :=
  merge_sort key_le ms.

(** The member of an entry. *)
Definition enc_entry {A} (enc : A → res json) (kv : string * A) : res (string * json) :=
  v ← enc kv.2; Ok (kv.1, v).

(** Maps with string keys.  Decoding adds the entries to the map there
    is; the empty map of the model is the nil map. *)
#[global] Instance JSON_map {A} `{JSON A, Zero A} : JSON (gmap string A) := {|
  go_type := "map[string]" ++ go_type A;
  enc m := if decide (m = ∅) then Ok JNull
           else JObject <$> mapM (enc_entry enc) (sort_members (map_to_list m));
  dec v m := match v with
             | JObject ms =>
                 fold_left (λ acc kv, let '(a, e) := dec kv.2 zero in
                                      (<[kv.1 := a]> acc.1, first_error acc.2 e))
                           ms (m, None)
             | JNull => (∅, None)
             | _ => mismatch ("map[string]" ++ go_type A) v m
             end;
  is_empty m := bool_decide (m = ∅);
|}.

(** The interface type.  A value of a type of which the model knows the
    name only has no encoding. *)
Fixpoint enc_any (a : any) : res json :=
  match a with
  | AnyNil => Ok JNull
  | AnyBool b => Ok (JBool b)
  | AnyInt z => Ok (JNumber (Itoa z))
  | AnyNumber lit => Ok (JNumber lit)
  | AnyString s => Ok (JString s)
  | AnyStrings l => Ok (JArray (JString <$> l))
  | AnySlice l => JArray <$> mapM enc_any l
  | AnyMap m => ms ← mapM (enc_entry enc_any) m; Ok (JObject (sort_members ms))
  | AnyOther t => Fail (UnsupportedTypeError t)
  end.

Fixpoint dec_any (v : json) : any :=
  match v with
  | JNull => AnyNil
  | JBool b => AnyBool b
  | JNumber lit => AnyNumber lit
  | JString s => AnyString s
  | JArray l => AnySlice (map dec_any l)
  | JObject l => AnyMap (map (λ kv, (kv.1, dec_any kv.2)) l)
  end.

#[global] Instance JSON_any : JSON any := {|
  go_type := "interface {}";
  enc := enc_any;
  dec v _ := (dec_any v, None);
  is_empty a := match a with AnyNil => true | _ => false end;
|}.

(** ** Structures *)

(** A field of a structure: its key and whether it is [omitempty], from its
    tag; the codec of its type; how it is read and written. *)
Record field (T : Type) : Type := Field {
  ftype : Type;
  key : string;
  omitempty : bool;
  codec : JSON ftype;
  get : T → ftype;
  set : ftype → T → T;
}.
Arguments Field {T ftype} key omitempty {codec} get set.
Arguments ftype {T} f.
Arguments key {T} f.
Arguments omitempty {T} f.
Arguments codec {T} f.
Arguments get {T} f x.
Arguments set {T} f a x.

Section Struct.
Context {T : Type} (fs : list (field T)).

(** The member of a field, unless the field is left out. *)
Definition encode_field (x : T) (f : field T) : res (option (string * json)) :=
  if omitempty f && @is_empty _ (codec f) (get f x) then Ok None
  else v ← @enc _ (codec f) (get f x); Ok (Some (key f, v)).

Definition encode_struct (x : T) : res json :=
  ms ← mapM (encode_field x) fs; Ok (JObject (omap id ms)).

(** Keys without regard to the case of their letters. *)
Definition fold_key (k : string) : string := string_of_bytes (to_upper <$> bs k).

(** The field of a key: the one of that name, or else the first of that
    name without regard to case. *)
Definition find_field (k : string) : option (field T) :=
  match find (λ f, bool_decide (key f = k)) fs with
  | Some f => Some f
  | None => find (λ f, bool_decide (fold_key (key f) = fold_key k)) fs
  end.

(** A member of the input is decoded into its field. *)
Definition decode_member (acc : T * option error) (m : string * json) : T * option error :=
  match find_field m.1 with
  | Some f =>
      let '(a, e) := @dec _ (codec f) m.2 (get f acc.1) in
      (set f a acc.1, first_error acc.2 e)
  | None => acc
  end.

Definition decode_struct (name : string) (v : json) (x : T) : T * option error :=
  match v with
  | JObject ms => fold_left decode_member ms (x, None)
  | JNull => (x, None)
  | _ => mismatch name v x
  end.

(** The codec of the structure. *)
Definition JSON_struct (name : string) : JSON T := {|
  go_type := name;
  enc := encode_struct;
  dec := decode_struct name;
  is_empty _ := false;
|}.
End Struct.

(** ** The entry points *)

Section Entry.
Context {A : Type} `{JSON A}.

(** [json.Marshal]. *)
Definition json_marshal : Marshal A := λ a, print <$> enc a.

(** [json.Unmarshal]. *)
Definition json_unmarshal : Unmarshal A := λ data a,
  match parse data with
  | Got v => dec v a
  | Short => (a, Some UnexpectedEnd)
  | Bad => (a, Some SyntaxError)
  end.

(** [json.NewDecoder(r).Decode]: the first value of what the reader
    delivers.  When the input ends inside the value, the error is that of
    the reader, and at the end of the reader [io.EOF] when there was
    nothing but white space and [io.ErrUnexpectedEOF] otherwise. *)
Definition json_decode : Decode A := λ data rerr a,
  match parse_front data with
  | Got (v, _) => dec v a
  | Short => (a, Some (match rerr with
                       | Some e => e
                       | None => if bool_decide (skip_ws data = []) then EOF
                                 else ErrUnexpectedEOF
                       end))
  | Bad => (a, Some SyntaxError)
  end.
End Entry.

(** ** Zero values *)

#[global] Instance float_zero : Zero spec_float := S754_zero false.
#[global] Instance gmap_zero {K V} `{Countable K} : Zero (gmap K V) := (∅ : gmap K V).

(** ** The laws of a codec *)

(** On the values of its scope, a codec encodes into a well-formed value of
    plain text (well-formed UTF-8) that decodes, into a new variable, to the value encoded; and
    an empty value is the zero value. *)
Class JSONOK (A : Type) `{JSON A, Zero A} (ok : A → Prop) : Prop := {
  enc_dec a : ok a →
    ∃ v, enc a = Ok v ∧ wf v = true ∧ plain v = true ∧ dec v zero = (a, None);
  empty_zero a : ok a → is_empty a = true → a = zero;
}.

(** The laws of the description of a structure: the keys are distinct and
    plain; the fields are independent variables; each field has a lawful
    codec on the values of the scope; writing the fields of [x] into [y]
    gives [merge x y], the fields of [x] with what else [y] holds; and a
    value of the scope holds nothing else that is not zero. *)
Class StructOK {T : Type} `{Zero T} (fs : list (field T)) (merge : T → T → T)
    (ok : T → Prop) : Prop := {
  keys_nodup : NoDup (key <$> fs);
  keys_text : Forall (λ f, text (bs (key f)) = true) fs;
  get_set f a x : f ∈ fs → get f (set f a x) = a;
  get_set_ne f g a x : f ∈ fs → g ∈ fs → key f ≠ key g → get g (set f a x) = get g x;
  set_get f x : f ∈ fs → set f (get f x) x = x;
  set_set_ne f g a b x : f ∈ fs → g ∈ fs → key f ≠ key g →
    set f a (set g b x) = set g b (set f a x);
  field_enc_dec f x : f ∈ fs → ok x →
    ∃ v, @enc _ (codec f) (get f x) = Ok v ∧ wf v = true ∧ plain v = true ∧
         @dec _ (codec f) v (get f zero) = (get f x, None);
  field_empty f x : f ∈ fs → ok x →
    @is_empty _ (codec f) (get f x) = true → get f x = get f zero;
  rebuild x y : fold_left (λ y f, set f (get f x) y) fs y = merge x y;
  merge_zero x : ok x → merge x zero = x;
}.

(** What a codec of floating point numbers has to do on the numbers of a
    scope: print a number literal that it reads back. *)
Class FloatCodecOK `{FloatCodec} (ok : Z → spec_float → Prop) : Prop := {
  float_round_trip bits f : ok bits f →
    ∃ lit, format_float bits f = Some lit ∧ number_lit (bs lit) = true ∧
           parse_float bits lit = Some f;
}.

(** The numbers of a scope, but for the negative zero, which [omitempty]
    takes for empty. *)
Definition float_scope (ok : spec_float → Prop) (f : spec_float) : Prop :=
  ok f ∧ f ≠ S754_zero true.

(** The maps whose keys are plain and whose values are in a scope. *)
Definition map_scope {A} (ok : A → Prop) (m : gmap string A) : Prop :=
  map_Forall (λ k a, text (bs k) = true ∧ ok a) m.

(** The values of the interface type that a decoder makes, but for
    objects: text in well-formed UTF-8, number literals, and slices of such
    values. *)
Fixpoint canonical (a : any) : bool :=
  match a with
  | AnyNil | AnyBool _ => true
  | AnyNumber lit => number_lit (bs lit)
  | AnyString s => text (bs s)
  | AnySlice l => forallb canonical l
  | _ => false
  end.

(** A codec whose encodings are never [null], so that a pointer to a value
    is told from the nil pointer. *)
Class NonNull (A : Type) `{JSON A} : Prop := non_null : ∀ a : A, enc a ≠ Ok JNull.

Definition option_ok {A} (ok : A → Prop) (o : option A) : Prop :=
  match o with Some a => ok a | None => True end.

(** No value at all: the scope of a codec of which nothing is assumed. *)
Definition none {A} (l : list A) : Prop := Forall (λ _, False) l.

(** A decoder with the fuel [fuel n] for an input of [n] bytes. *)
Definition json_decode_with {A} `{JSON A} (fuel : nat → nat) : Decode A := λ data rerr a,
  match parse_value (fuel (length data)) data with
  | Got (v, _) => dec v a
  | Short => (a, Some (match rerr with
                       | Some e => e
                       | None => if bool_decide (skip_ws data = []) then EOF
                                 else ErrUnexpectedEOF
                       end))
  | Bad => (a, Some SyntaxError)
  end.

(** The values of the interface type that a decoder makes. *)
Fixpoint decoded (a : any) : bool :=
  match a with
  | AnyNil | AnyBool _ | AnyNumber _ | AnyString _ => true
  | AnySlice l => forallb decoded l
  | AnyMap m => forallb (λ kv, decoded kv.2) m
  | _ => false
  end.

(** The fields that the encoder writes. *)
Definition written {T} (x : T) (f : field T) : bool :=
  negb (omitempty f && @is_empty _ (codec f) (get f x)).

(** The generic entry points are the codecs of the client. *)
#[global] Instance Marshal_JSON {A} `{JSON A} : Marshal A := json_marshal.
#[global] Instance Unmarshal_JSON {A} `{JSON A} : Unmarshal A := json_unmarshal.
#[global] Instance Decode_JSON {A} `{JSON A} : Decode A := json_decode.

(** Two results of a decoder agree: the same value, and an error in both
    or in none. *)
Definition same_outcome {T : Type} : relation (T * option error) :=
  λ r r', r.1 = r'.1 ∧ (r.2 = None ↔ r'.2 = None).

(** The members of an object that the decoder of a structure reads. *)
Definition known {T : Type} (fs : list (field T)) (m : string * json) : bool :=
  bool_decide (is_Some (find_field fs m.1)).

(** A value with the members of its objects in another order, at any
    depth; the objects that are reordered have keys that differ beyond the
    case of their letters. *)
Inductive json_perm : json → json → Prop :=
| json_perm_refl v : json_perm v v
| json_perm_array l l' : Forall2 json_perm l l' → json_perm (JArray l) (JArray l')
| json_perm_object ms ms1 ms' :
    NoDup (fold_key <$> ms.*1) →
    Forall2 (λ m m1, m.1 = m1.1 ∧ json_perm m.2 m1.2) ms ms1 → ms1 ≡ₚ ms' →
    json_perm (JObject ms) (JObject ms').

(** A codec that reads a value of its scope from the JSON value whatever
    the order of the members of its objects. *)
Class Unordered (A : Type) `{JSON A} (ok : A → Prop) : Prop :=
  dec_perm v v' a r : json_perm v v' → ok r → dec v a = (r, None) → dec v' a = (r, None).

(** The fields of a structure read their values whatever the order of the
    members of nested objects. *)
Class FieldsUnordered {T : Type} (fs : list (field T)) (ok : T → Prop) : Prop :=
  field_perm f v v' a r : f ∈ fs → ok r → json_perm v v' →
    @dec _ (codec f) v a = (get f r, None) → @dec _ (codec f) v' a = (get f r, None).

(** The members of every object in the opposite order; the values whose
    objects have keys that differ beyond case. *)
Fixpoint reversed (v : json) : json :=
  match v with
  | JArray l => JArray (map reversed l)
  | JObject ms => JObject (rev (map (λ m, (m.1, reversed m.2)) ms))
  | _ => v
  end.

Fixpoint distinct (v : json) : bool :=
  match v with
  | JArray l => forallb distinct l
  | JObject ms =>
      bool_decide (NoDup (fold_key <$> ms.*1)) && forallb (λ m, distinct m.2) ms
  | _ => true
  end.

(** * Lemmas *)

(** ** Integers are number literals *)

Lemma to_uint_head p d : Pos.to_uint p ≠ Decimal.D0 d.
Proof.
  intros E. pose proof (DecimalPos.Unsigned.to_of (Pos.to_uint p)) as H.
  rewrite DecimalPos.Unsigned.of_to in H. simpl in H.
  pose proof (DecimalPos.Unsigned.to_uint_nonzero p) as Hz.
  rewrite H in Hz. rewrite DecimalFacts.unorm_0 in Hz.
  rewrite (DecimalFacts.unorm_nzhead _ Hz) in H.
  rewrite H in E. by apply DecimalFacts.nzhead_nonzero in E.
Qed.

Lemma scan_digits d :
  let l := bs (DecimalString.NilEmpty.string_of_uint d) in
  scan_number SInt l = Got (l, []).
Proof. induction d; simpl in *; [done|by rewrite IHd..]. Qed.

Lemma scan_to_uint s p :
  s = SBegin ∨ s = SNeg →
  let l := bs (DecimalString.NilZero.string_of_uint (Pos.to_uint p)) in
  scan_number s l = Got (l, []).
Proof.
  intros Hs. pose proof (to_uint_head p) as Hh.
  pose proof (DecimalPos.Unsigned.to_uint_nonnil p) as Hn.
  destruct (Pos.to_uint p) as [|d|d|d|d|d|d|d|d|d|d]; [done|by destruct (Hh d)|..];
    pose proof (scan_digits d) as Hd; destruct Hs as [-> | ->]; simpl in *; by rewrite Hd.
Qed.

Lemma Itoa_number_lit z : number_lit (bs (Itoa z)) = true.
Proof.
  apply number_lit_scan. unfold Itoa. destruct z as [|p|p]; [done|..]; simpl.
  - apply scan_to_uint. by left.
  - change (scan_number SBegin ("-"%char :: ?l)) with
      ('(x, r) ← scan_number SNeg l; Got ("-"%char :: x, r)).
    rewrite scan_to_uint by (by right). done.
Qed.

(** ** The laws of the codecs of the basic types *)

Lemma mapM_res_cons {A B} (f : A → res B) a l :
  mapM f (a :: l) = b ← f a; k ← mapM f l; Ok (b :: k).
Proof. done. Qed.

Lemma text_plain_string s : text (bs s) = true → plain (JString s) = true.
Proof. done. Qed.

#[global] Instance string_ok : JSONOK string (λ s, text (bs s) = true).
Proof.
  split.
  - intros s Hs. by exists (JString s).
  - intros s _ Hs. by apply bool_decide_eq_true in Hs.
Qed.

#[global] Instance bool_ok : JSONOK bool (λ _, True).
Proof.
  split.
  - intros b _. by exists (JBool b).
  - by intros [] _ Hb.
Qed.

Lemma dec_int_Itoa t z a : in_int64 z = true → dec_int t (JNumber (Itoa z)) a = (z, None).
Proof. intros Hz. unfold dec_int. by rewrite Itoa_Atoi, Hz. Qed.

Lemma integer_ok t : @JSONOK Z (JSON_integer t) _ (λ z, in_int64 z = true).
Proof.
  split.
  - intros z Hz. exists (JNumber (Itoa z)). split_and!; [done| |done|by apply dec_int_Itoa].
    apply Itoa_number_lit.
  - intros z _ Hz. by apply bool_decide_eq_true in Hz.
Qed.

#[global] Instance int_ok : JSONOK Z (λ z, in_int64 z = true) := integer_ok "int".
#[global] Instance int64_ok : @JSONOK Z JSON_int64 _ (λ z, in_int64 z = true) :=
  integer_ok "int64".

Section ListOK.
Context {A : Type} `{JSON A, Zero A} (ok : A → Prop) `{!JSONOK A ok}.

Lemma mapM_enc_dec (l : list A) :
  Forall ok l →
  ∃ vs, mapM enc l = Ok vs ∧ forallb wf vs = true ∧ forallb plain vs = true ∧
        dec_elems vs = (l, None) ∧ length vs = length l.
Proof.
  induction 1 as [|a l Ha _ (vs & E & Hwf & Hpl & Hd & Hlen)].
  - by exists [].
  - destruct (enc_dec a Ha) as (v & Ev & Hv & Hp & Hdv). exists (v :: vs).
    rewrite mapM_res_cons, Ev. cbn [mbind res_bind]. rewrite E.
    split_and!; [done|by simpl; rewrite Hv|by simpl; rewrite Hp| |simpl; lia].
    unfold dec_elems in *. simpl. by rewrite Hdv, Hd.
Qed.

#[global] Instance list_ok : JSONOK (list A) (Forall ok).
Proof.
  split.
  - intros l Hl. destruct l as [|a l]; [by exists JNull|].
    destruct (mapM_enc_dec _ Hl) as (vs & E & Hwf & Hpl & Hd & _).
    exists (JArray vs). cbn [enc JSON_list]. rewrite E. done.
  - by intros [] _ ?.
Qed.
End ListOK.

(** ** The interface type, pointers, and codecs without laws *)

Lemma canonical_enc_dec a :
  canonical a = true →
  ∃ v, enc_any a = Ok v ∧ wf v = true ∧ plain v = true ∧ dec_any v = a.
Proof.
  revert a. fix IH 1. intros [| b | z | lit | s | l | l | m | t]; simpl; try done.
  - by exists JNull.
  - by exists (JBool b).
  - by exists (JNumber lit).
  - by exists (JString s).
  - intros Hl. 
    assert (∃ vs, mapM enc_any l = Ok vs ∧ forallb wf vs = true ∧ forallb plain vs = true ∧
                  map dec_any vs = l) as (vs & E & Hwf & Hpl & Hd).
    { induction l as [|a l IHl]; [by exists []|]. simpl in Hl.
      apply andb_prop in Hl as [Ha Hl]. destruct (IH a Ha) as (v & Ev & ? & ? & ?).
      destruct (IHl Hl) as (vs & Evs & ? & ? & ?). exists (v :: vs).
      rewrite mapM_res_cons, Ev. cbn [mbind res_bind]. rewrite Evs.
      split_and!; simpl; [done|by rewrite H, H2|by rewrite H0, H3|congruence]. }
    exists (JArray vs). fold (mapM (M := res) enc_any l). rewrite E. simpl.
    split_and!; [done..|]. by rewrite Hd.
Qed.

#[global] Instance any_ok : JSONOK any (λ a, canonical a = true).
Proof.
  split.
  - intros a Ha. destruct (canonical_enc_dec a Ha) as (v & ? & ? & ? & Hd).
    exists v. split_and!; [done..|]. simpl. by rewrite Hd.
  - intros [] _ ?; by simplify_eq/=.
Qed.

#[global] Instance void_ok {A} `{JSON A, Zero A} : JSONOK A (λ _, False) | 100.
Proof. split; by intros ? []. Qed.

Lemma none_nil {A} (l : list A) : none l ↔ l = [].
Proof. split; [by destruct 1|intros ->; constructor]. Qed.

#[global] Instance string_nonnull : NonNull string.
Proof. by intros a. Qed.
#[global] Instance bool_nonnull : NonNull bool.
Proof. by intros a. Qed.
#[global] Instance integer_nonnull t : @NonNull Z (JSON_integer t).
Proof. by intros a. Qed.
#[global] Instance struct_nonnull {T} (fs : list (field T)) name :
  @NonNull T (JSON_struct fs name).
Proof.
  intros x. simpl. unfold encode_struct. by destruct (mapM _ fs).
Qed.

Section OptionOK.
Context {A : Type} `{JSON A, Zero A} (ok : A → Prop) `{!JSONOK A ok, !NonNull A}.

#[global] Instance pointer_ok : JSONOK (option A) (option_ok ok).
Proof.
  split.
  - intros [a|] Ha; [|by exists JNull]. destruct (enc_dec a Ha) as (v & Ev & ? & ? & Hd).
    exists v. split_and!; [done..|]. pose proof (non_null a) as Hn. rewrite Ev in Hn.
    simpl. rewrite Hd. by destruct v.
  - by intros [] _ ?.
Qed.
End OptionOK.

(** ** Structures *)

Section StructLemmas.
Context {T : Type} `{Zero T} (fs : list (field T)) (merge : T → T → T) (ok : T → Prop).
Context `{!StructOK fs merge ok}.

Lemma find_key (l : list (field T)) f :
  f ∈ l → NoDup (key <$> l) → find (λ g, bool_decide (key g = key f)) l = Some f.
Proof.
  induction 1 as [|g l Hin IH]; csimpl; intros [Hnotin Hnd]%NoDup_cons.
  - by rewrite bool_decide_eq_true_2.
  - rewrite bool_decide_eq_false_2; [auto|]. intros E. apply Hnotin. rewrite E.
    by apply list_elem_of_fmap_2.
Qed.

(** A key of the structure finds its field. *)
Lemma find_field_key f : f ∈ fs → find_field fs (key f) = Some f.
Proof. intros Hf. unfold find_field. by rewrite (find_key fs f Hf keys_nodup). Qed.

(** The member of a field of a value of the scope is decoded into the
    field, when the field is still zero. *)
Lemma decode_member_field f x y e v :
  f ∈ fs → ok x → get f y = get f zero → @enc _ (codec f) (get f x) = Ok v →
  @dec _ (codec f) v (get f zero) = (get f x, None) →
  decode_member fs (y, e) (key f, v) = (set f (get f x) y, e).
Proof.
  intros Hf Hx Hy Hv Hd. unfold decode_member. cbn [fst snd].
  rewrite find_field_key, Hy, Hd by done. by destruct e.
Qed.

Lemma decode_fields x (l : list (field T)) y :
  ok x → l ⊆ fs → NoDup (key <$> l) → (∀ f, f ∈ l → get f y = get f zero) →
  ∃ ms, mapM (encode_field x) l = Ok ms ∧
        forallb (λ kv, wf kv.2) (omap id ms) = true ∧
        forallb (λ kv, text (bs kv.1) && plain kv.2) (omap id ms) = true ∧
        fold_left (decode_member fs) (omap id ms) (y, None) =
        (fold_left (λ y f, set f (get f x) y) l y, None).
Proof.
  intros Hx. revert y. induction l as [|f l IH]; intros y Hsub Hnd Hy; [by exists []|].
  apply NoDup_cons in Hnd as [Hnotin Hnd].
  assert (Hf : f ∈ fs) by (apply Hsub; left).
  assert (Hl : l ⊆ fs) by (intros g Hg; apply Hsub; by right).
  assert (Hne : ∀ g, g ∈ l → key f ≠ key g).
  { intros g Hg E. apply Hnotin. rewrite E. by apply list_elem_of_fmap_2. }
  rewrite mapM_res_cons. cbn [fold_left].
  destruct (omitempty f && @is_empty _ (codec f) (get f x)) eqn:Eo.
  - assert (encode_field x f = Ok None) as -> by (unfold encode_field; by rewrite Eo).
    apply andb_prop in Eo as [_ He]. apply (field_empty f x Hf Hx) in He.
    rewrite He, <- (Hy f) by left. rewrite set_get by done.
    destruct (IH y Hl Hnd) as (ms & E & ?); [intros g Hg; apply Hy; by right|].
    exists (None :: ms). cbn [mbind res_bind]. by rewrite E.
  - destruct (field_enc_dec f x Hf Hx) as (v & Ev & Hwf & Hpl & Hd).
    assert (encode_field x f = Ok (Some (key f, v))) as ->
      by (unfold encode_field; by rewrite Eo, Ev).
    destruct (IH (set f (get f x) y) Hl Hnd) as (ms & E & Hwfs & Hpls & Hfold).
    { intros g Hg. rewrite get_set_ne by auto. rewrite Hy by (by right).
      done. }
    exists (Some (key f, v) :: ms). cbn [mbind res_bind]. rewrite E.
    pose proof keys_text as Hk. rewrite Forall_forall in Hk.
    split_and!; [done|by simpl; rewrite Hwf|by simpl; rewrite Hk, Hpl|].
    cbn [omap list_omap id fold_left].
    erewrite decode_member_field; [exact Hfold|done..|by apply Hy; left|done|done].
Qed.

(** Decoding the encoding of a structure of the scope into a variable whose
    fields are zero writes the fields of the structure into it. *)
Lemma struct_round_trip_into name x y :
  ok x → (∀ f, f ∈ fs → get f y = get f zero) →
  ∃ v, encode_struct fs x = Ok v ∧ wf v = true ∧ plain v = true ∧
       decode_struct fs name v y = (merge x y, None).
Proof.
  intros Hx Hy. destruct (decode_fields x fs y Hx) as (ms & E & Hwf & Hpl & Hd);
    [done|apply keys_nodup|done|].
  exists (JObject (omap id ms)). unfold encode_struct. rewrite E.
  split_and!; [done..|]. cbn [decode_struct]. by rewrite Hd, rebuild.
Qed.

(** Decoding the encoding of a structure of the scope gives it back. *)
Lemma struct_round_trip name x :
  ok x →
  ∃ v, encode_struct fs x = Ok v ∧ wf v = true ∧ plain v = true ∧
       decode_struct fs name v zero = (x, None).
Proof.
  intros Hx. destruct (struct_round_trip_into name x zero Hx) as (v & ? & ? & ? & Hd);
    [done|]. rewrite merge_zero in Hd by done. eauto.
Qed.

Lemma struct_ok name : @JSONOK T (JSON_struct fs name) _ ok.
Proof. split; [apply struct_round_trip|done]. Qed.
End StructLemmas.

(** ** The entry points *)

Section EntryLemmas.
Context {A : Type} `{JSON A, Zero A} (ok : A → Prop) `{!JSONOK A ok}.

(** [json.Unmarshal] and a decoder read back what [json.Marshal] wrote. *)
Lemma marshal_unmarshal a :
  ok a →
  ∃ data, json_marshal a = Ok data ∧ json_unmarshal data zero = (a, None) ∧
          ∀ rerr, json_decode data rerr zero = (a, None).
Proof.
  intros Ha. destruct (enc_dec a Ha) as (v & Ev & Hwf & Hpl & Hd). exists (print v).
  unfold json_marshal, json_unmarshal, json_decode. rewrite Ev.
  pose proof (parse_front_print v [] Hwf Hpl eq_refl) as Hf. rewrite app_nil_r in Hf.
  rewrite (parse_print v Hwf Hpl), Hf. done.
Qed.
End EntryLemmas.

Section Inputs.
Context {A : Type} `{JSON A, Zero A} (ok : A → Prop) `{!JSONOK A ok}.

(** A decoder on an input of white space reports the end of the reader. *)
Lemma json_decode_blank data rerr (a : A) :
  skip_ws data = [] → json_decode data rerr a = (a, Some (default EOF rerr)).
Proof.
  intros Hb. unfold json_decode, parse_front. cbn [parse_value]. rewrite Hb.
  rewrite bool_decide_eq_true_2 by done. by destruct rerr.
Qed.

(** A decoder does not look at what follows the first value; [json.Unmarshal]
    refuses it. *)
Lemma json_decode_trailing a v rest rerr :
  ok a → enc a = Ok v → stops rest = true →
  json_decode (print v ++ rest)%list rerr zero = (a, None).
Proof.
  intros Ha Ev Hr. destruct (enc_dec a Ha) as (v' & Ev' & Hwf & Hpl & Hd).
  assert (v' = v) as -> by congruence.
  unfold json_decode. by rewrite parse_front_print.
Qed.

Lemma json_unmarshal_trailing a v rest (b : A) :
  ok a → enc a = Ok v → stops rest = true → skip_ws rest ≠ [] →
  json_unmarshal (print v ++ rest)%list b = (b, Some SyntaxError).
Proof.
  intros Ha Ev Hr Hne. destruct (enc_dec a Ha) as (v' & Ev' & Hwf & Hpl & Hd).
  assert (v' = v) as -> by congruence.
  unfold json_unmarshal, parse. rewrite parse_front_print by done.
  cbn [mbind parsed_bind]. by rewrite bool_decide_eq_false_2.
Qed.
End Inputs.

(** ** Fuel, decoded interface values, invariants and written fields *)

Lemma json_decode_with_enough {A} `{JSON A} fuel data rerr (a : A) :
  (∀ n, n < fuel n) → json_decode_with fuel data rerr a = json_decode data rerr a.
Proof.
  intros Hf. unfold json_decode_with, json_decode. by rewrite parse_value_fuel.
Qed.

Lemma dec_any_decoded v : decoded (dec_any v) = true.
Proof.
  induction v as [|b|lit|s|l IH|l IH] using json_ind; simpl; try done.
  - induction IH as [|v l Hv _ IHl]; simpl; [done|]. by rewrite Hv.
  - induction IH as [|v l Hv _ IHl]; simpl; [done|]. by rewrite Hv.
Qed.

Section StructFacts.
Context {T : Type} (fs : list (field T)).

Lemma find_elem (p : field T → bool) f : find p fs = Some f → f ∈ fs.
Proof. intros Hf%find_some. apply list_elem_of_In. tauto. Qed.

Lemma find_field_elem k f : find_field fs k = Some f → f ∈ fs.
Proof.
  unfold find_field. destruct (find _ fs) eqn:E; [intros [= <-]|]; eauto using find_elem.
Qed.

(** What every field keeps, the decoder keeps. *)
Lemma decode_struct_invariant (P : T → Prop) name v x :
  (∀ f jv y, f ∈ fs → P y → P (set f (@dec _ (codec f) jv (get f y)).1 y)) →
  P x → P (decode_struct fs name v x).1.
Proof.
  intros Hset Hx. destruct v as [| | | | |ms]; try done. cbn [decode_struct].
  generalize (@None error). revert x Hx.
  induction ms as [|[k jv] ms IH]; intros x Hx e; [done|]. cbn [fold_left].
  unfold decode_member at 2. cbn [fst snd].
  destruct (find_field fs k) as [f|] eqn:E; [|by apply IH].
  pose proof (Hset f jv x (find_field_elem _ _ E) Hx) as Hy.
  destruct (dec jv (get f x)) as [a e']. by apply IH.
Qed.

(** The keys of an encoding are the keys of the fields written, in the
    order of the fields. *)
Lemma encode_struct_keys x v :
  encode_struct fs x = Ok v →
  ∃ ms, v = JObject ms ∧ ms.*1 = key <$> filter (λ f, written x f = true) fs.
Proof.
  unfold encode_struct. destruct (mapM _ fs) as [os|] eqn:E; [|done]. intros [= <-].
  eexists; split; [done|]. revert os E.
  induction fs as [|f l IH]; intros os E.
  - by injection E as <-.
  - rewrite mapM_res_cons in E. rewrite filter_cons.
    assert (Hf : encode_field x f =
                 if omitempty f && is_empty (get f x) then Ok None
                 else v ← enc (get f x); Ok (Some (key f, v))) by done.
    rewrite Hf in E. clear Hf.
    destruct (omitempty f && is_empty (get f x)) eqn:Eo; cbn [mbind res_bind] in E.
    + destruct (mapM _ l) as [os'|]; [|done]. injection E as <-.
      rewrite decide_False by (unfold written; by rewrite Eo). by apply (IH os').
    + destruct (enc (get f x)) as [jv|]; [|done]. cbn [mbind res_bind] in E.
      destruct (mapM _ l) as [os'|]; [|done]. injection E as <-.
      rewrite decide_True by (unfold written; by rewrite Eo).
      rewrite fmap_cons, <- (IH os') by done. done.
Qed.

Lemma key_inj f g : NoDup (key <$> fs) → f ∈ fs → g ∈ fs → key f = key g → f = g.
Proof.
  induction fs as [|h l IH]; csimpl; [by intros _ ?%elem_of_nil|].
  intros [Hh Hl]%NoDup_cons Hf Hg E.
  - apply elem_of_cons in Hf as [->|Hf], Hg as [->|Hg]; [done| | |by apply IH].
    + destruct Hh. rewrite E. by apply list_elem_of_fmap_2.
    + destruct Hh. rewrite <- E. by apply list_elem_of_fmap_2.
Qed.

(** A field has a member in the encoding exactly when it is written: when
    it is not both [omitempty] and empty. *)
Lemma encode_struct_written x ms f :
  NoDup (key <$> fs) → f ∈ fs → encode_struct fs x = Ok (JObject ms) →
  key f ∈ ms.*1 ↔ written x f = true.
Proof.
  intros Hnd Hf E. destruct (encode_struct_keys x _ E) as (ms' & [= <-] & ->).
  rewrite list_elem_of_fmap. split.
  - intros (g & Eg & [Hw Hg]%list_elem_of_filter).
    by rewrite (key_inj f g Hnd Hf Hg Eg).
  - intros Hw. exists f. split; [done|]. by apply list_elem_of_filter.
Qed.
(** A change of the structure that no field sees passes through the
    decoder: decoding into the changed structure is the change of what
    decoding gives. *)
Section Frame.
Context (g : T → T).
Hypothesis Hget : ∀ f y, f ∈ fs → get f (g y) = get f y.
Hypothesis Hset : ∀ f a y, f ∈ fs → set f a (g y) = g (set f a y).

Lemma decode_member_frame x e m :
  decode_member fs (g x, e) m =
  (g (decode_member fs (x, e) m).1, (decode_member fs (x, e) m).2).
Proof.
  unfold decode_member. cbn [fst snd].
  destruct (find_field fs m.1) as [f|] eqn:E; [|done].
  rewrite Hget by (by eapply find_field_elem).
  destruct (dec m.2 (get f x)) as [a e']. by rewrite Hset by (by eapply find_field_elem).
Qed.

Lemma decode_struct_frame name v x :
  decode_struct fs name v (g x) =
  (g (decode_struct fs name v x).1, (decode_struct fs name v x).2).
Proof.
  destruct v as [| | | | |ms]; try done. cbn [decode_struct].
  generalize (@None error). revert x.
  induction ms as [|m ms IH]; intros x e; [done|]. cbn [fold_left].
  rewrite decode_member_frame, IH. by destruct (decode_member fs (x, e) m).
Qed.
End Frame.
End StructFacts.

(** ** Floating point numbers and maps *)

(** The laws of these codecs are lemmas: a development makes them instances
    where its structures have such fields in their scope. *)

Section FloatOK.
Context `{FloatCodec} (ok : Z → spec_float → Prop) `{!FloatCodecOK ok}.

Lemma float_ok bits t : @JSONOK spec_float (JSON_float bits t) _ (float_scope (ok bits)).
Proof.
  split.
  - intros f [Hf _]. destruct (float_round_trip bits f Hf) as (lit & Ef & Hlit & Ep).
    exists (JNumber lit). simpl. by rewrite Ef, Ep.
  - intros [[]| | |] [_ Hf] He; done.
Qed.

Lemma float32_ok : @JSONOK spec_float JSON_float32 _ (float_scope (ok 32)).
Proof. apply float_ok. Qed.
Lemma float64_ok : @JSONOK spec_float JSON_float64 _ (float_scope (ok 64)).
Proof. apply float_ok. Qed.
End FloatOK.

Section MapOK.
Context {A : Type} `{JSON A, Zero A} (ok : A → Prop) `{!JSONOK A ok}.

(** Writing the entries of a list without repeated keys into a map. *)
Lemma fold_insert_union (l : list (string * A)) (acc : gmap string A) :
  NoDup l.*1 →
  fold_left (λ acc kv, <[kv.1 := kv.2]> acc) l acc = list_to_map l ∪ acc.
Proof.
  revert acc. induction l as [|[k a] l IH]; intros acc Hnd; simpl.
  - by rewrite (left_id_L ∅ (∪)).
  - apply NoDup_cons in Hnd as [Hk Hnd]. rewrite IH by done.
    rewrite <- insert_union_l, <- insert_union_r; [done|].
    by apply not_elem_of_list_to_map_1.
Qed.

Lemma entries_enc_dec (l : list (string * A)) :
  Forall (λ kv, text (bs kv.1) = true ∧ ok kv.2) l →
  ∃ ms, mapM (enc_entry enc) l = Ok ms ∧
        forallb (λ kv, wf kv.2) ms = true ∧
        forallb (λ kv, text (bs kv.1) && plain kv.2) ms = true ∧
        ∀ acc : gmap string A,
          fold_left (λ acc kv, let '(a, e) := dec (A := A) kv.2 zero in
                               (<[kv.1 := a]> acc.1, first_error acc.2 e))
                    ms (acc, None) =
          (fold_left (λ acc kv, <[kv.1 := kv.2]> acc) l acc, None).
Proof.
  induction 1 as [|[k a] l [Hk Ha] _ (ms & E & Hwf & Hpl & Hd)]; [by exists []|].
  destruct (enc_dec a Ha) as (v & Ev & Hwfv & Hplv & Hdv).
  exists ((k, v) :: ms). rewrite mapM_res_cons.
  assert (enc_entry enc (k, a) = Ok (k, v)) as -> by (unfold enc_entry; simpl; by rewrite Ev).
  cbn [mbind res_bind]. rewrite E. cbn [mbind res_bind].
  split_and!; [done|by simpl; rewrite Hwfv|by simpl in *; rewrite Hk, Hplv|].
  intros acc. cbn [fold_left fst snd]. rewrite Hdv. apply Hd.
Qed.

Lemma map_ok : JSONOK (gmap string A) (map_scope ok).
Proof.
  split; [|by intros m _ ->%bool_decide_eq_true].
  intros m Hm. cbn [enc JSON_map]. destruct (decide (m = ∅)) as [->|Hne]; [by exists JNull|].
  assert (Hp : sort_members (map_to_list m) ≡ₚ map_to_list m) by apply merge_sort_Permutation.
  destruct (entries_enc_dec (sort_members (map_to_list m))) as (ms & -> & Hwf & Hpl & Hd).
  { rewrite Hp. apply Forall_forall. intros [k a] Hka%elem_of_map_to_list. by apply (Hm k a). }
  exists (JObject ms). split_and!; [done..|]. cbn [dec JSON_map]. rewrite Hd.
  unfold zero, gmap_zero.
  assert (Hnd : NoDup (sort_members (map_to_list m)).*1)
    by (rewrite Hp; apply NoDup_fst_map_to_list).
  rewrite fold_insert_union, (right_id_L ∅ (∪)) by done. f_equal.
  rewrite (list_to_map_proper _ _ Hnd Hp). apply list_to_map_to_list.
Qed.
End MapOK.

(** ** The order of the members of an object *)

#[global] Instance same_outcome_equiv {T} : Equivalence (@same_outcome T).
Proof.
  split.
  - by intros r.
  - intros r r' [E1 H1]. by split.
  - intros r r' r'' [E1 H1] [E2 H2]. split; [congruence|by rewrite H1].
Qed.

Lemma first_error_None e e' : first_error e e' = None ↔ e = None ∧ e' = None.
Proof. destruct e, e'; simpl; split; try done; by intros []. Qed.

Section Members.
Context {T : Type} `{Zero T} (fs : list (field T)) (merge : T → T → T) (ok : T → Prop).
Context `{!StructOK fs merge ok}.

(** The value a member gives does not depend on the errors met before, and
    the errors add up. *)
#[global] Instance decode_member_proper :
  Proper (same_outcome ==> eq ==> same_outcome) (decode_member fs).
Proof.
  intros [x e] [x' e'] [Hx He] m ? <-. simpl in Hx. subst x'. unfold decode_member.
  destruct (find_field fs m.1) as [f|]; [|by split]. cbn [fst snd].
  destruct (dec m.2 (get f x)) as [a ea]. split; [done|]. cbn [snd].
  rewrite !first_error_None. simpl in He. tauto.
Qed.

#[global] Instance decode_members_proper ms :
  Proper (same_outcome ==> same_outcome) (fold_left (decode_member fs) ms).
Proof. exact (fold_left_proper same_outcome (decode_member fs) ms). Qed.

(** The field of a key has the key, up to the case of the letters. *)
Lemma find_field_fold k f : find_field fs k = Some f → fold_key (key f) = fold_key k.
Proof.
  unfold find_field. destruct (find _ fs) as [g|] eqn:E.
  - intros [= <-]. apply find_some in E as [_ E]. by apply bool_decide_eq_true in E as ->.
  - intros [_ E']%find_some. by apply bool_decide_eq_true in E'.
Qed.

(** Two members with different keys are decoded in any order. *)
Lemma decode_member_swap acc m1 m2 :
  fold_key m1.1 ≠ fold_key m2.1 →
  same_outcome (decode_member fs (decode_member fs acc m1) m2)
               (decode_member fs (decode_member fs acc m2) m1).
Proof.
  intros Hne. unfold decode_member.
  destruct (find_field fs m1.1) as [f|] eqn:E1, (find_field fs m2.1) as [g|] eqn:E2;
    try reflexivity.
  assert (Hfg : key f ≠ key g).
  { intros E. apply Hne. by rewrite <- (find_field_fold _ _ E1), <- (find_field_fold _ _ E2), E. }
  pose proof (find_field_elem _ _ _ E1) as Hf. pose proof (find_field_elem _ _ _ E2) as Hg.
  destruct acc as [x e]. cbn [fst snd].
  destruct (dec m1.2 (get f x)) as [a1 e1] eqn:D1, (dec m2.2 (get g x)) as [a2 e2] eqn:D2.
  cbn [fst snd]. rewrite (get_set_ne f g), (get_set_ne g f), D1, D2 by done.
  split; cbn [fst snd]; [by apply set_set_ne|]. rewrite !first_error_None. tauto.
Qed.

Lemma decode_members_perm ms ms' acc :
  ms ≡ₚ ms' → NoDup (fold_key <$> ms.*1) →
  same_outcome (fold_left (decode_member fs) ms acc) (fold_left (decode_member fs) ms' acc).
Proof.
  intros Hp Hnd. apply (fold_left_perm same_outcome _ (fold_key ∘ fst)); [|done|].
  - intros b x y. apply decode_member_swap.
  - by rewrite list_fmap_compose.
Qed.

(** The members that have no field are skipped. *)
Lemma decode_members_known ms acc :
  fold_left (decode_member fs) ms acc =
  fold_left (decode_member fs) (filter (λ m, known fs m = true) ms) acc.
Proof.
  revert acc. induction ms as [|m ms IH]; intros acc; [done|]. cbn [fold_left].
  destruct (known fs m) eqn:Hk.
  - rewrite filter_cons_True by done. apply IH.
  - rewrite filter_cons_False by (by rewrite Hk). rewrite <- IH. f_equal.
    apply bool_decide_eq_false in Hk. unfold decode_member.
    destruct (find_field fs m.1); [by destruct Hk|done].
Qed.

(** The decoder of a structure reads the members it knows, in any order:
    two objects with the same known members give the same value, and an
    error both or none. *)
Theorem decode_struct_members name ms ms' x :
  filter (λ m, known fs m = true) ms ≡ₚ filter (λ m, known fs m = true) ms' →
  NoDup (fold_key <$> (filter (λ m, known fs m = true) ms).*1) →
  same_outcome (decode_struct fs name (JObject ms) x) (decode_struct fs name (JObject ms') x).
Proof.
  intros Hp Hnd. cbn [decode_struct].
  rewrite (decode_members_known ms), (decode_members_known ms').
  by apply decode_members_perm.
Qed.

(** The members of an encoding are members the decoder knows, with keys
    that differ beyond the case of their letters when those of the fields
    do. *)
Lemma encode_struct_known x ms :
  encode_struct fs x = Ok (JObject ms) → filter (λ m, known fs m = true) ms = ms.
Proof.
  intros E. destruct (encode_struct_keys fs x _ E) as (ms' & [= <-] & Hk).
  apply filter_all, Forall_forall. intros m Hm.
  assert (m.1 ∈ key <$> filter (λ f, written x f = true) fs) as (f & Ef & Hf)%list_elem_of_fmap
    by (rewrite <- Hk; by apply list_elem_of_fmap_2).
  apply list_elem_of_filter in Hf as [_ Hf]. unfold known.
  by rewrite Ef, (find_field_key fs merge ok f Hf), bool_decide_eq_true_2.
Qed.

Lemma encode_struct_distinct x ms :
  NoDup (fold_key ∘ key <$> fs) → encode_struct fs x = Ok (JObject ms) →
  NoDup (fold_key <$> ms.*1).
Proof.
  intros Hnd E. destruct (encode_struct_keys fs x _ E) as (ms' & [= <-] & ->).
  rewrite <- list_fmap_compose. by apply NoDup_fmap_filter.
Qed.

(** An object with the members of the encoding of a value, in any order and
    among members that have no field, decodes to the value. *)
Theorem decode_struct_reordered name x ms ms' :
  NoDup (fold_key ∘ key <$> fs) → ok x → encode_struct fs x = Ok (JObject ms) →
  filter (λ m, known fs m = true) ms' ≡ₚ ms →
  decode_struct fs name (JObject ms') zero = (x, None).
Proof.
  intros Hnd Hx E Hp.
  destruct (struct_round_trip fs merge ok name x Hx) as (v & E' & _ & _ & Hd).
  assert (v = JObject ms) as -> by congruence.
  destruct (decode_struct_members name ms' ms zero) as [Hv He].
  - by rewrite (encode_struct_known x ms).
  - rewrite Hp. by eapply encode_struct_distinct.
  - rewrite Hd in Hv, He. cbn [fst snd] in *.
    destruct (decode_struct fs name (JObject ms') zero) as [y e]. cbn [fst snd] in *.
    subst y. by rewrite (proj2 He).
Qed.
End Members.

(** ** The order of the members of nested objects *)

Ltac atom_unordered :=
  intros v v' a r Hp Hr Hd; destruct Hp; [done|by simplify_eq/=..].

#[global] Instance string_unordered ok : Unordered string ok.
Proof. atom_unordered. Qed.
#[global] Instance bool_unordered ok : Unordered bool ok.
Proof. atom_unordered. Qed.
#[global] Instance integer_unordered t ok : @Unordered Z (JSON_integer t) ok.
Proof. atom_unordered. Qed.
#[global] Instance int_unordered ok : Unordered Z ok.
Proof. atom_unordered. Qed.
#[global] Instance int64_unordered ok : @Unordered Z JSON_int64 ok.
Proof. atom_unordered. Qed.
#[global] Instance float_unordered `{FloatCodec} bits t ok :
  @Unordered spec_float (JSON_float bits t) ok.
Proof. atom_unordered. Qed.
#[global] Instance float32_unordered `{FloatCodec} ok : @Unordered spec_float JSON_float32 ok.
Proof. atom_unordered. Qed.
#[global] Instance float64_unordered `{FloatCodec} ok : @Unordered spec_float JSON_float64 ok.
Proof. atom_unordered. Qed.
#[global] Instance void_unordered {A} `{JSON A} : Unordered A (λ _, False) | 100.
Proof. by intros v v' a r _ []. Qed.

(** What the decoder of every element establishes holds of the elements of
    a decoded slice. *)
Lemma dec_elems_Forall {A} `{JSON A, Zero A} (P : A → Prop) vs :
  (∀ v, P (dec v zero).1) → Forall P (dec_elems vs).1.
Proof.
  intros HP. induction vs as [|v vs IH]; [constructor|]. unfold dec_elems in *. cbn [fold_right].
  specialize (HP v). destruct (dec v zero). by constructor.
Qed.

Section ListUnordered.
Context {A} `{JSON A, Zero A} (ok : A → Prop) `{!Unordered A ok}.

Lemma dec_elems_perm l l' rs :
  Forall2 json_perm l l' → Forall ok rs → dec_elems l = (rs, None) → dec_elems l' = (rs, None).
Proof.
  intros Hp. revert rs. induction Hp as [|v v' l l' Hv Hp IH]; intros rs Hrs; [done|].
  unfold dec_elems in *. cbn [fold_right].
  destruct (dec v zero) as [a e] eqn:D, (fold_right _ _ l) as [rs1 e1] eqn:D1. cbn [fst snd].
  intros [= <- [-> ->]%first_error_None]. apply Forall_cons in Hrs as [Ha Hrs].
  by rewrite (dec_perm v v' zero a Hv Ha D), (IH rs1 Hrs eq_refl).
Qed.

#[global] Instance list_unordered : Unordered (list A) (Forall ok).
Proof.
  intros v v' a r Hp Hr Hd. destruct Hp; [done| |by simplify_eq/=].
  cbn [dec JSON_list] in *. by eapply dec_elems_perm.
Qed.

#[global] Instance pointer_unordered : Unordered (option A) (option_ok ok).
Proof.
  intros v v' a r Hp Hr Hd.
  assert (v ≠ JNull → ∃ x, r = Some x ∧ dec v (default zero a) = (x, None)) as Hsome.
  { intros Hv. destruct v; [done|..]; cbn [dec JSON_option] in Hd;
      destruct (dec _ _) as [x e]; injection Hd as <- ->; by eexists. }
  destruct Hp as [v|l l' Hl|ms ms1 ms' Hnd Hms Hp]; [done|..].
  - destruct Hsome as (x & -> & Hx); [done|]. cbn [dec JSON_option].
    by rewrite (dec_perm _ (JArray l') _ x (json_perm_array _ _ Hl) Hr Hx).
  - destruct Hsome as (x & -> & Hx); [done|]. cbn [dec JSON_option].
    by rewrite (dec_perm _ (JObject ms') _ x (json_perm_object _ _ _ Hnd Hms Hp) Hr Hx).
Qed.
End ListUnordered.

(** A value that the interface type holds within its scope has no object,
    and so one order only. *)
Lemma json_perm_canonical v v' : json_perm v v' → canonical (dec_any v) = true → v' = v.
Proof.
  revert v'. induction v as [|b|lit|s|l IH|l IH] using json_ind; intros v' Hp Hc;
    inversion Hp as [|? l' Hl|]; subst; try done.
  f_equal. cbn in Hc. clear Hp. induction Hl as [|x x' l l' Hx Hl IHl]; [done|].
  apply Forall_cons in IH as [IHx IH]. cbn in Hc. apply andb_prop in Hc as [Hcx Hc].
  by rewrite (IHx x' Hx Hcx), (IHl IH Hc).
Qed.

#[global] Instance any_unordered : Unordered any (λ a, canonical a = true).
Proof.
  intros v v' a r Hp Hr [= <-]. by rewrite (json_perm_canonical v v' Hp Hr).
Qed.

Section MapUnordered.
Context {A} `{JSON A, Zero A} (ok : A → Prop) `{!Unordered A ok}.

Let entry (acc : gmap string A * option error) (kv : string * json) :=
  let '(a, e) := dec kv.2 zero in (<[kv.1 := a]> acc.1, first_error acc.2 e).

#[local] Instance entry_proper : Proper (same_outcome ==> eq ==> same_outcome) entry.
Proof.
  intros [m e] [m' e'] [Hm He] kv ? <-. simpl in Hm. subst m'. unfold entry.
  destruct (dec kv.2 zero) as [a ea]. split; [done|]. cbn [fst snd] in *.
  rewrite !first_error_None. tauto.
Qed.

Lemma entry_swap acc x y :
  x.1 ≠ y.1 → same_outcome (entry (entry acc x) y) (entry (entry acc y) x).
Proof.
  intros Hne. unfold entry. destruct (dec x.2 zero) as [a ea], (dec y.2 zero) as [b eb].
  split; cbn [fst snd]; [by apply insert_insert_ne|]. rewrite !first_error_None. tauto.
Qed.

Lemma entries_error ms acc : (fold_left entry ms acc).2 = None → acc.2 = None.
Proof.
  revert acc. induction ms as [|kv ms IH]; intros acc; [done|]. cbn [fold_left].
  intros E%IH. unfold entry in E. destruct (dec kv.2 zero). by apply first_error_None in E as [? _].
Qed.

Lemma entries_lookup ms acc k :
  k ∉ ms.*1 → (fold_left entry ms acc).1 !! k = acc.1 !! k.
Proof.
  revert acc. induction ms as [|kv ms IH]; intros acc Hk; [done|]. cbn [fold_left].
  rewrite fmap_cons, not_elem_of_cons in Hk. destruct Hk as [Hk Hks].
  rewrite IH by done. unfold entry. destruct (dec kv.2 zero). cbn [fst].
  by apply lookup_insert_ne.
Qed.

Lemma entries_perm ms ms1 m r :
  Forall2 (λ kv kv1, kv.1 = kv1.1 ∧ json_perm kv.2 kv1.2) ms ms1 → NoDup ms.*1 →
  map_scope ok r → fold_left entry ms (m, None) = (r, None) →
  fold_left entry ms1 (m, None) = (r, None).
Proof.
  intros Hp. revert m. induction Hp as [|[k v] [k1 v1] ms ms1 [Hk Hv] Hp IH];
    intros m Hnd Hr Hd; [done|]. cbn [fst snd] in *. subst k1.
  rewrite fmap_cons in Hnd. apply NoDup_cons in Hnd as [Hnotin Hnd].
  cbn [fold_left] in *. pose proof (entries_error _ _ (f_equal snd Hd)) as He.
  pose proof (entries_lookup ms (entry (m, None) (k, v)) k Hnotin) as Hl.
  rewrite Hd in Hl. unfold entry in Hd, He, Hl |- *. cbn [fst snd] in *.
  destruct (dec v zero) as [a e] eqn:D. cbn [fst snd] in *.
  apply first_error_None in He as [_ ->]. rewrite lookup_insert_eq in Hl. rewrite (dec_perm v v1 zero a Hv (proj2 (Hr k a Hl)) D).
  by apply IH.
Qed.

Lemma map_unordered : Unordered (gmap string A) (map_scope ok).
Proof.
  intros v v' a r Hp Hr Hd. destruct Hp as [v|l l' Hl|ms ms1 ms' Hnd Hms Hp]; [done|by simplify_eq/=|].
  cbn [dec JSON_map] in *. fold entry in Hd |- *.
  assert (Hnd' : NoDup ms.*1) by (by apply (NoDup_fmap_1 fold_key)).
  pose proof (entries_perm ms ms1 a r Hms Hnd' Hr Hd) as Hd1.
  destruct (fold_left_perm same_outcome entry fst entry_swap ms1 ms' (a, None) Hp) as [E1 E2].
  - by rewrite <- (Forall2_same_keys (λ m m1, json_perm m.2 m1.2) fst ms ms1 Hms).
  - rewrite Hd1 in E1, E2. destruct (fold_left entry ms' (a, None)) as [r' e']. cbn [fst snd] in *.
    subst r'. by rewrite (proj1 E2).
Qed.
End MapUnordered.

Section StructUnordered.
Context {T : Type} `{Zero T} (fs : list (field T)) (merge : T → T → T) (ok : T → Prop).
Context `{!StructOK fs merge ok, !FieldsUnordered fs ok}.

Lemma decode_members_error ms acc :
  (fold_left (decode_member fs) ms acc).2 = None → acc.2 = None.
Proof.
  revert acc. induction ms as [|m ms IH]; intros acc; [done|]. cbn [fold_left].
  intros E%IH. unfold decode_member in E. destruct (find_field fs m.1); [|done].
  destruct (dec m.2 _). by apply first_error_None in E as [? _].
Qed.

(** A field keeps its value when no member has its key. *)
Lemma decode_members_get f ms acc :
  f ∈ fs → fold_key (key f) ∉ fold_key <$> ms.*1 →
  get f (fold_left (decode_member fs) ms acc).1 = get f acc.1.
Proof.
  intros Hf. revert acc. induction ms as [|m ms IH]; intros acc Hk; [done|].
  cbn [fold_left]. rewrite !fmap_cons, not_elem_of_cons in Hk. destruct Hk as [Hk Hks].
  rewrite IH by done. unfold decode_member. destruct (find_field fs m.1) as [g|] eqn:E; [|done].
  destruct (dec m.2 _) as [a e]. cbn [fst]. apply (get_set_ne g f).
  - by eapply find_field_elem.
  - done.
  - intros Heq. apply Hk. by rewrite <- (find_field_fold _ _ _ E), Heq.
Qed.

Lemma decode_members_nested ms ms1 x r :
  Forall2 (λ m m1, m.1 = m1.1 ∧ json_perm m.2 m1.2) ms ms1 → NoDup (fold_key <$> ms.*1) →
  ok r → fold_left (decode_member fs) ms (x, None) = (r, None) →
  fold_left (decode_member fs) ms1 (x, None) = (r, None).
Proof.
  intros Hp. revert x. induction Hp as [|[k v] [k1 v1] ms ms1 [Hk Hv] Hp IH];
    intros x Hnd Hr Hd; [done|]. cbn [fst snd] in *. subst k1.
  rewrite !fmap_cons in Hnd. apply NoDup_cons in Hnd as [Hnotin Hnd].
  cbn [fold_left] in *. pose proof (decode_members_error _ _ (f_equal snd Hd)) as He.
  unfold decode_member in Hd, He |- *. cbn [fst snd] in *.
  destruct (find_field fs k) as [f|] eqn:E; [|by apply IH].
  pose proof (find_field_elem _ _ _ E) as Hf.
  destruct (dec v (get f x)) as [a e] eqn:D. cbn [fst snd] in *.
  apply first_error_None in He as [_ ->].
  assert (a = get f r) as ->.
  { replace r with (r, @None error).1 by done. rewrite <- Hd, decode_members_get; [|done|].
    - cbn [fst]. by rewrite (get_set f).
    - by rewrite (find_field_fold _ _ _ E). }
  rewrite (field_perm f v v1 _ r Hf Hr Hv D). by apply IH.
Qed.

(** The decoder of a structure reads a value of the scope from any
    reordering of the objects of an input that gives the value. *)
Lemma struct_unordered name : @Unordered T (JSON_struct fs name) ok.
Proof.
  intros v v' a r Hp Hr Hd. destruct Hp as [v|l l' Hl|ms ms1 ms' Hnd Hms Hp]; [done|by simplify_eq/=|].
  cbn [dec JSON_struct decode_struct] in *.
  pose proof (decode_members_nested ms ms1 a r Hms Hnd Hr Hd) as Hd1.
  destruct (decode_members_perm fs merge ok ms1 ms' (a, None) Hp) as [E1 E2].
  - by rewrite <- (Forall2_same_keys (λ m m1, json_perm m.2 m1.2) fst ms ms1 Hms).
  - rewrite Hd1 in E1, E2. destruct (fold_left _ ms' (a, None)) as [r' e']. cbn [fst snd] in *.
    subst r'. by rewrite (proj1 E2).
Qed.

(** An object with the members of the encoding of a value, its objects
    reordered at any depth, among members that have no field, decodes to
    the value. *)
Theorem decode_struct_lenient name x ms ms' :
  ok x → encode_struct fs x = Ok (JObject ms) →
  json_perm (JObject ms) (JObject (filter (λ m, known fs m = true) ms')) →
  decode_struct fs name (JObject ms') zero = (x, None).
Proof.
  intros Hx E Hp.
  destruct (struct_round_trip fs merge ok name x Hx) as (v & E' & _ & _ & Hd).
  assert (v = JObject ms) as -> by congruence.
  pose proof (struct_unordered name _ _ zero x Hp Hx Hd) as Hd'.
  cbn [dec JSON_struct decode_struct] in *. by rewrite decode_members_known.
Qed.
End StructUnordered.

(** Reversing the members of every object is a reordering. *)
Lemma json_perm_reversed v : distinct v = true → json_perm v (reversed v).
Proof.
  induction v as [|b|lit|s|l IH|l IH] using json_ind; cbn [distinct reversed];
    intros Hd; try apply json_perm_refl.
  - apply json_perm_array. induction IH as [|x l Hx _ IHl]; [constructor|].
    cbn in Hd |- *. apply andb_prop in Hd as [??]. constructor; auto.
  - apply andb_prop in Hd as [Hnd Hd]. apply bool_decide_eq_true in Hnd.
    apply json_perm_object with (map (λ m, (m.1, reversed m.2)) l);
      [done| |apply Permutation_rev].
    clear Hnd. induction IH as [|m l Hm _ IHl]; [constructor|].
    cbn in Hd |- *. apply andb_prop in Hd as [??]. constructor; auto.
Qed.

(** ** The laws of a described structure, by cases on its fields *)

Ltac fields_cases :=
  repeat match goal with
  | H : _ ∈ _ :: _ |- _ => apply elem_of_cons in H as [->|H]
  | H : _ ∈ [] |- _ => by apply elem_of_nil in H
  end.

Tactic Notation "field_law" uconstr(law) :=
  cbn [get codec ftype key]; eapply law; destruct_and?; first [assumption | done].

(** [struct_laws fs] proves [StructOK fs merge ok] for the list of fields
    [fs] of a record, when [ok] is the conjunction of the scopes of the
    fields. *)
Tactic Notation "struct_laws" reference(fs) :=
  split; unfold fs;
  [ apply (bool_decide_unpack _); by vm_compute
  | apply Forall_forall; intros f Hf; fields_cases; by vm_compute
  | intros f a [] Hf; fields_cases; reflexivity
  | intros f g a [] Hf Hg Hne; fields_cases; first [reflexivity | done]
  | intros f [] Hf; fields_cases; reflexivity
  | intros f g a b [] Hf Hg Hne; fields_cases; first [reflexivity | done]
  | intros f x Hf Hx; hnf in Hx; fields_cases; field_law enc_dec
  | intros f x Hf Hx; hnf in Hx; fields_cases; field_law empty_zero
  | intros [] []; reflexivity
  | intros [] Hx; hnf in Hx; cbn in *; destruct_and?; by subst ].

(** [fields_unordered fs] proves [FieldsUnordered fs ok] for the list of
    fields [fs] of a record, when [ok] is the conjunction of the scopes of
    the fields. *)
Tactic Notation "fields_unordered" reference(fs) :=
  intros f v v' a r Hf Hr Hp Hd; hnf in Hr; unfold fs in Hf; fields_cases;
  cbn [get codec ftype key] in *;
  (eapply dec_perm; [exact Hp| |exact Hd]); destruct_and?;
  first [ assumption | done
        | match goal with
          | |- ?P ?x => is_evar P; let A := type of x in unify P (λ _ : A, True); exact I
          end ].
