(* ===== verification/Floats.v ===== *)
(** * Floats: floating point numbers as encoding/json writes and reads them

    The structures of the package have fields of type [float32] and
    [float64] (the sampling options of a completion request, the log
    probabilities of a response, the guidance scale of an image request).
    [Codec] leaves the printing and the reading of such numbers to the
    class [FloatCodec].  This file is the instance of Go, [go_floats]:

    - a float is a [spec_float] of the standard library, of the format
      that the width of the Go type gives ([prec_of], [emax_of]);
    - [go_parse_float] is [strconv.ParseFloat] on the literals of JSON:
      the literal is read as a sign, a number and a power of ten
      ([read_decimal]) and rounded to the nearest float, ties to the even
      mantissa ([round_decimal], by the rounding of the standard library
      on an exact integer or an exact quotient); a number beyond the
      largest float is an error, a number below the smallest is a zero;
    - [go_format_float] is the float encoder of encoding/json: the digits
      are the shortest decimal that reads back as the float, the nearest
      to it when there are two ([shortest]: what [strconv.FormatFloat]
      promises for the precision -1), in the format %e below 1e-6 and from
      1e21 on, in the format %f between them ([fmt_e], [fmt_f]), and the
      exponent loses the zero that %e puts before a single digit
      ([clean_exponent]).  The infinities and NaN have no encoding.

    The theorems are [go_float_round_trip]: every finite float of the
    format is printed as a number of JSON that is read back as the same
    float, so [go_floats] satisfies the law [FloatCodecOK] on all the
    floats of a format ([go_floats_ok]); and [go_parse_float_valid]: what
    the decoder reads from a literal is a float of the format
    ([binary_round_aux_valid]: rounding a mantissa of enough bits leaves a
    mantissa and an exponent of the format).  The first rests on
    [round_decimal_exact] (a decimal that is the value of a float is
    rounded to this float: the search of [shortest] ends at the latest
    with all the digits of the value), on [read_decimal_literal] and
    [number_lit_literal] (the parts of a literal are what the reader
    finds, and the literal is a number of the grammar of JSON) and on
    [fmt_f_literal] and [fmt_e_literal] (the two formats are such
    literals).

    Go's functions are not among the sources: the definitions follow the
    documentation of strconv and the code of the encoder.  The search is
    the definition of the shortest decimal, not the algorithm of strconv,
    which finds the same digits faster. *)

From Stdlib Require Import ZArith NArith Ascii String List Lia Floats.SpecFloat.
From stdpp Require Import base tactics option list strings.
From S2P Require Import Prelude Bytes Errors Json Codec.

Set Warnings "-clear-no-such-hyp,-register-all".

(** * Definitions *)

(** ** Formats *)

Definition prec_of (bits : Z) : Z := if (bits =? 32)%Z then 24%Z else 53%Z.
Definition emax_of (bits : Z) : Z := if (bits =? 32)%Z then 128%Z else 1024%Z.

#[global] Instance spec_float_eq_dec : EqDecision spec_float.
Proof. solve_decision. Defined.

(** ** Decimal digits *)

Definition digit (n : N) : ascii := ascii_of_N (48 + n).
Definition digit_val (c : ascii) : N := ord c - 48.

(** The number that a string of digits denotes. *)
Definition dval (l : bytes) : N := fold_left (λ n c, 10 * n + digit_val c)%N l 0%N.

(** The digits of a number, the most significant first; none for zero. *)
Fixpoint digits_fuel (fuel : nat) (n : N) (acc : bytes) : bytes :=
  match fuel with
  | O => acc
  | S fuel => if (n =? 0)%N then acc else digits_fuel fuel (n / 10)%N (digit (n mod 10) :: acc)
  end.

Definition digits_of (n : N) : bytes := digits_fuel (N.to_nat (N.size n)) n [].

(** ** Reading a decimal: [strconv.ParseFloat] *)

Section Format.
Context (prec emax : Z).

(** The float nearest to [m * 10 ^ e10], ties to the even mantissa: an
    infinity beyond the largest float, a zero below half the smallest. *)
Definition round_decimal (neg : bool) (m : N) (e10 : Z) : spec_float :=
  match m with
  | N0 => S754_zero neg
  | Npos p =>
      if (0 <=? e10)%Z then binary_round prec emax neg (Z.to_pos (Zpos p * 10 ^ e10)) 0
      else
        let '(q, e, l) := SFdiv_core_binary prec emax (Zpos p) 0 (10 ^ (- e10))%Z 0 in
        binary_round_aux prec emax neg q e l
  end.

(** ** Printing the shortest decimal: [strconv.FormatFloat] with
    precision -1 *)

(** The value [m * 2 ^ e] as a decimal [M * 10 ^ q]. *)
Definition exact_decimal (m : positive) (e : Z) : N * Z :=
  if (0 <=? e)%Z then (Npos m * 2 ^ Z.to_N e, 0%Z)%N
  else (Npos m * 5 ^ Z.to_N (- e), e)%N.

(** A decimal without zeros at its end. *)
Fixpoint trim_zeros (fuel : nat) (c : N) (e10 : Z) : N * Z :=
  match fuel with
  | O => (c, e10)
  | S fuel => if ((c mod 10 =? 0) && negb (c =? 0))%N then trim_zeros fuel (c / 10)%N (e10 + 1)%Z
              else (c, e10)
  end.

Definition trim (c : N) (e10 : Z) : N * Z := trim_zeros (N.to_nat (N.size c)) c e10.

(** Whether a decimal reads back as the float. *)
Definition reads_back (m : positive) (e : Z) (c : N) (e10 : Z) : bool :=
  bool_decide (round_decimal false (trim c e10).1 (trim c e10).2 = S754_finite false m e).

(** The decimals of [n] digits next to [M * 10 ^ q]: the digits of [M] but
    the last [k], and one more in the last place.  The result is the first
    of them that reads back as the float, for [k] downwards; when both do,
    the nearest, the even one in the middle. *)
Fixpoint shortest_from (m : positive) (e : Z) (M : N) (q : Z) (k : nat) : N * Z :=
  match k with
  | O => (M, q)
  | S k' =>
      let unit := (10 ^ N.of_nat k)%N in
      let down := (M / unit)%N in
      let rest := (M mod unit)%N in
      let e10 := (q + Z.of_nat k)%Z in
      let okdown := reads_back m e down e10 in
      let okup := reads_back m e (down + 1) e10 in
      if okdown && okup then
        match (2 * rest ?= unit)%N with
        | Lt => (down, e10)
        | Gt => (down + 1, e10)%N
        | Eq => if N.even down then (down, e10) else (down + 1, e10)%N
        end
      else if okdown then (down, e10)
      else if okup then ((down + 1)%N, e10)
      else shortest_from m e M q k'
  end.

(** The digits of the shortest decimal of a float and the place of its
    decimal point: the value is [0.d1d2... * 10 ^ dp]. *)
Definition shortest (m : positive) (e : Z) : bytes * Z :=
  let '(M, q) := exact_decimal m e in
  let '(c, e10) := shortest_from m e M q (length (digits_of M) - 1) in
  let '(c, e10) := trim c e10 in
  (digits_of c, (e10 + Z.of_nat (length (digits_of c)))%Z).
End Format.

(** The format %f of a decimal: the digits before the point, zeros up to
    the point when the digits end before it; then the digits after it,
    behind the zeros that follow the point. *)
Definition fmt_f (d : bytes) (dp : Z) : bytes :=
  let nd := Z.of_nat (length d) in
  (if (0 <? dp)%Z then take (Z.to_nat dp) d ++ replicate (Z.to_nat (dp - nd)) "0"%char
   else ["0"%char]) ++
  (if (dp <? nd)%Z then "."%char :: replicate (Z.to_nat (- dp)) "0"%char ++ drop (Z.to_nat dp) d
   else []).

(** The format %e: one digit, the others after a point, and the exponent
    with its sign and two digits at least. *)
Definition fmt_exp (x : Z) : bytes :=
  (if (x <? 0)%Z then "-"%char else "+"%char) ::
  (if (Z.abs x <? 10)%Z then ["0"%char; digit (Z.to_N (Z.abs x))]
   else digits_of (Z.to_N (Z.abs x))).

Definition fmt_e (d : bytes) (dp : Z) : bytes :=
  match d with
  | [] => []
  | c :: d' => c :: (match d' with [] => [] | _ => "."%char :: d' end) ++
               "e"%char :: fmt_exp (dp - 1)
  end.

(** What the encoder of the package json does after %e: an exponent of two
    digits that begins with a zero loses the zero. *)
Definition clean_exponent (b : bytes) : bytes :=
  match rev b with
  | c :: z :: s :: e :: r =>
      if bool_decide (e = "e"%char) &&
         (bool_decide (s = "-"%char) || bool_decide (s = "+"%char)) &&
         bool_decide (z = "0"%char)
      then rev (c :: s :: e :: r) else b
  | _ => b
  end.

(** ** The literals of JSON *)

(** The digits at the front of an input. *)
Fixpoint read_digits (l : bytes) : bytes * bytes :=
  match l with
  | c :: l' => if is_dec c then let '(d, r) := read_digits l' in (c :: d, r) else ([], l)
  | [] => ([], [])
  end.

(** The input after a character, when it begins with the character. *)
Definition read_char (c : ascii) (l : bytes) : option bytes :=
  match l with
  | c' :: r => if bool_decide (c' = c) then Some r else None
  | [] => None
  end.

(** The exponent of a literal: nothing, or the mark, a sign or none, and
    digits up to the end. *)
Definition read_exponent (l : bytes) : option Z :=
  match l with
  | [] => Some 0%Z
  | c :: l' =>
      if is_e c then
        let '(neg, l') := match read_char "-" l', read_char "+" l' with
                          | Some r, _ => (true, r)
                          | None, Some r => (false, r)
                          | None, None => (false, l')
                          end in
        match read_digits l' with
        | ((_ :: _) as d, []) => Some (if neg then - Z.of_N (dval d) else Z.of_N (dval d))%Z
        | _ => None
        end
      else None
  end.

(** The digits after a point, when there is a point. *)
Definition read_fraction (l : bytes) : bytes * bytes :=
  match read_char "." l with
  | Some r => read_digits r
  | None => ([], l)
  end.

(** A number literal as a sign, a number and a power of ten. *)
Definition read_unsigned (neg : bool) (l : bytes) : option (bool * N * Z) :=
  let '(ip, l) := read_digits l in
  let '(fp, l) := read_fraction l in
  match ip with
  | [] => None
  | _ => x ← read_exponent l; Some (neg, dval (ip ++ fp), (x - Z.of_nat (length fp))%Z)
  end.

Definition read_decimal (l : bytes) : option (bool * N * Z) :=
  match read_char "-" l with
  | Some r => read_unsigned true r
  | None => read_unsigned false l
  end.

(** ** The codec of Go *)

(** [strconv.ParseFloat] on a JSON literal, as the decoder of the package
    json calls it: a number beyond the largest float is an error. *)
Definition go_parse_float (bits : Z) (lit : string) : option spec_float :=
  '(neg, m, e10) ← read_decimal (bs lit);
  match round_decimal (prec_of bits) (emax_of bits) neg m e10 with
  | S754_infinity _ | S754_nan => None
  | f => Some f
  end.

(** The float encoder of the package json: the format %e below 1e-6 and
    from 1e21 on, the format %f between them, the shortest digits in both. *)
Definition go_format_float (bits : Z) (f : spec_float) : option string :=
  match f with
  | S754_nan | S754_infinity _ => None
  | S754_zero s => Some (if s then "-0" else "0")%string
  | S754_finite s m e =>
      let prec := prec_of bits in
      let emax := emax_of bits in
      let abs := S754_finite false m e in
      let '(d, dp) := shortest prec emax m e in
      let body :=
        if SFltb abs (round_decimal prec emax false 1 (-6)) ||
           negb (SFltb abs (round_decimal prec emax false 1 21))
        then clean_exponent (fmt_e d dp) else fmt_f d dp in
      Some (string_of_bytes ((if s then ["-"%char] else []) ++ body))
  end.

Definition go_floats : FloatCodec := {|
  format_float := go_format_float;
  parse_float := go_parse_float;
|}.

(** ** The notions of the theorems *)

(** A decimal digit. *)
Definition digit_char (c : ascii) : Prop := is_dec c = true.

(** Digits that do not begin with a zero. *)
Definition leading (d : bytes) : Prop := ∃ c r, d = c :: r ∧ c ≠ "0"%char.

(** An input that does not go on with a digit. *)
Definition no_digit (r : bytes) : Prop :=
  match r with c :: _ => is_dec c = false | [] => True end.

(** The parts of a literal: the sign, the digits before and after the
    point, the sign and the digits of the exponent. *)
Definition exponent (ex : option (bool * bytes)) : bytes :=
  match ex with
  | None => []
  | Some (s, ed) => "e"%char :: (if s : bool then "-"%char else "+"%char) :: ed
  end.

Definition fraction (fp : bytes) : bytes :=
  match fp with [] => [] | _ => "."%char :: fp end.

Definition literal (neg : bool) (ip fp : bytes) (ex : option (bool * bytes)) : bytes :=
  (if neg then ["-"%char] else []) ++ ip ++ fraction fp ++ exponent ex.

Definition exponent_val (ex : option (bool * bytes)) : Z :=
  match ex with
  | None => 0
  | Some (s, ed) => if s : bool then - Z.of_N (dval ed) else Z.of_N (dval ed)
  end%Z.

Definition exponent_ok (ex : option (bool * bytes)) : Prop :=
  match ex with None => True | Some (_, ed) => Forall digit_char ed ∧ ed ≠ [] end.

(** The integer digits of a literal: a zero, or digits that begin with
    another digit. *)
Definition integer_digits (ip : bytes) : Prop :=
  Forall digit_char ip ∧ (ip = ["0"%char] ∨ ∃ c r, ip = c :: r ∧ c ≠ "0"%char).

(** The digits before and after the point of the format %f. *)
Definition before_point (d : bytes) (dp : Z) : bytes :=
  if (0 <? dp)%Z then take (Z.to_nat dp) d ++ replicate (Z.to_nat (dp - Z.of_nat (length d))) "0"%char
  else ["0"%char].

Definition after_point (d : bytes) (dp : Z) : bytes :=
  if (dp <? Z.of_nat (length d))%Z then replicate (Z.to_nat (- dp)) "0"%char ++ drop (Z.to_nat dp) d else [].

(** The digits of the exponent that the encoder leaves. *)
Definition exponent_digits (x : Z) : bytes :=
  if (Z.abs x <? 10)%Z then [digit (Z.to_N (Z.abs x))] else digits_of (Z.to_N (Z.abs x)).

Definition exponent_of (x : Z) : option (bool * bytes) := Some ((x <? 0)%Z, exponent_digits x).

(** The decimal [c * 10 ^ e10] is the value of the float [m * 2 ^ e]. *)
Definition denotes (c : N) (e10 : Z) (m : positive) (e : Z) : Prop :=
  (Z.of_N c * 10 ^ Z.max e10 0 * 2 ^ Z.max (- e) 0 =
   Zpos m * 2 ^ Z.max e 0 * 10 ^ Z.max (- e10) 0)%Z.

(** The sign of a float. *)
Definition with_sign (s : bool) (f : spec_float) : spec_float :=
  match f with
  | S754_zero _ => S754_zero s
  | S754_infinity _ => S754_infinity s
  | S754_nan => S754_nan
  | S754_finite _ m e => S754_finite s m e
  end.

Definition finite (f : spec_float) : bool :=
  match f with S754_zero _ | S754_finite _ _ _ => true | _ => false end.

(** The floats of a format: the finite numbers with a mantissa and an
    exponent of the format. *)
Definition go_float (bits : Z) (f : spec_float) : Prop :=
  finite f = true ∧ valid_binary (prec_of bits) (emax_of bits) f = true.

(** * Lemmas *)

(** ** Exact rounding *)

Section Rounding.
#[local] Open Scope Z_scope.

Lemma digits2_size p : digits2_pos p = Pos.size p.
Proof. induction p; simpl; congruence. Qed.

(** The number of bits of a positive number. *)
Lemma digits2_bounds p : 2 ^ (Zpos (digits2_pos p) - 1) ≤ Zpos p < 2 ^ Zpos (digits2_pos p).
Proof.
  induction p as [p IH|p IH|]; cbn [digits2_pos]; [..|done];
    rewrite Pos2Z.inj_succ; replace (Z.succ (Zpos (digits2_pos p)) - 1) with
      (Z.succ (Zpos (digits2_pos p) - 1)) by lia; rewrite !Z.pow_succ_r by lia; lia.
Qed.

Lemma digits2_unique p d : 2 ^ (d - 1) ≤ Zpos p < 2 ^ d → Zpos (digits2_pos p) = d.
Proof.
  intros [H1 H2]. destruct (digits2_bounds p) as [H3 H4].
  destruct (Z.lt_trichotomy (Zpos (digits2_pos p)) d) as [Hlt|[->|Hgt]]; [|done|].
  - assert (2 ^ Zpos (digits2_pos p) ≤ 2 ^ (d - 1)) by (apply Z.pow_le_mono_r; lia). lia.
  - assert (2 ^ d ≤ 2 ^ (Zpos (digits2_pos p) - 1)) by (apply Z.pow_le_mono_r; lia). lia.
Qed.

Lemma digits2_shift p q n :
  0 ≤ n → Zpos q = Zpos p * 2 ^ n → Zpos (digits2_pos q) = Zpos (digits2_pos p) + n.
Proof.
  intros Hn Hq. apply digits2_unique. destruct (digits2_bounds p) as [H1 H2]. rewrite Hq.
  replace (Zpos (digits2_pos p) + n - 1) with (Zpos (digits2_pos p) - 1 + n) by lia.
  rewrite !Z.pow_add_r by lia. nia.
Qed.

Lemma iter_pos_nat {A} (f : A → A) p x :
  SpecFloat.iter_pos f p x = Nat.iter (Pos.to_nat p) f x.
Proof.
  revert x. induction p as [p IH|p IH|]; intros x; cbn [SpecFloat.iter_pos]; [..|done];
    rewrite !IH, ?Pos2Nat.inj_xI, ?Pos2Nat.inj_xO, ?Nat.iter_succ_r;
    replace (2 * Pos.to_nat p)%nat with (Pos.to_nat p + Pos.to_nat p)%nat by lia;
    by rewrite Nat.iter_add.
Qed.

Lemma shr_1_exact q :
  shr_1 (Build_shr_record (Zpos q * 2) false false) = Build_shr_record (Zpos q) false false.
Proof. by rewrite Z.mul_comm. Qed.

Lemma shr_nat_exact m n :
  Nat.iter n shr_1 (Build_shr_record (Zpos m * 2 ^ Z.of_nat n) false false) =
  Build_shr_record (Zpos m) false false.
Proof.
  induction n as [|n IH]; [by rewrite Z.mul_1_r|].
  rewrite Nat.iter_succ_r, Nat2Z.inj_succ, Z.pow_succ_r by lia.
  replace (Zpos m * (2 * 2 ^ Z.of_nat n)) with (Zpos (m * Z.to_pos (2 ^ Z.of_nat n)) * 2).
  - rewrite shr_1_exact. rewrite Pos2Z.inj_mul, Z2Pos.id by (apply Z.pow_pos_nonneg; lia). done.
  - rewrite Pos2Z.inj_mul, Z2Pos.id by (apply Z.pow_pos_nonneg; lia). lia.
Qed.

Lemma shr_exact m e n :
  0 ≤ n →
  shr (Build_shr_record (Zpos m * 2 ^ n) false false) e n =
  (Build_shr_record (Zpos m) false false, e + n).
Proof.
  intros Hn. destruct n as [|p|p]; [by rewrite Z.mul_1_r, Z.add_0_r| |lia].
  cbn [shr]. rewrite iter_pos_nat. by rewrite <- (positive_nat_Z p) at 1; rewrite shr_nat_exact.
Qed.

Lemma Zpos_ex z : 0 < z → ∃ p, z = Zpos p.
Proof. destruct z; [lia|by eexists|lia]. Qed.

Lemma digits2_mul_le p q r :
  Zpos r = Zpos p * Zpos q → Zpos (digits2_pos r) ≤ Zpos (digits2_pos p) + Zpos (digits2_pos q).
Proof.
  intros Hr. destruct (digits2_bounds p) as [_ Hp], (digits2_bounds q) as [_ Hq],
    (digits2_bounds r) as [Hr' _].
  assert (2 ^ (Zpos (digits2_pos r) - 1) < 2 ^ (Zpos (digits2_pos p) + Zpos (digits2_pos q))) as H.
  { rewrite Z.pow_add_r by lia. nia. }
  apply Z.pow_lt_mono_r_iff in H; lia.
Qed.

Lemma iter_xO p d : Zpos (Pos.iter xO p d) = Zpos p * 2 ^ Zpos d.
Proof.
  induction d as [|d IH] using Pos.peano_ind.
  - simpl. lia.
  - rewrite Pos.iter_succ, Pos2Z.inj_succ, Z.pow_succ_r, Pos2Z.inj_xO, IH by lia. lia.
Qed.

Lemma div_eucl_exact a b : b ≠ 0 → Z.div_eucl (a * b) b = (a, 0).
Proof.
  intros Hb. pose proof (Z.div_mul a b Hb) as Hd. pose proof (Z.mod_mul a b Hb) as Hm.
  unfold Z.div, Z.modulo in Hd, Hm. destruct (Z.div_eucl (a * b) b). simpl in *. congruence.
Qed.

Section Exact.
Context (prec emax : Z).

(** A mantissa with zero bits at its end and the exponent that makes it
    the value of a float: rounding gives the float. *)
Lemma binary_round_aux_exact s m e n :
  bounded prec emax m e = true → 0 ≤ n →
  binary_round_aux prec emax s (Zpos m * 2 ^ n) (e - n) loc_Exact = S754_finite s m e.
Proof.
  intros [Hc He]%andb_prop Hn. unfold canonical_mantissa in Hc.
  apply Z.eqb_eq in Hc. apply Z.leb_le in He.
  destruct (Zpos_ex (Zpos m * 2 ^ n)) as [q Hq];
    [apply Z.mul_pos_pos; [done|by apply Z.pow_pos_nonneg]|]. symmetry in Hq.
  unfold binary_round_aux, shr_fexp. rewrite <- Hq. cbn [Zdigits2 shr_record_of_loc].
  rewrite (digits2_shift m q n Hn Hq).
  replace (Zpos (digits2_pos m) + n + (e - n)) with (Zpos (digits2_pos m) + e) by lia.
  rewrite Hc, Hq. replace (e - (e - n)) with n by lia. rewrite shr_exact by done.
  cbn [shr_m loc_of_shr_record round_nearest_even Zdigits2].
  replace (e - n + n) with e by lia. rewrite Hc, Z.sub_diag. cbn [shr shr_m].
  by rewrite (proj2 (Z.leb_le _ _) He).
Qed.

Lemma binary_round_exact s p m e :
  bounded prec emax m e = true →
  Zpos p * 2 ^ Z.max (- e) 0 = Zpos m * 2 ^ Z.max e 0 →
  binary_round prec emax s p 0 = S754_finite s m e.
Proof.
  intros Hb Hv. pose proof Hb as [Hc _]%andb_prop. apply Z.eqb_eq in Hc.
  unfold binary_round. destruct (Z.le_gt_cases 0 e) as [He|He].
  - rewrite (Z.max_r (- e)), (Z.max_l e), Z.pow_0_r, Z.mul_1_r in Hv by lia.
    rewrite (digits2_shift m p e He Hv), Z.add_0_r, Hc. unfold shl_align.
    pose proof (binary_round_aux_exact s m e e Hb He) as H. rewrite Z.sub_diag, <- Hv in H.
    replace (e - 0) with e by lia. by destruct e.
  - rewrite (Z.max_l (- e)), (Z.max_r e), Z.pow_0_r, Z.mul_1_r in Hv by lia. symmetry in Hv.
    pose proof (digits2_shift p m (- e) ltac:(lia) Hv) as Hd.
    replace (Zpos (digits2_pos p) + 0) with (Zpos (digits2_pos m) + e) by lia.
    rewrite Hc. unfold shl_align. replace (e - 0) with e by lia.
    destruct e as [|e|e]; [lia..|]. rewrite <- (Z.sub_0_r (Zneg e)) at 1.
    assert (Zpos (Pos.iter xO p e) = Zpos m * 2 ^ 0) as ->.
    { rewrite iter_xO, Z.pow_0_r, Z.mul_1_r. exact (eq_sym Hv). }
    by apply binary_round_aux_exact.
Qed.

Lemma div_round_exact s p k m e :
  bounded prec emax m e = true → 0 < k →
  Zpos p * 2 ^ Z.max (- e) 0 = Zpos m * 2 ^ Z.max e 0 * 10 ^ k →
  (let '(q, e', l) := SFdiv_core_binary prec emax (Zpos p) 0 (10 ^ k) 0 in
   binary_round_aux prec emax s q e' l) = S754_finite s m e.
Proof.
  intros Hb Hk Hv. pose proof Hb as [Hc _]%andb_prop. apply Z.eqb_eq in Hc.
  destruct (Zpos_ex (10 ^ k)) as [t Ht]; [by apply Z.pow_pos_nonneg; lia|]. rewrite Ht in *.
  unfold SFdiv_core_binary. cbn [Zdigits2]. rewrite !Z.add_0_r. change (0 - 0) with 0.
  set (e' := Z.min _ 0).
  assert (e' ≤ 0) as He0 by apply Z.le_min_r.
  assert (e' ≤ e) as He.
  { destruct (Z.le_gt_cases 0 e) as [?|Hneg]; [lia|]. etrans; [apply Z.le_min_l|].
    rewrite (Z.max_l (- e)), (Z.max_r e), Z.pow_0_r, Z.mul_1_r in Hv by lia.
    destruct (Zpos_ex (Zpos p * 2 ^ (- e))) as [r Hr];
      [apply Z.mul_pos_pos; [done|apply Z.pow_pos_nonneg; lia]|].
    pose proof (digits2_shift p r (- e) ltac:(lia) (eq_sym Hr)) as Hd.
    rewrite Hr in Hv. pose proof (digits2_mul_le m t r Hv) as Hle.
    unfold fexp in *. lia. }
  assert ((match 0 - e' with Z.pos _ => Z.shiftl (Zpos p) (0 - e') | 0 => Zpos p | _ => 0 end) =
          Zpos m * 2 ^ (e - e') * Zpos t) as ->.
  { assert (Zpos p * 2 ^ (0 - e') = Zpos m * 2 ^ (e - e') * Zpos t) as <-.
    { destruct (Z.le_gt_cases 0 e) as [?|Hneg].
      - rewrite (Z.max_r (- e)), (Z.max_l e), Z.pow_0_r, Z.mul_1_r in Hv by lia.
        rewrite Hv. replace (e - e') with (e + (0 - e')) by lia.
        rewrite Z.pow_add_r by lia. lia.
      - rewrite (Z.max_l (- e)), (Z.max_r e), Z.pow_0_r, Z.mul_1_r in Hv by lia.
        replace (0 - e') with (- e + (e - e')) by lia. rewrite Z.pow_add_r by lia.
        rewrite Z.mul_assoc, Hv. lia. }
    destruct (0 - e') as [|x|x] eqn:E; [lia| |lia]. by rewrite Z.shiftl_mul_pow2. }
  rewrite div_eucl_exact by done. unfold new_location, new_location_even, new_location_odd.
  cbn [Z.eqb]. replace e' with (e - (e - e')) at 2 by lia.
  destruct (Z.even (Zpos t)); apply binary_round_aux_exact; (done || lia).
Qed.

(** A decimal that is the value of a float is read as the float. *)
Lemma round_decimal_exact s c e10 m e :
  bounded prec emax m e = true → denotes c e10 m e →
  round_decimal prec emax s c e10 = S754_finite s m e.
Proof.
  intros Hb Hv. unfold denotes in Hv. destruct c as [|p]; [simpl in Hv; lia|].
  unfold round_decimal. destruct (Z.leb_spec 0 e10) as [He|He].
  - rewrite (Z.max_l e10), (Z.max_r (- e10)), Z.pow_0_r, Z.mul_1_r in Hv by lia.
    apply binary_round_exact; [done|]. rewrite Z2Pos.id; [done|].
    apply Z.mul_pos_pos; [done|by apply Z.pow_pos_nonneg].
  - rewrite (Z.max_r e10), (Z.max_l (- e10)), Z.pow_0_r, Z.mul_1_r in Hv by lia.
    apply div_round_exact; [done|lia|done].
Qed.
End Exact.
End Rounding.

(** ** Rounding gives floats of the format *)

Section Valid.
#[local] Open Scope Z_scope.
Context (prec emax : Z) (Hprec : 0 < prec).

Lemma Zdigits2_nonneg m : 0 ≤ Zdigits2 m.
Proof. by destruct m. Qed.

Lemma shr_1_m mrs : 0 ≤ shr_m mrs → shr_m (shr_1 mrs) = Z.div2 (shr_m mrs).
Proof. destruct mrs as [[|[p|p|]|p] r s]; simpl; (done || lia). Qed.

Lemma Zdigits2_div2 m : 0 ≤ m → Zdigits2 (Z.div2 m) = Z.max 0 (Zdigits2 m - 1).
Proof. destruct m as [|[p|p|]|p]; simpl; lia. Qed.

Lemma div2_nonneg m : 0 ≤ m → 0 ≤ Z.div2 m.
Proof. intros. by apply Z.div2_nonneg. Qed.

Lemma shr_nat_spec n mrs :
  0 ≤ shr_m mrs →
  0 ≤ shr_m (Nat.iter n shr_1 mrs) ∧
  Zdigits2 (shr_m (Nat.iter n shr_1 mrs)) = Z.max 0 (Zdigits2 (shr_m mrs) - Z.of_nat n).
Proof.
  intros Hm. induction n as [|n [IH1 IH2]].
  - change (Nat.iter 0 shr_1 mrs) with mrs. split; [done|].
    pose proof (Zdigits2_nonneg (shr_m mrs)). lia.
  - change (Nat.iter (S n) shr_1 mrs) with (shr_1 (Nat.iter n shr_1 mrs)).
    rewrite shr_1_m by done. split; [by apply div2_nonneg|].
    rewrite Zdigits2_div2, IH2 by done. lia.
Qed.

(** A shift to the right: the exponent grows by the number of places, the
    mantissa loses as many bits. *)
Lemma shr_spec mrs e n :
  0 ≤ shr_m mrs →
  (shr mrs e n).2 = e + Z.max n 0 ∧ 0 ≤ shr_m (shr mrs e n).1 ∧
  Zdigits2 (shr_m (shr mrs e n).1) = Z.max 0 (Zdigits2 (shr_m mrs) - Z.max n 0).
Proof.
  intros Hm. pose proof (Zdigits2_nonneg (shr_m mrs)).
  destruct n as [|p|p]; cbn [shr fst snd]; [split_and!; lia| |split_and!; lia].
  rewrite iter_pos_nat. destruct (shr_nat_spec (Pos.to_nat p) mrs Hm) as [H1 H2].
  rewrite positive_nat_Z in H2. split_and!; [lia|done|]. rewrite H2. lia.
Qed.

Lemma shr_m_of_loc m l : shr_m (shr_record_of_loc m l) = m.
Proof. by destruct l as [|[]]. Qed.

Lemma round_nearest_even_cases m l :
  round_nearest_even m l = m ∨ round_nearest_even m l = m + 1.
Proof. destruct l as [|[]]; simpl; auto. destruct (Z.even m); auto. Qed.

(** One more than a number has as many bits, or one bit more. *)
Lemma Zdigits2_succ m :
  0 ≤ m → Zdigits2 (m + 1) = Zdigits2 m ∨ Zdigits2 (m + 1) = Zdigits2 m + 1.
Proof.
  intros Hm. destruct m as [|p|p]; [by right| |lia].
  destruct (Zpos_ex (Zpos p + 1)) as [q Hq]; [lia|]. rewrite Hq. cbn [Zdigits2].
  destruct (digits2_bounds p) as [H1 H2], (digits2_bounds q) as [H3 H4].
  destruct (Z.eq_dec (Zpos q) (2 ^ Zpos (digits2_pos p))) as [E|E].
  - right. apply digits2_unique. rewrite E. replace (Zpos (digits2_pos p) + 1 - 1) with
      (Zpos (digits2_pos p)) by lia. split; [lia|]. apply Z.pow_lt_mono_r; lia.
  - left. apply digits2_unique. lia.
Qed.

(** Rounding a mantissa that has the bits of the format at least gives a
    float of the format, a zero or an infinity. *)
Lemma binary_round_aux_valid s mx ex lx :
  0 ≤ mx → ex ≤ fexp prec emax (Zdigits2 mx + ex) →
  valid_binary prec emax (binary_round_aux prec emax s mx ex lx) = true.
Proof.
  intros Hmx Hex. unfold binary_round_aux, shr_fexp.
  destruct (shr_spec (shr_record_of_loc mx lx) ex
              (fexp prec emax (Zdigits2 mx + ex) - ex)) as (He1 & Hm1 & Hd1);
    [by rewrite shr_m_of_loc|]. rewrite shr_m_of_loc in Hd1.
  destruct (shr _ _ _) as [mrs1 e1]. cbn [fst snd] in *.
  set (m1 := round_nearest_even _ _).
  assert (0 ≤ m1) as Hm1'.
  { subst m1.
    destruct (round_nearest_even_cases (shr_m mrs1) (loc_of_shr_record mrs1)) as [-> | ->]; lia. }
  assert (e1 ≤ fexp prec emax (Zdigits2 m1 + e1) ∧
          (fexp prec emax (Zdigits2 m1 + e1) = e1 ∨
           fexp prec emax (Zdigits2 m1 + e1) = e1 + 1 ∧ 1 < Zdigits2 m1 ∨ m1 = 0)) as [Hle Hcases].
  { subst m1. pose proof (Zdigits2_nonneg mx).
    destruct (round_nearest_even_cases (shr_m mrs1) (loc_of_shr_record mrs1)) as [-> | ->].
    - unfold fexp in *. destruct (Z.eq_dec (shr_m mrs1) 0) as [E|Hnz];
        [rewrite E in *; cbn [Zdigits2] in *; lia|].
      assert (0 < Zdigits2 (shr_m mrs1)) by (destruct (shr_m mrs1); simpl; lia). lia.
    - destruct (Zdigits2_succ (shr_m mrs1) Hm1) as [-> | ->]; unfold fexp in *.
      + destruct (Z.eq_dec (shr_m mrs1) 0) as [E|Hnz];
          [rewrite E in *; cbn [Zdigits2 Z.add] in *; lia|].
        assert (0 < Zdigits2 (shr_m mrs1)) by (destruct (shr_m mrs1); simpl; lia). lia.
      + lia. }
  destruct (shr_spec (shr_record_of_loc m1 loc_Exact) e1
              (fexp prec emax (Zdigits2 m1 + e1) - e1)) as (He2 & Hm2 & Hd2);
    [by rewrite shr_m_of_loc|]. rewrite shr_m_of_loc in Hd2.
  destruct (shr _ _ _) as [mrs2 e2]. cbn [fst snd] in *.
  destruct (shr_m mrs2) as [|m|m] eqn:Em; [done| |lia].
  destruct (Z.leb_spec e2 (emax - prec)) as [Hb|Hb]; [|done]. cbn [valid_binary].
  unfold bounded, canonical_mantissa. rewrite (proj2 (Z.leb_le _ _) Hb), andb_true_r.
  apply Z.eqb_eq. cbn [Zdigits2] in Hd2. unfold fexp in *. lia.
Qed.

Lemma binary_round_valid s mx ex :
  valid_binary prec emax (binary_round prec emax s mx ex) = true.
Proof.
  unfold binary_round, shl_align.
  destruct (fexp prec emax (Zpos (digits2_pos mx) + ex) - ex) as [|d|d] eqn:E;
    apply binary_round_aux_valid; cbn [Zdigits2]; try done; try lia.
  rewrite (digits2_shift mx (Pos.iter xO mx d) (Zpos d)) by (done || apply iter_xO).
  unfold fexp in *. lia.
Qed.

Lemma Zdigits2_lower q k : 0 ≤ k → 2 ^ k ≤ q → k + 1 ≤ Zdigits2 q.
Proof.
  intros Hk Hq. destruct q as [|q|q]; [pose proof (Z.pow_pos_nonneg 2 k); lia| |lia].
  cbn [Zdigits2]. destruct (digits2_bounds q) as [_ H].
  assert (2 ^ k < 2 ^ Zpos (digits2_pos q)) as Hlt by lia.
  apply Z.pow_lt_mono_r_iff in Hlt; lia.
Qed.

Lemma div_round_valid s p t :
  valid_binary prec emax
    (let '(q, e, l) := SFdiv_core_binary prec emax (Zpos p) 0 (Zpos t) 0 in
     binary_round_aux prec emax s q e l) = true.
Proof.
  unfold SFdiv_core_binary. cbn [Zdigits2]. rewrite !Z.add_0_r. change (0 - 0) with 0.
  set (d1 := Zpos (digits2_pos p)). set (d2 := Zpos (digits2_pos t)).
  set (e' := Z.min _ 0). assert (e' ≤ 0) as He0 by apply Z.le_min_r.
  assert ((match 0 - e' with Z.pos _ => Z.shiftl (Zpos p) (0 - e') | 0 => Zpos p | _ => 0 end) =
          Zpos p * 2 ^ (- e')) as ->.
  { destruct (0 - e') as [|x|x] eqn:E; [|rewrite Z.shiftl_mul_pow2 by lia|lia].
    - replace (- e') with 0 by lia. lia.
    - do 2 f_equal. lia. }
  pose proof (Z_div_mod (Zpos p * 2 ^ (- e')) (Zpos t) ltac:(done)) as Hdiv.
  destruct (Z.div_eucl _ _) as [q r]. destruct Hdiv as [Hq Hr].
  assert (0 < 2 ^ (- e')) as Hpow by (apply Z.pow_pos_nonneg; lia).
  assert (0 ≤ q) as Hq0 by nia.
  apply binary_round_aux_valid; [done|].
  destruct (digits2_bounds p) as [Hp _], (digits2_bounds t) as [_ Ht]. fold d1 in Hp. fold d2 in Ht.
  destruct (Z.le_gt_cases 0 (d1 - e' - 1 - d2)) as [Ha|Ha].
  - assert (2 ^ (d1 - e' - 1 - d2) ≤ q) as Hlow.
    { assert (2 ^ (d1 - 1) * 2 ^ (- e') = 2 ^ (d1 - e' - 1 - d2) * 2 ^ d2) as Hsplit.
      { rewrite <- !Z.pow_add_r by lia. f_equal. lia. }
      assert (0 < 2 ^ (d1 - e' - 1 - d2)) by (apply Z.pow_pos_nonneg; lia).
      apply Z.lt_succ_r. apply (Z.mul_lt_mono_pos_r (Zpos t)); [done|]. nia. }
    pose proof (Zdigits2_lower q _ Ha Hlow) as Hd. subst e'. unfold fexp in *. lia.
  - pose proof (Zdigits2_nonneg q). subst e'. unfold fexp in *. lia.
Qed.

(** What the reader makes of a decimal is a float of the format, a zero or
    an infinity. *)
Lemma round_decimal_valid s c e10 :
  valid_binary prec emax (round_decimal prec emax s c e10) = true.
Proof.
  unfold round_decimal. destruct c as [|p]; [done|]. case_match.
  - apply binary_round_valid.
  - destruct (Zpos_ex (10 ^ (- e10))) as [t ->]; [apply Z.pow_pos_nonneg; lia|].
    apply div_round_valid.
Qed.
End Valid.

(** ** Digits *)

Section Digits.
#[local] Open Scope N_scope.

Lemma ord_digit n : n < 10 → ord (digit n) = 48 + n.
Proof. intros Hn. unfold ord, digit. apply N_ascii_embedding. lia. Qed.

Lemma digit_val_digit n : n < 10 → digit_val (digit n) = n.
Proof. intros Hn. unfold digit_val. rewrite ord_digit by done. lia. Qed.

Lemma is_dec_digit n : n < 10 → is_dec (digit n) = true.
Proof.
  intros Hn. unfold is_dec. rewrite ord_digit by done.
  apply andb_true_intro. split; apply N.leb_le; lia.
Qed.

Lemma digit_zero n : n < 10 → digit n = "0"%char → n = 0.
Proof. intros Hn H. apply (f_equal ord) in H. rewrite ord_digit in H by done. simpl in H. lia. Qed.

Lemma is_dec_val c : is_dec c = true → digit_val c < 10 ∧ digit (digit_val c) = c.
Proof.
  unfold is_dec, digit_val, digit. intros [H1%N.leb_le H2%N.leb_le]%andb_prop. split; [lia|].
  replace (48 + (ord c - 48)) with (ord c) by lia. apply ascii_N_embedding.
Qed.

(** The value of a string of digits. *)
Lemma dval_acc l a : fold_left (λ n c, 10 * n + digit_val c) l a = a * 10 ^ N.of_nat (length l) + dval l.
Proof.
  unfold dval. revert a. induction l as [|c l IH]; intros a; cbn [fold_left length].
  - simpl. lia.
  - rewrite IH, (IH (10 * 0 + _)), Nat2N.inj_succ, N.pow_succ_r'. lia.
Qed.

Lemma dval_app l l' : dval (l ++ l') = dval l * 10 ^ N.of_nat (length l') + dval l'.
Proof. unfold dval at 1. by rewrite fold_left_app, dval_acc. Qed.

Lemma dval_cons c l : dval (c :: l) = digit_val c * 10 ^ N.of_nat (length l) + dval l.
Proof. change (c :: l) with ([c] ++ l). rewrite dval_app. unfold dval at 1. simpl. lia. Qed.

Lemma dval_zeros k : dval (replicate k "0"%char) = 0.
Proof. induction k as [|k IH]; [done|]. cbn [replicate]. rewrite dval_cons, IH. done. Qed.

Lemma digits_zeros k : Forall digit_char (replicate k "0"%char).
Proof. by apply Forall_replicate. Qed.

(** The digits of a number. *)
Lemma digits_fuel_dval fuel n acc :
  n < 2 ^ N.of_nat fuel →
  dval (digits_fuel fuel n acc) = n * 10 ^ N.of_nat (length acc) + dval acc.
Proof.
  revert n acc. induction fuel as [|fuel IH]; intros n acc Hn; cbn [digits_fuel].
  - simpl in Hn. assert (n = 0) as -> by lia. done.
  - destruct (N.eqb_spec n 0) as [->|Hne]; [done|].
    rewrite Nat2N.inj_succ, N.pow_succ_r' in Hn.
    assert (n / 10 < 2 ^ N.of_nat fuel) by (apply N.Div0.div_lt_upper_bound; lia).
    assert (n mod 10 < 10) by (apply N.mod_lt; lia).
    rewrite IH, dval_cons, digit_val_digit by done.
    cbn [length]. rewrite Nat2N.inj_succ, N.pow_succ_r'.
    pose proof (N.Div0.div_mod n 10). lia.
Qed.

Lemma digits_of_dval n : dval (digits_of n) = n.
Proof.
  unfold digits_of. rewrite digits_fuel_dval; [by rewrite N.mul_1_r, N.add_0_r|].
  rewrite N2Nat.id. apply N.size_gt.
Qed.

Lemma digits_fuel_digits fuel n acc : Forall digit_char acc → Forall digit_char (digits_fuel fuel n acc).
Proof.
  revert n acc. induction fuel as [|fuel IH]; intros n acc Hacc; cbn [digits_fuel]; [done|].
  case_match; [done|]. apply IH. constructor; [|done]. apply is_dec_digit, N.mod_lt. lia.
Qed.

Lemma digits_of_digits n : Forall digit_char (digits_of n).
Proof. by apply digits_fuel_digits. Qed.

Lemma digits_fuel_head fuel n acc :
  n < 2 ^ N.of_nat fuel → n ≠ 0 →
  ∃ c r, digits_fuel fuel n acc = c :: r ∧ c ≠ "0"%char.
Proof.
  revert n acc. induction fuel as [|fuel IH]; intros n acc Hn Hne; cbn [digits_fuel].
  - simpl in Hn. lia.
  - destruct (N.eqb_spec n 0) as [->|_]; [done|].
    rewrite Nat2N.inj_succ, N.pow_succ_r' in Hn.
    destruct (N.eq_dec (n / 10) 0) as [Hz|Hnz].
    + rewrite Hz. exists (digit (n mod 10)), acc. split; [by destruct fuel|].
      intros H%digit_zero; [|apply N.mod_lt; lia]. pose proof (N.Div0.div_mod n 10). lia.
    + apply IH; [|done]. apply N.Div0.div_lt_upper_bound. lia.
Qed.

Lemma digits_of_head n : n ≠ 0 → ∃ c r, digits_of n = c :: r ∧ c ≠ "0"%char.
Proof. intros Hn. apply digits_fuel_head; [|done]. rewrite N2Nat.id. apply N.size_gt. Qed.

(** ** Literals *)

Lemma digit_char_other c :
  digit_char c → c ≠ "-"%char ∧ c ≠ "+"%char ∧ c ≠ "."%char ∧ is_e c = false.
Proof.
  intros H. split_and!; try (intros ->; done).
  unfold is_e. rewrite !bool_decide_eq_false_2; [done|intros ->; done..].
Qed.

Lemma read_digits_app d r : Forall digit_char d → no_digit r → read_digits (d ++ r) = (d, r).
Proof.
  intros Hd Hr. induction Hd as [|c d Hc _ IH]; simpl.
  - destruct r as [|c r]; [done|]. simpl in *. by rewrite Hr.
  - by rewrite Hc, IH.
Qed.

Lemma read_char_digit c d r : digit_char d → c ≠ d → read_char c (d :: r) = None.
Proof. intros _ Hc. simpl. by rewrite bool_decide_eq_false_2. Qed.

Lemma no_digit_exponent ex r : no_digit r → no_digit (exponent ex ++ r).
Proof. by destruct ex as [[[] ed]|]. Qed.

Lemma no_digit_fraction fp r : no_digit r → no_digit (fraction fp ++ r).
Proof. by destruct fp. Qed.

Lemma read_exponent_exponent ex :
  exponent_ok ex → read_exponent (exponent ex) = Some (exponent_val ex).
Proof.
  destruct ex as [[s ed]|]; [|done]. intros [Hd Hne]. cbn [exponent read_exponent].
  change (is_e "e") with true. cbv iota.
  assert (read_digits ed = (ed, [])) as Hr.
  { rewrite <- (app_nil_r ed) at 1. by apply read_digits_app. }
  destruct s; cbn [read_char]; repeat case_bool_decide; try done; rewrite Hr; by destruct ed.
Qed.

Lemma read_fraction_fraction fp ex :
  Forall digit_char fp → read_fraction (fraction fp ++ exponent ex) = (fp, exponent ex).
Proof.
  intros Hfp. unfold read_fraction. destruct fp as [|c fp].
  - cbn [fraction app]. by destruct ex as [[[] ed]|].
  - cbn [fraction app read_char]. rewrite bool_decide_eq_true_2 by done.
    apply (read_digits_app (c :: fp) (exponent ex)); [done|].
    rewrite <- (app_nil_r (exponent ex)). by apply no_digit_exponent.
Qed.

Lemma read_unsigned_literal neg ip fp ex :
  Forall digit_char ip → ip ≠ [] → Forall digit_char fp → exponent_ok ex →
  read_unsigned neg (ip ++ fraction fp ++ exponent ex) =
  Some (neg, dval (ip ++ fp), (exponent_val ex - Z.of_nat (length fp))%Z).
Proof.
  intros Hip Hne Hfp Hex. unfold read_unsigned.
  rewrite read_digits_app; [|done|];
    [|rewrite <- (app_nil_r (exponent ex)); by apply no_digit_fraction, no_digit_exponent].
  rewrite read_fraction_fraction, read_exponent_exponent by done. by destruct ip.
Qed.

(** The parts of a literal are what the reader finds. *)
Lemma read_decimal_literal neg ip fp ex :
  Forall digit_char ip → ip ≠ [] → Forall digit_char fp → exponent_ok ex →
  read_decimal (literal neg ip fp ex) =
  Some (neg, dval (ip ++ fp), (exponent_val ex - Z.of_nat (length fp))%Z).
Proof.
  intros Hip Hne Hfp Hex. unfold read_decimal, literal. destruct neg; cbn [app].
  - cbn [read_char]. rewrite bool_decide_eq_true_2 by done. by apply read_unsigned_literal.
  - destruct Hip as [|c ip Hc Hip]; [done|]. cbn [app].
    rewrite read_char_digit; [|done|intros <-; by destruct (digit_char_other _ Hc)].
    by apply (read_unsigned_literal false (c :: ip)); [constructor|..].
Qed.

(** ** The literals are numbers of JSON *)

Lemma scan_step s s' c l :
  nstep s c = Some s' → scan_number s' l = Got (l, []) →
  scan_number s (c :: l) = Got (c :: l, []).
Proof. intros Hs Hl. cbn [scan_number]. by rewrite Hs, Hl. Qed.

Lemma nstep_digit s c :
  s = SInt ∨ s = SFrac ∨ s = SExpInt → digit_char c → nstep s c = Some s.
Proof. intros [->|[->| ->]] Hc; simpl; by rewrite Hc. Qed.

Lemma scan_loop s d l :
  s = SInt ∨ s = SFrac ∨ s = SExpInt → Forall digit_char d →
  scan_number s l = Got (l, []) → scan_number s (d ++ l) = Got (d ++ l, []).
Proof.
  intros Hs Hd Hl. induction Hd as [|c d Hc _ IH]; [done|].
  by apply (scan_step s s); [apply nstep_digit|].
Qed.

Lemma scan_exponent s ex :
  s = SZero ∨ s = SInt ∨ s = SFrac → exponent_ok ex →
  scan_number s (exponent ex) = Got (exponent ex, []).
Proof.
  intros Hs Hex. destruct ex as [[sg ed]|]; [|by destruct Hs as [->|[->| ->]]].
  destruct Hex as [Hd Hne]. destruct Hd as [|c ed Hc Hd]; [done|]. cbn [exponent].
  apply (scan_step s SExp); [by destruct Hs as [->|[->| ->]]|].
  apply (scan_step SExp SExpSign); [by destruct sg|].
  apply (scan_step SExpSign SExpInt); [simpl; by rewrite Hc|].
  rewrite <- (app_nil_r ed). apply scan_loop; [auto|done..].
Qed.

Lemma scan_fraction s fp ex :
  s = SZero ∨ s = SInt → Forall digit_char fp → exponent_ok ex →
  scan_number s (fraction fp ++ exponent ex) = Got (fraction fp ++ exponent ex, []).
Proof.
  intros Hs Hfp Hex. destruct Hfp as [|c fp Hc Hfp]; cbn [fraction app].
  - apply scan_exponent; [|done]. destruct Hs; auto.
  - apply (scan_step s SDot).
    { destruct Hs as [-> | ->]; [done|]. simpl. by destruct (is_dec "."). }
    apply (scan_step SDot SFrac); [simpl; by rewrite Hc|].
    apply scan_loop; [auto|done|]. apply scan_exponent; auto.
Qed.

Lemma scan_integer s ip fp ex :
  s = SBegin ∨ s = SNeg → integer_digits ip → Forall digit_char fp → exponent_ok ex →
  scan_number s (ip ++ fraction fp ++ exponent ex) =
  Got (ip ++ fraction fp ++ exponent ex, []).
Proof.
  intros Hs [Hip [->|(c & r & -> & Hc)]] Hfp Hex.
  - apply (scan_step s SZero); [by destruct Hs as [-> | ->]|]. apply scan_fraction; auto.
  - apply Forall_cons in Hip as [Hd Hr]. cbn [app]. apply (scan_step s SInt).
    { destruct (digit_char_other _ Hd) as (Hm & _).
      destruct Hs as [-> | ->]; simpl; rewrite ?(bool_decide_eq_false_2 (c = "-"%char)) by done;
        by rewrite bool_decide_eq_false_2, Hd. }
    apply scan_loop; [auto|done|]. apply scan_fraction; auto.
Qed.

Lemma number_lit_literal neg ip fp ex :
  integer_digits ip → Forall digit_char fp → exponent_ok ex →
  number_lit (literal neg ip fp ex) = true.
Proof.
  intros Hip Hfp Hex. apply number_lit_scan. unfold literal. destruct neg; cbn [app].
  - apply (scan_step SBegin SNeg); [done|]. apply scan_integer; auto.
  - apply scan_integer; auto.
Qed.

(** ** The formats are literals *)

(** A number with zeros at its end and the same number with a power of
    ten are read alike. *)
Lemma round_decimal_scale prec emax s c z :
  (0 ≤ z)%Z →
  round_decimal prec emax s (c * 10 ^ Z.to_N z) 0 = round_decimal prec emax s c z.
Proof.
  intros Hz. destruct c as [|p]; [done|].
  destruct (Npos p * 10 ^ Z.to_N z) as [|q] eqn:E;
    [pose proof (N.pow_nonzero 10 (Z.to_N z)); lia|].
  unfold round_decimal. rewrite (proj2 (Z.leb_le 0 z)) by done. cbn [Z.leb]. cbv iota.
  do 2 f_equal. apply (f_equal Z.of_N) in E. rewrite N2Z.inj_mul, N2Z.inj_pow, Z2N.id in E by done.
  simpl Z.of_N in E. rewrite <- E. by rewrite Z.pow_0_r, Z.mul_1_r.
Qed.

Lemma dval_leading_zeros k l : dval (replicate k "0"%char ++ l) = dval l.
Proof. by rewrite dval_app, dval_zeros. Qed.

Lemma dval_trailing_zeros k l : dval (l ++ replicate k "0"%char) = dval l * 10 ^ N.of_nat k.
Proof. rewrite dval_app, dval_zeros, length_replicate. lia. Qed.

Section Formats.
Context (d : bytes) (dp : Z) (Hd : Forall digit_char d) (Hlead : leading d).

Lemma fmt_f_literal : fmt_f d dp = literal false (before_point d dp) (after_point d dp) None.
Proof.
  unfold fmt_f, literal, before_point, after_point. cbn [app exponent].
  rewrite app_nil_r. f_equal. destruct (Z.ltb_spec dp (Z.of_nat (length d))) as [Hlt|Hge]; [|done].
  destruct (replicate _ _ ++ drop _ d) as [|c r] eqn:E; [|done].
  apply (f_equal length) in E. rewrite length_app, length_replicate, length_drop in E.
  simpl in E. lia.
Qed.

Lemma before_point_digits : integer_digits (before_point d dp).
Proof.
  unfold before_point. destruct (Z.ltb_spec 0 dp) as [Hpos|Hle].
  - split; [apply Forall_app; split; [by apply Forall_take|by apply Forall_replicate]|].
    right. destruct Hlead as (c & r & -> & Hc). destruct (Z.to_nat dp) as [|n] eqn:E; [lia|].
    by eexists c, _.
  - split; [by repeat constructor|by left].
Qed.

Lemma after_point_digits : Forall digit_char (after_point d dp).
Proof.
  unfold after_point. case_match; [|done].
  apply Forall_app; split; [by apply Forall_replicate|by apply Forall_drop].
Qed.

(** What the reader finds in the format %f is the decimal that was
    printed, or the same number without a power of ten. *)
Lemma fmt_f_value prec emax s :
  round_decimal prec emax s (dval (before_point d dp ++ after_point d dp))
    (0 - Z.of_nat (length (after_point d dp))) =
  round_decimal prec emax s (dval d) (dp - Z.of_nat (length d)).
Proof.
  assert (0 < length d)%nat as Hnd by (destruct Hlead as (? & ? & -> & _); simpl; lia).
  unfold before_point, after_point.
  destruct (Z.ltb_spec 0 dp) as [Hpos|Hle], (Z.ltb_spec dp (Z.of_nat (length d))) as [Hlt|Hge];
    try lia.
  - replace (Z.to_nat (dp - _)) with 0%nat by lia. replace (Z.to_nat (- dp)) with 0%nat by lia.
    cbn [replicate app]. rewrite app_nil_r, take_drop, length_drop. f_equal. lia.
  - rewrite take_ge by lia. rewrite app_nil_r, dval_trailing_zeros. cbn [length].
    rewrite Z_nat_N. apply round_decimal_scale. lia.
  - replace (Z.to_nat dp) with 0%nat by lia. rewrite drop_0.
    change (["0"%char] ++ ?l) with (replicate 1 "0"%char ++ l).
    rewrite dval_leading_zeros, dval_leading_zeros, length_app, length_replicate.
    f_equal. lia.
Qed.
End Formats.

Lemma clean_two pre (s : bool) c :
  clean_exponent (pre ++ "e"%char :: (if s then "-"%char else "+"%char) :: "0"%char :: [c]) =
  pre ++ "e"%char :: (if s then "-"%char else "+"%char) :: [c].
Proof.
  unfold clean_exponent. rewrite rev_app_distr. cbn [rev app].
  rewrite !bool_decide_eq_true_2 by done. destruct s; cbn [orb andb];
    cbn [rev]; by rewrite rev_involutive, <- !app_assoc.
Qed.

Lemma clean_id pre (s : bool) ed :
  Forall digit_char ed → leading ed → (2 ≤ length ed)%nat →
  clean_exponent (pre ++ "e"%char :: (if s then "-"%char else "+"%char) :: ed) =
  pre ++ "e"%char :: (if s then "-"%char else "+"%char) :: ed.
Proof.
  intros Hd (a & r & -> & Ha) Hlen. unfold clean_exponent.
  change (pre ++ "e"%char :: ?x :: a :: r) with (pre ++ ["e"%char; x] ++ a :: r).
  rewrite !rev_app_distr.
  assert (Forall digit_char (rev (a :: r))) as Hrev by (by apply Forall_rev).
  destruct (rev (a :: r)) as [|c1 [|c2 [|c3 t]]] eqn:E;
    try (apply (f_equal length) in E; rewrite length_rev in E; simpl in *; lia).
  - apply (f_equal (@rev _)) in E. rewrite rev_involutive in E. simpl in E.
    injection E as -> ->. cbn [rev app].
    by rewrite (bool_decide_eq_false_2 (c2 = "0"%char)), andb_false_r.
  - cbn [rev app]. assert (∃ c4 t', (t ++ [if s then "-"%char else "+"%char; "e"%char]) ++ rev pre =
                                    c4 :: t' ∧ c4 ≠ "e"%char) as (c4 & t' & -> & Hc4).
    { destruct t as [|c4 t]; [destruct s; by eexists _, _|].
      do 3 apply Forall_cons in Hrev as [_ Hrev]. apply Forall_cons in Hrev as [Hc4 _].
      exists c4, ((t ++ [if s then "-"%char else "+"%char; "e"%char]) ++ rev pre).
      split; [done|]. intros ->. done. }
    by rewrite (bool_decide_eq_false_2 (c4 = "e"%char)).
Qed.

Lemma digits_of_long n : 10 ≤ n → (2 ≤ length (digits_of n))%nat.
Proof.
  intros Hn. pose proof (digits_of_dval n) as Hv. pose proof (digits_of_digits n) as Hd.
  destruct (digits_of n) as [|c [|c' r]]; [by subst|..|simpl; lia].
  apply Forall_cons in Hd as [Hc _]. destruct (is_dec_val c Hc) as [Hlt _].
  unfold dval in Hv. cbn [fold_left] in Hv. lia.
Qed.

Lemma fmt_e_literal c d' dp :
  clean_exponent (fmt_e (c :: d') dp) = literal false [c] d' (exponent_of (dp - 1)).
Proof.
  unfold fmt_e, literal, exponent_of, exponent_digits, fmt_exp. cbn [app exponent].
  change (c :: ?l ++ ?r) with (([c] ++ l) ++ r). fold (fraction d').
  destruct (Z.ltb_spec (Z.abs (dp - 1)) 10) as [Hlt|Hge].
  - by rewrite clean_two, <- app_assoc.
  - rewrite clean_id, <- ?app_assoc; [done|apply digits_of_digits| |apply digits_of_long; lia].
    apply digits_of_head. lia.
Qed.

Lemma exponent_of_ok x : exponent_ok (exponent_of x).
Proof.
  unfold exponent_of, exponent_digits. cbn [exponent_ok]. case_match.
  - split; [|done]. repeat constructor. apply is_dec_digit. lia.
  - split; [apply digits_of_digits|]. destruct (digits_of_head (Z.to_N (Z.abs x))) as (? & ? & -> & _);
      [lia|done].
Qed.

Lemma exponent_of_val x : exponent_val (exponent_of x) = x.
Proof.
  unfold exponent_of, exponent_digits. cbn [exponent_val].
  assert (Z.of_N (dval (if (Z.abs x <? 10)%Z then [digit (Z.to_N (Z.abs x))]
                        else digits_of (Z.to_N (Z.abs x)))) = Z.abs x) as ->.
  { destruct (Z.ltb_spec (Z.abs x) 10).
    - unfold dval. cbn [fold_left]. rewrite digit_val_digit by lia. lia.
    - rewrite digits_of_dval. lia. }
  destruct (Z.ltb_spec x 0); lia.
Qed.
End Digits.

(** ** The shortest decimal *)

Section Shortest.
#[local] Open Scope Z_scope.

Section Search.
Context (prec emax : Z).

Lemma binary_round_aux_sign s mx ex lx :
  binary_round_aux prec emax s mx ex lx = with_sign s (binary_round_aux prec emax false mx ex lx).
Proof.
  unfold binary_round_aux. destruct (shr_fexp _ _ _ _ _) as [mrs e'].
  destruct (shr_fexp _ _ _ _ _) as [mrs' e'']. destruct (shr_m mrs'); [done| |done].
  by case_match.
Qed.

Lemma round_decimal_sign s c e10 :
  round_decimal prec emax s c e10 = with_sign s (round_decimal prec emax false c e10).
Proof.
  unfold round_decimal, binary_round. destruct c as [|p]; [done|]. case_match.
  - destruct (shl_align _ _ _). apply binary_round_aux_sign.
  - destruct (SFdiv_core_binary _ _ _ _ _ _) as [[q e] l]. apply binary_round_aux_sign.
Qed.

Lemma trim_zeros_denotes fuel c e10 m e :
  denotes c e10 m e →
  denotes (trim_zeros fuel c e10).1 (trim_zeros fuel c e10).2 m e.
Proof.
  revert c e10. induction fuel as [|fuel IH]; intros c e10 Hv; cbn [trim_zeros]; [done|].
  destruct (N.eqb_spec (c mod 10) 0) as [Hm|Hm]; [|done].
  destruct (N.eqb_spec c 0) as [Hz|Hz]; [done|]. cbn [andb negb]. apply IH.
  pose proof (N.Div0.div_mod c 10) as Hc. rewrite Hm, N.add_0_r in Hc.
  unfold denotes in *. rewrite Hc, N2Z.inj_mul in Hv. change (Z.of_N 10) with 10 in Hv.
  destruct (Z.le_gt_cases 0 e10) as [He|He].
  - rewrite (Z.max_l (e10 + 1)), (Z.max_r (- (e10 + 1))), Z.pow_add_r, Z.pow_1_r by lia.
    rewrite (Z.max_l e10), (Z.max_r (- e10)) in Hv by lia. lia.
  - rewrite (Z.max_r (e10 + 1)), (Z.max_l (- (e10 + 1))) by lia.
    rewrite (Z.max_r e10), (Z.max_l (- e10)) in Hv by lia.
    replace (- e10) with (- (e10 + 1) + 1) in Hv by lia.
    rewrite Z.pow_add_r, Z.pow_1_r in Hv by lia. lia.
Qed.

Lemma exact_decimal_denotes m e :
  denotes (exact_decimal m e).1 (exact_decimal m e).2 m e.
Proof.
  unfold exact_decimal, denotes. destruct (Z.leb_spec 0 e) as [He|He]; cbn [fst snd].
  - rewrite (Z.max_l e), (Z.max_r (- e)), N2Z.inj_mul, N2Z.inj_pow, Z2N.id by lia.
    change (Z.max (- 0) 0) with 0. change (Z.max 0 0) with 0.
    by rewrite !Z.pow_0_r, !Z.mul_1_r.
  - rewrite (Z.max_r e), (Z.max_l (- e)), N2Z.inj_mul, N2Z.inj_pow, Z2N.id by lia.
    change (Z.of_N 5) with 5. change (Z.of_N (Npos m)) with (Zpos m).
    rewrite !Z.pow_0_r, !Z.mul_1_r, <- Z.mul_assoc, <- Z.pow_mul_l. done.
Qed.

(** A decimal that is the value of a float reads back as the float. *)
Lemma reads_exact m e c e10 :
  bounded prec emax m e = true → denotes c e10 m e → reads_back prec emax m e c e10 = true.
Proof.
  intros Hb Hv. apply bool_decide_eq_true. apply (round_decimal_exact prec emax); [done|].
  by apply trim_zeros_denotes.
Qed.

(** The search returns a decimal that reads back as the float. *)
Lemma shortest_from_reads m e M q k :
  reads_back prec emax m e M q = true →
  reads_back prec emax m e (shortest_from prec emax m e M q k).1
    (shortest_from prec emax m e M q k).2 = true.
Proof.
  intros HM. induction k as [|k IH]; cbn [shortest_from]; [done|].
  destruct (reads_back _ _ _ _ (M / _)%N _) eqn:Edown, (reads_back _ _ _ _ (M / _ + 1)%N _) eqn:Eup;
    cbn [andb]; repeat case_match; done.
Qed.

(** The shortest decimal of a float: digits that begin with no zero, and
    that read back as the float. *)
Lemma shortest_spec m e d dp :
  bounded prec emax m e = true → shortest prec emax m e = (d, dp) →
  Forall digit_char d ∧ leading d ∧
  round_decimal prec emax false (dval d) (dp - Z.of_nat (length d)) = S754_finite false m e.
Proof.
  intros Hb. unfold shortest.
  pose proof (exact_decimal_denotes m e) as Hv. destruct (exact_decimal m e) as [M q].
  pose proof (shortest_from_reads m e M q (length (digits_of M) - 1)
                (reads_exact m e M q Hb Hv)) as Hr.
  destruct (shortest_from _ _ _ _ _ _ _) as [c e10]. apply bool_decide_eq_true in Hr.
  cbn [fst snd] in Hr. destruct (trim c e10) as [c' e']. cbn [fst snd] in Hr. intros [= <- <-].
  assert (c' ≠ 0%N) as Hc by (by intros ->).
  rewrite digits_of_dval. replace (_ - _) with e' by lia.
  split_and!; [apply digits_of_digits|by apply digits_of_head|done].
Qed.

(** The two formats of a decimal are literals in which the reader finds
    the decimal. *)
Lemma formats_literal d dp body :
  Forall digit_char d → leading d → body = fmt_f d dp ∨ body = clean_exponent (fmt_e d dp) →
  ∃ ip fp ex,
    body = literal false ip fp ex ∧ integer_digits ip ∧ Forall digit_char fp ∧ exponent_ok ex ∧
    ∀ s, round_decimal prec emax s (dval (ip ++ fp))
           (exponent_val ex - Z.of_nat (length fp)) =
         round_decimal prec emax s (dval d) (dp - Z.of_nat (length d)).
Proof.
  intros Hd Hlead [-> | ->].
  - exists (before_point d dp), (after_point d dp), None.
    split_and!; [apply fmt_f_literal|by apply before_point_digits|by apply after_point_digits|
                 done|]. intros s. by apply fmt_f_value.
  - destruct Hlead as (c & d' & -> & Hc). apply Forall_cons in Hd as [Hdc Hd'].
    exists [c], d', (exponent_of (dp - 1)).
    split_and!; [apply fmt_e_literal| |done|apply exponent_of_ok|].
    + split; [by constructor|]. right. by exists c, [].
    + intros s. rewrite exponent_of_val. cbn [app length]. f_equal. lia.
Qed.
End Search.

(** ** The round trip *)

Lemma literal_signed s ip fp ex :
  (if s : bool then ["-"%char] else []) ++ literal false ip fp ex = literal s ip fp ex.
Proof. by destruct s. Qed.

(** What the encoder prints for a float is a number of JSON that the
    decoder reads as the float. *)
Theorem go_float_round_trip bits f :
  go_float bits f →
  ∃ lit, go_format_float bits f = Some lit ∧ number_lit (bs lit) = true ∧
         go_parse_float bits lit = Some f.
Proof.
  intros [Hfin Hvalid]. destruct f as [[]|s| |s m e]; try done;
    [by exists "-0"%string|by exists "0"%string|].
  cbn [valid_binary] in Hvalid. unfold go_format_float.
  destruct (shortest _ _ m e) as [d dp] eqn:Es.
  destruct (shortest_spec _ _ m e d dp Hvalid Es) as (Hd & Hlead & Hr).
  set (body := if _ : bool then clean_exponent (fmt_e d dp) else fmt_f d dp).
  destruct (formats_literal (prec_of bits) (emax_of bits) d dp body Hd Hlead) as
    (ip & fp & ex & Hbody & Hip & Hfp & Hex & Hv); [subst body; case_match; auto|].
  assert (ip ≠ []) as Hne by (by destruct Hip as [_ [->|(? & ? & -> & _)]]).
  eexists. split; [reflexivity|]. rewrite bs_string_of_bytes, Hbody, literal_signed.
  split; [by apply number_lit_literal|]. unfold go_parse_float.
  rewrite bs_string_of_bytes, read_decimal_literal by (done || apply Hip).
  cbn [mbind option_bind]. by rewrite Hv, round_decimal_sign, Hr.
Qed.
End Shortest.

(** The codec of Go is lawful on the floats of each format. *)
Lemma go_floats_ok : @FloatCodecOK go_floats go_float.
Proof. split. apply go_float_round_trip. Qed.

(** A number that the decoder accepts is a float of the width. *)
Theorem go_parse_float_valid bits lit f :
  go_parse_float bits lit = Some f → go_float bits f.
Proof.
  unfold go_parse_float. destruct (read_decimal _) as [[[neg m] e10]|]; [|done].
  cbn [mbind option_bind].
  pose proof (round_decimal_valid (prec_of bits) (emax_of bits)
                ltac:(unfold prec_of; case_match; lia) neg m e10) as Hv.
  destruct (round_decimal _ _ _ _ _) eqn:E; intros [= <-]; by split.
Qed.

(** A number that the decoder has read can be written, and is read back
    as it was. *)
Corollary go_parse_format bits lit f :
  go_parse_float bits lit = Some f →
  ∃ lit', go_format_float bits f = Some lit' ∧ go_parse_float bits lit' = Some f.
Proof.
  intros Hf%go_parse_float_valid.
  destruct (go_float_round_trip bits f Hf) as (lit' & ? & _ & ?). by exists lit'.
Qed.

(** What the decoder of a float leaves in the variable is a float of the
    width, when the variable held one. *)
Lemma dec_float_valid bits t v a :
  go_float bits a → go_float bits (@dec _ (@JSON_float go_floats bits t) v a).1.
Proof.
  intros Ha. destruct v; try done. cbn [dec JSON_float].
  change (parse_float bits lit) with (go_parse_float bits lit).
  destruct (go_parse_float bits lit) eqn:E; [|done]. by apply go_parse_float_valid in E.
Qed.

(** ** Examples *)

Section FloatExamples.
#[local] Open Scope string_scope.

(** The float that a literal denotes; a zero for a literal out of range. *)
Definition float_of (bits : Z) (lit : string) : spec_float :=
  default (S754_zero false) (go_parse_float bits lit).

(** 0.1 as a float64 and 0.7 as a float32: the bits of IEEE 754. *)
Example parse_tenth :
  go_parse_float 64 "0.1" = Some (S754_finite false 7205759403792794 (-56)).
Proof. by vm_compute. Qed.

Example parse_float32 : go_parse_float 32 "0.7" = Some (S754_finite false 11744051 (-24)).
Proof. by vm_compute. Qed.

(** A literal of many digits is rounded once, to the nearest float. *)
Example parse_long :
  go_parse_float 64 "0.1000000000000000055511151231257827021181583404541015625" =
  go_parse_float 64 "0.1".
Proof. by vm_compute. Qed.

(** Beyond the largest float: an error; below the smallest: a zero. *)
Example parse_out_of_range :
  go_parse_float 64 "1e400" = None ∧ go_parse_float 32 "3.4028236e38" = None ∧
  go_parse_float 64 "1e-400" = Some (S754_zero false) ∧
  go_parse_float 64 "-1e-400" = Some (S754_zero true).
Proof. by vm_compute. Qed.

(** What the encoder prints: the shortest digits, the format %e below 1e-6
    and from 1e21 on. *)
Example format_float64 :
  go_format_float 64 <$> (float_of 64 <$>
    ["0.1"; "0.30000000000000004"; "100"; "1e20"; "1e21"; "0.000001"; "0.0000001";
     "123456789.125"; "-2.5"; "1.7976931348623157e308"; "5e-324"]) =
  Some <$> ["0.1"; "0.30000000000000004"; "100"; "100000000000000000000"; "1e+21";
            "0.000001"; "1e-7"; "123456789.125"; "-2.5"; "1.7976931348623157e+308";
            "5e-324"].
Proof. by vm_compute. Qed.

Example format_float32 :
  go_format_float 32 <$> (float_of 32 <$>
    ["0.7"; "0.95"; "-0.31"; "16777216"; "3.4028235e38"; "1e-45"; "0.000001"]) =
  Some <$> ["0.7"; "0.95"; "-0.31"; "16777216"; "3.4028235e+38"; "1e-45"; "0.000001"].
Proof. by vm_compute. Qed.

(** The same number has other digits as a float64: the shortest decimal
    depends on the width. *)
Example format_widened :
  go_format_float 64 (S754_finite false (11744051 * 2 ^ 29) (-53)) = Some "0.699999988079071".
Proof. by vm_compute. Qed.

(** Two decimals of eight digits read back as the float32 2097152.25, at
    the same distance: the encoder prints the even one. *)
Example format_tie : go_format_float 32 (float_of 32 "2097152.25") = Some "2097152.2".
Proof. by vm_compute. Qed.

(** The infinities have no encoding. *)
Example format_infinity : go_format_float 64 (S754_infinity false) = None.
Proof. done. Qed.
End FloatExamples.
