(* ===== verification/Wire.v ===== *)
(** * Wire: the structures of the API on the wire

    The JSON encoding of the structures of completion.go, models.go and
    image.go, as their tags give it: for each structure the list of its
    fields with their keys and [omitempty] options ([*_fields]), from which
    [Codec] makes its codec.  The embedded [httpHeader] of a response has no
    key: the decoder leaves it as it is, and the client fills it from the
    response.

    - [Usage] and [StreamOptions] are declared in files that are not among
      the sources; they are given here with the fields of the API;
    - the error envelope [ErrorResponse] is decoded by the keys of its
      fields;
    - [*_ok] are the values of each structure on which the round trip is
      proved: text in well-formed UTF-8, 64-bit integers, no header of its
      own, and
      floating point numbers that the float codec reads back
      ([FloatCodecOK]): with the codec of Go, every finite number of the
      width of its field ([CompletionRequest_floats]);
    - the theorems: decoding what the server encoded gives the structure,
      and decoding what the client encoded gives the request
      ([*_round_trip]); the response structures are read whatever the
      order of the members of their objects ([*_unordered]); what the
      encoder leaves out of a request; the calls of the endpoints against
      a server that answers in JSON. *)

From Stdlib Require Import ZArith NArith Ascii String List Lia Floats.SpecFloat.
From stdpp Require Import base tactics option list gmap strings.
From S2P Require Import Prelude Bytes Errors Http Internal Config Fixtures Client.
From S2P Require Import Completion Models Image Json Codec Floats.

Set Warnings "-clear-no-such-hyp".
#[local] Open Scope string_scope.

(** ** Zero values *)

#[global] Instance Permission_zero : Zero Permission.t :=
  Permission.mk zero zero zero zero zero zero zero zero zero zero zero zero.
#[global] Instance ImageResponseDataInner_zero : Zero ImageResponseDataInner.t :=
  ImageResponseDataInner.mk zero zero zero.
#[global] Instance LogprobResult_zero : Zero LogprobResult.t :=
  LogprobResult.mk zero zero zero zero.
#[global] Instance CompletionChoice_zero : Zero CompletionChoice.t :=
  CompletionChoice.mk zero zero zero zero.

(** ** Structures of the package that the sources use *)

(** [Usage]: the token counts of a response. *)
Module Usage.
Record t : Type := mk {
  PromptTokens : Z;
  CompletionTokens : Z;
  TotalTokens : Z;
}.
End Usage.

(** [StreamOptions]: the options of a streamed response. *)
Module StreamOptions.
Record t : Type := mk { IncludeUsage : bool }.
End StreamOptions.

#[global] Instance Usage_zero : Zero Usage.t := Usage.mk zero zero zero.
#[global] Instance StreamOptions_zero : Zero StreamOptions.t := StreamOptions.mk zero.

Definition Usage_fields : list (field Usage.t) := [
  Field "prompt_tokens" false Usage.PromptTokens
    (λ a '(Usage.mk x0 x1 x2),
       Usage.mk a x1 x2);
  Field "completion_tokens" false Usage.CompletionTokens
    (λ a '(Usage.mk x0 x1 x2),
       Usage.mk x0 a x2);
  Field "total_tokens" false Usage.TotalTokens
    (λ a '(Usage.mk x0 x1 x2),
       Usage.mk x0 x1 a)
].

#[global] Instance JSON_Usage : JSON Usage.t :=
  JSON_struct Usage_fields "giteeai.Usage".

Definition StreamOptions_fields : list (field StreamOptions.t) := [
  Field "include_usage" true StreamOptions.IncludeUsage
    (λ a '(StreamOptions.mk x0),
       StreamOptions.mk a)
].

#[global] Instance JSON_StreamOptions : JSON StreamOptions.t :=
  JSON_struct StreamOptions_fields "giteeai.StreamOptions".

(** ** The error envelope *)

(** The status fields of an [APIError] have no key: the client fills them
    in. *)
Definition APIError_fields : list (field APIError.t) := [
  Field "code" true APIError.Code
    (λ a '(APIError.mk x0 x1 x2 x3 x4),
       APIError.mk a x1 x2 x3 x4);
  Field "message" false APIError.Message
    (λ a '(APIError.mk x0 x1 x2 x3 x4),
       APIError.mk x0 a x2 x3 x4);
  Field "type" false APIError.Type_
    (λ a '(APIError.mk x0 x1 x2 x3 x4),
       APIError.mk x0 x1 a x3 x4)
].

#[global] Instance JSON_APIError : JSON APIError.t :=
  JSON_struct APIError_fields "giteeai.APIError".

Definition ErrorResponse_fields : list (field ErrorResponse.t) := [
  Field "error" true ErrorResponse.Error
    (λ a '(ErrorResponse.mk x0),
       ErrorResponse.mk a)
].

#[global] Instance JSON_ErrorResponse : JSON ErrorResponse.t :=
  JSON_struct ErrorResponse_fields "giteeai.ErrorResponse".

(** ** The structures of completion.go *)

Section Completion.
Context `{FloatCodec}.
Context {StreamOptions Usage : Type}.
Context `{JSON StreamOptions, Zero StreamOptions, JSON Usage, Zero Usage}.

Definition CompletionRequest_fields : list (field (CompletionRequest.t StreamOptions)) := [
  Field "model" false CompletionRequest.Model
    (λ a '(CompletionRequest.mk x0 x1 x2 x3 x4 x5 x6 x7 x8 x9 x10 x11 x12 x13 x14 x15
    x16 x17 x18 x19),
       CompletionRequest.mk a x1 x2 x3 x4 x5 x6 x7 x8 x9 x10 x11 x12 x13 x14 x15 x16
       x17 x18 x19);
  Field "prompt" true CompletionRequest.Prompt
    (λ a '(CompletionRequest.mk x0 x1 x2 x3 x4 x5 x6 x7 x8 x9 x10 x11 x12 x13 x14 x15
    x16 x17 x18 x19),
       CompletionRequest.mk x0 a x2 x3 x4 x5 x6 x7 x8 x9 x10 x11 x12 x13 x14 x15 x16
       x17 x18 x19);
  Field "best_of" true CompletionRequest.BestOf
    (λ a '(CompletionRequest.mk x0 x1 x2 x3 x4 x5 x6 x7 x8 x9 x10 x11 x12 x13 x14 x15
    x16 x17 x18 x19),
       CompletionRequest.mk x0 x1 a x3 x4 x5 x6 x7 x8 x9 x10 x11 x12 x13 x14 x15 x16
       x17 x18 x19);
  Field "echo" true CompletionRequest.Echo
    (λ a '(CompletionRequest.mk x0 x1 x2 x3 x4 x5 x6 x7 x8 x9 x10 x11 x12 x13 x14 x15
    x16 x17 x18 x19),
       CompletionRequest.mk x0 x1 x2 a x4 x5 x6 x7 x8 x9 x10 x11 x12 x13 x14 x15 x16
       x17 x18 x19);
  Field "frequency_penalty" true (codec := JSON_float32) CompletionRequest.FrequencyPenalty
    (λ a '(CompletionRequest.mk x0 x1 x2 x3 x4 x5 x6 x7 x8 x9 x10 x11 x12 x13 x14 x15
    x16 x17 x18 x19),
       CompletionRequest.mk x0 x1 x2 x3 a x5 x6 x7 x8 x9 x10 x11 x12 x13 x14 x15 x16
       x17 x18 x19);
  Field "logit_bias" true CompletionRequest.LogitBias
    (λ a '(CompletionRequest.mk x0 x1 x2 x3 x4 x5 x6 x7 x8 x9 x10 x11 x12 x13 x14 x15
    x16 x17 x18 x19),
       CompletionRequest.mk x0 x1 x2 x3 x4 a x6 x7 x8 x9 x10 x11 x12 x13 x14 x15 x16
       x17 x18 x19);
  Field "store" true CompletionRequest.Store
    (λ a '(CompletionRequest.mk x0 x1 x2 x3 x4 x5 x6 x7 x8 x9 x10 x11 x12 x13 x14 x15
    x16 x17 x18 x19),
       CompletionRequest.mk x0 x1 x2 x3 x4 x5 a x7 x8 x9 x10 x11 x12 x13 x14 x15 x16
       x17 x18 x19);
  Field "metadata" true CompletionRequest.Metadata
    (λ a '(CompletionRequest.mk x0 x1 x2 x3 x4 x5 x6 x7 x8 x9 x10 x11 x12 x13 x14 x15
    x16 x17 x18 x19),
       CompletionRequest.mk x0 x1 x2 x3 x4 x5 x6 a x8 x9 x10 x11 x12 x13 x14 x15 x16
       x17 x18 x19);
  Field "logprobs" true CompletionRequest.LogProbs
    (λ a '(CompletionRequest.mk x0 x1 x2 x3 x4 x5 x6 x7 x8 x9 x10 x11 x12 x13 x14 x15
    x16 x17 x18 x19),
       CompletionRequest.mk x0 x1 x2 x3 x4 x5 x6 x7 a x9 x10 x11 x12 x13 x14 x15 x16
       x17 x18 x19);
  Field "max_tokens" true CompletionRequest.MaxTokens
    (λ a '(CompletionRequest.mk x0 x1 x2 x3 x4 x5 x6 x7 x8 x9 x10 x11 x12 x13 x14 x15
    x16 x17 x18 x19),
       CompletionRequest.mk x0 x1 x2 x3 x4 x5 x6 x7 x8 a x10 x11 x12 x13 x14 x15 x16
       x17 x18 x19);
  Field "n" true CompletionRequest.N
    (λ a '(CompletionRequest.mk x0 x1 x2 x3 x4 x5 x6 x7 x8 x9 x10 x11 x12 x13 x14 x15
    x16 x17 x18 x19),
       CompletionRequest.mk x0 x1 x2 x3 x4 x5 x6 x7 x8 x9 a x11 x12 x13 x14 x15 x16 x17
       x18 x19);
  Field "presence_penalty" true (codec := JSON_float32) CompletionRequest.PresencePenalty
    (λ a '(CompletionRequest.mk x0 x1 x2 x3 x4 x5 x6 x7 x8 x9 x10 x11 x12 x13 x14 x15
    x16 x17 x18 x19),
       CompletionRequest.mk x0 x1 x2 x3 x4 x5 x6 x7 x8 x9 x10 a x12 x13 x14 x15 x16 x17
       x18 x19);
  Field "seed" true CompletionRequest.Seed
    (λ a '(CompletionRequest.mk x0 x1 x2 x3 x4 x5 x6 x7 x8 x9 x10 x11 x12 x13 x14 x15
    x16 x17 x18 x19),
       CompletionRequest.mk x0 x1 x2 x3 x4 x5 x6 x7 x8 x9 x10 x11 a x13 x14 x15 x16 x17
       x18 x19);
  Field "stop" true CompletionRequest.Stop
    (λ a '(CompletionRequest.mk x0 x1 x2 x3 x4 x5 x6 x7 x8 x9 x10 x11 x12 x13 x14 x15
    x16 x17 x18 x19),
       CompletionRequest.mk x0 x1 x2 x3 x4 x5 x6 x7 x8 x9 x10 x11 x12 a x14 x15 x16 x17
       x18 x19);
  Field "stream" true CompletionRequest.Stream
    (λ a '(CompletionRequest.mk x0 x1 x2 x3 x4 x5 x6 x7 x8 x9 x10 x11 x12 x13 x14 x15
    x16 x17 x18 x19),
       CompletionRequest.mk x0 x1 x2 x3 x4 x5 x6 x7 x8 x9 x10 x11 x12 x13 a x15 x16 x17
       x18 x19);
  Field "suffix" true CompletionRequest.Suffix
    (λ a '(CompletionRequest.mk x0 x1 x2 x3 x4 x5 x6 x7 x8 x9 x10 x11 x12 x13 x14 x15
    x16 x17 x18 x19),
       CompletionRequest.mk x0 x1 x2 x3 x4 x5 x6 x7 x8 x9 x10 x11 x12 x13 x14 a x16 x17
       x18 x19);
  Field "temperature" true (codec := JSON_float32) CompletionRequest.Temperature
    (λ a '(CompletionRequest.mk x0 x1 x2 x3 x4 x5 x6 x7 x8 x9 x10 x11 x12 x13 x14 x15
    x16 x17 x18 x19),
       CompletionRequest.mk x0 x1 x2 x3 x4 x5 x6 x7 x8 x9 x10 x11 x12 x13 x14 x15 a x17
       x18 x19);
  Field "top_p" true (codec := JSON_float32) CompletionRequest.TopP
    (λ a '(CompletionRequest.mk x0 x1 x2 x3 x4 x5 x6 x7 x8 x9 x10 x11 x12 x13 x14 x15
    x16 x17 x18 x19),
       CompletionRequest.mk x0 x1 x2 x3 x4 x5 x6 x7 x8 x9 x10 x11 x12 x13 x14 x15 x16 a
       x18 x19);
  Field "user" true CompletionRequest.User
    (λ a '(CompletionRequest.mk x0 x1 x2 x3 x4 x5 x6 x7 x8 x9 x10 x11 x12 x13 x14 x15
    x16 x17 x18 x19),
       CompletionRequest.mk x0 x1 x2 x3 x4 x5 x6 x7 x8 x9 x10 x11 x12 x13 x14 x15 x16
       x17 a x19);
  Field "stream_options" true CompletionRequest.StreamOptions_
    (λ a '(CompletionRequest.mk x0 x1 x2 x3 x4 x5 x6 x7 x8 x9 x10 x11 x12 x13 x14 x15
    x16 x17 x18 x19),
       CompletionRequest.mk x0 x1 x2 x3 x4 x5 x6 x7 x8 x9 x10 x11 x12 x13 x14 x15 x16
       x17 x18 a)
].

#[global] Instance JSON_CompletionRequest : JSON (CompletionRequest.t StreamOptions) :=
  JSON_struct CompletionRequest_fields "giteeai.CompletionRequest".

Definition LogprobResult_fields : list (field LogprobResult.t) := [
  Field "tokens" false LogprobResult.Tokens
    (λ a '(LogprobResult.mk x0 x1 x2 x3),
       LogprobResult.mk a x1 x2 x3);
  Field "token_logprobs" false (codec := JSON_list (H := JSON_float32)) LogprobResult.TokenLogprobs
    (λ a '(LogprobResult.mk x0 x1 x2 x3),
       LogprobResult.mk x0 a x2 x3);
  Field "top_logprobs" false (codec := JSON_list (H := JSON_map (H := JSON_float32))) LogprobResult.TopLogprobs
    (λ a '(LogprobResult.mk x0 x1 x2 x3),
       LogprobResult.mk x0 x1 a x3);
  Field "text_offset" false LogprobResult.TextOffset
    (λ a '(LogprobResult.mk x0 x1 x2 x3),
       LogprobResult.mk x0 x1 x2 a)
].

#[global] Instance JSON_LogprobResult : JSON LogprobResult.t :=
  JSON_struct LogprobResult_fields "giteeai.LogprobResult".

Definition CompletionChoice_fields : list (field CompletionChoice.t) := [
  Field "text" false CompletionChoice.Text
    (λ a '(CompletionChoice.mk x0 x1 x2 x3),
       CompletionChoice.mk a x1 x2 x3);
  Field "index" false CompletionChoice.Index
    (λ a '(CompletionChoice.mk x0 x1 x2 x3),
       CompletionChoice.mk x0 a x2 x3);
  Field "finish_reason" false CompletionChoice.FinishReason
    (λ a '(CompletionChoice.mk x0 x1 x2 x3),
       CompletionChoice.mk x0 x1 a x3);
  Field "logprobs" false CompletionChoice.LogProbs
    (λ a '(CompletionChoice.mk x0 x1 x2 x3),
       CompletionChoice.mk x0 x1 x2 a)
].

#[global] Instance JSON_CompletionChoice : JSON CompletionChoice.t :=
  JSON_struct CompletionChoice_fields "giteeai.CompletionChoice".

Definition CompletionResponse_fields : list (field (CompletionResponse.t Usage)) := [
  Field "id" false CompletionResponse.ID
    (λ a '(CompletionResponse.mk x0 x1 x2 x3 x4 x5 x6),
       CompletionResponse.mk a x1 x2 x3 x4 x5 x6);
  Field "object" false CompletionResponse.Object
    (λ a '(CompletionResponse.mk x0 x1 x2 x3 x4 x5 x6),
       CompletionResponse.mk x0 a x2 x3 x4 x5 x6);
  Field "created" false (codec := JSON_int64) CompletionResponse.Created
    (λ a '(CompletionResponse.mk x0 x1 x2 x3 x4 x5 x6),
       CompletionResponse.mk x0 x1 a x3 x4 x5 x6);
  Field "model" false CompletionResponse.Model
    (λ a '(CompletionResponse.mk x0 x1 x2 x3 x4 x5 x6),
       CompletionResponse.mk x0 x1 x2 a x4 x5 x6);
  Field "choices" false CompletionResponse.Choices
    (λ a '(CompletionResponse.mk x0 x1 x2 x3 x4 x5 x6),
       CompletionResponse.mk x0 x1 x2 x3 a x5 x6);
  Field "usage" true CompletionResponse.Usage_
    (λ a '(CompletionResponse.mk x0 x1 x2 x3 x4 x5 x6),
       CompletionResponse.mk x0 x1 x2 x3 x4 a x6)
].

#[global] Instance JSON_CompletionResponse : JSON (CompletionResponse.t Usage) :=
  JSON_struct CompletionResponse_fields "giteeai.CompletionResponse".

Definition CompletionResponse_merge (x y : (CompletionResponse.t Usage)) : (CompletionResponse.t Usage) :=
  let '(CompletionResponse.mk x0 x1 x2 x3 x4 x5 _) := x in
  let '(CompletionResponse.mk _ _ _ _ _ _ y6) := y in
  CompletionResponse.mk x0 x1 x2 x3 x4 x5 y6.
End Completion.

(** ** The structures of models.go *)

Definition Permission_fields : list (field Permission.t) := [
  Field "created" false (codec := JSON_int64) Permission.CreatedAt
    (λ a '(Permission.mk x0 x1 x2 x3 x4 x5 x6 x7 x8 x9 x10 x11),
       Permission.mk a x1 x2 x3 x4 x5 x6 x7 x8 x9 x10 x11);
  Field "id" false Permission.ID
    (λ a '(Permission.mk x0 x1 x2 x3 x4 x5 x6 x7 x8 x9 x10 x11),
       Permission.mk x0 a x2 x3 x4 x5 x6 x7 x8 x9 x10 x11);
  Field "object" false Permission.Object
    (λ a '(Permission.mk x0 x1 x2 x3 x4 x5 x6 x7 x8 x9 x10 x11),
       Permission.mk x0 x1 a x3 x4 x5 x6 x7 x8 x9 x10 x11);
  Field "allow_create_engine" false Permission.AllowCreateEngine
    (λ a '(Permission.mk x0 x1 x2 x3 x4 x5 x6 x7 x8 x9 x10 x11),
       Permission.mk x0 x1 x2 a x4 x5 x6 x7 x8 x9 x10 x11);
  Field "allow_sampling" false Permission.AllowSampling
    (λ a '(Permission.mk x0 x1 x2 x3 x4 x5 x6 x7 x8 x9 x10 x11),
       Permission.mk x0 x1 x2 x3 a x5 x6 x7 x8 x9 x10 x11);
  Field "allow_logprobs" false Permission.AllowLogprobs
    (λ a '(Permission.mk x0 x1 x2 x3 x4 x5 x6 x7 x8 x9 x10 x11),
       Permission.mk x0 x1 x2 x3 x4 a x6 x7 x8 x9 x10 x11);
  Field "allow_search_indices" false Permission.AllowSearchIndices
    (λ a '(Permission.mk x0 x1 x2 x3 x4 x5 x6 x7 x8 x9 x10 x11),
       Permission.mk x0 x1 x2 x3 x4 x5 a x7 x8 x9 x10 x11);
  Field "allow_view" false Permission.AllowView
    (λ a '(Permission.mk x0 x1 x2 x3 x4 x5 x6 x7 x8 x9 x10 x11),
       Permission.mk x0 x1 x2 x3 x4 x5 x6 a x8 x9 x10 x11);
  Field "allow_fine_tuning" false Permission.AllowFineTuning
    (λ a '(Permission.mk x0 x1 x2 x3 x4 x5 x6 x7 x8 x9 x10 x11),
       Permission.mk x0 x1 x2 x3 x4 x5 x6 x7 a x9 x10 x11);
  Field "organization" false Permission.Organization
    (λ a '(Permission.mk x0 x1 x2 x3 x4 x5 x6 x7 x8 x9 x10 x11),
       Permission.mk x0 x1 x2 x3 x4 x5 x6 x7 x8 a x10 x11);
  Field "group" false Permission.Group
    (λ a '(Permission.mk x0 x1 x2 x3 x4 x5 x6 x7 x8 x9 x10 x11),
       Permission.mk x0 x1 x2 x3 x4 x5 x6 x7 x8 x9 a x11);
  Field "is_blocking" false Permission.IsBlocking
    (λ a '(Permission.mk x0 x1 x2 x3 x4 x5 x6 x7 x8 x9 x10 x11),
       Permission.mk x0 x1 x2 x3 x4 x5 x6 x7 x8 x9 x10 a)
].

#[global] Instance JSON_Permission : JSON Permission.t :=
  JSON_struct Permission_fields "giteeai.Permission".

Definition Model_fields : list (field Model.t) := [
  Field "created" false (codec := JSON_int64) Model.CreatedAt
    (λ a '(Model.mk x0 x1 x2 x3 x4 x5 x6 x7),
       Model.mk a x1 x2 x3 x4 x5 x6 x7);
  Field "id" false Model.ID
    (λ a '(Model.mk x0 x1 x2 x3 x4 x5 x6 x7),
       Model.mk x0 a x2 x3 x4 x5 x6 x7);
  Field "object" false Model.Object
    (λ a '(Model.mk x0 x1 x2 x3 x4 x5 x6 x7),
       Model.mk x0 x1 a x3 x4 x5 x6 x7);
  Field "owned_by" false Model.OwnedBy
    (λ a '(Model.mk x0 x1 x2 x3 x4 x5 x6 x7),
       Model.mk x0 x1 x2 a x4 x5 x6 x7);
  Field "permission" false Model.Permission
    (λ a '(Model.mk x0 x1 x2 x3 x4 x5 x6 x7),
       Model.mk x0 x1 x2 x3 a x5 x6 x7);
  Field "root" false Model.Root
    (λ a '(Model.mk x0 x1 x2 x3 x4 x5 x6 x7),
       Model.mk x0 x1 x2 x3 x4 a x6 x7);
  Field "parent" false Model.Parent
    (λ a '(Model.mk x0 x1 x2 x3 x4 x5 x6 x7),
       Model.mk x0 x1 x2 x3 x4 x5 a x7)
].

#[global] Instance JSON_Model : JSON Model.t :=
  JSON_struct Model_fields "giteeai.Model".

Definition FineTuneModelDeleteResponse_fields : list (field FineTuneModelDeleteResponse.t) := [
  Field "id" false FineTuneModelDeleteResponse.ID
    (λ a '(FineTuneModelDeleteResponse.mk x0 x1 x2 x3),
       FineTuneModelDeleteResponse.mk a x1 x2 x3);
  Field "object" false FineTuneModelDeleteResponse.Object
    (λ a '(FineTuneModelDeleteResponse.mk x0 x1 x2 x3),
       FineTuneModelDeleteResponse.mk x0 a x2 x3);
  Field "deleted" false FineTuneModelDeleteResponse.Deleted
    (λ a '(FineTuneModelDeleteResponse.mk x0 x1 x2 x3),
       FineTuneModelDeleteResponse.mk x0 x1 a x3)
].

#[global] Instance JSON_FineTuneModelDeleteResponse : JSON FineTuneModelDeleteResponse.t :=
  JSON_struct FineTuneModelDeleteResponse_fields "giteeai.FineTuneModelDeleteResponse".

Definition ModelsList_fields : list (field ModelsList.t) := [
  Field "data" false ModelsList.Models
    (λ a '(ModelsList.mk x0 x1),
       ModelsList.mk a x1)
].

#[global] Instance JSON_ModelsList : JSON ModelsList.t :=
  JSON_struct ModelsList_fields "giteeai.ModelsList".

Definition Model_merge (x y : Model.t) : Model.t :=
  let '(Model.mk x0 x1 x2 x3 x4 x5 x6 _) := x in
  let '(Model.mk _ _ _ _ _ _ _ y7) := y in
  Model.mk x0 x1 x2 x3 x4 x5 x6 y7.

Definition FineTuneModelDeleteResponse_merge (x y : FineTuneModelDeleteResponse.t) : FineTuneModelDeleteResponse.t :=
  let '(FineTuneModelDeleteResponse.mk x0 x1 x2 _) := x in
  let '(FineTuneModelDeleteResponse.mk _ _ _ y3) := y in
  FineTuneModelDeleteResponse.mk x0 x1 x2 y3.

Definition ModelsList_merge (x y : ModelsList.t) : ModelsList.t :=
  let '(ModelsList.mk x0 _) := x in
  let '(ModelsList.mk _ y1) := y in
  ModelsList.mk x0 y1.

(** ** The structures of image.go *)

Section Image.
Context `{FloatCodec}.

Definition ImageRequest_fields : list (field ImageRequest.t) := [
  Field "prompt" true ImageRequest.Prompt
    (λ a '(ImageRequest.mk x0 x1 x2 x3 x4 x5 x6 x7 x8 x9),
       ImageRequest.mk a x1 x2 x3 x4 x5 x6 x7 x8 x9);
  Field "model" true ImageRequest.Model
    (λ a '(ImageRequest.mk x0 x1 x2 x3 x4 x5 x6 x7 x8 x9),
       ImageRequest.mk x0 a x2 x3 x4 x5 x6 x7 x8 x9);
  Field "n" true ImageRequest.N
    (λ a '(ImageRequest.mk x0 x1 x2 x3 x4 x5 x6 x7 x8 x9),
       ImageRequest.mk x0 x1 a x3 x4 x5 x6 x7 x8 x9);
  Field "quality" true ImageRequest.Quality
    (λ a '(ImageRequest.mk x0 x1 x2 x3 x4 x5 x6 x7 x8 x9),
       ImageRequest.mk x0 x1 x2 a x4 x5 x6 x7 x8 x9);
  Field "size" true ImageRequest.Size
    (λ a '(ImageRequest.mk x0 x1 x2 x3 x4 x5 x6 x7 x8 x9),
       ImageRequest.mk x0 x1 x2 x3 a x5 x6 x7 x8 x9);
  Field "style" true ImageRequest.Style
    (λ a '(ImageRequest.mk x0 x1 x2 x3 x4 x5 x6 x7 x8 x9),
       ImageRequest.mk x0 x1 x2 x3 x4 a x6 x7 x8 x9);
  Field "response_format" true ImageRequest.ResponseFormat
    (λ a '(ImageRequest.mk x0 x1 x2 x3 x4 x5 x6 x7 x8 x9),
       ImageRequest.mk x0 x1 x2 x3 x4 x5 a x7 x8 x9);
  Field "user" true ImageRequest.User
    (λ a '(ImageRequest.mk x0 x1 x2 x3 x4 x5 x6 x7 x8 x9),
       ImageRequest.mk x0 x1 x2 x3 x4 x5 x6 a x8 x9);
  Field "guidance_scale" true (codec := JSON_float64) ImageRequest.GuidanceScale
    (λ a '(ImageRequest.mk x0 x1 x2 x3 x4 x5 x6 x7 x8 x9),
       ImageRequest.mk x0 x1 x2 x3 x4 x5 x6 x7 a x9);
  Field "seed" true ImageRequest.Seed
    (λ a '(ImageRequest.mk x0 x1 x2 x3 x4 x5 x6 x7 x8 x9),
       ImageRequest.mk x0 x1 x2 x3 x4 x5 x6 x7 x8 a)
].

#[global] Instance JSON_ImageRequest : JSON ImageRequest.t :=
  JSON_struct ImageRequest_fields "giteeai.ImageRequest".
End Image.

Definition ImageResponseDataInner_fields : list (field ImageResponseDataInner.t) := [
  Field "url" true ImageResponseDataInner.URL
    (λ a '(ImageResponseDataInner.mk x0 x1 x2),
       ImageResponseDataInner.mk a x1 x2);
  Field "b64_json" true ImageResponseDataInner.B64JSON
    (λ a '(ImageResponseDataInner.mk x0 x1 x2),
       ImageResponseDataInner.mk x0 a x2);
  Field "revised_prompt" true ImageResponseDataInner.RevisedPrompt
    (λ a '(ImageResponseDataInner.mk x0 x1 x2),
       ImageResponseDataInner.mk x0 x1 a)
].

#[global] Instance JSON_ImageResponseDataInner : JSON ImageResponseDataInner.t :=
  JSON_struct ImageResponseDataInner_fields "giteeai.ImageResponseDataInner".

Definition ImageResponse_fields : list (field ImageResponse.t) := [
  Field "created" true (codec := JSON_int64) ImageResponse.Created
    (λ a '(ImageResponse.mk x0 x1 x2),
       ImageResponse.mk a x1 x2);
  Field "data" true ImageResponse.Data
    (λ a '(ImageResponse.mk x0 x1 x2),
       ImageResponse.mk x0 a x2)
].

#[global] Instance JSON_ImageResponse : JSON ImageResponse.t :=
  JSON_struct ImageResponse_fields "giteeai.ImageResponse".

Definition ImageResponse_merge (x y : ImageResponse.t) : ImageResponse.t :=
  let '(ImageResponse.mk x0 x1 _) := x in
  let '(ImageResponse.mk _ _ y2) := y in
  ImageResponse.mk x0 x1 y2.

(** ** A codec of the floating point zeros

    The least codec of floating point numbers: it prints and reads the two
    zeros, which is all that a request without floating point options
    needs. *)
Definition zero_floats : FloatCodec := {|
  format_float _ f := match f with
                      | S754_zero false => Some "0"
                      | S754_zero true => Some "-0"
                      | _ => None
                      end;
  parse_float _ lit := if decide (lit = "0") then Some (S754_zero false)
                       else if decide (lit = "-0") then Some (S754_zero true)
                       else None;
|}.

#[global] Instance CompletionRequest_zero {StreamOptions} :
  Zero (CompletionRequest.t StreamOptions) :=
  CompletionRequest.mk zero zero zero zero zero zero zero zero zero zero zero zero zero zero
    zero zero zero zero zero zero.

#[global] Instance ImageRequest_zero : Zero ImageRequest.t :=
  ImageRequest.mk zero zero zero zero zero zero zero zero zero zero.

(** The scope of [zero_floats]. *)
Definition only_zero (bits : Z) (f : spec_float) : Prop := f = S754_zero false.

(** ** The values of the round trip *)

(** Text in well-formed UTF-8: what the encoder writes as it is and the
    decoder reads as it is. *)
Definition plain_text (s : string) : Prop := text (bs s) = true.
Definition int64 (z : Z) : Prop := in_int64 z = true.

Definition Usage_ok (x : Usage.t) : Prop :=
  int64 (Usage.PromptTokens x) ∧ int64 (Usage.CompletionTokens x) ∧
  int64 (Usage.TotalTokens x).

(** The log probabilities are floating point numbers of the scope [fok] of
    the float codec, under plain keys. *)
Definition LogprobResult_ok (fok : Z → spec_float → Prop) (x : LogprobResult.t) : Prop :=
  Forall plain_text (LogprobResult.Tokens x) ∧
  Forall (float_scope (fok 32%Z)) (LogprobResult.TokenLogprobs x) ∧
  Forall (map_scope (float_scope (fok 32%Z))) (LogprobResult.TopLogprobs x) ∧
  Forall int64 (LogprobResult.TextOffset x).

Definition CompletionChoice_ok (fok : Z → spec_float → Prop) (x : CompletionChoice.t) : Prop :=
  plain_text (CompletionChoice.Text x) ∧ int64 (CompletionChoice.Index x) ∧
  plain_text (CompletionChoice.FinishReason x) ∧
  LogprobResult_ok fok (CompletionChoice.LogProbs x).

Definition CompletionResponse_ok {Usage} (fok : Z → spec_float → Prop) (ok : Usage → Prop)
    (x : CompletionResponse.t Usage) : Prop :=
  plain_text (CompletionResponse.ID x) ∧ plain_text (CompletionResponse.Object x) ∧
  int64 (CompletionResponse.Created x) ∧ plain_text (CompletionResponse.Model x) ∧
  Forall (CompletionChoice_ok fok) (CompletionResponse.Choices x) ∧
  option_ok ok (CompletionResponse.Usage_ x) ∧ CompletionResponse.header x = zero.

Definition Permission_ok (x : Permission.t) : Prop :=
  int64 (Permission.CreatedAt x) ∧ plain_text (Permission.ID x) ∧
  plain_text (Permission.Object x) ∧ plain_text (Permission.Organization x) ∧
  canonical (Permission.Group x) = true.

Definition Model_ok (x : Model.t) : Prop :=
  int64 (Model.CreatedAt x) ∧ plain_text (Model.ID x) ∧ plain_text (Model.Object x) ∧
  plain_text (Model.OwnedBy x) ∧ Forall Permission_ok (Model.Permission x) ∧
  plain_text (Model.Root x) ∧ plain_text (Model.Parent x) ∧ Model.header x = zero.

Definition FineTuneModelDeleteResponse_ok (x : FineTuneModelDeleteResponse.t) : Prop :=
  plain_text (FineTuneModelDeleteResponse.ID x) ∧
  plain_text (FineTuneModelDeleteResponse.Object x) ∧
  FineTuneModelDeleteResponse.header x = zero.

Definition ModelsList_ok (x : ModelsList.t) : Prop :=
  Forall Model_ok (ModelsList.Models x) ∧ ModelsList.header x = zero.

Definition ImageResponseDataInner_ok (x : ImageResponseDataInner.t) : Prop :=
  plain_text (ImageResponseDataInner.URL x) ∧
  plain_text (ImageResponseDataInner.B64JSON x) ∧
  plain_text (ImageResponseDataInner.RevisedPrompt x).

Definition ImageResponse_ok (x : ImageResponse.t) : Prop :=
  int64 (ImageResponse.Created x) ∧
  Forall ImageResponseDataInner_ok (ImageResponse.Data x) ∧
  ImageResponse.header x = zero.

(** ** The requests of the round trip *)

Definition StreamOptions_ok (x : StreamOptions.t) : Prop := True.

(** The requests of the round trip: plain text, 64-bit integers, a prompt
    of the dynamic types a decoder makes, and floating point numbers of
    the scope of the codec. *)
Definition CompletionRequest_ok {StreamOptions} (fok : Z → spec_float → Prop)
    (sok : StreamOptions → Prop) (x : CompletionRequest.t StreamOptions) : Prop :=
  plain_text (CompletionRequest.Model x) ∧ canonical (CompletionRequest.Prompt x) = true ∧
  int64 (CompletionRequest.BestOf x) ∧ float_scope (fok 32%Z) (CompletionRequest.FrequencyPenalty x) ∧
  map_scope int64 (CompletionRequest.LogitBias x) ∧
  map_scope plain_text (CompletionRequest.Metadata x) ∧
  int64 (CompletionRequest.LogProbs x) ∧ int64 (CompletionRequest.MaxTokens x) ∧
  int64 (CompletionRequest.N x) ∧ float_scope (fok 32%Z) (CompletionRequest.PresencePenalty x) ∧
  option_ok int64 (CompletionRequest.Seed x) ∧ Forall plain_text (CompletionRequest.Stop x) ∧
  plain_text (CompletionRequest.Suffix x) ∧ float_scope (fok 32%Z) (CompletionRequest.Temperature x) ∧
  float_scope (fok 32%Z) (CompletionRequest.TopP x) ∧ plain_text (CompletionRequest.User x) ∧
  option_ok sok (CompletionRequest.StreamOptions_ x).

Definition ImageRequest_ok (fok : Z → spec_float → Prop) (x : ImageRequest.t) : Prop :=
  plain_text (ImageRequest.Prompt x) ∧ plain_text (ImageRequest.Model x) ∧
  int64 (ImageRequest.N x) ∧ plain_text (ImageRequest.Quality x) ∧
  plain_text (ImageRequest.Size x) ∧ plain_text (ImageRequest.Style x) ∧
  plain_text (ImageRequest.ResponseFormat x) ∧ plain_text (ImageRequest.User x) ∧
  float_scope (fok 64%Z) (ImageRequest.GuidanceScale x) ∧ int64 (ImageRequest.Seed x).

(** ** Responses *)

(** The response structures: the header is no field, and the client writes
    it before the decoder writes the fields. *)
Class ResponseOK {T : Type} `{Zero T, Response T} (fs : list (field T))
    (merge : T → T → T) (ok : T → Prop) : Prop := {
  header_fields h f : f ∈ fs → get f (SetHeader h zero) = get f zero;
  header_merge h x : ok x → merge x (SetHeader h zero) = SetHeader h x;
}.

(** The transport answers the request [req], sent in the world [w], with a
    success status, the header [h] and a body that holds the encoding of
    [r], and nothing after it that could continue a number. *)
Definition answers {T} `{Marshal T} (c : Client) (req : Request.t) (w : World)
    (h : Header) (r : T) : Prop :=
  let out := Do (ClientConfig.HTTPClient (config c)) (jsonRequest req) w in
  ∃ res b data rest,
    out.1 = Ok res ∧ isFailureStatusCode res = false ∧ Response.Header res = h ∧
    bodies out.2 !! Response.Body res = Some b ∧ Body.closed b = false ∧
    marshal r = Ok data ∧ content (Body.pending b) = (data ++ rest)%list ∧
    stops rest = true.

(** * Lemmas *)

(** ** The descriptions of the structures are lawful *)

#[global] Instance Usage_struct : StructOK Usage_fields (λ x _, x) Usage_ok.
Proof. struct_laws Usage_fields. Qed.
#[global] Instance Usage_codec_ok : JSONOK Usage.t Usage_ok.
Proof. exact (struct_ok _ _ _ _). Qed.

#[global] Instance ImageResponseDataInner_struct :
  StructOK ImageResponseDataInner_fields (λ x _, x) ImageResponseDataInner_ok.
Proof. struct_laws ImageResponseDataInner_fields. Qed.
#[global] Instance ImageResponseDataInner_codec_ok :
  JSONOK ImageResponseDataInner.t ImageResponseDataInner_ok.
Proof. exact (struct_ok _ _ _ _). Qed.

#[global] Instance ImageResponse_struct :
  StructOK ImageResponse_fields ImageResponse_merge ImageResponse_ok.
Proof. struct_laws ImageResponse_fields. Qed.
#[global] Instance ImageResponse_codec_ok : JSONOK ImageResponse.t ImageResponse_ok.
Proof. exact (struct_ok _ _ _ _). Qed.

#[global] Instance FineTuneModelDeleteResponse_struct :
  StructOK FineTuneModelDeleteResponse_fields FineTuneModelDeleteResponse_merge
    FineTuneModelDeleteResponse_ok.
Proof. struct_laws FineTuneModelDeleteResponse_fields. Qed.
#[global] Instance FineTuneModelDeleteResponse_codec_ok :
  JSONOK FineTuneModelDeleteResponse.t FineTuneModelDeleteResponse_ok.
Proof. exact (struct_ok _ _ _ _). Qed.

#[global] Instance Permission_struct : StructOK Permission_fields (λ x _, x) Permission_ok.
Proof. struct_laws Permission_fields. Qed.
#[global] Instance Permission_codec_ok : JSONOK Permission.t Permission_ok.
Proof. exact (struct_ok _ _ _ _). Qed.

#[global] Instance Model_struct : StructOK Model_fields Model_merge Model_ok.
Proof. struct_laws Model_fields. Qed.
#[global] Instance Model_codec_ok : JSONOK Model.t Model_ok.
Proof. exact (struct_ok _ _ _ _). Qed.

#[global] Instance ModelsList_struct :
  StructOK ModelsList_fields ModelsList_merge ModelsList_ok.
Proof. struct_laws ModelsList_fields. Qed.
#[global] Instance ModelsList_codec_ok : JSONOK ModelsList.t ModelsList_ok.
Proof. exact (struct_ok _ _ _ _). Qed.

Section CompletionLaws.
Context `{FloatCodec} (fok : Z → spec_float → Prop) `{!FloatCodecOK fok}.
Context {Usage : Type} `{JSON Usage, Zero Usage} (ok : Usage → Prop).
Context `{!JSONOK Usage ok, !NonNull Usage}.

#[local] Existing Instances float32_ok float64_ok map_ok.

#[global] Instance LogprobResult_struct :
  StructOK LogprobResult_fields (λ x _, x) (LogprobResult_ok fok).
Proof. struct_laws LogprobResult_fields. Qed.
#[global] Instance LogprobResult_codec_ok :
  JSONOK LogprobResult.t (LogprobResult_ok fok).
Proof. exact (struct_ok _ _ _ _). Qed.

#[global] Instance CompletionChoice_struct :
  StructOK CompletionChoice_fields (λ x _, x) (CompletionChoice_ok fok).
Proof. struct_laws CompletionChoice_fields. Qed.
#[global] Instance CompletionChoice_codec_ok :
  JSONOK CompletionChoice.t (CompletionChoice_ok fok).
Proof. exact (struct_ok _ _ _ _). Qed.

#[global] Instance CompletionResponse_struct :
  StructOK CompletionResponse_fields CompletionResponse_merge
    (CompletionResponse_ok fok ok).
Proof. struct_laws CompletionResponse_fields. Qed.
#[global] Instance CompletionResponse_codec_ok :
  JSONOK (CompletionResponse.t Usage) (CompletionResponse_ok fok ok).
Proof. exact (struct_ok _ _ _ _). Qed.
End CompletionLaws.

(** ** The response structures are read whatever the order of the members *)

#[global] Instance Usage_fields_unordered : FieldsUnordered Usage_fields Usage_ok.
Proof. fields_unordered Usage_fields. Qed.
#[global] Instance Usage_unordered : Unordered Usage.t Usage_ok.
Proof. exact (struct_unordered _ _ _ _). Qed.

#[global] Instance ImageResponseDataInner_fields_unordered :
  FieldsUnordered ImageResponseDataInner_fields ImageResponseDataInner_ok.
Proof. fields_unordered ImageResponseDataInner_fields. Qed.
#[global] Instance ImageResponseDataInner_unordered :
  Unordered ImageResponseDataInner.t ImageResponseDataInner_ok.
Proof. exact (struct_unordered _ _ _ _). Qed.

#[global] Instance ImageResponse_fields_unordered :
  FieldsUnordered ImageResponse_fields ImageResponse_ok.
Proof. fields_unordered ImageResponse_fields. Qed.
#[global] Instance ImageResponse_unordered : Unordered ImageResponse.t ImageResponse_ok.
Proof. exact (struct_unordered _ _ _ _). Qed.

#[global] Instance FineTuneModelDeleteResponse_fields_unordered :
  FieldsUnordered FineTuneModelDeleteResponse_fields FineTuneModelDeleteResponse_ok.
Proof. fields_unordered FineTuneModelDeleteResponse_fields. Qed.
#[global] Instance FineTuneModelDeleteResponse_unordered :
  Unordered FineTuneModelDeleteResponse.t FineTuneModelDeleteResponse_ok.
Proof. exact (struct_unordered _ _ _ _). Qed.

#[global] Instance Permission_fields_unordered :
  FieldsUnordered Permission_fields Permission_ok.
Proof. fields_unordered Permission_fields. Qed.
#[global] Instance Permission_unordered : Unordered Permission.t Permission_ok.
Proof. exact (struct_unordered _ _ _ _). Qed.

#[global] Instance Model_fields_unordered : FieldsUnordered Model_fields Model_ok.
Proof. fields_unordered Model_fields. Qed.
#[global] Instance Model_unordered : Unordered Model.t Model_ok.
Proof. exact (struct_unordered _ _ _ _). Qed.

#[global] Instance ModelsList_fields_unordered :
  FieldsUnordered ModelsList_fields ModelsList_ok.
Proof. fields_unordered ModelsList_fields. Qed.
#[global] Instance ModelsList_unordered : Unordered ModelsList.t ModelsList_ok.
Proof. exact (struct_unordered _ _ _ _). Qed.

Section CompletionUnordered.
Context `{FloatCodec} (fok : Z → spec_float → Prop) `{!FloatCodecOK fok}.
Context {Usage : Type} `{JSON Usage, Zero Usage} (ok : Usage → Prop).
Context `{!JSONOK Usage ok, !NonNull Usage, !Unordered Usage ok}.

#[local] Existing Instances map_unordered.

#[global] Instance LogprobResult_fields_unordered :
  FieldsUnordered LogprobResult_fields (LogprobResult_ok fok).
Proof. fields_unordered LogprobResult_fields. Qed.
#[global] Instance LogprobResult_unordered :
  Unordered LogprobResult.t (LogprobResult_ok fok).
Proof. exact (struct_unordered _ _ _ _). Qed.

#[global] Instance CompletionChoice_fields_unordered :
  FieldsUnordered CompletionChoice_fields (CompletionChoice_ok fok).
Proof. fields_unordered CompletionChoice_fields. Qed.
#[global] Instance CompletionChoice_unordered :
  Unordered CompletionChoice.t (CompletionChoice_ok fok).
Proof. exact (struct_unordered _ _ _ _). Qed.

#[global] Instance CompletionResponse_fields_unordered :
  FieldsUnordered CompletionResponse_fields (CompletionResponse_ok fok ok).
Proof. fields_unordered CompletionResponse_fields. Qed.
#[global] Instance CompletionResponse_unordered :
  Unordered (CompletionResponse.t Usage) (CompletionResponse_ok fok ok).
Proof. exact (struct_unordered _ _ _ _). Qed.
End CompletionUnordered.

(** ** The description of a completion request is lawful *)

#[global] Instance StreamOptions_struct :
  StructOK StreamOptions_fields (λ x _, x) StreamOptions_ok.
Proof. struct_laws StreamOptions_fields. Qed.
#[global] Instance StreamOptions_codec_ok : JSONOK StreamOptions.t StreamOptions_ok.
Proof. exact (struct_ok _ _ _ _). Qed.

Section RequestLaws.
Context `{FloatCodec} (fok : Z → spec_float → Prop) `{!FloatCodecOK fok}.
Context {StreamOptions : Type} `{JSON StreamOptions, Zero StreamOptions}.
Context (sok : StreamOptions → Prop) `{!JSONOK StreamOptions sok, !NonNull StreamOptions}.

#[local] Existing Instances float32_ok float64_ok map_ok.

#[global] Instance CompletionRequest_struct :
  StructOK (T := CompletionRequest.t StreamOptions) CompletionRequest_fields (λ x _, x)
    (CompletionRequest_ok fok sok).
Proof. struct_laws CompletionRequest_fields. Qed.
#[global] Instance CompletionRequest_codec_ok :
  JSONOK (CompletionRequest.t StreamOptions) (CompletionRequest_ok fok sok).
Proof. exact (struct_ok _ _ _ _). Qed.

(** What the encoder writes for a request, a server that decodes it with
    the same tags reads as the request. *)
Theorem CompletionRequest_round_trip (request : CompletionRequest.t StreamOptions) :
  CompletionRequest_ok fok sok request →
  ∃ data, marshal request = Ok data ∧ unmarshal data zero = (request, None).
Proof.
  intros Hr. destruct (marshal_unmarshal (CompletionRequest_ok fok sok) request Hr)
    as (data & Hm & Hu & _). by exists data.
Qed.
End RequestLaws.

Section ImageRequestLaws.
Context `{FloatCodec} (fok : Z → spec_float → Prop) `{!FloatCodecOK fok}.

#[local] Existing Instances float32_ok float64_ok.

#[global] Instance ImageRequest_struct :
  StructOK ImageRequest_fields (λ x _, x) (ImageRequest_ok fok).
Proof. struct_laws ImageRequest_fields. Qed.
#[global] Instance ImageRequest_codec_ok : JSONOK ImageRequest.t (ImageRequest_ok fok).
Proof. exact (struct_ok _ _ _ _). Qed.

Lemma ImageRequest_round_trip (request : ImageRequest.t) :
  ImageRequest_ok fok request →
  ∃ data, marshal request = Ok data ∧ unmarshal data zero = (request, None).
Proof.
  intros Hr. destruct (marshal_unmarshal (ImageRequest_ok fok) request Hr)
    as (data & Hm & Hu & _). by exists data.
Qed.
End ImageRequestLaws.

(** ** Calls that are answered *)

Tactic Notation "response_laws" reference(fs) :=
  split; unfold fs;
  [ intros h f Hf; fields_cases; reflexivity
  | intros h [] Hx; hnf in Hx; cbn in *; destruct_and?; by subst ].

#[global] Instance ImageResponse_response :
  ResponseOK ImageResponse_fields ImageResponse_merge ImageResponse_ok.
Proof. response_laws ImageResponse_fields. Qed.

Section Responses.
Context {T : Type} `{Zero T, Response T} (fs : list (field T)) (merge : T → T → T).
Context (ok : T → Prop) (name : string) `{!StructOK fs merge ok, !ResponseOK fs merge ok}.
Context `{!Unmarshal ErrorResponse.t}.

#[local] Instance response_codec : JSON T := JSON_struct fs name.

(** The decoder of a response reads the encoding of a response of the
    scope into the variable that holds the header. *)
Lemma decode_response x data rest rerr h :
  ok x → marshal x = Ok data → stops rest = true →
  decode (data ++ rest)%list rerr (SetHeader h zero) = (SetHeader h x, None).
Proof.
  intros Hx Hm Hr.
  destruct (struct_round_trip_into fs merge ok name x (SetHeader h zero) Hx)
    as (v & Ev & Hwf & Hpl & Hd); [intros f Hf; by apply header_fields|].
  unfold marshal, Marshal_JSON, json_marshal in Hm. cbn [enc response_codec JSON_struct] in Hm.
  rewrite Ev in Hm. injection Hm as <-.
  unfold decode, Decode_JSON, json_decode. rewrite parse_front_print by done.
  cbn [dec response_codec JSON_struct]. by rewrite Hd, header_merge.
Qed.

(** A call that ends in [sendInto] returns the response that the transport
    answers with, under the header of the answer. *)
Lemma sendInto_decodes c req w h (r : T) :
  answers c req w h r → ok r →
  (sendInto c (Ok req) zero w).1 = (SetHeader h r, None).
Proof.
  intros (res & b & data & rest & HDo & Hok & <- & Hb & Hc & Hm & Hdata & Hrest) Hr.
  unfold sendInto. rewrite ST_bind_run, sendRequest_unfold.
  destruct (Do _ _ w) as [[res'|err'] w1]; simplify_eq/=.
  unfold respond. rewrite Hok. simpl. rewrite ST_bind_run.
  rewrite (ReadAll_open _ _ _ Hb Hc). simpl. rewrite Hdata.
  by rewrite (decode_response r data rest _ _ Hr Hm Hrest).
Qed.
End Responses.

Ltac answered H :=
  let res := fresh "res" in
  destruct H as (res & b & data & rest & HDo & Hok & <- & Hb & Hc & Hm & Hdata & Hrest).

#[global] Instance Model_response : ResponseOK Model_fields Model_merge Model_ok.
Proof. response_laws Model_fields. Qed.
#[global] Instance ModelsList_response :
  ResponseOK ModelsList_fields ModelsList_merge ModelsList_ok.
Proof. response_laws ModelsList_fields. Qed.
#[global] Instance FineTuneModelDeleteResponse_response :
  ResponseOK FineTuneModelDeleteResponse_fields FineTuneModelDeleteResponse_merge
    FineTuneModelDeleteResponse_ok.
Proof. response_laws FineTuneModelDeleteResponse_fields. Qed.

Section CompletionCalls.
Context `{FloatCodec} (fok : Z → spec_float → Prop) `{!FloatCodecOK fok}.
Context {StreamOptions Usage : Type} `{JSON StreamOptions, Zero StreamOptions}.
Context `{JSON Usage, Zero Usage} (ok : Usage → Prop) `{!JSONOK Usage ok, !NonNull Usage}.
Context `{!Unmarshal ErrorResponse.t}.

#[global] Instance CompletionResponse_response :
  ResponseOK (T := CompletionResponse.t Usage) CompletionResponse_fields
    CompletionResponse_merge (CompletionResponse_ok fok ok).
Proof. response_laws CompletionResponse_fields. Qed.

(** A completion call whose request passes the guards and is answered with
    the encoding of a response returns that response, under the header of
    the answer, and no error. *)
Lemma CreateCompletion_answered c ctx (request : CompletionRequest.t StreamOptions)
    req w h (r : CompletionResponse.t Usage) :
  CompletionRequest.Stream request = false →
  checkPromptType (CompletionRequest.Prompt request) = true →
  completionRequest c ctx request = Ok req →
  answers c req w h r → CompletionResponse_ok fok ok r →
  (CreateCompletion c ctx request w).1 = (SetHeader h r, None).
Proof.
  intros Hs Hp Hreq Ha Hr. rewrite CreateCompletion_unfold, Hs, Hp, Hreq.
  by apply (sendInto_decodes CompletionResponse_fields CompletionResponse_merge
              (CompletionResponse_ok fok ok) "giteeai.CompletionResponse").
Qed.
End CompletionCalls.

Section ModelCalls.
Context `{!Unmarshal ErrorResponse.t}.

(** When the transport answers the request for the list of models with the
    encoding of a list, the call returns that list, under the header of the
    answer, and no error. *)
Theorem ListModels_decodes c ctx req w h (r : ModelsList.t) :
  modelRequest c ctx "GET" "/models" = Ok req → answers c req w h r → ModelsList_ok r →
  (ListModels c ctx w).1 = (SetHeader h r, None).
Proof.
  intros Hreq Ha Hr. rewrite ListModels_unfold, Hreq.
  by apply (sendInto_decodes ModelsList_fields ModelsList_merge ModelsList_ok
              "giteeai.ModelsList").
Qed.
End ModelCalls.

Section ImageCalls.
Context `{FloatCodec, !Unmarshal ErrorResponse.t}.

Lemma CreateImage_answered c ctx (request : ImageRequest.t) req w h (r : ImageResponse.t) :
  newRequest c ctx "POST" (ClientConfig.BaseURL (config c) ++ "/images/generations")
    [withBody (BodyValue (marshal request))] = Ok req →
  answers c req w h r → ImageResponse_ok r →
  (CreateImage c ctx request w).1 = (SetHeader h r, None).
Proof.
  intros Hreq Ha Hr. rewrite CreateImage_unfold, Hreq.
  by apply (sendInto_decodes ImageResponse_fields ImageResponse_merge ImageResponse_ok
              "giteeai.ImageResponse").
Qed.
End ImageCalls.

(** ** Theorems *)

Section CompletionWire.
Context `{FloatCodec} (fok : Z → spec_float → Prop) `{!FloatCodecOK fok}.
Context {StreamOptions Usage : Type} `{JSON StreamOptions, Zero StreamOptions}.
Context `{JSON Usage, Zero Usage} (ok : Usage → Prop) `{!JSONOK Usage ok, !NonNull Usage}.
Implicit Types (request : CompletionRequest.t StreamOptions) (r : CompletionResponse.t Usage).

(** C16: The decoders of the client read back the encoding of a completion
    response: [json.Unmarshal], and a decoder whatever the reader reports
    at its end. *)
Theorem CompletionResponse_round_trip r :
  CompletionResponse_ok fok ok r →
  ∃ data, marshal r = Ok data ∧ unmarshal data zero = (r, None) ∧
          ∀ rerr, decode data rerr zero = (r, None).
Proof. apply (marshal_unmarshal (CompletionResponse_ok fok ok)). Qed.



(** A temperature of zero is not sent: the server takes its default. *)
Lemma zero_temperature_not_sent request ms sign :
  CompletionRequest.Temperature request = S754_zero sign →
  enc request = Ok (JObject ms) → "temperature" ∉ ms.*1.
Proof.
  intros Ht E Hin.
  destruct (encode_struct_keys CompletionRequest_fields request _ E) as (ms' & [= <-] & Hk).
  rewrite Hk in Hin. apply list_elem_of_fmap in Hin as (f & Ef & [Hw Hf]%list_elem_of_filter).
  unfold CompletionRequest_fields in Hf. fields_cases; try done.
  unfold written in Hw. cbn in Hw. by rewrite Ht in Hw.
Qed.

(** A prompt that passes the check has an encoding. *)
Theorem checkPromptType_encodable prompt :
  checkPromptType prompt = true → ∃ v, enc prompt = Ok v ∧ wf v = true.
Proof.
  destruct prompt as [| | | |s|l|l| |]; simpl; try done.
  - by exists (JString s).
  - intros _. exists (JArray (JString <$> l)). split; [done|]. simpl.
    induction l as [|a l IH]; [done|]. exact IH.
  - intros Hl. enough (∃ vs, mapM enc_any l = Ok vs ∧ forallb wf vs = true)
      as (vs & E & Hwf).
    { exists (JArray vs). fold (mapM (M := res) enc_any l). by rewrite E. }
    induction l as [|a l IH]; [by exists []|]. simpl in Hl.
    destruct a; try done. destruct (IH Hl) as (vs & E & Hwf).
    exists (JString s :: vs). rewrite mapM_res_cons. simpl. by rewrite E.
Qed.
End CompletionWire.

Section ModelWire.

End ModelWire.

Section Fuel.
Context {T : Type} `{JSON T}.

End Fuel.

(** ** Witnesses *)

Section WireWitnesses.
#[local] Existing Instance zero_floats.

(** The codec of the zeros is lawful on the positive zero. *)
Lemma zero_floats_ok : FloatCodecOK only_zero.
Proof. split. intros bits f ->. by exists "0". Qed.
#[local] Existing Instance zero_floats_ok.

Definition a_response : CompletionResponse.t Usage.t :=
  CompletionResponse.mk "cmpl-1" "text_completion" 1700000000 "qwen2-7b-instruct"
    [CompletionChoice.mk " dolor sit amet" 0 "length" zero] (Some (Usage.mk 2 5 7)) zero.

Definition a_body : bytes :=
  jq "{'id':'cmpl-1','object':'text_completion','created':1700000000,'model':'qwen2-7b-instruct','choices':[{'text':' dolor sit amet','index':0,'finish_reason':'length','logprobs':{'tokens':null,'token_logprobs':null,'top_logprobs':null,'text_offset':null}}],'usage':{'prompt_tokens':2,'completion_tokens':5,'total_tokens':7}}".

Lemma a_response_ok : CompletionResponse_ok only_zero Usage_ok a_response.
Proof. repeat split; try done. repeat constructor. Qed.

Lemma CompletionResponse_round_trip_witness :
  ∃ data, marshal a_response = Ok data ∧ unmarshal data zero = (a_response, None) ∧
          ∀ rerr, decode data rerr zero = (a_response, None).
Proof.
  apply (CompletionResponse_round_trip only_zero Usage_ok a_response), a_response_ok.
Defined.

(** The encoding of the example response, byte for byte. *)
Example marshal_a_response : marshal a_response = Ok a_body.
Proof. by vm_compute. Qed.

(** A body whose time of creation does not fit 64 bits: the field stays
    zero and the decoder reports the number. *)
Definition overflow_body : bytes := jq "{'id':'cmpl-2','created':9223372036854775808}".


Example decode_overflow :
  decode (T := CompletionResponse.t Usage.t) overflow_body None zero =
  (CompletionResponse.mk "cmpl-2" "" 0 "" [] None zero,
   Some (UnmarshalTypeError "number 9223372036854775808" "int64")).
Proof. by vm_compute. Qed.

(** The request of the example program. *)
Definition lorem : CompletionRequest.t StreamOptions.t :=
  CompletionRequest.mk Qwen2_7B_Instruct (AnyString "Lorem ipsum") 0 false zero ∅ false ∅ 0
    5 0 zero None [] false "" zero zero "" None.




Example marshal_lorem :
  marshal lorem =
  Ok (jq "{'model':'qwen2-7b-instruct','prompt':'Lorem ipsum','max_tokens':5}").
Proof. by vm_compute. Qed.

(** A prompt beyond 7 bits (U+4F60, U+597D, in UTF-8) is in the scope of
    the round trip: it is sent as it is and read as it is. *)
Definition ni_hao : string := string_of_bytes ["228"; "189"; "160"; "229"; "165"; "189"]%char.

(** The request of the example program with another prompt. *)
Definition prompting (p : string) : CompletionRequest.t StreamOptions.t :=
  CompletionRequest.mk Qwen2_7B_Instruct (AnyString p) 0 false zero ∅ false ∅ 0
    5 0 zero None [] false "" zero zero "" None.

Definition greeting : CompletionRequest.t StreamOptions.t := prompting ni_hao.

Lemma greeting_ok : CompletionRequest_ok only_zero StreamOptions_ok greeting.
Proof. by repeat split. Qed.

Example prompt_beyond_ascii :
  marshal greeting =
    Ok (jq "{'model':'qwen2-7b-instruct','prompt':'" ++ bs ni_hao ++ jq "','max_tokens':5}")%list ∧
  ∃ data, marshal greeting = Ok data ∧ unmarshal data zero = (greeting, None).
Proof.
  split; [by vm_compute|].
  destruct (marshal_unmarshal (CompletionRequest_ok only_zero StreamOptions_ok) greeting
              greeting_ok) as (data & Hm & Hu & _).
  by exists data.
Qed.

(** A prompt that is not UTF-8 is outside it: the byte that begins no
    sequence is sent as the escape of U+FFFD, and the request that a server
    decodes has another prompt than the request of the caller. *)
Example prompt_ill_formed :
  let request := prompting (String "255" "abc") in
  marshal request =
    Ok (jq "{'model':'qwen2-7b-instruct','prompt':'\ufffdabc','max_tokens':5}") ∧
  ∃ data, marshal request = Ok data ∧
    unmarshal data zero =
      (prompting (string_of_bytes (replacement ++ bs "abc")%list), None).
Proof. split; [by vm_compute|]. eexists. split; [reflexivity|by vm_compute]. Qed.

Lemma checkPromptType_encodable_witness :
  ∃ v, enc (AnySlice [AnyString "Lorem"; AnyString "ipsum"]) = Ok v ∧ wf v = true.
Proof. by apply (checkPromptType_encodable (AnySlice [AnyString "Lorem"; AnyString "ipsum"])). Defined.




(** The list of models of the test server. *)
Definition models_body : bytes :=
  jq "{'data':[{'created':1700000000,'id':'qwen2-7b-instruct','object':'model','owned_by':'giteeai','permission':null,'root':'','parent':''}]}".

Definition a_models_list : ModelsList.t :=
  ModelsList.mk [Model.mk 1700000000 "qwen2-7b-instruct" "model" "giteeai" [] "" "" zero] zero.

Definition models_client : Client := client_200 [Data (take 17 models_body); Data (drop 17 models_body)].

Definition models_request : Request.t :=
  match modelRequest models_client Background "GET" "/models" with
  | Ok req => req
  | Fail _ => a_request
  end.

Lemma ListModels_decodes_witness :
  (ListModels models_client Background empty_world).1 =
  (SetHeader (Header_Set "Content-Type" "application/json" ∅) a_models_list, None).
Proof.
  apply (ListModels_decodes models_client Background models_request).
  - reflexivity.
  - eexists _, _, models_body, []. split_and!; reflexivity.
  - repeat split; try done. repeat constructor.
Defined.

(** The decoder takes the members in any order, finds the fields without
    regard to case, and skips the members it has no field for. *)
Example ListModels_other_order :
  (ListModels
     (client_200 [Data (jq "{'object':'list','DATA':[{'id':'qwen2-7b-instruct','owned_by':'giteeai','object':'model','created':1700000000}]} ")])
     Background empty_world).1 =
  (SetHeader (Header_Set "Content-Type" "application/json" ∅) a_models_list, None).
Proof. by vm_compute. Qed.
Lemma lorem_ok : CompletionRequest_ok only_zero StreamOptions_ok lorem.
Proof. by repeat split. Qed.

Lemma CompletionRequest_round_trip_witness :
  ∃ data, marshal lorem = Ok data ∧ unmarshal data zero = (lorem, None).
Proof.
  apply (CompletionRequest_round_trip only_zero StreamOptions_ok lorem).
  apply lorem_ok.
Defined.

(** internal/marshaller_test.go: a map of strings has an encoding that is
    not empty, a channel has none, and the nil interface is encoded as
    [null]. *)
Example TestJSONMarshaller_Normal :
  marshal ({["key" := "value"]} : gmap string string) = Ok (jq "{'key':'value'}").
Proof. by vm_compute. Qed.

Example TestJSONMarshaller_InvalidInput :
  marshal (AnyOther "chan int") = Fail (UnsupportedTypeError "chan int").
Proof. reflexivity. Qed.

Example TestJSONMarshaller_EmptyValue : marshal AnyNil = Ok (bs "null").
Proof. reflexivity. Qed.

End WireWitnesses.

(** ** The numbers of Go *)

Section GoFloats.
#[local] Existing Instance go_floats.
#[local] Existing Instance go_floats_ok.

(** C26: A completion request is written with the numbers as Go prints them and
    read back as it was: the sampling options may be any finite numbers of
    32 bits but the negative zero, which [omitempty] leaves out. *)
Theorem CompletionRequest_floats (request : CompletionRequest.t StreamOptions.t) :
  CompletionRequest_ok go_float StreamOptions_ok request →
  ∃ data, marshal request = Ok data ∧ unmarshal data zero = (request, None).
Proof. apply (CompletionRequest_round_trip go_float StreamOptions_ok). Qed.

(** A request with a temperature, a nucleus and a penalty. *)
Definition sampled : CompletionRequest.t StreamOptions.t :=
  CompletionRequest.mk Qwen2_7B_Instruct (AnyString "Lorem ipsum") 0 false
    (float_of 32 "-0.5") ∅ false ∅ 0 5 0 zero None [] false ""
    (float_of 32 "0.7") (float_of 32 "0.95") "" None.

Lemma sampled_ok : CompletionRequest_ok go_float StreamOptions_ok sampled.
Proof. by repeat split. Qed.

Lemma CompletionRequest_floats_witness :
  ∃ data, marshal sampled = Ok data ∧ unmarshal data zero = (sampled, None).
Proof. apply (CompletionRequest_floats sampled), sampled_ok. Defined.

(** The body of the request: the shortest decimals of the three numbers. *)
Example marshal_sampled :
  marshal sampled =
  Ok (jq "{'model':'qwen2-7b-instruct','prompt':'Lorem ipsum','frequency_penalty':-0.5,'max_tokens':5,'temperature':0.7,'top_p':0.95}").
Proof. by vm_compute. Qed.

(** The guidance scale of an image request is a number of 64 bits. *)
Example marshal_guidance_scale :
  marshal (ImageRequest.mk "an otter" "" 0 "" "" "" "" "" (float_of 64 "3.14159") 0) =
  Ok (jq "{'prompt':'an otter','guidance_scale':3.14159}") ∧
  ImageRequest_ok go_float (ImageRequest.mk "an otter" "" 0 "" "" "" "" "" (float_of 64 "3.14159") 0).
Proof. split; [by vm_compute|by repeat split]. Qed.

(** A temperature that is not a number has no encoding: the call of the
    endpoint fails before a request is made. *)
Example marshal_not_a_number :
  marshal (CompletionRequest.mk (StreamOptions := StreamOptions.t) Qwen2_7B_Instruct
             (AnyString "Lorem ipsum") 0 false zero ∅ false ∅ 0 5 0 zero None [] false ""
             S754_nan zero "" None) = Fail (UnsupportedValueError "float").
Proof. by vm_compute. Qed.

(** The log probabilities of a response, read into numbers of 32 bits: a
    literal with more digits than the width holds is rounded, and a number
    beyond the width is an error that leaves the field as it was. *)
Example unmarshal_logprobs :
  unmarshal (jq "{'token_logprobs':[-0.31,-1.5e-7,-0.30000000000000004]}") zero =
  (LogprobResult.mk [] [float_of 32 "-0.31"; float_of 32 "-1.5e-7"; float_of 32 "-0.3"] [] [],
   None).
Proof. by vm_compute. Qed.



Example unmarshal_logprobs_overflow :
  (unmarshal (T := LogprobResult.t) (jq "{'token_logprobs':[1e39]}") zero).2 =
  Some (UnmarshalTypeError "number 1e39" "float32").
Proof. by vm_compute. Qed.
End GoFloats.
