(* ===== verification/Lenient.v ===== *)
(** * Lenient: responses that differ from the encoding at any depth

    [encoding/json] reads a structure from an object whatever the order
    of its members, matches a key with the name of a field without regard
    to the case of its letters, and skips the members that no field
    has; it does so for every structure it meets on the way down: the
    elements of a slice, the target of a pointer, the fields that are
    structures themselves.  [Codec] proves this for the members of the
    outermost object and for reorderings below it.  This file proves it
    at every depth, by a relation on values that follows the type that is
    decoded:

    - [Tolerant A ok R]: the codec of [A] reads the same value of the
      scope [ok] from [v'] as from [v] whenever [R v v'];
    - [list_ext], [pointer_ext], [struct_ext]: the relations of slices,
      pointers and structures, from those of their parts; [by_key] gives
      the fields of a structure their relations by name;
    - [struct_tolerant], [list_tolerant], [pointer_tolerant]: the codecs
      of [Codec] are tolerant for these relations ([decode_struct],
      [dec_elems], [JSON_option]);
    - the relations and the instances of the structures of the package
      ([ModelsList], [ImageResponse], [CompletionResponse] and their
      parts).

    [Protocol] states the result for the calls of the endpoints. *)

From Stdlib Require Import ZArith NArith Ascii String List Lia Floats.SpecFloat.
From stdpp Require Import base tactics option list gmap strings sorting.
From S2P Require Import Prelude Bytes Errors Http Internal Config Fixtures Client.
From S2P Require Import Completion Models Image Json Codec Wire.

Set Warnings "-clear-no-such-hyp,-register-all".
#[local] Open Scope string_scope.

(** * Definitions *)

(** A codec that reads a value of its scope from every value that [R]
    relates to a value it reads it from. *)
Class Tolerant (A : Type) `{JSON A} (ok : A → Prop) (R : relation json) : Prop :=
  dec_ext v v' a r : R v v' → ok r → dec v a = (r, None) → dec v' a = (r, None).

(** The fields of a structure, each with the relation of its codec. *)
Class FieldsTolerant {T : Type} (fs : list (field T)) (ok : T → Prop)
    (F : field T → relation json) : Prop :=
  field_ext f v v' a r : f ∈ fs → ok r → F f v v' →
    @dec _ (codec f) v a = (get f r, None) → @dec _ (codec f) v' a = (get f r, None).

(** Arrays, element by element. *)
Definition list_ext (R : relation json) : relation json := λ v v',
  match v, v' with
  | JArray l, JArray l' => Forall2 R l l'
  | _, _ => v' = v
  end.

(** Pointers: nil stays nil. *)
Definition pointer_ext (R : relation json) : relation json := λ v v',
  v' = v ∨ (v ≠ JNull ∧ v' ≠ JNull ∧ R v v').

Section StructExt.
Context {T : Type} (fs : list (field T)) (F : field T → relation json).

(** Two members for the same field: the keys may differ in the case of
    their letters, the values by the relation of the field. *)
Definition member_ext (m m1 : string * json) : Prop :=
  ∃ f, find_field fs m.1 = Some f ∧ find_field fs m1.1 = Some f ∧ F f m.2 m1.2.

(** Objects: the members that have a field are those of the first object,
    in any order, each changed as its field allows, among members that
    have no field. *)
Definition struct_ext : relation json := λ v v',
  match v, v' with
  | JObject ms, JObject ms' =>
      NoDup (fold_key <$> ms.*1) ∧
      ∃ ms1, Forall2 member_ext ms ms1 ∧ ms1 ≡ₚ filter (λ m, known fs m = true) ms'
  | _, _ => v' = v
  end.
End StructExt.

(** The relation of the fields of a structure: that of the codec for the
    fields named, a reordering for the others. *)
Fixpoint by_key {T : Type} (named : list (string * relation json)) (f : field T) :
    relation json :=
  match named with
  | [] => json_perm
  | (k, R) :: named => if decide (k = key f) then R else by_key named f
  end.

(** The members of [ms'] that answer the members of [ms], in the order of
    [ms]: for each key the first member of [ms'] with the key, but for
    the case of its letters. *)
Definition arrange (ms ms' : list (string * json)) : list (string * json) :=
  omap (λ m, find (λ m', bool_decide (fold_key m'.1 = fold_key m.1)) ms') ms.

(** The relations of the structures of the package: for each structure
    the relations of its fields, and the relation of its objects. *)
Definition Usage_ext : relation json := struct_ext Usage_fields (by_key []).
Definition Permission_ext : relation json := struct_ext Permission_fields (by_key []).
Definition Model_rel : field Model.t → relation json :=
  by_key [("permission", list_ext Permission_ext)].
Definition Model_ext : relation json := struct_ext Model_fields Model_rel.
Definition ModelsList_rel : field ModelsList.t → relation json :=
  by_key [("data", list_ext Model_ext)].
Definition ModelsList_ext : relation json := struct_ext ModelsList_fields ModelsList_rel.
Definition ImageResponseDataInner_ext : relation json :=
  struct_ext ImageResponseDataInner_fields (by_key []).
Definition ImageResponse_rel : field ImageResponse.t → relation json :=
  by_key [("data", list_ext ImageResponseDataInner_ext)].
Definition ImageResponse_ext : relation json :=
  struct_ext ImageResponse_fields ImageResponse_rel.

Section CompletionExt.
Context `{FloatCodec} {Usage : Type} `{JSON Usage, Zero Usage} (RU : relation json).

Definition LogprobResult_ext : relation json := struct_ext LogprobResult_fields (by_key []).
Definition CompletionChoice_rel : field CompletionChoice.t → relation json :=
  by_key [("logprobs", LogprobResult_ext)].
Definition CompletionChoice_ext : relation json :=
  struct_ext CompletionChoice_fields CompletionChoice_rel.
Definition CompletionResponse_rel : field (CompletionResponse.t Usage) → relation json :=
  by_key [("choices", list_ext CompletionChoice_ext); ("usage", pointer_ext RU)].
Definition CompletionResponse_ext : relation json :=
  struct_ext CompletionResponse_fields CompletionResponse_rel.
End CompletionExt.

(** * Lemmas *)

#[global] Instance unordered_tolerant {A} `{JSON A} (ok : A → Prop) `{!Unordered A ok} :
  Tolerant A ok json_perm.
Proof. intros v v' a r. apply dec_perm. Qed.

Section ListTolerant.
Context {A} `{JSON A, Zero A} (ok : A → Prop) (R : relation json) `{!Tolerant A ok R}.

Lemma dec_elems_ext l l' rs :
  Forall2 R l l' → Forall ok rs → dec_elems l = (rs, None) → dec_elems l' = (rs, None).
Proof.
  intros Hp. revert rs. induction Hp as [|v v' l l' Hv Hp IH]; intros rs Hrs; [done|].
  unfold dec_elems in *. cbn [fold_right].
  destruct (dec v zero) as [a e] eqn:D, (fold_right _ _ l) as [rs1 e1] eqn:D1. cbn [fst snd].
  intros [= <- [-> ->]%first_error_None]. apply Forall_cons in Hrs as [Ha Hrs].
  by rewrite (dec_ext v v' zero a Hv Ha D), (IH rs1 Hrs eq_refl).
Qed.

#[global] Instance list_tolerant : Tolerant (list A) (Forall ok) (list_ext R).
Proof.
  intros v v' a r Hp Hr Hd. unfold list_ext in Hp.
  destruct v, v'; simplify_eq; try done. cbn [dec JSON_list] in *. by eapply dec_elems_ext.
Qed.

#[global] Instance pointer_tolerant : Tolerant (option A) (option_ok ok) (pointer_ext R).
Proof.
  intros v v' a r [->|(Hv & Hv' & Hp)] Hr Hd; [done|].
  assert (∃ x, r = Some x ∧ dec v (default zero a) = (x, None)) as (x & -> & Hx).
  { destruct v; [done|..]; cbn [dec JSON_option] in Hd;
      destruct (dec _ _) as [x e]; injection Hd as <- ->; by eexists. }
  destruct v'; [done|..]; cbn [dec JSON_option]; by rewrite (dec_ext _ _ _ x Hp Hr Hx).
Qed.
End ListTolerant.

Section StructTolerant.
Context {T : Type} `{Zero T} (fs : list (field T)) (merge : T → T → T) (ok : T → Prop).
Context (F : field T → relation json) `{!StructOK fs merge ok, !FieldsTolerant fs ok F}.

(** Members for the same fields have the same keys, but for the case. *)
Lemma member_ext_keys ms ms1 :
  Forall2 (member_ext fs F) ms ms1 → fold_key <$> ms1.*1 = fold_key <$> ms.*1.
Proof.
  induction 1 as [|m m1 ms ms1 (f & E & E1 & _) _ IH]; [done|]. rewrite !fmap_cons, IH.
  by rewrite <- (find_field_fold _ _ _ E), <- (find_field_fold _ _ _ E1).
Qed.

Lemma decode_members_ext ms ms1 x r :
  Forall2 (member_ext fs F) ms ms1 → NoDup (fold_key <$> ms.*1) →
  ok r → fold_left (decode_member fs) ms (x, None) = (r, None) →
  fold_left (decode_member fs) ms1 (x, None) = (r, None).
Proof.
  intros Hp. revert x. induction Hp as [|[k v] [k1 v1] ms ms1 (f & E & E1 & Hv) Hp IH];
    intros x Hnd Hr Hd; [done|]. cbn [fst snd] in *.
  rewrite !fmap_cons in Hnd. apply NoDup_cons in Hnd as [Hnotin Hnd].
  cbn [fold_left] in *. pose proof (decode_members_error _ _ _ (f_equal snd Hd)) as He.
  unfold decode_member in Hd, He |- *. cbn [fst snd] in *. rewrite E in Hd, He. rewrite E1.
  pose proof (find_field_elem _ _ _ E) as Hf.
  destruct (dec v (get f x)) as [a e] eqn:D. cbn [fst snd] in *.
  apply first_error_None in He as [_ ->].
  assert (a = get f r) as ->.
  { replace r with (r, @None error).1 by done.
    rewrite <- Hd, (decode_members_get fs merge ok); [|done|].
    - cbn [fst]. by rewrite (get_set f).
    - by rewrite (find_field_fold _ _ _ E). }
  rewrite (field_ext f v v1 _ r Hf Hr Hv D). by apply IH.
Qed.

#[global] Instance struct_tolerant name : @Tolerant T (JSON_struct fs name) ok (struct_ext fs F).
Proof.
  intros v v' a r Hp Hr Hd. unfold struct_ext in Hp.
  destruct v as [| | | | |ms]; try (by subst); destruct v' as [| | | | |ms']; simplify_eq; try done.
  destruct Hp as (Hnd & ms1 & Hms & Hp). cbn [dec JSON_struct decode_struct] in *.
  pose proof (decode_members_ext ms ms1 a r Hms Hnd Hr Hd) as Hd1.
  destruct (decode_members_perm fs merge ok ms1 _ (a, None) Hp) as [E1 E2].
  - by rewrite (member_ext_keys ms ms1).
  - rewrite Hd1, <- decode_members_known in E1, E2.
    destruct (fold_left _ ms' (a, None)) as [r' e']. cbn [fst snd] in *.
    subst r'. by rewrite (proj1 E2).
Qed.

(** An object that the relation of the structure relates to the encoding
    of a value decodes to the value. *)
Theorem decode_struct_tolerant name x ms v' :
  ok x → encode_struct fs x = Ok (JObject ms) → struct_ext fs F (JObject ms) v' →
  decode_struct fs name v' zero = (x, None).
Proof.
  intros Hx E Hp.
  destruct (struct_round_trip fs merge ok name x Hx) as (v & E' & _ & _ & Hd).
  assert (v = JObject ms) as -> by congruence.
  exact (struct_tolerant name _ _ zero x Hp Hx Hd).
Qed.
End StructTolerant.

(** ** A criterion that computes *)

Lemma arrange_subseteq ms ms' m : m ∈ arrange ms ms' → m ∈ ms'.
Proof.
  intros (m0 & _ & Hm)%list_elem_of_omap. by apply find_some in Hm as [?%list_elem_of_In _].
Qed.

(** The relation of a structure holds when the members of the second
    object that have a field are as many as the members of the first, and
    the member found for each key is related to the member of the key. *)
Lemma struct_ext_arrange {T} (fs : list (field T)) (F : field T → relation json) ms ms' :
  NoDup (fold_key <$> ms.*1) → Forall2 (member_ext fs F) ms (arrange ms ms') →
  (List.length (filter (λ m, known fs m = true) ms') ≤ List.length ms)%nat →
  struct_ext fs F (JObject ms) (JObject ms').
Proof.
  intros Hnd Hms Hlen. split; [done|]. exists (arrange ms ms'). split; [done|].
  apply submseteq_length_Permutation; [|by rewrite <- (Forall2_length _ _ _ Hms)].
  apply NoDup_submseteq.
  - apply (NoDup_fmap_1 (fold_key ∘ fst)). rewrite list_fmap_compose.
    by rewrite (member_ext_keys fs F ms).
  - intros m Hm. apply list_elem_of_filter. split; [|by eapply arrange_subseteq].
    apply list_elem_of_lookup_1 in Hm as [i Hi].
    destruct (Forall2_lookup_r _ _ _ _ _ Hms Hi) as (m0 & _ & f & _ & E & _).
    unfold known. by rewrite E.
Qed.

(** ** The structures of the package *)

(** A structure whose fields are read from reorderings is read by the
    relation of a structure without named fields. *)
#[global] Instance flat_tolerant {T} (fs : list (field T)) (ok : T → Prop)
  `{!FieldsUnordered fs ok} : FieldsTolerant fs ok (by_key []).
Proof. intros f v v' a r. apply field_perm. Qed.

(** [fields_tolerant fs] proves [FieldsTolerant fs ok (by_key named)] for
    the list of fields [fs] of a record, when [ok] is the conjunction of
    the scopes of the fields. *)
Tactic Notation "fields_tolerant" reference(fs) :=
  intros f v v' a r Hf Hr Hp Hd; hnf in Hr; unfold fs in Hf; fields_cases;
  cbn [get codec ftype key by_key] in *; repeat case_decide; try done;
  (eapply dec_ext; [exact Hp| |exact Hd]); destruct_and?;
  first [ assumption | done
        | match goal with
          | |- ?P ?x => is_evar P; let A := type of x in unify P (λ _ : A, True); exact I
          end ].

#[global] Instance Usage_tolerant : Tolerant Usage.t Usage_ok Usage_ext.
Proof. exact (struct_tolerant _ _ _ _ _). Qed.
#[global] Instance Permission_tolerant : Tolerant Permission.t Permission_ok Permission_ext.
Proof. exact (struct_tolerant _ _ _ _ _). Qed.
#[global] Instance Model_fields_tolerant :
  FieldsTolerant Model_fields Model_ok Model_rel.
Proof. unfold Model_rel. fields_tolerant Model_fields. Qed.
#[global] Instance Model_tolerant : Tolerant Model.t Model_ok Model_ext.
Proof. exact (struct_tolerant _ _ _ _ _). Qed.
#[global] Instance ModelsList_fields_tolerant :
  FieldsTolerant ModelsList_fields ModelsList_ok ModelsList_rel.
Proof. unfold ModelsList_rel. fields_tolerant ModelsList_fields. Qed.
#[global] Instance ImageResponseDataInner_tolerant :
  Tolerant ImageResponseDataInner.t ImageResponseDataInner_ok ImageResponseDataInner_ext.
Proof. exact (struct_tolerant _ _ _ _ _). Qed.
#[global] Instance ImageResponse_fields_tolerant :
  FieldsTolerant ImageResponse_fields ImageResponse_ok ImageResponse_rel.
Proof. unfold ImageResponse_rel. fields_tolerant ImageResponse_fields. Qed.

Section CompletionTolerant.
Context `{FloatCodec} (fok : Z → spec_float → Prop) `{!FloatCodecOK fok}.
Context {Usage : Type} `{JSON Usage, Zero Usage} (ok : Usage → Prop) (RU : relation json).
Context `{!JSONOK Usage ok, !NonNull Usage, !Unordered Usage ok, !Tolerant Usage ok RU}.

#[local] Existing Instances map_unordered.

#[global] Instance LogprobResult_tolerant :
  Tolerant LogprobResult.t (LogprobResult_ok fok) LogprobResult_ext.
Proof. exact (struct_tolerant _ _ _ _ _). Qed.
#[global] Instance CompletionChoice_fields_tolerant :
  FieldsTolerant CompletionChoice_fields (CompletionChoice_ok fok) CompletionChoice_rel.
Proof. unfold CompletionChoice_rel. fields_tolerant CompletionChoice_fields. Qed.
#[global] Instance CompletionChoice_tolerant :
  Tolerant CompletionChoice.t (CompletionChoice_ok fok) CompletionChoice_ext.
Proof. exact (struct_tolerant _ _ _ _ _). Qed.
#[global] Instance CompletionResponse_fields_tolerant :
  FieldsTolerant CompletionResponse_fields (CompletionResponse_ok fok ok)
    (CompletionResponse_rel RU).
Proof. unfold CompletionResponse_rel. fields_tolerant CompletionResponse_fields. Qed.
End CompletionTolerant.

(** [related] proves that the relation of a structure of the package holds
    between two values that are given: it walks the values by
    [struct_ext_arrange], and leaves no goal when they are related. *)
Ltac related :=
  lazymatch goal with
  | |- json_perm _ _ => apply json_perm_refl
  | |- Forall2 _ _ _ => constructor; related
  | |- member_ext _ _ _ _ =>
      unfold member_ext; eexists; split_and!; [reflexivity..|];
      cbn [by_key key fst snd]; repeat case_decide; try done; related
  | |- struct_ext _ _ (JObject ?ms) (JObject ?ms') =>
      apply struct_ext_arrange;
      [apply (bool_decide_unpack _); by vm_compute
      |let l := eval vm_compute in (arrange ms ms') in
       change (arrange ms ms') with l; related
      |by vm_compute]
  | |- pointer_ext _ _ _ => first [by left | right; split_and!; [done..|related]]
  | |- @eq json _ _ => reflexivity
  | |- _ =>
      progress unfold list_ext, Usage_ext, Permission_ext, Model_ext, Model_rel,
        ModelsList_ext, ModelsList_rel, ImageResponseDataInner_ext, ImageResponse_ext,
        ImageResponse_rel, LogprobResult_ext, CompletionChoice_ext, CompletionChoice_rel,
        CompletionResponse_ext, CompletionResponse_rel;
      related
  end.
