(* ===== verification/Protocol.v ===== *)
(** * Protocol: the client over the codec of the structures

    [Client] and [Stream] are written over any decoder of the error
    envelope, of the responses and of the events.  Here the decoder is the
    one of [Codec], on the field lists of [Wire]:

    - [outcome] is what a call returns as a function of the reply of the
      transport (status, bytes of the body, error of the connection), and
      every call of an endpoint returns it ([sendInto_outcome],
      [CreateCompletion_outcome], [ListModels_outcome], ...); the lemmas
      [outcome_answered], [outcome_reordered], [outcome_lenient],
      [outcome_tolerant], [outcome_refused] and [outcome_truncated]
      compute it on the replies of interest; [CreateCompletion_tolerant],
      [ListModels_tolerant] and [CreateImage_tolerant] state for the calls
      what [Lenient] proves of the decoder: the answer may differ from the
      encoding of the response in every object, at any depth, by the order
      of the members, the case of the keys and members without a field;
    - what the transport receives: the body of the request of a call
      decodes to the request of the caller ([CreateCompletion_sends],
      [CreateImage_sends]);
    - the error envelope is a lawful structure, so a response with a
      failure status and the encoding of an envelope in its body becomes
      the [APIError] of the envelope with the status of the response
      ([handleErrorResp_envelope]), and a body that is not JSON becomes a
      [RequestError] that keeps the bytes ([handleErrorResp_not_json]);
    - the encoding of a structure is a payload that a frame carries as it
      is: one line, no white space around, not the sentinel
      ([event_decodes]); so a stream of frames that carry the encodings of
      events delivers these events ([stream_of_events]), and so does a
      stream whose frames carry these events as a server may write them
      ([stream_of_answers]). *)

From Stdlib Require Import ZArith NArith Ascii String List Lia Floats.SpecFloat.
From stdpp Require Import base tactics option list gmap strings.
From S2P Require Import Prelude Bytes Errors Http Internal Config Fixtures Client Stream.
From S2P Require Import Completion Models Image Json Codec Wire Lenient.

#[local] Open Scope string_scope.

(** ** The scope of the error envelope *)

(** An [APIError] as a body carries it: the code is a value a decoder
    makes, the texts are plain, and the status fields, which have no key,
    are zero. *)
Definition APIError_ok (a : APIError.t) : Prop :=
  canonical (APIError.Code a) = true ∧ plain_text (APIError.Message a) ∧
  plain_text (APIError.Type_ a) ∧ APIError.HTTPStatus a = "" ∧
  APIError.HTTPStatusCode a = 0%Z.

Definition APIError_merge (x y : APIError.t) : APIError.t :=
  APIError.mk (APIError.Code x) (APIError.Message x) (APIError.Type_ x)
    (APIError.HTTPStatus y) (APIError.HTTPStatusCode y).

Definition ErrorResponse_ok (e : ErrorResponse.t) : Prop :=
  option_ok APIError_ok (ErrorResponse.Error e).

(** The envelope of an error. *)
Definition envelope (a : APIError.t) : ErrorResponse.t := ErrorResponse.mk (Some a).

(** The frames of a list of events: each frame carries the encoding of its
    event, after keep-alive lines within the limit. *)
Definition carries {T} `{Marshal T} (limit : N) (ok : T → Prop)
    (fs : script) (rs : list T) : Prop :=
  Forall2 (λ f r, keep_alives limit f.1 ∧ marshal r = Ok f.2 ∧ ok r) fs rs.

(** The frames of a list of events as a server may write them: each frame
    carries a value that the relation of the structure relates to the
    encoding of its event. *)
Definition answers {T} `{JSON T} (limit : N) (ok : T → Prop) (R : relation json)
    (fs : script) (rs : list T) : Prop :=
  Forall2 (λ f r, keep_alives limit f.1 ∧ ok r ∧
                  ∃ ms v', enc r = Ok (JObject ms) ∧ R (JObject ms) v' ∧
                           wf v' = true ∧ plain v' = true ∧ f.2 = print v') fs rs.

(** What the client relies on when it writes the header into a response
    before the decoder writes the fields: no field sees the header. *)
Class HeaderOK {T : Type} `{Response T} (fs : list (field T)) : Prop := {
  header_get h f x : f ∈ fs → get f (SetHeader h x) = get f x;
  header_set h f a x : f ∈ fs → set f a (SetHeader h x) = SetHeader h (set f a x);
}.

(** The transport replies to the request [req], sent in the world [w],
    with the response [res], whose body delivers the bytes [data] and then
    ends, with the error [rerr] of the connection if any. *)
Definition replies (c : Client) (req : Request.t) (w : World) (res : Response.t)
    (data : bytes) (rerr : option error) : Prop :=
  let out := Do (ClientConfig.HTTPClient (config c)) (jsonRequest req) w in
  ∃ b, out.1 = Ok res ∧ bodies out.2 !! Response.Body res = Some b ∧
       Body.closed b = false ∧ content (Body.pending b) = data ∧
       fault (Body.pending b) = rerr.

(** The error of a response with a failure status, from what its body
    delivered. *)
Definition error_of (res : Response.t) (data : bytes) (rerr : option error) : error :=
  match rerr with
  | Some err => ErrWrap "error, reading response body: %w" err
  | None =>
      let '(errRes, err) := unmarshal data (zero : ErrorResponse.t) in
      match err, ErrorResponse.Error errRes with
      | None, Some a =>
          ErrAPI (APIError.set_status (Response.Status res) (Response.StatusCode res) a)
      | _, Some a =>
          ErrRequest (mkRequestError (Response.Status res) (Response.StatusCode res)
                        (Some (ErrAPI a)) data)
      | _, None =>
          ErrRequest (mkRequestError (Response.Status res) (Response.StatusCode res)
                        err data)
      end
  end.

(** What a call returns, as a function of the reply: the header of the
    response in every case, with the error of the body on a failure status,
    and with what the body decodes to, and the error of the decoder,
    otherwise. *)
Definition outcome {T : Type} `{Zero T, Response T, Decode T} (res : Response.t)
    (data : bytes) (rerr : option error) : T * option error :=
  if isFailureStatusCode res
  then (SetHeader (Response.Header res) zero, Some (error_of res data rerr))
  else let '(r, e) := decode data rerr zero in (SetHeader (Response.Header res) r, e).

(** * Lemmas *)

#[global] Instance APIError_struct : StructOK APIError_fields APIError_merge APIError_ok.
Proof. struct_laws APIError_fields. Qed.
#[global] Instance APIError_codec_ok : JSONOK APIError.t APIError_ok.
Proof. exact (struct_ok _ _ _ _). Qed.

#[global] Instance ErrorResponse_struct :
  StructOK ErrorResponse_fields (λ x _, x) ErrorResponse_ok.
Proof. struct_laws ErrorResponse_fields. Qed.
#[global] Instance ErrorResponse_codec_ok : JSONOK ErrorResponse.t ErrorResponse_ok.
Proof. exact (struct_ok _ _ _ _). Qed.

(** The envelope of an error is read back from its encoding. *)
Lemma envelope_decodes a data :
  APIError_ok a → marshal (envelope a) = Ok data →
  unmarshal data zero = (envelope a, None).
Proof.
  intros Ha Hm.
  destruct (marshal_unmarshal ErrorResponse_ok (envelope a) Ha) as (data' & Hm' & Hu & _).
  unfold marshal, Marshal_JSON in Hm. rewrite Hm in Hm'. injection Hm' as <-. exact Hu.
Qed.

(** ** Error bodies *)

(** [handleErrorResp] computes [error_of] on what the body delivers. *)
Lemma handleErrorResp_error_of c resp w b :
  bodies w !! Response.Body resp = Some b → Body.closed b = false →
  (handleErrorResp c resp w).1 =
  error_of resp (content (Body.pending b)) (fault (Body.pending b)).
Proof. intros Hb Hc. by rewrite handleErrorResp_run, (ReadAll_open _ _ _ Hb Hc). Qed.

Lemma error_of_envelope res a data :
  APIError_ok a → marshal (envelope a) = Ok data →
  error_of res data None =
  ErrAPI (APIError.set_status (Response.Status res) (Response.StatusCode res) a).
Proof. intros Ha Hm. unfold error_of. by rewrite (envelope_decodes a data Ha Hm). Qed.

Lemma error_of_not_json res data :
  (∀ v, parse data ≠ Got v) →
  error_of res data None =
  ErrRequest (mkRequestError (Response.Status res) (Response.StatusCode res)
    (Some (match parse data with Short => UnexpectedEnd | _ => SyntaxError end)) data).
Proof.
  intros Hp. unfold error_of, unmarshal, Unmarshal_JSON, json_unmarshal.
  destruct (parse data) as [v| |]; [by destruct (Hp v)|done..].
Qed.

(** C27: A body that holds the encoding of the envelope of an error becomes that
    error, with the status of the response written into it. *)
Theorem handleErrorResp_envelope c resp w b a data :
  bodies w !! Response.Body resp = Some b → Body.closed b = false →
  fault (Body.pending b) = None → content (Body.pending b) = data →
  APIError_ok a → marshal (envelope a) = Ok data →
  (handleErrorResp c resp w).1 =
    ErrAPI (APIError.set_status (Response.Status resp) (Response.StatusCode resp) a).
Proof.
  intros Hb Hc Hf Hd Ha Hm.
  by rewrite (handleErrorResp_error_of _ _ _ _ Hb Hc), Hf, Hd, (error_of_envelope _ a).
Qed.

(** A body that is not a JSON value: the error keeps the status and the
    bytes of the body, and says how the decoder failed. *)
Theorem handleErrorResp_not_json c resp w b :
  bodies w !! Response.Body resp = Some b → Body.closed b = false →
  fault (Body.pending b) = None →
  (∀ v, parse (content (Body.pending b)) ≠ Got v) →
  (handleErrorResp c resp w).1 =
    ErrRequest (mkRequestError (Response.Status resp) (Response.StatusCode resp)
      (Some (match parse (content (Body.pending b)) with
             | Short => UnexpectedEnd
             | _ => SyntaxError
             end))
      (content (Body.pending b))).
Proof.
  intros Hb Hc Hf Hp.
  by rewrite (handleErrorResp_error_of _ _ _ _ Hb Hc), Hf, error_of_not_json.
Qed.

(** ** Streams of events *)

Section EventStreams.
Context {T : Type} `{Zero T} (fs : list (field T)) (merge : T → T → T) (ok : T → Prop).
Context (name : string) `{!StructOK fs merge ok, !Unmarshal ErrorResponse.t}.

#[local] Instance event_codec : JSON T := JSON_struct fs name.

(** The encoding of a structure is an object. *)
Lemma marshal_object (r : T) data :
  marshal r = Ok data → ∃ ms, enc r = Ok (JObject ms) ∧ data = print (JObject ms).
Proof.
  unfold marshal, Marshal_JSON, json_marshal. cbn [enc event_codec JSON_struct].
  unfold encode_struct. destruct (mapM _ fs) as [ms|e]; [|done]. simpl. intros [= <-].
  eexists. split; reflexivity.
Qed.

(** The encoding of an event is a payload that a frame carries as it is,
    and that the decoder of the session reads back. *)
Lemma event_decodes r data :
  ok r → marshal r = Ok data →
  decodes (unmarshal (T := T)) data ∧ unmarshal data zero = (r, None).
Proof.
  intros Hr Hm. destruct (marshal_object r data Hm) as (ms & Ev & ->).
  destruct (struct_round_trip fs merge ok name r Hr) as (v & Ev' & Hwf & Hpl & Hd).
  cbn [enc event_codec JSON_struct] in Ev. assert (v = JObject ms) as -> by congruence.
  assert (unmarshal (print (JObject ms)) zero = (r, None)) as Hu.
  { unfold unmarshal, Unmarshal_JSON, json_unmarshal. by rewrite parse_print. }
  destruct (print_object_shape ms Hwf) as [Hnl Htrim].
  split; [|done]. split_and!;
    first [done | by rewrite Hu | intros Heq; by apply (f_equal head) in Heq].
Qed.

(** Frames that carry events are a well-formed stream of these events. *)
Lemma carries_script limit frames rs :
  carries limit ok frames rs →
  well_formed (unmarshal (T := T)) limit frames ∧
  script_events (unmarshal (T := T)) frames = Ok <$> rs.
Proof.
  induction 1 as [|[bl p] r frames rs (Hbl & Hm & Hr) _ [IH1 IH2]];
    [split; [constructor|done]|].
  destruct (event_decodes r p Hr Hm) as [Hp Hu]. split.
  - by constructor.
  - cbn [script_events map fmap list_fmap snd]. rewrite Hu. simpl. f_equal. exact IH2.
Qed.

(** C17: The events of a stream of frames reach the caller as they were
    encoded, in order; then the sentinel gives the end of the stream. *)
Theorem stream_of_events c req w s frames (rs : list T) bl rest k :
  (sendRequestStream (T := T) c req w).1 = (s, None) →
  carries (ClientConfig.EmptyMessagesLimit (config c)) ok frames rs →
  keep_alives (ClientConfig.EmptyMessagesLimit (config c)) bl →
  stream_input s (sendRequestStream (T := T) c req w).2 =
    (concat (script_lines frames ++ bl ++ [frame doneSentinel]) ++ rest)%list →
  ∃ s' w',
    Recv_n (length rs + S k) s (sendRequestStream (T := T) c req w).2 =
      (Some ((Ok <$> rs) ++ replicate (S k) (Fail EOF), s')%list, w') ∧
    streamReader.terminalError s' = Some EOF.
Proof.
  intros (resp & -> & Hok)%sendRequestStream_session Hfs Hbl Hin.
  destruct (carries_script _ _ _ Hfs) as [Hwf <-].
  rewrite <- (Forall2_length _ _ _ Hfs). by eapply sessionOf_script.
Qed.

(** An event that a server writes with the members of its objects in
    another order, with keys in another case or among members without a
    field, at any depth, is a payload too, and decodes to the event. *)
Lemma event_tolerated (F : field T → relation json) `{!FieldsTolerant fs ok F} r ms v' :
  ok r → enc r = Ok (JObject ms) → struct_ext fs F (JObject ms) v' →
  wf v' = true → plain v' = true →
  decodes (unmarshal (T := T)) (print v') ∧ unmarshal (print v') zero = (r, None).
Proof.
  intros Hr Ev Hp Hwf Hpl.
  assert (unmarshal (print v') zero = (r, None)) as Hu.
  { unfold unmarshal, Unmarshal_JSON, json_unmarshal. rewrite parse_print by done.
    cbn [dec event_codec JSON_struct]. by apply (decode_struct_tolerant fs merge ok F name r ms). }
  destruct v' as [| | | | |ms']; try (by cbn in Hp).
  destruct (print_object_shape ms' Hwf) as [Hnl Htrim].
  split; [|done]. split_and!;
    first [done | by rewrite Hu | intros Heq; by apply (f_equal head) in Heq].
Qed.

Lemma answers_script (F : field T → relation json) `{!FieldsTolerant fs ok F}
    limit frames rs :
  answers limit ok (struct_ext fs F) frames rs →
  well_formed (unmarshal (T := T)) limit frames ∧
  script_events (unmarshal (T := T)) frames = Ok <$> rs.
Proof.
  induction 1 as [|[bl p] r frames rs (Hbl & Hr & ms & v' & Ev & Hp & Hwf & Hpl & Hf) _
                   [IH1 IH2]]; [split; [constructor|done]|].
  cbn [snd] in Hf. subst p. destruct (event_tolerated F r ms v' Hr Ev Hp Hwf Hpl) as [Hd Hu].
  split.
  - by constructor.
  - cbn [script_events map fmap list_fmap snd]. rewrite Hu. simpl. f_equal. exact IH2.
Qed.

(** The events of a stream reach the caller as the server meant them,
    whatever the order of the members, the case of the keys and the
    members without a field in the objects of each frame. *)
Theorem stream_of_answers (F : field T → relation json) `{!FieldsTolerant fs ok F}
    c req w s frames (rs : list T) bl rest k :
  (sendRequestStream (T := T) c req w).1 = (s, None) →
  answers (ClientConfig.EmptyMessagesLimit (config c)) ok (struct_ext fs F) frames rs →
  keep_alives (ClientConfig.EmptyMessagesLimit (config c)) bl →
  stream_input s (sendRequestStream (T := T) c req w).2 =
    (concat (script_lines frames ++ bl ++ [frame doneSentinel]) ++ rest)%list →
  ∃ s' w',
    Recv_n (length rs + S k) s (sendRequestStream (T := T) c req w).2 =
      (Some ((Ok <$> rs) ++ replicate (S k) (Fail EOF), s')%list, w') ∧
    streamReader.terminalError s' = Some EOF.
Proof.
  intros (resp & -> & Hok)%sendRequestStream_session Hfs Hbl Hin.
  destruct (answers_script F _ _ _ Hfs) as [Hwf <-].
  rewrite <- (Forall2_length _ _ _ Hfs). by eapply sessionOf_script.
Qed.
End EventStreams.

(** ** What a call returns *)

Section Outcomes.
Context {T : Type} `{Zero T, Response T} (fs : list (field T)) (name : string).
Context `{!HeaderOK fs}.

#[local] Instance outcome_codec : JSON T := JSON_struct fs name.

(** The decoder of a response does not see the header. *)
Lemma decode_header data rerr h (x : T) :
  decode data rerr (SetHeader h x) =
  (SetHeader h (decode data rerr x).1, (decode data rerr x).2).
Proof.
  unfold decode, Decode_JSON, json_decode.
  destruct (parse_front data) as [[v rest]| |]; [|done..].
  cbn [dec outcome_codec JSON_struct].
  apply (decode_struct_frame fs (SetHeader h)); intros; [by apply header_get|by apply header_set].
Qed.

(** Whatever the transport replies, the call returns the [outcome] of the
    reply. *)
Lemma sendInto_outcome c req w res data rerr :
  replies c req w res data rerr →
  (sendInto c (Ok req) (zero : T) w).1 = outcome res data rerr.
Proof.
  intros (b & HDo & Hb & Hc & Hdata & Hrerr).
  unfold sendInto, outcome. rewrite ST_bind_run, sendRequest_unfold.
  destruct (Do _ _ w) as [[res'|err'] w1]; simplify_eq/=.
  unfold respond. destruct (isFailureStatusCode res); simpl; rewrite ST_bind_run.
  - by rewrite (handleErrorResp_error_of _ _ _ _ Hb Hc).
  - rewrite (ReadAll_open _ _ _ Hb Hc). simpl. rewrite decode_header.
    by destruct (decode _ _ zero).
Qed.
End Outcomes.

(** ** The cases of an outcome *)

Section OutcomeCases.
Context {T : Type} `{Zero T, Response T} (fs : list (field T)) (merge : T → T → T).
Context (ok : T → Prop) (name : string) `{!StructOK fs merge ok}.

#[local] Instance cases_codec : JSON T := JSON_struct fs name.

(** A success status and the encoding of a response: the response. *)
Lemma outcome_answered res (r : T) data rest rerr :
  isFailureStatusCode res = false → ok r → marshal r = Ok data → stops rest = true →
  outcome (T := T) res (data ++ rest)%list rerr = (SetHeader (Response.Header res) r, None).
Proof.
  intros Hres Hr Hm Hrest. unfold outcome. rewrite Hres.
  destruct (marshal_object fs name r data Hm) as (ms & Ev & ->).
  unfold decode, Decode_JSON.
  by rewrite (json_decode_trailing (JSONOK0 := struct_ok fs merge ok name) ok r _ rest rerr Hr Ev).
Qed.

(** A success status and an object that has the members of the encoding
    of a response, in any order and among members that no field has: the
    response. *)
Lemma outcome_reordered res (r : T) ms ms' rest rerr :
  isFailureStatusCode res = false → NoDup (fold_key ∘ key <$> fs) → ok r →
  enc r = Ok (JObject ms) → filter (λ m, known fs m = true) ms' ≡ₚ ms →
  wf (JObject ms') = true → plain (JObject ms') = true → stops rest = true →
  outcome (T := T) res (print (JObject ms') ++ rest)%list rerr =
  (SetHeader (Response.Header res) r, None).
Proof.
  intros Hres Hnd Hr Ev Hp Hwf Hpl Hrest. unfold outcome, decode, Decode_JSON, json_decode.
  rewrite Hres, parse_front_print by done. cbn [dec cases_codec JSON_struct].
  by rewrite (decode_struct_reordered fs merge ok name r ms ms').
Qed.

(** The same with the objects of the encoding reordered at any depth. *)
Lemma outcome_lenient `{!FieldsUnordered fs ok} res (r : T) ms ms' rest rerr :
  isFailureStatusCode res = false → ok r → enc r = Ok (JObject ms) →
  json_perm (JObject ms) (JObject (filter (λ m, known fs m = true) ms')) →
  wf (JObject ms') = true → plain (JObject ms') = true → stops rest = true →
  outcome (T := T) res (print (JObject ms') ++ rest)%list rerr =
  (SetHeader (Response.Header res) r, None).
Proof.
  intros Hres Hr Ev Hp Hwf Hpl Hrest. unfold outcome, decode, Decode_JSON, json_decode.
  rewrite Hres, parse_front_print by done. cbn [dec cases_codec JSON_struct].
  by rewrite (decode_struct_lenient fs merge ok name r ms ms').
Qed.

(** The same with every object of the answer changed as the decoder of
    its structure allows: the relation of the structure relates the
    encoding of the response to the value that the body holds. *)
Lemma outcome_tolerant (F : field T → relation json) `{!FieldsTolerant fs ok F}
    res (r : T) ms v' rest rerr :
  isFailureStatusCode res = false → ok r → enc r = Ok (JObject ms) →
  struct_ext fs F (JObject ms) v' →
  wf v' = true → plain v' = true → stops rest = true →
  outcome (T := T) res (print v' ++ rest)%list rerr =
  (SetHeader (Response.Header res) r, None).
Proof.
  intros Hres Hr Ev Hp Hwf Hpl Hrest. unfold outcome, decode, Decode_JSON, json_decode.
  rewrite Hres, parse_front_print by done. cbn [dec cases_codec JSON_struct].
  by rewrite (decode_struct_tolerant fs merge ok F name r ms v').
Qed.

(** A failure status and the encoding of an envelope: its error. *)
Lemma outcome_refused res a data :
  isFailureStatusCode res = true → APIError_ok a → marshal (envelope a) = Ok data →
  outcome (T := T) res data None =
  (SetHeader (Response.Header res) zero,
   Some (ErrAPI (APIError.set_status (Response.Status res) (Response.StatusCode res) a))).
Proof. intros Hres Ha Hm. unfold outcome. by rewrite Hres, (error_of_envelope _ a). Qed.

(** A success status and a body that ends inside the value: the error of
    the connection, or [io.ErrUnexpectedEOF] when the body just ended. *)
Lemma outcome_truncated res data rerr :
  isFailureStatusCode res = false → parse_front data = Short → skip_ws data ≠ [] →
  outcome (T := T) res data rerr =
  (SetHeader (Response.Header res) zero, Some (default ErrUnexpectedEOF rerr)).
Proof.
  intros Hres Hp Hne. unfold outcome, decode, Decode_JSON, json_decode.
  rewrite Hres, Hp, bool_decide_eq_false_2 by done. by destruct rerr.
Qed.
End OutcomeCases.

(** ** The calls of the endpoints *)

Tactic Notation "header_laws" reference(fs) :=
  split; unfold fs; [intros h f [] Hf|intros h f a [] Hf]; fields_cases; reflexivity.

#[global] Instance ModelsList_header : HeaderOK ModelsList_fields.
Proof. header_laws ModelsList_fields. Qed.
#[global] Instance Model_header : HeaderOK Model_fields.
Proof. header_laws Model_fields. Qed.
#[global] Instance FineTuneModelDeleteResponse_header :
  HeaderOK FineTuneModelDeleteResponse_fields.
Proof. header_laws FineTuneModelDeleteResponse_fields. Qed.
#[global] Instance ImageResponse_header : HeaderOK ImageResponse_fields.
Proof. header_laws ImageResponse_fields. Qed.

Section CompletionOutcome.
Context `{FloatCodec}.
Context {StreamOptions Usage : Type} `{JSON StreamOptions, Zero StreamOptions}.
Context `{JSON Usage, Zero Usage}.

#[global] Instance CompletionResponse_header :
  HeaderOK (T := CompletionResponse.t Usage) CompletionResponse_fields.
Proof. header_laws CompletionResponse_fields. Qed.

(** C18: A completion request that passes the guards and can be built: whatever
    the transport replies, the call returns the outcome of the reply. *)
Theorem CreateCompletion_outcome c ctx (request : CompletionRequest.t StreamOptions)
    req w res data rerr :
  CompletionRequest.Stream request = false →
  checkPromptType (CompletionRequest.Prompt request) = true →
  completionRequest c ctx request = Ok req →
  replies c req w res data rerr →
  (CreateCompletion (Usage := Usage) c ctx request w).1 = outcome res data rerr.
Proof.
  intros Hs Hp Hreq Hr. rewrite CreateCompletion_unfold, Hs, Hp, Hreq.
  by apply (sendInto_outcome CompletionResponse_fields "giteeai.CompletionResponse").
Qed.

(** The call returns the response that the body holds, whatever the order
    of the members of its objects, at any depth, and whatever members the
    server adds that the structure has no field for. *)
Theorem CreateCompletion_lenient (fok : Z → spec_float → Prop) `{!FloatCodecOK fok}
    (ok : Usage → Prop) `{!JSONOK Usage ok, !NonNull Usage, !Unordered Usage ok}
    c ctx (request : CompletionRequest.t StreamOptions) req w res
    (r : CompletionResponse.t Usage) ms ms' rest rerr :
  CompletionRequest.Stream request = false →
  checkPromptType (CompletionRequest.Prompt request) = true →
  completionRequest c ctx request = Ok req →
  replies c req w res (print (JObject ms') ++ rest)%list rerr →
  isFailureStatusCode res = false →
  CompletionResponse_ok fok ok r → enc r = Ok (JObject ms) →
  json_perm (JObject ms)
    (JObject (filter (λ m, known (T := CompletionResponse.t Usage)
                             CompletionResponse_fields m = true) ms')) →
  wf (JObject ms') = true → plain (JObject ms') = true → stops rest = true →
  (CreateCompletion c ctx request w).1 = (SetHeader (Response.Header res) r, None).
Proof.
  intros Hs Hp Hreq Hrep Hres Hr Ev Hperm Hwf Hpl Hrest.
  rewrite CreateCompletion_unfold, Hs, Hp, Hreq.
  etrans; [by apply (sendInto_outcome CompletionResponse_fields
                       "giteeai.CompletionResponse")|].
  by apply (outcome_lenient CompletionResponse_fields CompletionResponse_merge
              (CompletionResponse_ok fok ok) "giteeai.CompletionResponse" res r ms ms').
Qed.

(** C25: The call returns the response that the body holds when the body
    differs from the encoding of the response as [encoding/json] allows in
    every object, whatever its depth: in the choices, in their log
    probabilities and in the usage as in the response itself, the members
    come in any order, their keys in any case, among members that the
    structure has no field for. *)
Theorem CreateCompletion_tolerant (fok : Z → spec_float → Prop) `{!FloatCodecOK fok}
    (ok : Usage → Prop) (RU : relation json)
    `{!JSONOK Usage ok, !NonNull Usage, !Unordered Usage ok, !Tolerant Usage ok RU}
    c ctx (request : CompletionRequest.t StreamOptions) req w res
    (r : CompletionResponse.t Usage) ms v' rest rerr :
  CompletionRequest.Stream request = false →
  checkPromptType (CompletionRequest.Prompt request) = true →
  completionRequest c ctx request = Ok req →
  replies c req w res (print v' ++ rest)%list rerr →
  isFailureStatusCode res = false →
  CompletionResponse_ok fok ok r → enc r = Ok (JObject ms) →
  CompletionResponse_ext (Usage := Usage) RU (JObject ms) v' →
  wf v' = true → plain v' = true → stops rest = true →
  (CreateCompletion c ctx request w).1 = (SetHeader (Response.Header res) r, None).
Proof.
  intros Hs Hp Hreq Hrep Hres Hr Ev Hext Hwf Hpl Hrest.
  rewrite CreateCompletion_unfold, Hs, Hp, Hreq.
  etrans; [by apply (sendInto_outcome CompletionResponse_fields
                       "giteeai.CompletionResponse")|].
  by apply (outcome_tolerant CompletionResponse_fields CompletionResponse_merge
              (CompletionResponse_ok fok ok) "giteeai.CompletionResponse"
              (CompletionResponse_rel RU) res r ms v').
Qed.
End CompletionOutcome.

(** ** What the transport receives *)

Lemma setCommonHeaders_fields c req :
  Request.Method (setCommonHeaders c req) = Request.Method req ∧
  Request.URL (setCommonHeaders c req) = Request.URL req ∧
  Request.Body (setCommonHeaders c req) = Request.Body req.
Proof. unfold setCommonHeaders. by case_decide. Qed.

Section CompletionSends.
Context `{FloatCodec} (fok : Z → spec_float → Prop) `{!FloatCodecOK fok}.
Context {StreamOptions Usage : Type} `{JSON StreamOptions, Zero StreamOptions}.
Context `{JSON Usage, Zero Usage}.
Context (sok : StreamOptions → Prop) `{!JSONOK StreamOptions sok, !NonNull StreamOptions}.

(** The request of a completion call, with the default builder. *)
Lemma completionRequest_default cfg ctx (request : CompletionRequest.t StreamOptions) data :
  marshal request = Ok data →
  completionRequest (NewClientWithConfig cfg) ctx request =
  Ok (setCommonHeaders (NewClientWithConfig cfg)
        (Request.mk ctx "POST" (ClientConfig.BaseURL cfg ++ "/completions") ∅ (Some data))).
Proof. intros Hm. unfold completionRequest, newRequest. simpl. by rewrite Hm. Qed.

(** C23: A completion call of a client with the default builder hands the
    transport one request: the POST to the completions URL of a JSON body
    that a server with the same structure decodes to the request of the
    caller. *)
Theorem CreateCompletion_sends cfg ctx (request : CompletionRequest.t StreamOptions) w :
  DoerOK (ClientConfig.HTTPClient cfg) →
  CompletionRequest_ok fok sok request →
  CompletionRequest.Stream request = false →
  checkPromptType (CompletionRequest.Prompt request) = true →
  ∃ req data,
    sent (CreateCompletion (Usage := Usage) (NewClientWithConfig cfg) ctx request w).2 =
      (sent w ++ [req])%list ∧
    Request.Method req = "POST" ∧
    Request.URL req = ClientConfig.BaseURL cfg ++ "/completions" ∧
    Header_Get "Content-Type" (Request.Header req) = "application/json" ∧
    Request.Body req = Some data ∧ unmarshal data zero = (request, None).
Proof.
  intros Hd Hr Hs Hp. destruct (CompletionRequest_round_trip fok sok request Hr)
    as (data & Hm & Hu).
  rewrite CreateCompletion_unfold, Hs, Hp, sendInto_sent by done.
  rewrite (completionRequest_default cfg ctx request data Hm).
  set (req := setCommonHeaders _ _).
  exists (jsonRequest req), data.
  destruct (jsonRequest_fields req) as (-> & -> & -> & _).
  destruct (setCommonHeaders_fields (NewClientWithConfig cfg)
    (Request.mk ctx "POST" (ClientConfig.BaseURL cfg ++ "/completions") ∅ (Some data)))
    as (HM & HU & HB).
  fold req in HM, HU, HB. rewrite HM, HU, HB, jsonRequest_ContentType.
  split_and!; try done. unfold req. by rewrite setCommonHeaders_other by key_ne.
Qed.
End CompletionSends.

Section ImageSends.
Context `{FloatCodec} (fok : Z → spec_float → Prop) `{!FloatCodecOK fok}.

(** The same for the creation of images. *)
Lemma CreateImage_sends cfg ctx (request : ImageRequest.t) w :
  DoerOK (ClientConfig.HTTPClient cfg) → ImageRequest_ok fok request →
  ∃ req data,
    sent (CreateImage (NewClientWithConfig cfg) ctx request w).2 = (sent w ++ [req])%list ∧
    Request.Method req = "POST" ∧
    Request.URL req = ClientConfig.BaseURL cfg ++ "/images/generations" ∧
    Request.Body req = Some data ∧ unmarshal data zero = (request, None).
Proof.
  intros Hd Hr. destruct (ImageRequest_round_trip fok request Hr) as (data & Hm & Hu).
  rewrite CreateImage_unfold, sendInto_sent by done.
  unfold newRequest. simpl. rewrite Hm. set (req := setCommonHeaders _ _).
  exists (jsonRequest req), data.
  destruct (jsonRequest_fields req) as (-> & -> & -> & _).
  destruct (setCommonHeaders_fields (NewClientWithConfig cfg)
    (Request.mk ctx "POST" (ClientConfig.BaseURL cfg ++ "/images/generations") ∅ (Some data)))
    as (HM & HU & HB).
  fold req in HM, HU, HB. by rewrite HM, HU, HB.
Qed.
End ImageSends.

Section ModelOutcome.

Lemma ListModels_outcome c ctx req w res data rerr :
  modelRequest c ctx "GET" "/models" = Ok req → replies c req w res data rerr →
  (ListModels c ctx w).1 = outcome res data rerr.
Proof.
  intros Hreq Hr. rewrite ListModels_unfold, Hreq.
  by apply (sendInto_outcome ModelsList_fields "giteeai.ModelsList").
Qed.

Lemma GetModel_outcome c ctx modelID req w res data rerr :
  modelRequest c ctx "GET" ("/models/" ++ modelID) = Ok req → replies c req w res data rerr →
  (GetModel c ctx modelID w).1 = outcome res data rerr.
Proof.
  intros Hreq Hr. rewrite GetModel_unfold, Hreq.
  by apply (sendInto_outcome Model_fields "giteeai.Model").
Qed.

Lemma DeleteFineTuneModel_outcome c ctx modelID req w res data rerr :
  modelRequest c ctx "DELETE" ("/models/" ++ modelID) = Ok req →
  replies c req w res data rerr →
  (DeleteFineTuneModel c ctx modelID w).1 = outcome res data rerr.
Proof.
  intros Hreq Hr. rewrite DeleteFineTuneModel_unfold, Hreq.
  by apply (sendInto_outcome FineTuneModelDeleteResponse_fields
              "giteeai.FineTuneModelDeleteResponse").
Qed.

(** The list of models is read whatever the order of the members of its
    objects, among members that [ModelsList] has no field for. *)
Lemma ListModels_lenient c ctx req w res (r : ModelsList.t) ms ms' rest rerr :
  modelRequest c ctx "GET" "/models" = Ok req →
  replies c req w res (print (JObject ms') ++ rest)%list rerr →
  isFailureStatusCode res = false → ModelsList_ok r → enc r = Ok (JObject ms) →
  json_perm (JObject ms) (JObject (filter (λ m, known ModelsList_fields m = true) ms')) →
  wf (JObject ms') = true → plain (JObject ms') = true → stops rest = true →
  (ListModels c ctx w).1 = (SetHeader (Response.Header res) r, None).
Proof.
  intros Hreq Hrep Hres Hr Ev Hp Hwf Hpl Hrest.
  rewrite (ListModels_outcome c ctx req w res _ rerr Hreq Hrep).
  by apply (outcome_lenient ModelsList_fields ModelsList_merge ModelsList_ok
              "giteeai.ModelsList" res r ms ms').
Qed.

(** The same with the objects of the models and of their permissions
    changed as the decoder allows. *)
Lemma ListModels_tolerant c ctx req w res (r : ModelsList.t) ms v' rest rerr :
  modelRequest c ctx "GET" "/models" = Ok req →
  replies c req w res (print v' ++ rest)%list rerr →
  isFailureStatusCode res = false → ModelsList_ok r → enc r = Ok (JObject ms) →
  ModelsList_ext (JObject ms) v' →
  wf v' = true → plain v' = true → stops rest = true →
  (ListModels c ctx w).1 = (SetHeader (Response.Header res) r, None).
Proof.
  intros Hreq Hrep Hres Hr Ev Hp Hwf Hpl Hrest.
  rewrite (ListModels_outcome c ctx req w res _ rerr Hreq Hrep).
  by apply (outcome_tolerant ModelsList_fields ModelsList_merge ModelsList_ok
              "giteeai.ModelsList" ModelsList_rel res r ms v').
Qed.
End ModelOutcome.

Section ImageOutcome.
Context `{FloatCodec}.

Lemma CreateImage_outcome c ctx (request : ImageRequest.t) req w res data rerr :
  newRequest c ctx "POST" (ClientConfig.BaseURL (config c) ++ "/images/generations")
    [withBody (BodyValue (marshal request))] = Ok req →
  replies c req w res data rerr →
  (CreateImage c ctx request w).1 = outcome res data rerr.
Proof.
  intros Hreq Hr. rewrite CreateImage_unfold, Hreq.
  by apply (sendInto_outcome ImageResponse_fields "giteeai.ImageResponse").
Qed.

(** The images are read whatever the order of the members of the objects
    of the answer, among members that [ImageResponse] has no field for. *)
Lemma CreateImage_lenient c ctx (request : ImageRequest.t) req w res (r : ImageResponse.t)
    ms ms' rest rerr :
  newRequest c ctx "POST" (ClientConfig.BaseURL (config c) ++ "/images/generations")
    [withBody (BodyValue (marshal request))] = Ok req →
  replies c req w res (print (JObject ms') ++ rest)%list rerr →
  isFailureStatusCode res = false → ImageResponse_ok r → enc r = Ok (JObject ms) →
  json_perm (JObject ms) (JObject (filter (λ m, known ImageResponse_fields m = true) ms')) →
  wf (JObject ms') = true → plain (JObject ms') = true → stops rest = true →
  (CreateImage c ctx request w).1 = (SetHeader (Response.Header res) r, None).
Proof.
  intros Hreq Hrep Hres Hr Ev Hp Hwf Hpl Hrest.
  rewrite (CreateImage_outcome c ctx request req w res _ rerr Hreq Hrep).
  by apply (outcome_lenient ImageResponse_fields ImageResponse_merge ImageResponse_ok
              "giteeai.ImageResponse" res r ms ms').
Qed.

(** The same with the objects of the images changed as the decoder
    allows. *)
Lemma CreateImage_tolerant c ctx (request : ImageRequest.t) req w res (r : ImageResponse.t)
    ms v' rest rerr :
  newRequest c ctx "POST" (ClientConfig.BaseURL (config c) ++ "/images/generations")
    [withBody (BodyValue (marshal request))] = Ok req →
  replies c req w res (print v' ++ rest)%list rerr →
  isFailureStatusCode res = false → ImageResponse_ok r → enc r = Ok (JObject ms) →
  ImageResponse_ext (JObject ms) v' →
  wf v' = true → plain v' = true → stops rest = true →
  (CreateImage c ctx request w).1 = (SetHeader (Response.Header res) r, None).
Proof.
  intros Hreq Hrep Hres Hr Ev Hp Hwf Hpl Hrest.
  rewrite (CreateImage_outcome c ctx request req w res _ rerr Hreq Hrep).
  by apply (outcome_tolerant ImageResponse_fields ImageResponse_merge ImageResponse_ok
              "giteeai.ImageResponse" ImageResponse_rel res r ms v').
Qed.
End ImageOutcome.

(** ** Witnesses *)

Section ProtocolWitnesses.
#[local] Existing Instances zero_floats zero_floats_ok.

(** The error body of the fixtures, with the members in the order of the
    fields. *)
Definition invalid_key_encoding : bytes :=
  jq "{'error':{'code':'invalid_api_key','message':'Incorrect API key provided','type':'invalid_request_error'}}".

Lemma invalid_key_ok : APIError_ok invalid_key_error.
Proof. by repeat split. Qed.

Lemma handleErrorResp_envelope_witness :
  (handleErrorResp client_401 (first_response reply_401)
     (world_with [Data invalid_key_encoding])).1 =
  ErrAPI (APIError.set_status "401 Unauthorized" 401 invalid_key_error).
Proof.
  by apply (handleErrorResp_envelope client_401 (first_response reply_401)
              (world_with [Data invalid_key_encoding])
              (Body.mk [Data invalid_key_encoding] false) invalid_key_error
              invalid_key_encoding); [..|apply invalid_key_ok|].
Defined.

Lemma handleErrorResp_not_json_witness :
  (handleErrorResp client_502 (first_response reply_502)
     (world_with [Data gateway_body])).1 =
  ErrRequest (mkRequestError "502 Bad Gateway" 502 (Some SyntaxError) gateway_body).
Proof.
  apply (handleErrorResp_not_json client_502 (first_response reply_502)
           (world_with [Data gateway_body]) (Body.mk [Data gateway_body] false));
    [done..|]. intros v. by vm_compute.
Defined.

(** The decoder takes the members of the envelope in any order. *)
Example invalid_key_body_decodes :
  unmarshal invalid_key_body zero = (envelope invalid_key_error, None).
Proof. by vm_compute. Qed.

(** A completion call on a server that refuses the key. *)
Lemma CreateCompletion_outcome_witness :
  (CreateCompletion (Usage := Usage.t) client_401 Background lorem empty_world).1 =
  (zero, Some (ErrAPI (APIError.set_status "401 Unauthorized" 401 invalid_key_error))).
Proof.
  etrans.
  - eapply (CreateCompletion_outcome client_401 Background lorem _ empty_world
              (first_response reply_401) invalid_key_body None); [reflexivity..|].
    eexists. split_and!; reflexivity.
  - by vm_compute.
Defined.

(** What the server of the completion example receives. *)
Lemma CreateCompletion_sends_witness :
  ∃ req data,
    sent (CreateCompletion (Usage := Usage.t) (client_200 [Data a_body]) Background lorem
            empty_world).2 = [req] ∧
    Request.Method req = "POST" ∧
    Request.URL req = "https://ai.gitee.com/v1/completions" ∧
    Header_Get "Content-Type" (Request.Header req) = "application/json" ∧
    Request.Body req = Some data ∧ unmarshal data zero = (lorem, None).
Proof.
  apply (CreateCompletion_sends only_zero StreamOptions_ok
           (DefaultConfig (always (reply_200 [Data a_body])) "dummy-token-giteeai")
           Background lorem empty_world); [apply _|apply lorem_ok|done..].
Defined.

(** A completion call on a connection that breaks inside the body. *)
Example CreateCompletion_truncated :
  (CreateCompletion (Usage := Usage.t)
     (client_200 [Data (take 40 a_body); Fault (ErrExternal "connection reset by peer")])
     Background lorem empty_world).1.2 = Some (ErrExternal "connection reset by peer").
Proof. by vm_compute. Qed.

(** A stream of two completion events, the second after a keep-alive
    line, cut into chunks inside a frame. *)
Definition b_response : CompletionResponse.t Usage.t :=
  CompletionResponse.mk "cmpl-1" "text_completion" 1700000000 "qwen2-7b-instruct"
    [CompletionChoice.mk " consectetur" 0 "stop" zero] None zero.

Definition b_body : bytes :=
  jq "{'id':'cmpl-1','object':'text_completion','created':1700000000,'model':'qwen2-7b-instruct','choices':[{'text':' consectetur','index':0,'finish_reason':'stop','logprobs':{'tokens':null,'token_logprobs':null,'top_logprobs':null,'text_offset':null}}]}".

Definition completion_frames : script := [([], a_body); ([separator], b_body)].

Definition completion_stream : bytes :=
  (concat (script_lines completion_frames ++ [separator] ++ [frame doneSentinel])
   ++ separator)%list.

Definition completion_chunks : list chunk :=
  [Data (take 100 completion_stream); Data (take 300 (drop 100 completion_stream));
   Data (drop 400 completion_stream)].

Definition completion_session :
    (streamReader.t (CompletionResponse.t Usage.t) * option error) * World :=
  sendRequestStream (client_200 completion_chunks) a_request empty_world.

Lemma b_response_ok : CompletionResponse_ok only_zero Usage_ok b_response.
Proof. repeat split; try done. repeat constructor. Qed.

Lemma stream_of_events_witness :
  ∃ s' w',
    Recv_n 4 completion_session.1.1 completion_session.2 =
      (Some ([Ok a_response; Ok b_response; Fail EOF; Fail EOF], s'), w') ∧
    streamReader.terminalError s' = Some EOF.
Proof.
  apply (stream_of_events CompletionResponse_fields CompletionResponse_merge
           (CompletionResponse_ok only_zero Usage_ok) "giteeai.CompletionResponse"
           (client_200 completion_chunks) a_request empty_world completion_session.1.1
           completion_frames [a_response; b_response] [separator] separator 1).
  - reflexivity.
  - unfold carries, completion_frames.
    constructor; [|constructor; [|constructor]]; cbn [fst snd];
      (split_and!; [line_facts|by vm_compute|first [apply a_response_ok|apply b_response_ok]]).
  - line_facts.
  - by vm_compute.
Defined.

(** The members of the encoding of [a_response], and an answer of a server
    that sends the members of every object in the opposite order, after a
    member that the structure has no field for. *)
Definition a_members : list (string * json) :=
  match enc a_response with Ok (JObject ms) => ms | _ => [] end.

Definition other_members : list (string * json) :=
  ("system_fingerprint", JString "fp_44709d6fcb") ::
  match reversed (JObject a_members) with JObject ms => ms | _ => [] end.

Definition other_body : bytes := print (JObject other_members).

Example other_body_text :
  take 75 other_body =
  jq "{'system_fingerprint':'fp_44709d6fcb','usage':{'total_tokens':7,'completion".
Proof. by vm_compute. Qed.

Lemma CreateCompletion_lenient_witness :
  (CreateCompletion (client_200 [Data (take 50 other_body); Data (drop 50 other_body)])
     Background lorem empty_world).1 =
  (SetHeader (Header_Set "Content-Type" "application/json" ∅) a_response, None).
Proof.
  eapply (CreateCompletion_lenient only_zero Usage_ok _ Background lorem _ empty_world
            (first_response (reply_200 [])) a_response a_members other_members [] None);
    try reflexivity.
  - eexists. split_and!; reflexivity.
  - apply a_response_ok.
  - change (JObject (filter _ other_members)) with (reversed (JObject a_members)).
    by apply json_perm_reversed.
Defined.

(** An answer of a server that differs from the encoding of [a_response]
    at every depth: keys in another case in the response and in its
    choice, members in another order in the choice and in the usage, and
    one member without a field in each object. *)
Definition tolerated_body : bytes :=
  jq "{'ID':'cmpl-1','object':'text_completion','created':1700000000,'model':'qwen2-7b-instruct','system_fingerprint':'fp_44709d6fcb','choices':[{'index':0,'text':' dolor sit amet','Finish_Reason':'length','stop_reason':null,'logprobs':{'content':null,'tokens':null,'token_logprobs':null,'top_logprobs':null,'text_offset':null}}],'usage':{'prompt_tokens':2,'total_tokens':7,'completion_tokens':5,'prompt_tokens_details':{'cached_tokens':0}}}".

Definition tolerated : json :=
  match parse tolerated_body with Got v => v | _ => JNull end.

Example print_tolerated : print tolerated = tolerated_body.
Proof. by vm_compute. Qed.

Lemma tolerated_related :
  CompletionResponse_ext (Usage := Usage.t) Usage_ext (JObject a_members) tolerated.
Proof.
  let v := eval vm_compute in tolerated in change tolerated with v.
  let ms := eval vm_compute in a_members in change a_members with ms.
  related.
Qed.

Lemma CreateCompletion_tolerant_witness :
  (CreateCompletion
     (client_200 [Data (take 50 tolerated_body); Data (drop 50 tolerated_body)])
     Background lorem empty_world).1 =
  (SetHeader (Header_Set "Content-Type" "application/json" ∅) a_response, None).
Proof.
  eapply (CreateCompletion_tolerant only_zero Usage_ok Usage_ext _ Background lorem _
            empty_world (first_response (reply_200 [])) a_response a_members tolerated
            [] None); try reflexivity.
  - eexists. split_and!; reflexivity.
  - apply a_response_ok.
  - apply tolerated_related.
Defined.

(** The same answer as an event of a stream. *)
Example tolerated_event :
  fst <$> (Recv_n 2 (sendRequestStream (T := CompletionResponse.t Usage.t)
                       (client_200 [Data (frame tolerated_body ++ separator ++
                                          frame doneSentinel)%list])
                       a_request empty_world).1.1
             (sendRequestStream (T := CompletionResponse.t Usage.t)
                (client_200 [Data (frame tolerated_body ++ separator ++
                                   frame doneSentinel)%list])
                a_request empty_world).2).1 =
  Some [Ok a_response; Fail EOF].
Proof. by vm_compute. Qed.

(** The example of the specification, decoded as completion events: two
    frames, each followed by a blank line, and the sentinel. *)
Definition id_response (id : string) : CompletionResponse.t Usage.t :=
  CompletionResponse.mk id "" 0 "" [] None zero.

Definition spec_stream : bytes :=
  concat [frame (jq "{'id':'a'}"); separator; frame (jq "{'id':'b'}"); separator;
          frame doneSentinel; separator].

Definition spec_session :
    (streamReader.t (CompletionResponse.t Usage.t) * option error) * World :=
  sendRequestStream (client_200 [Data (take 20 spec_stream); Data (drop 20 spec_stream)])
    a_request empty_world.

Example spec_example :
  fst <$> (Recv_n 4 spec_session.1.1 spec_session.2).1 =
  Some [Ok (id_response "a"); Ok (id_response "b"); Fail EOF; Fail EOF].
Proof. by vm_compute. Qed.

(** An event that is cut off, and an event of the wrong type: the error of
    the decoder ends the stream. *)
Example truncated_event :
  fst <$> (Recv_n 3 (sendRequestStream (T := CompletionResponse.t Usage.t)
                       (client_200 [Data (frame (jq "{'id':'a'}") ++ frame (jq "{'id':'b"))%list])
                       a_request empty_world).1.1
             (sendRequestStream (T := CompletionResponse.t Usage.t)
                (client_200 [Data (frame (jq "{'id':'a'}") ++ frame (jq "{'id':'b"))%list])
                a_request empty_world).2).1 =
  Some [Ok (id_response "a"); Fail UnexpectedEnd; Fail UnexpectedEnd].
Proof. by vm_compute. Qed.

Example mistyped_event :
  fst <$> (Recv (sendRequestStream (T := CompletionResponse.t Usage.t)
                   (client_200 [Data (frame (jq "{'id':7}"))]) a_request empty_world).1.1
             (sendRequestStream (T := CompletionResponse.t Usage.t)
                (client_200 [Data (frame (jq "{'id':7}"))]) a_request empty_world).2).1 =
  Some (Fail (UnmarshalTypeError "number" "string")).
Proof. by vm_compute. Qed.
End ProtocolWitnesses.
