(* ===== verification/Examples.v ===== *)
(** * Examples: the example programs

    The five programs under examples/, each as a function from the state of
    the process to how the program ends and the state then.  The state of a
    process ([Proc.t]) is its environment, its arguments, the files that
    exist, the lines that its standard input still holds, what it has
    written to its standard output, and the world of the HTTP transport.
    A program ends by returning from [main] or in a run-time panic
    ([exit]): [resp.Choices[0]] and [respUrl.Data[0]] panic on an empty
    slice.

    - completion/main.go and images/main.go call [CreateCompletion] and
      [CreateImage] of the client with the JSON codecs of [Wire];
    - chatbot/main.go, completion-with-tool/main.go and
      voice-to-text/main.go call [CreateChatCompletion] and
      [CreateTranscription], whose files are not among the sources: the
      calls are parameters of the section, and the structures have the
      fields that the programs use;
    - the transport of the client ([http.DefaultClient]) and the strings of
      the errors ([Error]) are parameters as well. *)

From Stdlib Require Import ZArith NArith Ascii String List Lia Floats.SpecFloat.
From stdpp Require Import base tactics option list gmap strings.
From S2P Require Import Prelude Bytes Errors Http Internal Config Fixtures Client.
From S2P Require Import Completion Models Image Json Codec Wire.

Set Warnings "-clear-no-such-hyp".
#[local] Open Scope string_scope.

(** ** The process *)

Module Proc.
Record t : Type := mk {
  env : gmap string string;
  args : list string;
  files : gset string;
  stdin : list string;
  stdout : string;
  world : World;
}.
End Proc.

(** How a program ends. *)
Inductive exit : Type :=
| Returned
| Panicked (msg : string).

(** [os.Getenv]: the empty string for a variable that is not set. *)
Definition Getenv (k : string) (p : Proc.t) : string := default "" (Proc.env p !! k).

(** [fmt.Print] and [fmt.Println] of a string. *)
Definition Print (s : string) (p : Proc.t) : Proc.t :=
  Proc.mk (Proc.env p) (Proc.args p) (Proc.files p) (Proc.stdin p) (Proc.stdout p ++ s)
    (Proc.world p).

Definition LF : string := String "010" EmptyString.

Definition Println (s : string) (p : Proc.t) : Proc.t := Print (s ++ LF) p.

(** [os.Stat] fails with [os.ErrNotExist]. *)
Definition not_exist (path : string) (p : Proc.t) : bool := bool_decide (path ∉ Proc.files p).

(** [bufio.Scanner.Scan] on the standard input: the next line, if there is
    one. *)
Definition Scan (p : Proc.t) : option (string * Proc.t) :=
  match Proc.stdin p with
  | [] => None
  | line :: rest =>
      Some (line, Proc.mk (Proc.env p) (Proc.args p) (Proc.files p) rest (Proc.stdout p)
                    (Proc.world p))
  end.

(** A call of the library in the world of the process. *)
Definition call {A} (m : ST World A) (p : Proc.t) : A * Proc.t :=
  let '(a, w) := m (Proc.world p) in
  (a, Proc.mk (Proc.env p) (Proc.args p) (Proc.files p) (Proc.stdin p) (Proc.stdout p) w).

(** The panic of an index expression on a slice that is too short. *)
Definition index_out_of_range (i len : nat) : string :=
  "runtime error: index out of range [" ++ Itoa (Z.of_nat i) ++ "] with length " ++
  Itoa (Z.of_nat len).

(** ** The structures of the chat and audio calls *)

(** [jsonschema.Definition], by the fields the programs set. *)
#[local] Unset Elimination Schemes.
Inductive schema : Type :=
| Schema (Type_ : string) (Description : string) (Enum : list string)
    (Properties : list (string * schema)) (Required : list string).
#[local] Set Elimination Schemes.

Module FunctionDefinition.
Record t : Type := mk { Name : string; Description : string; Parameters : schema }.
End FunctionDefinition.

Module Tool.
Record t : Type := mk { Type_ : string; Function : option FunctionDefinition.t }.
End Tool.

Module FunctionCall.
Record t : Type := mk { Name : string; Arguments : string }.
End FunctionCall.

Module ToolCall.
Record t : Type := mk { ID : string; Function : FunctionCall.t }.
End ToolCall.

Module ChatCompletionMessage.
Record t : Type := mk {
  Role : string;
  Content : string;
  Name : string;
  ToolCalls : list ToolCall.t;
  ToolCallID : string;
}.
End ChatCompletionMessage.

Module ChatCompletionRequest.
Record t : Type := mk {
  Model : string;
  Messages : list ChatCompletionMessage.t;
  Tools : list Tool.t;
}.
End ChatCompletionRequest.

Module ChatCompletionChoice.
Record t : Type := mk { Message : ChatCompletionMessage.t }.
End ChatCompletionChoice.

Module ChatCompletionResponse.
Record t : Type := mk { Choices : list ChatCompletionChoice.t }.
End ChatCompletionResponse.

Module AudioRequest.
Record t : Type := mk { Model : string; FilePath : string }.
End AudioRequest.

Module AudioResponse.
Record t : Type := mk { Text : string }.
End AudioResponse.

Definition ChatMessageRoleSystem : string := "system".
Definition ChatMessageRoleUser : string := "user".
Definition ChatMessageRoleTool : string := "tool".
Definition ToolTypeFunction : string := "function".
Definition Whisper1 : string := "whisper-1".

(** A message of a role with a content and nothing else. *)
Definition message (role content : string) : ChatCompletionMessage.t :=
  ChatCompletionMessage.mk role content "" [] "".

(** ** The programs *)

Section Programs.
Context (http_DefaultClient : HTTPDoer).
Context (Error : error → string).
Context (CreateChatCompletion :
  Client → context → ChatCompletionRequest.t →
  ST World (ChatCompletionResponse.t * option error)).
Context (CreateTranscription :
  Client → context → AudioRequest.t → ST World (AudioResponse.t * option error)).
Context `{FloatCodec} (fok : Z → spec_float → Prop) `{!FloatCodecOK fok}.

(** The client of a program. *)
Definition client_of (key : string) (p : Proc.t) : Client :=
  NewClient http_DefaultClient (Getenv key p).

(** [%v] of an error that may be nil. *)
Definition show_error (err : option error) : string :=
  match err with Some e => Error e | None => "<nil>" end.

(** examples/completion/main.go. *)
Definition completion_request : CompletionRequest.t StreamOptions.t :=
  CompletionRequest.mk Qwen2_7B_Instruct (AnyString "Lorem ipsum") 0 false zero ∅ false ∅ 0
    5 0 zero None [] false "" zero zero "" None.

Definition completion_main (p : Proc.t) : exit * Proc.t :=
  let c := client_of "GITEEAI_API_KEY" p in
  let '((resp, err), p) :=
    call (CreateCompletion (Usage := Usage.t) c Background completion_request) p in
  match err with
  | Some e => (Returned, Print ("Completion error: " ++ Error e ++ LF) p)
  | None =>
      match CompletionResponse.Choices resp with
      | choice :: _ => (Returned, Println (CompletionChoice.Text choice) p)
      | [] => (Panicked (index_out_of_range 0 0), p)
      end
  end.

(** examples/images/main.go. *)
Definition image_request : ImageRequest.t :=
  ImageRequest.mk
    "Parrot on a skateboard performs a trick, cartoon style, natural light, high detail"
    "" 1 "" CreateImageSize256x256 "" CreateImageResponseFormatURL "" zero 0.

Definition images_main (p : Proc.t) : exit * Proc.t :=
  let client := client_of "OPENAI_API_KEY" p in
  let '((respUrl, err), p) := call (CreateImage client Background image_request) p in
  match err with
  | Some e => (Returned, Print ("Image creation error: " ++ Error e ++ LF) p)
  | None =>
      match ImageResponse.Data respUrl with
      | inner :: _ => (Returned, Println (ImageResponseDataInner.URL inner) p)
      | [] => (Panicked (index_out_of_range 0 0), p)
      end
  end.

(** examples/voice-to-text/main.go. *)
Definition voice_main (p : Proc.t) : exit * Proc.t :=
  if (length (Proc.args p) <? 2)%nat
  then (Returned, Println "please provide a filename to convert to text" p)
  else
    let path := nth 1 (Proc.args p) "" in
    if not_exist path p
    then (Returned, Print ("file " ++ path ++ " does not exist" ++ LF) p)
    else
      let client := client_of "OPENAI_API_KEY" p in
      let '((resp, err), p) :=
        call (CreateTranscription client Background (AudioRequest.mk Whisper1 path)) p in
      match err with
      | Some e => (Returned, Print ("Transcription error: " ++ Error e ++ LF) p)
      | None => (Returned, Println (AudioResponse.Text resp) p)
      end.

(** examples/chatbot/main.go: the loop over the lines of the input.  A
    question stays in the dialogue when its call fails, and the prompt is
    not printed again then. *)
Fixpoint chat_loop (client : Client) (lines : nat) (req : ChatCompletionRequest.t)
    (p : Proc.t) : exit * Proc.t :=
  match lines with
  | O => (Returned, p)
  | S lines =>
      match Scan p with
      | None => (Returned, p)
      | Some (text, p) =>
          let req := ChatCompletionRequest.mk (ChatCompletionRequest.Model req)
                       (ChatCompletionRequest.Messages req ++ [message ChatMessageRoleUser text])%list
                       (ChatCompletionRequest.Tools req) in
          let '((resp, err), p) := call (CreateChatCompletion client Background req) p in
          match err with
          | Some e =>
              chat_loop client lines req (Print ("ChatCompletion error: " ++ Error e ++ LF) p)
          | None =>
              match ChatCompletionResponse.Choices resp with
              | [] => (Panicked (index_out_of_range 0 0), p)
              | choice :: _ =>
                  let msg := ChatCompletionChoice.Message choice in
                  let p := Print (ChatCompletionMessage.Content msg ++ LF ++ LF) p in
                  let req := ChatCompletionRequest.mk (ChatCompletionRequest.Model req)
                               (ChatCompletionRequest.Messages req ++ [msg])%list
                               (ChatCompletionRequest.Tools req) in
                  chat_loop client lines req (Print "> " p)
              end
          end
      end
  end.

Definition chatbot_main (p : Proc.t) : exit * Proc.t :=
  let client := client_of "GITEEAI_API_KEY" p in
  let req := ChatCompletionRequest.mk Qwen2_7B_Instruct
               [message ChatMessageRoleSystem "you are a helpful chatbot"] [] in
  let p := Println "Conversation" p in
  let p := Println "---------------------" p in
  let p := Print "> " p in
  chat_loop client (length (Proc.stdin p)) req p.

(** examples/completion-with-tool/main.go. *)
Definition weather_params : schema :=
  Schema "object" "" []
    [("location", Schema "string" "The city and state, e.g. San Francisco, CA" [] [] []);
     ("unit", Schema "string" "" ["celsius"; "fahrenheit"] [] [])]
    ["location"].

Definition weather_function : FunctionDefinition.t :=
  FunctionDefinition.mk "get_current_weather" "Get the current weather in a given location"
    weather_params.

Definition weather_tool : Tool.t := Tool.mk ToolTypeFunction (Some weather_function).

Definition tool_request (dialogue : list ChatCompletionMessage.t) : ChatCompletionRequest.t :=
  ChatCompletionRequest.mk Qwen2_7B_Instruct dialogue [weather_tool].

(** The question of the program, and its answer to a call of its
    function. *)
Definition question : ChatCompletionMessage.t :=
  message ChatMessageRoleUser "What is the weather in Boston today?".

Definition tool_reply (toolcall : ToolCall.t) : ChatCompletionMessage.t :=
  ChatCompletionMessage.mk ChatMessageRoleTool "Sunny and 80 degrees."
    (FunctionCall.Name (ToolCall.Function toolcall)) [] (ToolCall.ID toolcall).

Definition show_len {A} (l : list A) : string := Itoa (Z.of_nat (length l)).

Definition tool_main (p : Proc.t) : exit * Proc.t :=
  let ctx := Background in
  let client := client_of "GITEEAI_API_KEY" p in
  let f := weather_function in
  let dialogue := [question] in
  let p := Print ("Asking GiteeAI '" ++ ChatCompletionMessage.Content question ++
                  "' and providing it a '" ++ FunctionDefinition.Name f ++
                  "()' function..." ++ LF) p in
  let '((resp, err), p) := call (CreateChatCompletion client ctx (tool_request dialogue)) p in
  match err, ChatCompletionResponse.Choices resp with
  | None, [choice] =>
      let msg := ChatCompletionChoice.Message choice in
      match ChatCompletionMessage.ToolCalls msg with
      | [toolcall] =>
          let dialogue := (dialogue ++ [msg])%list in
          let p := Print ("GiteeAI called us back wanting to invoke our function '" ++
                          FunctionCall.Name (ToolCall.Function toolcall) ++
                          "' with params '" ++
                          FunctionCall.Arguments (ToolCall.Function toolcall) ++ "'" ++ LF) p in
          let dialogue := (dialogue ++ [tool_reply toolcall])%list in
          let p := Print ("Sending GiteeAI our '" ++ FunctionDefinition.Name f ++
                          "()' function's response and requesting the reply to the " ++
                          "original question..." ++ LF) p in
          let '((resp, err), p) :=
            call (CreateChatCompletion client ctx (tool_request dialogue)) p in
          match err, ChatCompletionResponse.Choices resp with
          | None, [choice] =>
              let msg := ChatCompletionChoice.Message choice in
              (Returned, Print ("GiteeAI answered the original request with: " ++
                                ChatCompletionMessage.Content msg ++ LF) p)
          | _, choices =>
              (Returned, Print ("2nd completion error: err:" ++ show_error err ++
                                " len(choices):" ++ show_len choices ++ LF) p)
          end
      | toolcalls =>
          (Returned, Print ("Completion error: len(toolcalls): " ++ show_len toolcalls ++ LF) p)
      end
  | _, choices =>
      (Returned, Print ("Completion error: err:" ++ show_error err ++ " len(choices):" ++
                        show_len choices ++ LF) p)
  end.

(** * Theorems *)

Lemma call_run {A} (m : ST World A) p :
  call m p = ((m (Proc.world p)).1,
              Proc.mk (Proc.env p) (Proc.args p) (Proc.files p) (Proc.stdin p) (Proc.stdout p)
                (m (Proc.world p)).2).
Proof. unfold call. by destruct (m _). Qed.

(** ** examples/completion *)

(** C24: When the completion request of the program is answered with a
    response, the program prints the text of its first choice; when the
    response has no choice, the program panics. *)
Theorem completion_main_answered p req h r :
  let c := client_of "GITEEAI_API_KEY" p in
  completionRequest c Background completion_request = Ok req →
  answers c req (Proc.world p) h r → CompletionResponse_ok fok Usage_ok r →
  match CompletionResponse.Choices r with
  | choice :: _ =>
      (completion_main p).1 = Returned ∧
      Proc.stdout (completion_main p).2 = Proc.stdout p ++ CompletionChoice.Text choice ++ LF
  | [] =>
      (completion_main p).1 = Panicked (index_out_of_range 0 0) ∧
      Proc.stdout (completion_main p).2 = Proc.stdout p
  end.
Proof.
  intros c Hreq Ha Hr. unfold completion_main. fold c. rewrite call_run.
  rewrite (CreateCompletion_answered fok Usage_ok c Background completion_request req _ h r)
    by done.
  destruct r as [? ? ? ? [|choice l] ? ?]; simpl; by destruct h.
Qed.

(** The world after the program is the world after its call. *)
Lemma completion_main_world p :
  Proc.world (completion_main p).2 =
  (CreateCompletion (Usage := Usage.t) (client_of "GITEEAI_API_KEY" p) Background
     completion_request (Proc.world p)).2.
Proof.
  unfold completion_main. rewrite call_run.
  destruct (CreateCompletion _ _ _ _) as [[resp [e|]] w]; simpl; [done|].
  by destruct (CompletionResponse.Choices resp).
Qed.

(** However the program ends, it leaves no body open. *)
Theorem completion_main_releases p :
  DoerOK http_DefaultClient →
  open_bodies (Proc.world (completion_main p).2) = open_bodies (Proc.world p).
Proof.
  intros Hd. rewrite completion_main_world, CreateCompletion_unfold.
  by apply sendInto_open.
Qed.

(** ** examples/images *)

(** When the request of the program is answered with a response, the
    program prints the URL of its first image; when the response has no
    image, the program panics. *)
Theorem images_main_answered p req h r :
  let c := client_of "OPENAI_API_KEY" p in
  newRequest c Background "POST" (ClientConfig.BaseURL (config c) ++ "/images/generations")
    [withBody (BodyValue (marshal image_request))] = Ok req →
  answers c req (Proc.world p) h r → ImageResponse_ok r →
  match ImageResponse.Data r with
  | inner :: _ =>
      (images_main p).1 = Returned ∧
      Proc.stdout (images_main p).2 = Proc.stdout p ++ ImageResponseDataInner.URL inner ++ LF
  | [] =>
      (images_main p).1 = Panicked (index_out_of_range 0 0) ∧
      Proc.stdout (images_main p).2 = Proc.stdout p
  end.
Proof.
  intros c Hreq Ha Hr. unfold images_main. fold c. rewrite call_run.
  rewrite (CreateImage_answered c Background image_request req _ h r) by done.
  destruct r as [? [|inner l] ?]; simpl; by destruct h.
Qed.

(** ** examples/voice-to-text *)

(** Without an argument, or with the name of a file that does not exist,
    the program makes no call. *)
Theorem voice_main_guards p :
  (length (Proc.args p) < 2)%nat ∨ nth 1 (Proc.args p) "" ∉ Proc.files p →
  (voice_main p).1 = Returned ∧ Proc.world (voice_main p).2 = Proc.world p.
Proof.
  intros Hg. unfold voice_main. destruct (Nat.ltb_spec (length (Proc.args p)) 2); [done|].
  destruct Hg as [?|Hf]; [lia|]. unfold not_exist. by rewrite bool_decide_eq_true_2.
Qed.

(** ** examples/chatbot *)

Lemma Scan_length p text p' :
  Scan p = Some (text, p') → length (Proc.stdin p) = S (length (Proc.stdin p')).
Proof. unfold Scan. destruct p as [? ? ? [|l ls] ? ?]; simpl; [done|]. by intros [= <- <-]. Qed.

Lemma Scan_None p : Scan p = None → Proc.stdin p = [].
Proof. unfold Scan. by destruct (Proc.stdin p). Qed.

Lemma call_stdin {A} (m : ST World A) p : Proc.stdin (call m p).2 = Proc.stdin p.
Proof. by rewrite call_run. Qed.

(** The loop ends: it reads a line at every turn, and the number of the
    lines of the input is fuel enough. *)
Theorem chat_loop_fuel client (n : nat) req p :
  (length (Proc.stdin p) ≤ n)%nat →
  chat_loop client n req p = chat_loop client (length (Proc.stdin p)) req p.
Proof.
  revert req p. induction n as [|n IH]; intros req p Hn.
  - by replace (length (Proc.stdin p)) with 0 by lia.
  - destruct (Scan p) as [[text p1]|] eqn:E.
    + pose proof (Scan_length _ _ _ E) as Hl. rewrite Hl. cbn [chat_loop]. rewrite E.
      set (req1 := ChatCompletionRequest.mk _ _ _).
      pose proof (call_stdin (CreateChatCompletion client Background req1) p1) as Hc.
      destruct (call _ p1) as [[resp [e|]] p2]; cbn [snd] in Hc.
      * rewrite IH by (simpl; rewrite Hc; lia). simpl. by rewrite Hc.
      * destruct (ChatCompletionResponse.Choices resp) as [|choice l]; [done|].
        rewrite IH by (simpl; rewrite Hc; lia). simpl. by rewrite Hc.
    + apply Scan_None in E as E'. rewrite E'. simpl. by rewrite E.
Qed.

(** C36: A server that never answers with an empty list of choices: then the
    program reads every line of its input and returns. *)
Theorem chat_loop_returns client (n : nat) req p :
  (∀ req w resp, (CreateChatCompletion client Background req w).1 = (resp, None) →
                 ChatCompletionResponse.Choices resp ≠ []) →
  (length (Proc.stdin p) ≤ n)%nat →
  (chat_loop client n req p).1 = Returned ∧ Proc.stdin (chat_loop client n req p).2 = [].
Proof.
  intros Hserver. revert req p. induction n as [|n IH]; intros req p Hn.
  - split; [done|]. simpl. destruct (Proc.stdin p) as [|x l]; [done|]. by inversion Hn.
  - cbn [chat_loop]. destruct (Scan p) as [[text p1]|] eqn:E;
      [|split; [done|by apply Scan_None]].
    pose proof (Scan_length _ _ _ E) as Hl. set (req1 := ChatCompletionRequest.mk _ _ _).
    pose proof (call_stdin (CreateChatCompletion client Background req1) p1) as Hc.
    pose proof (Hserver req1 (Proc.world p1)) as Hs. rewrite call_run in Hc |- *.
    destruct (CreateChatCompletion client Background req1 (Proc.world p1))
      as [[resp [e|]] w]; cbn [fst snd] in *.
    + apply IH. simpl. lia.
    + destruct (ChatCompletionResponse.Choices resp) as [|choice l] eqn:Ec;
        [by destruct (Hs resp eq_refl)|].
      apply IH. simpl. lia.
Qed.

(** ** examples/completion-with-tool *)

(** When the first answer has one choice with one call of the function,
    the second request holds the question, that answer, and the reply to
    the call under the name and the identifier of the call. *)
Theorem tool_main_second_request p resp choice toolcall :
  let client := client_of "GITEEAI_API_KEY" p in
  let first := CreateChatCompletion client Background (tool_request [question])
                 (Proc.world p) in
  first.1 = (resp, None) → ChatCompletionResponse.Choices resp = [choice] →
  ChatCompletionMessage.ToolCalls (ChatCompletionChoice.Message choice) = [toolcall] →
  Proc.world (tool_main p).2 =
  (CreateChatCompletion client Background
     (tool_request [question; ChatCompletionChoice.Message choice; tool_reply toolcall])
     first.2).2.
Proof.
  intros client first H1 Hc Ht. unfold tool_main. fold client.
  rewrite !call_run. cbn [Proc.world Print]. fold first.
  rewrite H1. cbn [fst snd]. rewrite Hc, Ht. rewrite !call_run. cbn [Proc.world Print app].
  destruct (CreateChatCompletion client Background _ first.2) as [[resp2 [e|]] w2]; [done|].
  simpl. by destruct (ChatCompletionResponse.Choices resp2) as [|? [|? ?]].
Qed.

(** When the first call fails, or its answer has not exactly one choice,
    the program makes no second call. *)
Theorem tool_main_first_guard p :
  let first := CreateChatCompletion (client_of "GITEEAI_API_KEY" p) Background
                 (tool_request [question]) (Proc.world p) in
  first.1.2 ≠ None ∨ length (ChatCompletionResponse.Choices first.1.1) ≠ 1%nat →
  (tool_main p).1 = Returned ∧ Proc.world (tool_main p).2 = first.2.
Proof.
  intros first Hg. unfold tool_main. rewrite !call_run. cbn [Proc.world Print]. fold first.
  destruct first.1 as [resp [e|]] eqn:E; cbn [fst snd] in *; [done|].
  destruct (ChatCompletionResponse.Choices resp) as [|choice [|? ?]]; try done.
  destruct Hg as [?|?]; done.
Qed.
End Programs.

(** * Witnesses *)

Section ExampleWitnesses.
#[local] Existing Instances zero_floats zero_floats_ok.

(** The strings of the errors, for the witnesses. *)
Definition plain_Error (e : error) : string :=
  match e with
  | EOF => "EOF"
  | ErrExternal msg => msg
  | ErrAPI a => APIError.Message a
  | _ => "error"
  end.

(** A chat server that answers a first question with a call of the
    function, and a longer dialogue with a sentence; and an audio
    call that returns the name of the file. *)
Definition weather_call : ToolCall.t :=
  ToolCall.mk "call-1" (FunctionCall.mk "get_current_weather" "{'location':'Boston, MA'}").

Definition chat_server : Client → context → ChatCompletionRequest.t →
    ST World (ChatCompletionResponse.t * option error) :=
  λ _ _ req,
    let answer :=
      if decide (List.length (ChatCompletionRequest.Messages req) = 1%nat)
      then ChatCompletionMessage.mk "assistant" "" "" [weather_call] ""
      else message "assistant" "Sunny." in
    mret (ChatCompletionResponse.mk [ChatCompletionChoice.mk answer], None).

(** A chat server that has no answer. *)
Definition mute_server : Client → context → ChatCompletionRequest.t →
    ST World (ChatCompletionResponse.t * option error) :=
  λ _ _ req, mret (ChatCompletionResponse.mk [], None).

Definition audio_server : Client → context → AudioRequest.t →
    ST World (AudioResponse.t * option error) :=
  λ _ _ req, mret (AudioResponse.mk (AudioRequest.FilePath req), None).

Definition a_process (args stdin : list string) : Proc.t :=
  Proc.mk {["GITEEAI_API_KEY" := "dummy-token-giteeai"]} args ∅ stdin "" empty_world.

Definition completion_server : HTTPDoer :=
  always (reply_200 [Data (take 40 a_body); Data (drop 40 a_body)]).

Definition the_completion_request : Request.t :=
  match completionRequest (client_of completion_server "GITEEAI_API_KEY" (a_process [] []))
          Background completion_request with
  | Ok req => req
  | Fail _ => a_request
  end.

Lemma completion_main_answered_witness :
  (completion_main completion_server plain_Error (a_process [] [])).1 = Returned ∧
  Proc.stdout (completion_main completion_server plain_Error (a_process [] [])).2 =
    " dolor sit amet" ++ LF.
Proof.
  apply (completion_main_answered completion_server plain_Error only_zero (a_process [] [])
           the_completion_request (Header_Set "Content-Type" "application/json" ∅)
           a_response).
  - reflexivity.
  - eexists _, _, a_body, []. split_and!; reflexivity.
  - apply a_response_ok.
Defined.

(** A server that answers with no choice: the program panics. *)
Example completion_main_panics :
  (completion_main (always (reply_200 [Data (jq "{'id':'cmpl-1','choices':[]}")]))
     plain_Error (a_process [] [])).1 =
  Panicked "runtime error: index out of range [0] with length 0".
Proof. by vm_compute. Qed.

(** A server that refuses the key: the program prints the message of the
    error. *)
Example completion_main_refused :
  completion_main (always reply_401) plain_Error (a_process [] []) =
  (Returned,
   Proc.mk {["GITEEAI_API_KEY" := "dummy-token-giteeai"]} [] ∅ []
     ("Completion error: Incorrect API key provided" ++ LF)
     (mkWorld {[0 := Body.mk [] true]}
        [jsonRequest the_completion_request])).
Proof. by vm_compute. Qed.

Lemma completion_main_releases_witness :
  open_bodies (Proc.world (completion_main completion_server plain_Error (a_process [] [])).2)
  = open_bodies (Proc.world (a_process [] [])).
Proof.
  apply (completion_main_releases completion_server plain_Error (a_process [] [])), always_ok.
Defined.

Definition an_image : ImageResponse.t :=
  ImageResponse.mk 1700000000
    [ImageResponseDataInner.mk "https://ai.gitee.com/images/parrot.png" "" ""] zero.

Definition image_body : bytes :=
  jq "{'created':1700000000,'data':[{'url':'https://ai.gitee.com/images/parrot.png'}]}".

Definition image_server : HTTPDoer := always (reply_200 [Data image_body]).

Definition the_image_request : Request.t :=
  let c := client_of image_server "OPENAI_API_KEY" (a_process [] []) in
  match newRequest c Background "POST"
          (ClientConfig.BaseURL (config c) ++ "/images/generations")
          [withBody (BodyValue (marshal image_request))] with
  | Ok req => req
  | Fail _ => a_request
  end.

Lemma images_main_answered_witness :
  (images_main image_server plain_Error (a_process [] [])).1 = Returned ∧
  Proc.stdout (images_main image_server plain_Error (a_process [] [])).2 =
    "https://ai.gitee.com/images/parrot.png" ++ LF.
Proof.
  apply (images_main_answered image_server plain_Error (a_process [] []) the_image_request
           (Header_Set "Content-Type" "application/json" ∅) an_image).
  - reflexivity.
  - eexists _, _, image_body, []. split_and!; reflexivity.
  - repeat split; try done. repeat constructor.
Defined.

(** The encoder leaves the empty list of images out ([omitempty]), and the
    program panics on the answer that has none. *)
Example images_main_panics :
  (images_main (always (reply_200 [Data (jq "{'created':1700000000}")])) plain_Error
     (a_process [] [])).1 =
  Panicked "runtime error: index out of range [0] with length 0".
Proof. by vm_compute. Qed.

Example image_request_body :
  marshal image_request =
  Ok (jq "{'prompt':'Parrot on a skateboard performs a trick, cartoon style, natural light, high detail','n':1,'size':'256x256','response_format':'url'}").
Proof. by vm_compute. Qed.

Lemma voice_main_guards_witness :
  (voice_main image_server plain_Error audio_server (a_process ["main"; "speech.mp3"] [])).1
    = Returned ∧
  Proc.world (voice_main image_server plain_Error audio_server
                (a_process ["main"; "speech.mp3"] [])).2 = empty_world.
Proof.
  apply (voice_main_guards image_server plain_Error audio_server
           (a_process ["main"; "speech.mp3"] [])).
  right. set_solver.
Defined.

Example voice_main_output :
  Proc.stdout (voice_main image_server plain_Error audio_server
                 (a_process ["main"; "speech.mp3"] [])).2 =
  "file speech.mp3 does not exist" ++ LF.
Proof. by vm_compute. Qed.

Lemma chat_loop_fuel_witness :
  let c := client_of image_server "GITEEAI_API_KEY" (a_process [] ["Hi"; "Bye"]) in
  let req := ChatCompletionRequest.mk Qwen2_7B_Instruct [] [] in
  chat_loop plain_Error chat_server c 7 req (a_process [] ["Hi"; "Bye"]) =
  chat_loop plain_Error chat_server c 2 req (a_process [] ["Hi"; "Bye"]).
Proof.
  apply (chat_loop_fuel plain_Error chat_server
           (client_of image_server "GITEEAI_API_KEY" (a_process [] ["Hi"; "Bye"])) 7
           (ChatCompletionRequest.mk Qwen2_7B_Instruct [] []) (a_process [] ["Hi"; "Bye"])).
  simpl. lia.
Defined.

Lemma chat_loop_returns_witness :
  let c := client_of image_server "GITEEAI_API_KEY" (a_process [] ["Hi"; "Bye"]) in
  let req := ChatCompletionRequest.mk Qwen2_7B_Instruct [] [] in
  (chat_loop plain_Error chat_server c 2 req (a_process [] ["Hi"; "Bye"])).1 = Returned ∧
  Proc.stdin (chat_loop plain_Error chat_server c 2 req (a_process [] ["Hi"; "Bye"])).2 = [].
Proof.
  apply (chat_loop_returns plain_Error chat_server
           (client_of image_server "GITEEAI_API_KEY" (a_process [] ["Hi"; "Bye"])) 2
           (ChatCompletionRequest.mk Qwen2_7B_Instruct [] []) (a_process [] ["Hi"; "Bye"])).
  - intros req w resp [= <-]. done.
  - simpl. lia.
Defined.

(** The conversation of the program with a server that has answers, and
    with one that has none. *)
Example chatbot_main_output :
  chatbot_main image_server plain_Error chat_server (a_process [] ["Hi"; "Bye"]) =
  (Returned,
   Proc.mk {["GITEEAI_API_KEY" := "dummy-token-giteeai"]} [] ∅ []
     ("Conversation" ++ LF ++ "---------------------" ++ LF ++ "> Sunny." ++ LF ++ LF ++
      "> Sunny." ++ LF ++ LF ++ "> ") empty_world).
Proof. by vm_compute. Qed.

Example chatbot_main_panics :
  (chatbot_main image_server plain_Error mute_server (a_process [] ["Hi"; "Bye"])).1 =
  Panicked "runtime error: index out of range [0] with length 0".
Proof. by vm_compute. Qed.

Lemma tool_main_second_request_witness :
  Proc.world (tool_main image_server plain_Error chat_server (a_process [] [])).2 =
  (chat_server (client_of image_server "GITEEAI_API_KEY" (a_process [] [])) Background
     (tool_request
        [question; ChatCompletionMessage.mk "assistant" "" "" [weather_call] "";
         tool_reply weather_call])
     empty_world).2.
Proof.
  by apply (tool_main_second_request image_server plain_Error chat_server (a_process [] [])
              (ChatCompletionResponse.mk
                 [ChatCompletionChoice.mk
                    (ChatCompletionMessage.mk "assistant" "" "" [weather_call] "")])
              (ChatCompletionChoice.mk
                 (ChatCompletionMessage.mk "assistant" "" "" [weather_call] ""))
              weather_call).
Defined.

Lemma tool_main_first_guard_witness :
  (tool_main image_server plain_Error mute_server (a_process [] [])).1 = Returned ∧
  Proc.world (tool_main image_server plain_Error mute_server (a_process [] [])).2 =
  empty_world.
Proof.
  apply (tool_main_first_guard image_server plain_Error mute_server (a_process [] [])).
  right. simpl. lia.
Defined.

Example tool_main_output :
  Proc.stdout (tool_main image_server plain_Error chat_server (a_process [] [])).2 =
  "Asking GiteeAI 'What is the weather in Boston today?' and providing it a " ++
  "'get_current_weather()' function..." ++ LF ++
  "GiteeAI called us back wanting to invoke our function 'get_current_weather' " ++
  "with params '{'location':'Boston, MA'}'" ++ LF ++
  "Sending GiteeAI our 'get_current_weather()' function's response and requesting " ++
  "the reply to the original question..." ++ LF ++
  "GiteeAI answered the original request with: Sunny." ++ LF.
Proof. by vm_compute. Qed.
End ExampleWitnesses.
